(* ===== verification/_CoqProject ===== *)
-Q . S2P
Prelude.v
Threads.v
MessageQueue.v
QueueSync.v
Clock.v
Num.v
NumR.v
NumF.v
Loops.v
Pgn.v
Vec.v
Dense.v
Can.v
CanBus.v
Util.v
Polygon.v
Messages.v
WaypointManager.v
Ballast.v
Scamp.v
ScampThreads.v
Sbus.v
Simple.v
StateEstimator.v
Monitor.v
RigidWing.v
ProtoFile.v
LineCost.v
LineSearch.v
LinePlan.v
LineTacker.v
TackerThreads.v
Adaptive.v
SimPhysics.v
SimSaoud.v
SimNode.v
Server.v
Queue.v
Node.v
LogFile.v
Recorder.v
Csv.v
ActuatorBus.v
Boat.v
Devices.v
Wiring.v
Tools.v
UnitTests.v
