(* ===== verification/Prelude.v ===== *)
(** * The sailing robot's control software: verification library

    The program under src/ runs an autonomous sailing boat as a set of processes
    (nodes).  Each node has handlers, called when a message arrives, and an [Iterate]
    called periodically.  Nodes exchange protocol buffers through message queues in
    shared memory (src/ipc/); one of them bridges to the boat's CAN bus (src/can/),
    others read the radio receiver and the rigid wing, estimate the state, plan a path
    through waypoints, control heading, sails and ballast, and drive the actuators.  A
    simulator replaces the boat, a logger records every queue and a replay tool sends the
    log again, and a web server passes messages to a browser.

    ** How the code is modelled

    A node's members are a record; a handler is a function on it, with every assignment
    of the source as a setter in the source's order; messages sent are appended to a log
    in the record.  A run is a list of events, so a theorem about all lists holds for
    every interleaving of handlers and iterations; each event is atomic, as in the source
    where the handlers hold the node's mutex or assign single atomics.  An operation that
    can throw, fail a [CHECK] or access a vector out of range returns a [result]
    (below), and undefined behaviour is an error of that type.  Integers are [Z] with the
    wrap-around of their width written out ([wrapu], [wraps]).  Floating point is the
    class [Num] (Num.v): definitions are written once over it, run over IEEE binary64
    (NumF.v) and reasoned about over the reals (NumR.v); a theorem stated for any [Num]
    holds of the code as compiled, one stated over [R] ignores rounding and says "in exact
    arithmetic".  Linear algebra is the class [Eigen], and [Dense] for arrays of any
    length, with laws stating the documented values of the library's operations (Vec.v,
    Dense.v).  Components meet at interfaces: the serialising queue is proved against
    [ByteQueue] and [Wire] (Queue.v), with the ring in shared memory and the test queue as
    instances of the first; the programs of the boat are instances of [BoatNode] (Boat.v),
    whose guarantees the others rely on.  Where threads meet in shared memory the steps are
    smaller: what one thread does while it holds a mutex is a step of a relation, for the
    queue with its mutex and condition variable (QueueSync.v), the simulated clock (Clock.v,
    Loops.v), the table logger (Csv.v) and the recorder (Recorder.v).

    ** Files

    - Prelude: machine integers, [result], tactics, the hint database [boat], residues
      and list lemmas.
    - MessageQueue: src/ipc/message_queue.hpp, the ring in shared memory with one writer
      position and a position per reader.
    - QueueSync: the same file, used by several processes at once.
    - Clock: src/util/clock.cc and clock.h, the simulated clock with its sleeping threads,
      and the periodic loop of the nodes.
    - Loops: src/util/node.cc with clock.cc, nodes that run periodically in simulated time.
    - Num, NumR, NumF, Vec, Dense: arithmetic, vectors and arrays.
    - Pgn: src/can/pgn.h, pgn.cc and canboat-pgn.h, identifiers and the table of messages.
    - Can: src/can/can.cc and can.h with the reflection helpers of
      src/util/proto_util.cc, decoding and encoding of frames.
    - CanBus: two nodes of src/can/can.cc with the bus between them.
    - Util: src/control/util.cc and util.h, angles, rotations, quaternions, geodesy,
      clipping.
    - Polygon: src/math/polygon.cc, distances to convex polygons.
    - Messages: the protocol buffers of src/control/actuator_cmd.proto used by the nodes.
    - WaypointManager: src/control/waypoint_manager.cc, the challenges' state machines.
    - Ballast, Scamp, Simple: src/control/ballast.cc, scamp.cc and simple.cc, the
      controllers and the actuator node.
    - Sbus: src/sensor/read-sbus.cc, the radio's frames.
    - StateEstimator: src/sensor/state_estimator.cc.
    - Monitor: src/management/monitor.cc.
    - RigidWing: src/rigid_wing/rigid_wing.cc, the text protocol of the wing.
    - ProtoFile: the files of src/util/proto_util.cc, and the constants file of the actuator
      node between two runs.
    - LineCost, LineSearch, LinePlan: src/control/line_plan.cc, the planner's costs and
      optimisation, its totality, and the node around it.
    - LineTacker: src/control/line_tacking.cc, the older tacker with its two modes.
    - Adaptive: src/control/adaptive.cc, the adaptive controller and its force model.
    - SimPhysics, SimSaoud: src/sim/sim_physics.cc and sim_physics.h, the simple and the
      detailed model of the boat.
    - SimNode: src/sim/sim_inter.cc, fake_airmar.cc and fake_internal_sensors.cc, the
      simulator's node and the sensors it plays.
    - Server: src/ui/server.cc, the web server's requests and answers.
    - Queue: src/ipc/queue.cc, queue.hpp and test_queue.cc, the queues by name and the
      queue of protocol buffers.
    - Node: src/util/node.cc and node.h, the loops that run handlers and iterations.
    - LogFile: src/util/logger.cc, log-replay.cc and log_deprecation.cc, the log file, its
      replay and the conversion of old messages.
    - Recorder: the logger's threads reading the queues, and the replay of what they wrote.
    - Csv: src/sim/csv_logging.cc, the tables of a run, with the nodes of
      src/util/log-replay-main.cc and logsim_main.cc.
    - ActuatorBus: the radio, the actuator node and the CAN node composed.
    - Boat: the eight programs that run on the boat, composed.
    - Devices: the parts of src/sensor/read-sbus.cc, src/can/can.cc and
      src/rigid_wing/rigid_wing.cc that open the serial port and the sockets.
    - Wiring: src/util/msg.proto and the constructors of the nodes, which queues there are
      and which types they carry.
    - Tools: the tables of src/sim/basic_sim_main.cc and of the replay programs, the nodes of
      src/util/ping.cc, pong.cc and src/can/can-ping.cc, and the fixture of
      src/util/testing.cc.
    - UnitTests: the repository's own tests of functions on numbers (line_plan_test.cc,
      line_tacking_test.cc and util_test.cc under src/control/, src/math/polygon_test.cc,
      src/can/can_test.cc, src/util/proto_util_test.cc), evaluated on the definitions above.

    ** What the theorems show

    - Message queue: sends implement a bounded log of the last messages; a reader that
      keeps up receives every message once and in order; the result of a poll for every
      lag; waiting receives; size errors; opening, creating and removing; the layout of the
      segment.  Through the interface, protocol buffers arrive as they were sent and in
      order.  Used concurrently, every run of the queue is a sequence of whole sends and
      receives, and a receiver that waits is woken by the next send.
    - Clock: for every interleaving, simulated time stops at every deadline, sleepers
      return exactly then, the clock does not get stuck, a shutdown releases every sleeper,
      and a node iterates exactly at the multiples of its period.
    - CAN: the byte-wise extraction of a field is the sign-extended bit slice of the data;
      encoding and extraction are inverse; a message that one node sends is published by
      another to within the resolution of each field, and not sent back; no frame makes the node leave its buffers while
      packet indices are in range; identifiers and PGNs survive the wire.
    - Geometry: angle normalisation, Euler angles, distances to lines and polygons,
      clipping, the local frame of the planner.
    - Control: for all message sequences, disabled actuators are neutral, commands and
      integrators stay within their limits, station keeping and obstacle avoidance last
      as long as they should, the monitor reports a lost wing.
    - The boat: whatever arrives from outside, in any order, no program of the boat fails,
      and what reaches the actuators keeps to their ranges, down to the bytes on the bus; a
      disabled actuator is neutral there, and the radio's channels arrive there.
    - Planner: the search is total and keeps its limits, derivatives used for gradient
      descent are derivatives, turn costs and gates are as specified, waypoints advance
      in order, and the node never fails; where the code does not do what it means to, a
      theorem states what it does.
    - Tacker and adaptive controller: no message list makes the tacker leave its arrays,
      its headings keep off the wind, the reward search returns the best heading; the
      adaptive controller keeps its parameters and state within their bounds and its
      search returns the cheapest of the commands it tries.
    - Simulator: water forces dissipate energy, lift does no work, the state stays well
      formed, and what the fake sensors send is read back as the simulated state by the
      state estimator.
    - Web server and log: a request is split at the values of its grammar and always
      ends; what was sent on the queues is what a replay of its log sends, in order; the
      files of the simulator and of the replay programs are the tables of the latest values
      for every interleaving of their threads.
    - Set-up: the queues that the nodes open exist and their types agree; the devices are
      opened with the right settings or not at all; where a test leaves the simulated clock
      in a state that stops the next test, a theorem shows it.  Constants written to a file
      are those of the next run, unless a longer text was in the file before.
    - Tests: the definitions meet the expectations of the repository's tests; where they do
      not, the code does not either, and a lemma gives the result.

    ** Bounds and fuel

    The loop over the bits of a CAN field takes fuel from the field's length; its theorem
    shows that the fuel is enough.  The loops of the planner are bounded in the source
    (fifty iterations, seven points per leg).  The search for the next trigger of a loop
    takes fuel; its theorem gives enough of it.  The walks over a request, a log file and
    the path of a field take fuel from the length of their input, and their theorems show
    that they end.  The wait for the CAN interface consumes the answers of the system, and
    its theorem covers every number of them.  All other recursion is structural.  Sizes are bounded where
    the source's types bound them: the capacity of a queue by [size_type], lists of waypoints by [int].

    ** Not modelled

    Weak memory (a step of the concurrent models is what happens under one mutex), signals
    and priorities, the sleeping of a replay, the entry points that only construct a node and
    run it, the browser's code, scripts and third-party code.  Of the unit tests, those of the
    whole search of the planner, which takes too long to evaluate in the kernel, the simulated
    runs, which assert nothing, and those of queues and clocks, which need processes and real
    time, are not in UnitTests.  Reads and
    writes of files, sockets and serial lines are arguments and results, the encoding of
    protocol buffers is the parameter [Wire] and their reflection the class [Reflection], the
    random generator and the text of a number in a table are parameters.
    The mathematical library is a parameter ([Libm] in NumF.v). *)

From Stdlib Require Import ZArith Lia.
From stdpp Require Import base list gmap.

Open Scope Z_scope.

(** ** Machine integers *)

(** The value of an unsigned [w]-bit object after storing [z] in it. *)
Definition wrapu (w z : Z) : Z := z mod 2 ^ w.

(** The value of a two's complement [w]-bit object after storing [z] in it. *)
Definition wraps (w z : Z) : Z := (z + 2 ^ (w - 1)) mod 2 ^ w - 2 ^ (w - 1).

(** Range tests for the integer types the sources use. *)
Definition in_s (w z : Z) : bool := (- 2 ^ (w - 1) <=? z) && (z <? 2 ^ (w - 1)).
Definition in_u (w z : Z) : bool := (0 <=? z) && (z <? 2 ^ w).

(** ** Errors

    [Err] is an exception, a failed [CHECK]/[LOG(FATAL)], or an operation the
    language leaves undefined; each component has its own type of errors. *)
Inductive result (E A : Type) : Type :=
| Ok (a : A)
| Err (e : E).
Arguments Ok {E A} _.
Arguments Err {E A} _.

Definition rbind {E A B : Type} (m : result E A) (k : A -> result E B) : result E B :=
  match m with
  | Ok a => k a
  | Err e => Err e
  end.

(** A loop whose body can fail. *)
Fixpoint rfold {E A B : Type} (f : A -> B -> result E A) (l : list B) (a : A) : result E A :=
  match l with
  | [] => Ok a
  | b :: l => rbind (f a b) (rfold f l)
  end.

Definition of_option {E A : Type} (e : E) (o : option A) : result E A :=
  match o with
  | Some a => Ok a
  | None => Err e
  end.

Declare Scope result_scope.
Delimit Scope result_scope with result.
Notation "'let*' x ':=' m 'in' k" := (rbind m (fun x => k))
  (at level 10, x pattern, m at level 100, k at level 200) : result_scope.

(** ** Hint database and tactics of the development *)

Create HintDb boat discriminated.

(** Case analysis on the first boolean test in the goal, with its Prop. *)
Ltac case_test :=
  match goal with
  | |- context [Z.eqb ?a ?b] => destruct (Z.eqb_spec a b)
  | |- context [Z.ltb ?a ?b] => destruct (Z.ltb_spec a b)
  | |- context [Z.leb ?a ?b] => destruct (Z.leb_spec a b)
  | |- context [Z.gtb ?a ?b] => rewrite (Z.gtb_ltb a b)
  | |- context [Z.geb ?a ?b] => rewrite (Z.geb_leb a b)
  end.

(** [Forall] of linear facts over a concrete list. *)
Ltac forall_lia :=
  repeat (apply Forall_cons_2; [simpl; first [exact I | lia] |]); apply Forall_nil_2.

(** ** Lemmas on results *)

(** An invariant with which the body of a loop does not fail. *)
Lemma rfold_ok {E A B : Type} (P : A -> Prop) (f : A -> B -> result E A) (l : list B) (a : A) :
  P a -> (forall a b, In b l -> P a -> exists a', f a b = Ok a' /\ P a') ->
  exists a', rfold f l a = Ok a' /\ P a'.
Proof.
  revert a. induction l as [|b l IH]; intros a Ha Hf; [now exists a|]. cbn [rfold].
  destruct (Hf a b) as (a' & -> & Ha'); [now left|assumption|]. cbn [rbind]. apply IH; [assumption|].
  intros a1 b1 Hb. apply Hf. now right.
Qed.

(** The steps of a run of fallible operations that succeeded. *)
Ltac inv_binds H :=
  repeat match type of H with
  | rbind ?m _ = Ok _ => let E := fresh "E" in destruct m eqn:E; cbn [rbind] in H; [|discriminate H]
  | (let '(_, _) := ?p in _) = Ok _ => destruct p
  | (if ?b then _ else _) = Ok _ => let E := fresh "E" in destruct b eqn:E; try discriminate H
  end.

(** ** Lemmas on machine integers *)

Lemma wrapu_small w z : 0 <= z < 2 ^ w -> wrapu w z = z.
Proof. unfold wrapu. apply Z.mod_small. Qed.

Lemma wrapu_range w z : 0 <= w -> 0 <= wrapu w z < 2 ^ w.
Proof. intros Hw. apply Z.mod_pos_bound, Z.pow_pos_nonneg; lia. Qed.

Lemma wraps_small w z : - 2 ^ (w - 1) <= z < 2 ^ (w - 1) -> 1 <= w -> wraps w z = z.
Proof.
  intros Hz Hw. unfold wraps.
  assert (2 ^ w = 2 * 2 ^ (w - 1)).
  { rewrite <- Z.pow_succ_r by lia. f_equal. lia. }
  rewrite Z.mod_small; lia.
Qed.

(** ** Lemmas on residues *)

(** Two integers of one residue class whose distance is below the modulus are equal. *)
Lemma mod_eq_window (m a b : Z) :
  0 < m -> a mod m = b mod m -> Z.abs (a - b) < m -> a = b.
Proof.
  intros Hm Heq Hd.
  pose proof (Z.div_mod a m ltac:(lia)).
  pose proof (Z.div_mod b m ltac:(lia)).
  assert (a / m = b / m) by nia. nia.
Qed.

(** The predecessor of a residue, going down from [0] to [m - 1]. *)
Lemma mod_pred (m a : Z) :
  0 < m -> (a - 1) mod m = if a mod m =? 0 then m - 1 else a mod m - 1.
Proof.
  intros Hm. pose proof (Z.mod_pos_bound a m Hm).
  pose proof (Z.div_mod a m ltac:(lia)).
  case_test; symmetry.
  - apply Z.mod_unique with (a / m - 1); [left; lia | nia].
  - apply Z.mod_unique with (a / m); [left; lia | lia].
Qed.

Lemma mod_sub_self (m a : Z) : 0 < m -> (a - m) mod m = a mod m.
Proof. intros Hm. rewrite <- (Z_mod_plus_full (a - m) 1 m). f_equal. lia. Qed.

(** ** Congruence modulo a word size

    [eqm w] relates the integers with one [w]-bit representation; sums and
    products are rewritten under it. *)

Definition eqm (w a b : Z) : Prop := a mod 2 ^ w = b mod 2 ^ w.

#[global] Instance eqm_equiv w : Equivalence (eqm w).
Proof. split; unfold eqm; congruence. Qed.

#[global] Instance eqm_add w : Proper (eqm w ==> eqm w ==> eqm w) Z.add.
Proof. intros a a' Ha b b' Hb. unfold eqm in *. rewrite Zplus_mod, Ha, Hb, <- Zplus_mod. done. Qed.

#[global] Instance eqm_mul w : Proper (eqm w ==> eqm w ==> eqm w) Z.mul.
Proof. intros a a' Ha b b' Hb. unfold eqm in *. rewrite Zmult_mod, Ha, Hb, <- Zmult_mod. done. Qed.

Lemma wrapu_eqm w z : eqm w (wrapu w z) z.
Proof. unfold eqm, wrapu. apply Zmod_mod. Qed.

Lemma wraps_eqm w z : eqm w (wraps w z) z.
Proof.
  unfold eqm, wraps. rewrite Zminus_mod, Zmod_mod, <- Zminus_mod. f_equal. lia.
Qed.

#[global] Instance wraps_proper w : Proper (eqm w ==> eq) (wraps w).
Proof.
  intros a b H. unfold wraps. f_equal.
  change (eqm w (a + 2 ^ (w - 1)) (b + 2 ^ (w - 1))). by rewrite H.
Qed.

Lemma wraps_wraps w z : wraps w (wraps w z) = wraps w z.
Proof. apply wraps_proper, wraps_eqm. Qed.

Lemma pow2_pos n : 0 <= n -> 0 < 2 ^ n.
Proof. intros. apply Z.pow_pos_nonneg; lia. Qed.

(** A [w]-bit value read as signed. *)
Lemma wraps_of_unsigned w z :
  1 <= w -> 0 <= z < 2 ^ w -> wraps w z = if z <? 2 ^ (w - 1) then z else z - 2 ^ w.
Proof.
  intros Hw Hz. unfold wraps.
  assert (2 ^ w = 2 * 2 ^ (w - 1)) by (rewrite <- Z.pow_succ_r by lia; f_equal; lia).
  case_test.
  - rewrite Z.mod_small; lia.
  - replace (z + 2 ^ (w - 1)) with (z - 2 ^ (w - 1) + 1 * 2 ^ w) by lia.
    rewrite Z_mod_plus_full, Z.mod_small; lia.
Qed.
#[export] Hint Resolve pow2_pos : boat.
