(* ===== verification/Threads.v ===== *)
(** * Handlers that run in threads of their own

    src/util/node.h starts a thread for the handler of every queue besides the loop of the node,
    and most nodes share their members between these threads without a lock.  Here the body of a
    handler or of an iteration is a [thread]: a sequence of actions on the members, each of them
    one load or store of an atomic member or one operation on a message object, between any two
    of which the other threads may run.  Besides what holds of a body run alone, the file has a
    rely-guarantee logic for what holds of all interleavings: the invariant of the members, what
    each thread knows of them between its actions, and what it does to them. *)

From stdpp Require Import base list relations.
From S2P Require Import Prelude.

(** ** Bodies *)

Section Bodies.
Context {S E : Type}.

(** An action on the members, and what follows, from the members before the action. *)
Inductive thread :=
| Done
| Act (f : S -> result E S) (k : S -> thread).

Definition load {A : Type} (get : S -> A) (k : A -> thread) : thread := Act Ok (λ s, k (get s)).
Definition store (set : S -> S) (k : thread) : thread := Act (λ s, Ok (set s)) (λ _, k).
(** A load that can fail, or a failure that depends on what was loaded before. *)
Definition attempt {A : Type} (get : S -> result E A) (k : A -> thread) : thread :=
  Act (λ s, rbind (get s) (λ _, Ok s)) (λ s, match get s with Ok a => k a | Err _ => Done end).

(** The body without interference. *)
Fixpoint run_alone (t : thread) (s : S) : result E S :=
  match t with
  | Done => Ok s
  | Act f k => match f s with Ok s' => run_alone (k s) s' | Err e => Err e end
  end.

Lemma alone_load {A} (get : S -> A) k s : run_alone (load get k) s = run_alone (k (get s)) s.
Proof. done. Qed.
Lemma alone_store set k s : run_alone (store set k) s = run_alone k (set s).
Proof. done. Qed.
Lemma alone_attempt {A} (get : S -> result E A) k s :
  run_alone (attempt get k) s = rbind (get s) (λ a, run_alone (k a) s).
Proof. cbn. by destruct (get s). Qed.
End Bodies.
Arguments thread : clear implicits.

(** ** Interleavings *)

Section Interleavings.
Context {T S E : Type} {TD : EqDecision T}.

Record conf := MkConf { c_state : S; c_threads : T -> thread S E }.

Definition set_thread (i : T) (t : thread S E) (ts : T -> thread S E) : T -> thread S E :=
  λ j, if decide (i = j) then t else ts j.

Definition idle (s : S) : conf := MkConf s (λ _, Done).

(** The bodies that a thread may run next, and which threads are assumed not to overlap. *)
Variables (body : T -> thread S E -> Prop) (excl : T -> T -> Prop).

Inductive conf_step (c : conf) : conf -> Prop :=
| conf_start i t : c_threads c i = Done -> body i t -> (∀ j, excl i j -> c_threads c j = Done) ->
    conf_step c (MkConf (c_state c) (set_thread i t (c_threads c)))
| conf_act i f k s : c_threads c i = Act f k -> f (c_state c) = Ok s ->
    conf_step c (MkConf s (set_thread i (k (c_state c)) (c_threads c))).

(** The next action of a thread fails. *)
Definition conf_fails (c : conf) : Prop := ∃ i f k e, c_threads c i = Act f k ∧ f (c_state c) = Err e.

Definition next_error (c : conf) (i : T) : option E :=
  match c_threads c i with
  | Act f _ => match f (c_state c) with Err e => Some e | Ok _ => None end
  | Done => None
  end.

Lemma next_error_fails c i e : next_error c i = Some e -> conf_fails c.
Proof.
  unfold next_error. destruct (c_threads c i) as [|f k] eqn:Ei; [done|]. destruct (f (c_state c)) eqn:Ef; [done|].
  intros _. by eexists i, f, k, _.
Qed.

Lemma set_thread_eq i t ts : set_thread i t ts i = t.
Proof. unfold set_thread. by destruct (decide (i = i)). Qed.
Lemma set_thread_ne i j t ts : i ≠ j -> set_thread i t ts j = ts j.
Proof. intros H. unfold set_thread. by destruct (decide (i = j)). Qed.

(** The first [n] actions of a body without interference. *)
Fixpoint advance (n : nat) (t : thread S E) (s : S) : option (thread S E * S) :=
  match n, t with
  | O, _ => Some (t, s)
  | Datatypes.S n, Act f k => match f s with Ok s' => advance n (k s) s' | Err _ => None end
  | Datatypes.S _, Done => None
  end.

Lemma advance_steps n i : ∀ c t s,
  advance n (c_threads c i) (c_state c) = Some (t, s) ->
  ∃ c', rtc conf_step c c' ∧ c_state c' = s ∧ c_threads c' i = t ∧ ∀ j, i ≠ j -> c_threads c' j = c_threads c j.
Proof.
  induction n as [|n IH]; intros c t s; cbn [advance]; [intros [= <- <-]; by exists c|].
  destruct (c_threads c i) as [|f k] eqn:Ei; [done|]. destruct (f (c_state c)) as [s1|] eqn:Ef; [|done]. intros Ha.
  destruct (IH (MkConf s1 (set_thread i (k (c_state c)) (c_threads c))) t s) as (c' & Hc & Es & Et & Ho).
  { cbn. by rewrite set_thread_eq. }
  exists c'. split_and!; [|done|done|].
  - eapply rtc_l; [by eapply conf_act|done].
  - intros j Hj. rewrite Ho by done. cbn. by rewrite set_thread_ne.
Qed.

(** A body started and run for [n] actions while the others rest. *)
Lemma start_advance n i b c t s :
  c_threads c i = Done -> body i b -> (∀ j, excl i j -> c_threads c j = Done) -> advance n b (c_state c) = Some (t, s) ->
  ∃ c', rtc conf_step c c' ∧ c_state c' = s ∧ c_threads c' i = t ∧ ∀ j, i ≠ j -> c_threads c' j = c_threads c j.
Proof.
  intros Hi Hb Hx Ha. destruct (advance_steps n i (MkConf (c_state c) (set_thread i b (c_threads c))) t s) as (c' & Hc & Es & Et & Ho).
  { cbn. by rewrite set_thread_eq. }
  exists c'. split_and!; [|done|done|].
  - eapply rtc_l; [by apply conf_start|done].
  - intros j Hj. rewrite Ho by done. cbn. by rewrite set_thread_ne.
Qed.

(** *** Schedules, to run an interleaving *)

Inductive turn := Start (i : T) (t : thread S E) | Next (i : T).

Definition take_turn (c : conf) (t : turn) : option conf :=
  match t with
  | Start i t => match c_threads c i with Done => Some (MkConf (c_state c) (set_thread i t (c_threads c))) | _ => None end
  | Next i =>
      match c_threads c i with
      | Act f k => match f (c_state c) with Ok s => Some (MkConf s (set_thread i (k (c_state c)) (c_threads c))) | Err _ => None end
      | Done => None
      end
  end.
Fixpoint run_turns (c : conf) (l : list turn) : option conf :=
  match l with
  | [] => Some c
  | t :: l => match take_turn c t with Some c => run_turns c l | None => None end
  end.

Definition turn_ok (t : turn) : Prop := match t with Start i b => body i b | Next _ => True end.

Lemma run_turns_steps l : ∀ c c',
  (∀ i j, ¬ excl i j) -> Forall turn_ok l -> run_turns c l = Some c' -> rtc conf_step c c'.
Proof.
  induction l as [|t l IH]; intros c c' Hx Hb; cbn [run_turns]; [intros [= ->]; constructor|].
  inversion Hb as [|? ? Ht Hl]; subst.
  destruct (take_turn c t) as [c1|] eqn:Et; [|done]. intros H. eapply rtc_l.
  2:{ by eapply IH. }
  destruct t as [i b|i]; cbn [take_turn] in Et; destruct (c_threads c i) as [|f k] eqn:Ei; try done.
  - injection Et as <-. apply conf_start; [done|done|]. intros j Hj. by destruct (Hx i j).
  - destruct (f (c_state c)) as [s|] eqn:Ef; [|done]. injection Et as <-. by eapply conf_act.
Qed.

Lemma run_turns_fails l c i e :
  (∀ i j, ¬ excl i j) -> Forall turn_ok l ->
  match run_turns c l with Some c => next_error c i | None => None end = Some e ->
  ∃ c', rtc conf_step c c' ∧ next_error c' i = Some e ∧ conf_fails c'.
Proof.
  intros Hx Hb. destruct (run_turns c l) as [c'|] eqn:El; [|done]. intros He. exists c'.
  split; [by apply (run_turns_steps l)|]. split; [done|by eapply next_error_fails].
Qed.

(** ** Rely and guarantee *)

(** [I] is the invariant of the members. *)
Variable I : S -> Prop.

Definition stable (R : S -> S -> Prop) (P : S -> Prop) : Prop := ∀ s s', I s -> I s' -> R s s' -> P s -> P s'.

(** A body that knows [P] before its next action, relies on [R] of what the other threads do in
    between, does what [G] says, and knows [Post] at its end. *)
Inductive rg (R G : S -> S -> Prop) (Post : S -> Prop) : (S -> Prop) -> thread S E -> Prop :=
| rg_done (P : S -> Prop) : (∀ s, I s -> P s -> Post s) -> rg R G Post P Done
| rg_act (P : S -> Prop) (Q : S -> S -> Prop) (f : S -> result E S) (k : S -> thread S E) :
    (∀ s, I s -> P s -> ∃ s', f s = Ok s' ∧ I s' ∧ G s s' ∧ Q s s') ->
    (∀ s, I s -> P s -> stable R (Q s)) ->
    (∀ s, I s -> P s -> rg R G Post (Q s) (k s)) ->
    rg R G Post P (Act f k).

Lemma rg_weaken R G Post (P P' : S -> Prop) t : (∀ s, I s -> P' s -> P s) -> rg R G Post P t -> rg R G Post P' t.
Proof.
  intros H Ht. inversion Ht as [? Hd|? Q f k Hf Hs Hn]; subst.
  - constructor. auto.
  - apply (rg_act _ _ _ _ Q); auto.
Qed.

Section Rules.
Context {R G : S -> S -> Prop} {Post P : S -> Prop}.

Lemma rg_load {A : Type} (Q : A -> S -> Prop) (get : S -> A) k :
  (∀ s, I s -> P s -> G s s ∧ Q (get s) s) -> (∀ a, stable R (Q a)) ->
  (∀ s, I s -> P s -> rg R G Post (Q (get s)) (k (get s))) ->
  rg R G Post P (load get k).
Proof.
  intros H HQ Hk. apply (rg_act _ _ _ _ (λ s, Q (get s))); auto. intros s HI HP. exists s. split_and!; [done|done|apply H..]; done.
Qed.

Lemma rg_store (Q : S -> Prop) set k :
  (∀ s, I s -> P s -> I (set s) ∧ G s (set s) ∧ Q (set s)) -> stable R Q -> rg R G Post Q k ->
  rg R G Post P (store set k).
Proof.
  intros H HQ Hk. apply (rg_act _ _ _ _ (λ _, Q)); auto. intros s HI HP. exists (set s). split; [done|]. by apply H.
Qed.

Lemma rg_attempt {A : Type} (Q : A -> S -> Prop) (get : S -> result E A) k :
  (∀ s, I s -> P s -> G s s ∧ ∃ a, get s = Ok a ∧ Q a s) -> (∀ a, stable R (Q a)) ->
  (∀ s a, I s -> P s -> get s = Ok a -> rg R G Post (Q a) (k a)) ->
  rg R G Post P (attempt get k).
Proof.
  intros H HQ Hk. apply (rg_act _ _ _ _ (λ s s', ∃ a, get s = Ok a ∧ Q a s')).
  - intros s HI HP. destruct (H s HI HP) as (? & a & E1 & ?). exists s. cbn. rewrite E1. cbn. eauto 10.
  - intros s HI HP s1 s2 H1 H2 Hr (a & E1 & Ha). exists a. split; [done|]. by apply (HQ a s1 s2).
  - intros s HI HP. destruct (H s HI HP) as (_ & a & E1 & _). rewrite E1. pose proof (Hk s a HI HP E1) as Hka.
    apply (rg_weaken R G Post (Q a)); [|done]. by intros s1 H1 (a' & [= <-] & Ha').
Qed.
End Rules.

Context {XD : RelDecision excl}.

(** What the threads rely on is guaranteed by those they overlap with.  What a thread knows
    between two bodies is kept by the threads it overlaps with and given back by the others. *)
Variables (R G : T -> S -> S -> Prop) (Idle : T -> S -> Prop).

Record compatible : Prop := {
  co_body i t : body i t -> rg (R i) (G i) (Idle i) (Idle i) t;
  co_rely i j s s' : i ≠ j -> ¬ excl i j -> I s -> I s' -> G i s s' -> R j s s';
  co_own i : stable (R i) (Idle i);
  co_idle i j : i ≠ j -> ¬ excl i j -> stable (G i) (Idle j);
  co_hand i j s : excl i j -> I s -> Idle i s -> Idle j s;
  co_excl i j : excl i j -> excl j i ∧ i ≠ j;
}.

Definition thread_ok (i : T) (s : S) (t : thread S E) : Prop :=
  match t with
  | Done => Idle i s
  | Act _ _ => ∃ P, stable (R i) P ∧ P s ∧ rg (R i) (G i) (Idle i) P t
  end.

Record conf_ok (c : conf) : Prop := {
  ok_state : I (c_state c);
  ok_threads i : (c_threads c i = Done -> ∀ j, excl i j -> c_threads c j = Done) ->
    thread_ok i (c_state c) (c_threads c i);
  ok_excl i j : excl i j -> c_threads c i = Done ∨ c_threads c j = Done;
}.

(** A body that knows a stable [P] is one that runs as it should. *)
Lemma rg_thread_ok i s t P : I s -> stable (R i) P -> P s -> rg (R i) (G i) (Idle i) P t -> thread_ok i s t.
Proof. intros HI HP Hs Ht. destruct t as [|f k]; cbn; [|by exists P]. inversion Ht; subst. auto. Qed.

(** An action does what its thread guarantees. *)
Lemma act_ok c i f k :
  conf_ok c -> c_threads c i = Act f k ->
  ∃ s', f (c_state c) = Ok s' ∧ I s' ∧ G i (c_state c) s' ∧ thread_ok i s' (k (c_state c)).
Proof.
  intros [HI Ht Hx] Hi. pose proof (Ht i) as Hti. rewrite Hi in Hti. destruct Hti as (P & HP & Hs & Hrg); [done|].
  inversion Hrg as [|? Q ? ? Hf Hst Hn]; subst. destruct (Hf _ HI Hs) as (s' & E1 & HI' & HG & HQ).
  exists s'. split_and!; try done. eapply rg_thread_ok; [done|by apply (Hst (c_state c))|exact HQ|by apply Hn].
Qed.

(** Excluded threads stay so when thread [i] changes and those it excludes are idle. *)
Lemma excl_set c i t :
  compatible -> (∀ j l, excl j l -> c_threads c j = Done ∨ c_threads c l = Done) ->
  (∀ j, excl i j -> c_threads c j = Done) ->
  ∀ j l, excl j l -> set_thread i t (c_threads c) j = Done ∨ set_thread i t (c_threads c) l = Done.
Proof.
  intros Hco Hx He j l Hjl. destruct (co_excl Hco j l Hjl) as [Hlj Hne].
  destruct (decide (i = j)) as [<-|Hij]; [right; rewrite set_thread_ne by done; by apply He|].
  destruct (decide (i = l)) as [<-|Hil]; [left; rewrite set_thread_ne by done; by apply He|].
  rewrite !set_thread_ne by done. by apply Hx.
Qed.

Lemma conf_start_ok c i t :
  compatible -> conf_ok c -> c_threads c i = Done -> body i t -> (∀ j, excl i j -> c_threads c j = Done) ->
  conf_ok (MkConf (c_state c) (set_thread i t (c_threads c))).
Proof.
  intros Hco [HI Ht Hx] Hi Hb He. constructor; cbn; [done| |by apply excl_set].
  intros j Hj. destruct (decide (i = j)) as [<-|Hne].
  - rewrite set_thread_eq in *. specialize (Ht i). rewrite Hi in Ht.
    eapply rg_thread_ok; [done|by apply co_own|by apply Ht|by apply co_body].
  - rewrite set_thread_ne in * by done. apply Ht. intros Ej l Hl. specialize (Hj Ej l Hl).
    destruct (decide (i = l)) as [<-|Hil]; [done|by rewrite set_thread_ne in Hj].
Qed.

(** What an idle thread knows after an action of another thread. *)
Lemma idle_after c i f k s j :
  compatible -> conf_ok c -> c_threads c i = Act f k -> i ≠ j -> c_threads c j = Done ->
  I s -> G i (c_state c) s -> thread_ok i s (k (c_state c)) ->
  (∀ l, excl j l -> set_thread i (k (c_state c)) (c_threads c) l = Done) -> Idle j s.
Proof.
  intros Hco [HI Ht Hx] Hi Hne Ej HIs HG Hti Hj.
  destruct (decide (excl j i)) as [Hji|Hji].
  - specialize (Hj i Hji). rewrite set_thread_eq in Hj. rewrite Hj in Hti. cbn in Hti.
    apply (co_hand Hco i j); [by apply (co_excl Hco)|done|done].
  - apply (co_idle Hco i j Hne) with (c_state c); try done.
    { intros Hij. by destruct Hji; apply (co_excl Hco). }
    specialize (Ht j). rewrite Ej in Ht. apply Ht. intros _ l Hl. specialize (Hj l Hl).
    destruct (decide (i = l)) as [<-|Hil]; [done|by rewrite set_thread_ne in Hj].
Qed.

Lemma conf_act_ok c i f k s :
  compatible -> conf_ok c -> c_threads c i = Act f k -> f (c_state c) = Ok s ->
  conf_ok (MkConf s (set_thread i (k (c_state c)) (c_threads c))).
Proof.
  intros Hco Hc Hi Hf. destruct (act_ok c i f k Hc Hi) as (s' & Ef & HI' & HG & Hti). rewrite Hf in Ef. injection Ef as <-.
  pose proof Hc as [HI Ht Hx]. constructor; cbn; [done| |].
  - intros j Hj. destruct (decide (i = j)) as [<-|Hne]; [by rewrite set_thread_eq|rewrite set_thread_ne in * by done].
    pose proof (Ht j) as Htj. destruct (c_threads c j) as [|fj kj] eqn:Ej; cbn in *.
    + apply (idle_after c i f k s j); try done. by apply Hj.
    + destruct Htj as (P & HP & Hs & Hrg); [done|]. exists P. split_and!; [done| |done].
      apply (HP (c_state c) s); [done..| |done]. apply (co_rely Hco i j); try done. intros Hij.
      destruct (Hx i j Hij) as [E1|E1]; [by rewrite Hi in E1|by rewrite Ej in E1].
  - apply excl_set; [done|done|]. intros j Hij. destruct (Hx i j Hij) as [E1|E1]; [by rewrite Hi in E1|done].
Qed.

Lemma conf_step_ok c c' : compatible -> conf_ok c -> conf_step c c' -> conf_ok c'.
Proof. intros Hco Hc [i t Hi Hb He|i f k s Hi Hf]; [by apply conf_start_ok|by eapply conf_act_ok]. Qed.

(** The threads of a node that is started in [s] never fail, keep the invariant, and do what they
    guarantee. *)
Lemma rg_step c c' :
  compatible -> conf_ok c -> conf_step c c' -> c_state c' = c_state c ∨ ∃ i, G i (c_state c) (c_state c').
Proof.
  intros Hco Hc [i t Hi Hb He|i f k s Hi Hf]; [by left|right]. exists i.
  destruct (act_ok c i f k Hc Hi) as (s' & Ef & _ & HG & _). rewrite Hf in Ef. by injection Ef as <-.
Qed.

Lemma rg_sound s c :
  compatible -> I s -> (∀ i, Idle i s) -> rtc conf_step (idle s) c ->
  conf_ok c ∧ ¬ conf_fails c.
Proof.
  intros Hco HI Hi Hr. assert (conf_ok c) as Hc.
  { revert Hr. apply (rtc_ind_r (R := conf_step) conf_ok (idle s)).
    - constructor; cbn; auto.
    - intros y z _ Hyz Hy. by eapply conf_step_ok. }
  split; [done|]. intros (i & f & k & e & Ei & Ef). destruct (act_ok c i f k Hc Ei) as (s' & E1 & _). by rewrite Ef in E1.
Qed.
End Interleavings.
Arguments conf : clear implicits.
Arguments turn : clear implicits.

(** Nothing is assumed not to overlap. *)
Definition no_excl {T : Type} (i j : T) : Prop := False.
#[export] Instance no_excl_dec {T : Type} : RelDecision (@no_excl T).
Proof. intros i j. right. by intros []. Defined.
