(* ===== verification/MessageQueue.v ===== *)
(** * The shared-memory message queue (src/ipc/message_queue.hpp)

    A ring of preallocated message buffers in shared memory: the header
    [mq_hdr] ([mq_hdr_t]), the send path, and the receive path with its three
    blocking modes.  Writers overwrite the oldest message when the ring is
    full and every reader keeps its own position [m_cur_msg], so the queue is a
    broadcast log of which the last [m_max_num_msg] messages survive. *)

From Stdlib Require Import ZArith Lia.
From Stdlib Require Import Strings.Byte.
From stdpp Require Import base list gmap.
From S2P Require Import Prelude.

Open Scope Z_scope.

(** The platform: width of [size_type], sizes and alignments of the three
    shared-memory structures, and Boost's [get_rounded_size] together with the
    offset its [managed_open_or_create_impl] reserves. *)
Class Platform := {
  size_bits : Z;
  sizeof_mq_hdr : Z;
  sizeof_msg_hdr_ptr : Z;
  sizeof_msg_header : Z;
  msg_hdr_align : Z;
  index_align : Z;
  get_rounded_size : Z -> Z -> Z;
  ManagedOpenOrCreateUserOffset : Z;
}.

(** What the code relies on: positive sizes, and rounding up to a multiple. *)
Class PlatformOk (P : Platform) : Prop := {
  size_bits_pos : 1 <= size_bits;
  sizeof_mq_hdr_pos : 0 < sizeof_mq_hdr;
  sizeof_msg_hdr_ptr_pos : 0 < sizeof_msg_hdr_ptr;
  sizeof_msg_header_pos : 0 < sizeof_msg_header;
  msg_hdr_align_pos : 0 < msg_hdr_align;
  index_align_pos : 0 < index_align;
  user_offset_nonneg : 0 <= ManagedOpenOrCreateUserOffset;
  rounded_ge n a : 0 <= n -> 0 < a -> n <= get_rounded_size n a;
  rounded_div n a : 0 <= n -> 0 < a -> (a | get_rounded_size n a);
}.

Section MessageQueue.
Context {P : Platform}.

Definition size_t (z : Z) : Z := wrapu size_bits z.

(** ** Data *)

(** [msg_hdr_t]: the message length, and the buffer that follows the header. *)
Record msg_hdr := MkMsg { len : Z; data : list byte }.

(** [mq_hdr_t] with the memory its index points into; an address is the offset
    from the header. *)
Record mq_hdr := MkHdr {
  mp_index : list Z;
  m_max_num_msg : Z;
  m_max_msg_size : Z;
  m_cur_num_msg : Z;
  m_cur_first_msg : Z;
  mem : gmap Z msg_hdr;
}.

Inductive mq_error :=
| size_error    (* interprocess_exception(size_error) *)
| bad_access.   (* an index outside the ring or an address outside its memory *)

(** ** The header's operations *)

Definition is_full (h : mq_hdr) : bool := m_cur_num_msg h =? m_max_num_msg h.

Definition is_empty (h : mq_hdr) : bool := m_cur_num_msg h =? 0.

Definition free_top_msg (h : mq_hdr) : mq_hdr :=
  MkHdr (mp_index h) (m_max_num_msg h) (m_max_msg_size h)
    (size_t (m_cur_num_msg h - 1)) (m_cur_first_msg h) (mem h).

Definition end_pos (h : mq_hdr) : Z :=
  let space_until_bufend := size_t (m_max_num_msg h - m_cur_first_msg h) in
  if space_until_bufend >? m_cur_num_msg h
  then size_t (m_cur_first_msg h + m_cur_num_msg h)
  else size_t (m_cur_num_msg h - space_until_bufend).

Definition end_index (h : mq_hdr) : Z :=
  if end_pos h =? 0 then size_t (m_max_num_msg h - 1) else size_t (end_pos h - 1).

(** The message header an index entry points to. *)
Definition msg_at (h : mq_hdr) (i : Z) : option msg_hdr :=
  mp_index h !! Z.to_nat i ≫= λ addr, mem h !! addr.

Definition top_msg (h : mq_hdr) : option msg_hdr := msg_at h (end_index h).

Definition bottom_msg (h : mq_hdr) : option msg_hdr := msg_at h (m_cur_first_msg h).

(** [insert_at_begin]: the header after the call and the address returned. *)
Definition insert_at_begin (h : mq_hdr) : mq_hdr * option Z :=
  let first := if m_cur_first_msg h =? 0 then m_max_num_msg h else m_cur_first_msg h in
  let first := size_t (first - 1) in
  let h' := MkHdr (mp_index h) (m_max_num_msg h) (m_max_msg_size h)
              (size_t (m_cur_num_msg h + 1)) first (mem h) in
  (h', mp_index h !! Z.to_nat first).

Definition queue_free_msg (h : mq_hdr) : mq_hdr * option Z := insert_at_begin h.

(** *** Layout of the shared memory *)

(** All sizes are of type [size_type] and wrap around; [get_rounded_size] is the rounding up
    to a multiple, whose result is a [size_type] again. *)
Definition r_hdr_size : Z := get_rounded_size sizeof_mq_hdr index_align.

Definition r_index_size (max_num_msg : Z) : Z :=
  size_t (get_rounded_size (size_t (max_num_msg * sizeof_msg_hdr_ptr)) msg_hdr_align).

Definition r_max_msg_size (max_msg_size : Z) : Z :=
  size_t (size_t (get_rounded_size max_msg_size msg_hdr_align) + sizeof_msg_header).

Definition get_mem_size (max_msg_size max_num_msg : Z) : Z :=
  size_t (r_hdr_size + r_index_size max_num_msg
          + size_t (max_num_msg * r_max_msg_size max_msg_size)
          + ManagedOpenOrCreateUserOffset).

(** The loop of [initialize_memory]: [n] entries from address [msg_hdr] on; an address beyond
    the address space wraps around. *)
Fixpoint init_index (n : nat) (msg_hdr step : Z) : list Z :=
  match n with
  | O => []
  | S n => msg_hdr :: init_index n (size_t (msg_hdr + step)) step
  end.

(** The constructor of [mq_hdr_t]; fresh shared memory is zero-filled. *)
Definition mq_hdr_init (max_num_msg max_msg_size : Z) : mq_hdr :=
  let index := init_index (Z.to_nat max_num_msg)
                 (size_t (r_hdr_size + r_index_size max_num_msg))
                 (r_max_msg_size max_msg_size) in
  let blank := MkMsg 0 (replicate (Z.to_nat max_msg_size) x00) in
  MkHdr index max_num_msg max_msg_size 0 0
    (list_to_map ((λ a, (a, blank)) <$> index)).

(** ** Sending *)

Definition memcpy (dst src : list byte) (n : Z) : list byte :=
  take (Z.to_nat n) src ++ drop (Z.to_nat n) dst.

Open Scope result_scope.

(** [do_send]: the critical section under [m_mutex]. *)
Definition do_send (h : mq_hdr) (buffer : list byte) (buffer_size : Z)
  : result mq_error mq_hdr :=
  if buffer_size >? m_max_msg_size h then Err size_error
  else
    let h := if is_full h then free_top_msg h else h in
    let '(h, free_msg_hdr) := queue_free_msg h in
    let* addr := of_option bad_access free_msg_hdr in
    let* m := of_option bad_access (mem h !! addr) in
    let m' := MkMsg buffer_size (memcpy (data m) buffer buffer_size) in
    Ok (MkHdr (mp_index h) (m_max_num_msg h) (m_max_msg_size h)
          (m_cur_num_msg h) (m_cur_first_msg h) (<[addr := m']> (mem h))).

(** ** Receiving *)

Inductive block_t := blocking | timed | non_blocking.

(** What ends a wait on [m_cond_recv]: a notification, after which the mutex is
    held again and the header is the one other processes left, or the timeout. *)
Inductive wake :=
| notified (h : mq_hdr)
| timed_out.

Inductive received :=
| recv_true (recvd_size : Z) (buffer : list byte)
| recv_false
| recv_blocked.   (* still waiting after all the wake-ups given *)

(** The two [do ... while (is_empty())] loops.  [inl] is the header and
    position on exit, [inr] a return from inside the loop. *)
Fixpoint wait_loop (b : block_t) (m_cur_msg : Z) (ws : list wake)
  : (mq_hdr * Z) + (received * Z) :=
  match ws with
  | [] => inr (recv_blocked, m_cur_msg)
  | timed_out :: ws =>
      match b with
      | timed => inr (recv_false, m_cur_msg)
      | _ => wait_loop b m_cur_msg ws
      end
  | notified h :: ws =>
      let m_cur_msg := size_t (m_cur_first_msg h + 1) in
      if is_empty h then wait_loop b m_cur_msg ws else inl (h, m_cur_msg)
  end.

(** The code after the blocking logic: step the position down, bring it back
    into the live part of the ring, copy the message out. *)
Definition take_msg (h : mq_hdr) (m_cur_msg : Z) : result mq_error (received * Z) :=
  let cur := if m_cur_msg =? 0 then size_t (m_max_num_msg h - 1) else size_t (m_cur_msg - 1) in
  let cur :=
    if end_index h >=? m_cur_first_msg h then
      if (cur >? end_index h) || (cur <? m_cur_first_msg h) then end_index h else cur
    else
      if (cur >? end_index h) && (cur <? m_cur_first_msg h) then end_index h else cur in
  let* m := of_option bad_access (msg_at h cur) in
  Ok (recv_true (len m) (take (Z.to_nat (len m)) (data m)), cur).

(** [do_receive] with the header found when the mutex is first taken and the
    wake-ups that follow; also returns the reader's new [m_cur_msg]. *)
Definition do_receive (block : block_t) (h : mq_hdr) (m_cur_msg : Z)
    (ws : list wake) (buffer_size : Z) : result mq_error (received * Z) :=
  if buffer_size <? m_max_msg_size h then Err size_error
  else if is_empty h || (m_cur_msg =? m_cur_first_msg h) then
    match block with
    | non_blocking => Ok (recv_false, m_cur_msg)
    | _ =>
        match wait_loop block m_cur_msg ws with
        | inl (h', cur) => take_msg h' cur
        | inr r => Ok r
        end
    end
  else take_msg h m_cur_msg.

Definition receive (h : mq_hdr) (m_cur_msg : Z) (ws : list wake) (buffer_size : Z) :=
  do_receive blocking h m_cur_msg ws buffer_size.

Definition try_receive (h : mq_hdr) (m_cur_msg buffer_size : Z) :=
  do_receive non_blocking h m_cur_msg [] buffer_size.

(** [abs_time = None] is [pos_infin]. *)
Definition timed_receive (h : mq_hdr) (m_cur_msg : Z) (ws : list wake)
    (buffer_size : Z) (abs_time : option Z) :=
  match abs_time with
  | None => receive h m_cur_msg ws buffer_size
  | Some _ => do_receive timed h m_cur_msg ws buffer_size
  end.

Definition get_max_msg (h : option mq_hdr) : Z := from_option m_max_num_msg 0 h.
Definition get_max_msg_size (h : option mq_hdr) : Z := from_option m_max_msg_size 0 h.
Definition get_num_msg (h : option mq_hdr) : Z := from_option m_cur_num_msg 0 h.
End MessageQueue.

(** ** Abstract view: a broadcast log

    The abstract state of a queue is the list of all messages ever sent, oldest
    first; a reader is abstracted by how many of them it has consumed. *)

Section Spec.
Context {P : Platform}.

(** The index of the ring that holds message number [k] (from 0). *)
Definition slot (n k : Z) : Z := (- (k + 1)) mod n.

(** The position of a reader that consumed the first [r] messages. *)
Definition position (n r : Z) : Z := (- r) mod n.

Definition payload (m : msg_hdr) : list byte := take (Z.to_nat (len m)) (data m).

(** The ring [h] holds the end of the log [sent]. *)
Record represents (h : mq_hdr) (sent : list (list byte)) : Prop := Represents {
  rep_max : 0 < m_max_num_msg h < 2 ^ size_bits;
  rep_size : 0 <= m_max_msg_size h;
  rep_index : length (mp_index h) = Z.to_nat (m_max_num_msg h);
  rep_nodup : NoDup (mp_index h);
  rep_mem : ∀ a, a ∈ mp_index h → ∃ m, mem h !! a = Some m
              ∧ length (data m) = Z.to_nat (m_max_msg_size h);
  rep_first : m_cur_first_msg h = position (m_max_num_msg h) (Z.of_nat (length sent));
  rep_num : m_cur_num_msg h = Z.min (Z.of_nat (length sent)) (m_max_num_msg h);
  rep_live : ∀ (k : nat) m, sent !! k = Some m →
     Z.of_nat (length sent) - m_max_num_msg h <= Z.of_nat k →
     ∃ x, msg_at h (slot (m_max_num_msg h) (Z.of_nat k)) = Some x
        ∧ payload x = m ∧ len x = Z.of_nat (length m);
}.

(** The messages of the ring, newest first: [m_cur_num_msg] entries from
    [m_cur_first_msg] on, circularly. *)
Definition contents (h : mq_hdr) : list (option (list byte)) :=
  (λ i, payload <$> msg_at h ((m_cur_first_msg h + Z.of_nat i) mod m_max_num_msg h))
    <$> seq 0 (Z.to_nat (m_cur_num_msg h)).

(** The bytes of a queue's segment, as a number without bound, and queues whose segment
    [size_type] can address. *)
Definition layout_size (max_msg_size max_num_msg : Z) : Z :=
  r_hdr_size + get_rounded_size (max_num_msg * sizeof_msg_hdr_ptr) msg_hdr_align
  + max_num_msg * (get_rounded_size max_msg_size msg_hdr_align + sizeof_msg_header)
  + ManagedOpenOrCreateUserOffset.
Definition layout_fits (max_num_msg max_msg_size : Z) : Prop :=
  0 < max_num_msg ∧ 0 <= max_msg_size ∧ layout_size max_msg_size max_num_msg < 2 ^ size_bits.

(** A run of one writer and one polling reader. *)
Inductive op := op_send (buffer : list byte) | op_try_receive.

(** The queue, the reader's position, and what the reader has received. *)
Record run_state := MkRun { run_h : mq_hdr; run_cur : Z; run_got : list (list byte) }.

Definition run_op (buffer_size : Z) (s : run_state) (o : op) : result mq_error run_state :=
  (match o with
   | op_send b =>
       let* h := do_send (run_h s) b (Z.of_nat (length b)) in
       Ok (MkRun h (run_cur s) (run_got s))
   | op_try_receive =>
       let* (r, cur) := try_receive (run_h s) (run_cur s) buffer_size in
       Ok (MkRun (run_h s) cur
             (match r with recv_true _ b => run_got s ++ [b] | _ => run_got s end))
   end)%result.

Fixpoint run_ops (buffer_size : Z) (s : run_state) (os : list op) : result mq_error run_state :=
  match os with
  | [] => Ok s
  | o :: os => (let* s := run_op buffer_size s o in run_ops buffer_size s os)%result
  end.

(** The specification of the reader: an unbounded FIFO.  [pending] are the
    messages sent and not yet received. *)
Fixpoint fifo (pending got : list (list byte)) (os : list op) : list (list byte) :=
  match os with
  | [] => got
  | op_send b :: os => fifo (pending ++ [b]) got os
  | op_try_receive :: os =>
      match pending with
      | [] => fifo [] got os
      | b :: pending => fifo pending (got ++ [b]) os
      end
  end.

(** Every message of a run fits the queue's buffers. *)
Definition fits (max_msg_size : Z) (o : op) : Prop :=
  match o with op_send b => Z.of_nat (length b) <= max_msg_size | op_try_receive => True end.

(** Sending a list of buffers in order. *)
Fixpoint send_all (h : mq_hdr) (bs : list (list byte)) : result mq_error mq_hdr :=
  match bs with
  | [] => Ok h
  | b :: bs => (let* h := do_send h b (Z.of_nat (length b)) in send_all h bs)%result
  end.

(** Along the run no more than [n - 1] messages are ever unread: [lag] is the
    number of unread messages at the start. *)
Fixpoint keeps_up (n lag : Z) (os : list op) : bool :=
  match os with
  | [] => true
  | op_send _ :: os => (lag + 1 <? n) && keeps_up n (lag + 1) os
  | op_try_receive :: os => keeps_up n (Z.max 0 (lag - 1)) os
  end.
End Spec.

(** ** Arithmetic of the ring *)

Lemma slot_range n k : 0 < n -> 0 <= slot n k < n.
Proof. intros. unfold slot. by apply Z.mod_pos_bound. Qed.

Lemma position_range n r : 0 < n -> 0 <= position n r < n.
Proof. intros. unfold position. by apply Z.mod_pos_bound. Qed.

Lemma position_succ n k : position n (k + 1) = slot n k.
Proof. reflexivity. Qed.

Lemma slot_pred n r :
  0 < n -> slot n r = if position n r =? 0 then n - 1 else position n r - 1.
Proof.
  intros Hn. unfold slot, position. rewrite <- mod_pred by done. f_equal. lia.
Qed.

Lemma position_low n r : 0 < r <= n -> position n r = n - r.
Proof.
  intros Hr. unfold position. symmetry. apply Z.mod_unique with (-1); lia.
Qed.

(** Slots of two messages of one window differ. *)
Lemma slot_inj n j k :
  0 < n -> slot n j = slot n k -> Z.abs (j - k) < n -> j = k.
Proof.
  intros Hn He Hd.
  apply (mod_eq_window n (- (j + 1)) (- (k + 1))) in He; lia.
Qed.

(** A reader position equals another one exactly when the lag is a multiple of
    the capacity. *)
Lemma position_eq n r s :
  0 < n -> position n r = position n s <-> (s - r) mod n = 0.
Proof.
  intros Hn. unfold position. split.
  - intros He. rewrite <- (Z.mod_0_l n) by lia.
    replace (s - r) with (- r - - s) by lia.
    rewrite Zminus_mod, He, Z.sub_diag. done.
  - intros He. apply Z.mod_divide in He as [q Hq]; [|lia].
    replace (- r) with (- s + q * n) by lia. apply Z_mod_plus_full.
Qed.

(** The message a lagging reader is directed to. *)
Lemma slot_lag n r t : 0 < n -> slot n (t - (t - r) mod n) = slot n r.
Proof.
  intros Hn. unfold slot.
  pose proof (Z.div_mod (t - r) n ltac:(lia)).
  replace (- (t - (t - r) mod n + 1)) with (- (r + 1) + (- ((t - r) / n)) * n) by nia.
  apply Z_mod_plus_full.
Qed.

(** ** Correctness *)

Section Theory.
Context {P : Platform} {POk : PlatformOk P}.

Lemma size_t_small z : 0 <= z < 2 ^ size_bits -> size_t z = z.
Proof. apply wrapu_small. Qed.

(** Where the live part of the ring ends. *)
Lemma end_pos_spec h sent :
  represents h sent -> sent <> [] ->
  end_pos h = if Z.of_nat (length sent) <? m_max_num_msg h then 0
              else position (m_max_num_msg h) (Z.of_nat (length sent)).
Proof.
  intros [] Hne.
  assert (0 < Z.of_nat (length sent)) by (destruct sent; [done | simpl; lia]).
  pose proof (position_range (m_max_num_msg h) (Z.of_nat (length sent)) ltac:(lia)).
  unfold end_pos. rewrite rep_first0, rep_num0, Z.gtb_ltb.
  rewrite (size_t_small (m_max_num_msg h - _)) by lia.
  destruct (Z.ltb_spec (Z.of_nat (length sent)) (m_max_num_msg h)) as [Hlt|Hge].
  - rewrite position_low, Z.min_l by lia. case_test; [lia|].
    rewrite size_t_small; lia.
  - rewrite Z.min_r by lia. case_test; [lia|]. rewrite size_t_small; lia.
Qed.

Lemma end_index_spec h sent :
  represents h sent -> sent <> [] ->
  end_index h = if Z.of_nat (length sent) <? m_max_num_msg h then m_max_num_msg h - 1
                else slot (m_max_num_msg h) (Z.of_nat (length sent)).
Proof.
  intros Hrep Hne. pose proof Hrep as [? _ _ _ _ _ _ _].
  unfold end_index. rewrite (end_pos_spec _ _ Hrep Hne), slot_pred by lia.
  pose proof (position_range (m_max_num_msg h) (Z.of_nat (length sent)) ltac:(lia)).
  destruct (Z.ltb_spec (Z.of_nat (length sent)) (m_max_num_msg h)); simpl.
  - apply size_t_small; lia.
  - case_test; apply size_t_small; lia.
Qed.

(** Reading from the position of a reader that is not level with the writer. *)
Lemma take_msg_spec h sent (k : nat) m cur :
  represents h sent -> sent !! k = Some m ->
  Z.of_nat (length sent) - m_max_num_msg h <= Z.of_nat k ->
  (if cur =? 0 then size_t (m_max_num_msg h - 1) else size_t (cur - 1))
    = slot (m_max_num_msg h) (Z.of_nat k) ->
  take_msg h cur
    = Ok (recv_true (Z.of_nat (length m)) m, slot (m_max_num_msg h) (Z.of_nat k)).
Proof.
  intros Hrep Hk Hwin Hcur.
  pose proof (lookup_lt_Some _ _ _ Hk) as Hlt.
  assert (Hne : sent <> []) by (destruct sent; done).
  destruct Hrep as [Hmax ? ? ? ? Hfirst ? Hlive] eqn:E. clear E.
  unfold take_msg. rewrite Hcur. rewrite (end_index_spec h sent) by done.
  destruct (Hlive k m Hk Hwin) as (x & Hx & Hp & Hl).
  pose proof (slot_range (m_max_num_msg h) (Z.of_nat k) ltac:(lia)).
  set (c := slot (m_max_num_msg h) (Z.of_nat k)) in *.
  match goal with |- context [msg_at h ?e] => replace e with c end.
  { rewrite Hx. simpl. unfold payload in Hp. by rewrite Hp, Hl. }
  rewrite Hfirst. clear Hx Hlive Hfirst.
  destruct (Z.ltb_spec (Z.of_nat (length sent)) (m_max_num_msg h)) as [Hsmall|Hbig].
  - rewrite position_low by lia.
    assert (c = m_max_num_msg h - (Z.of_nat k + 1))
      by (unfold c; rewrite <- position_succ; apply position_low; lia).
    rewrite !Z.gtb_ltb, !Z.geb_leb. repeat (case_test; simpl; try lia).
  - rewrite slot_pred by lia.
    pose proof (position_range (m_max_num_msg h) (Z.of_nat (length sent)) ltac:(lia)).
    repeat (case_test; simpl; try lia).
Qed.

(** The step of a reader in the steady state. *)
Lemma do_receive_lag b h sent r ws buffer_size :
  represents h sent -> m_max_msg_size h <= buffer_size ->
  0 <= r <= Z.of_nat (length sent) ->
  (Z.of_nat (length sent) - r) mod m_max_num_msg h <> 0 ->
  ∃ (k : nat) m, sent !! k = Some m
    ∧ Z.of_nat k = Z.of_nat (length sent) - (Z.of_nat (length sent) - r) mod m_max_num_msg h
    ∧ do_receive b h (position (m_max_num_msg h) r) ws buffer_size
      = Ok (recv_true (Z.of_nat (length m)) m, position (m_max_num_msg h) (Z.of_nat k + 1)).
Proof.
  intros Hrep Hbuf Hr Hlag. pose proof Hrep as [Hmax ? ? ? ? Hfirst Hnum ?].
  set (n := m_max_num_msg h) in *. set (t := Z.of_nat (length sent)) in *.
  pose proof (Z.mod_pos_bound (t - r) n ltac:(lia)).
  pose proof (Z.mod_le (t - r) n ltac:(lia) ltac:(lia)).
  assert (Hk : is_Some (sent !! Z.to_nat (t - (t - r) mod n)))
    by (apply lookup_lt_is_Some; lia).
  destruct Hk as [m Hm]. exists (Z.to_nat (t - (t - r) mod n)), m.
  split_and!; [done | lia |].
  unfold do_receive. destruct (Z.ltb_spec buffer_size (m_max_msg_size h)); [lia|].
  assert (is_empty h = false) as -> by (unfold is_empty; rewrite Hnum; case_test; lia).
  destruct (Z.eqb_spec (position n r) (m_cur_first_msg h)) as [He|_].
  { exfalso. rewrite Hfirst in He. apply position_eq in He; lia. }
  simpl. rewrite position_succ. apply (take_msg_spec _ sent); [done..| fold n t; lia |].
  fold n. rewrite Z2Nat.id by lia. rewrite slot_lag by lia. rewrite slot_pred by lia.
  pose proof (position_range n r ltac:(lia)).
  case_test; apply size_t_small; lia.
Qed.

(** A reader that is level with the writer modulo the capacity sees nothing. *)
Lemma do_receive_level h sent r buffer_size :
  represents h sent -> m_max_msg_size h <= buffer_size ->
  (Z.of_nat (length sent) - r) mod m_max_num_msg h = 0 ->
  do_receive non_blocking h (position (m_max_num_msg h) r) [] buffer_size
    = Ok (recv_false, position (m_max_num_msg h) r).
Proof.
  intros Hrep Hbuf Hlag. pose proof Hrep as [Hmax ? ? ? ? Hfirst ? ?].
  unfold do_receive. destruct (Z.ltb_spec buffer_size (m_max_msg_size h)); [lia|].
  rewrite Hfirst. apply position_eq in Hlag as ->; [|lia].
  by rewrite Z.eqb_refl, orb_true_r.
Qed.

(** *** Sending *)

Lemma memcpy_length dst src n :
  0 <= n -> (Z.to_nat n <= length src)%nat -> (Z.to_nat n <= length dst)%nat ->
  length (memcpy dst src n) = length dst.
Proof. intros. unfold memcpy. rewrite length_app, length_take, length_drop. lia. Qed.

Lemma take_memcpy dst src n :
  (Z.to_nat n <= length src)%nat ->
  take (Z.to_nat n) (memcpy dst src n) = take (Z.to_nat n) src.
Proof. intros. unfold memcpy. apply take_app_length'. rewrite length_take. lia. Qed.

(** Distinct entries of the index point to distinct buffers. *)
Lemma msg_at_insert h i a x j n sz num first :
  NoDup (mp_index h) -> mp_index h !! Z.to_nat i = Some a ->
  0 <= i -> 0 <= j ->
  msg_at (MkHdr (mp_index h) n sz num first (<[a := x]> (mem h))) j
  = if i =? j then Some x else msg_at h j.
Proof.
  intros Hnd Hi Hi0 Hj0. unfold msg_at. simpl. case_test; subst.
  - rewrite Hi. simpl. apply lookup_insert_eq.
  - destruct (mp_index h !! Z.to_nat j) as [b|] eqn:Hj; [|done]. simpl.
    apply lookup_insert_ne. intros ->.
    pose proof (NoDup_lookup _ _ _ _ Hnd Hi Hj). lia.
Qed.

(** The slot [insert_at_begin] picks and the counters it leaves. *)
Lemma insert_at_begin_spec h sent :
  represents h sent ->
  let h1 := if is_full h then free_top_msg h else h in
  let t := Z.of_nat (length sent) in
  ∃ addr, mp_index h !! Z.to_nat (slot (m_max_num_msg h) t) = Some addr
  ∧ insert_at_begin h1
    = (MkHdr (mp_index h) (m_max_num_msg h) (m_max_msg_size h)
         (Z.min (t + 1) (m_max_num_msg h)) (slot (m_max_num_msg h) t) (mem h), Some addr).
Proof.
  intros [Hmax ? Hidx ? ? Hfirst Hnum ?]. intros h1 t.
  pose proof (slot_range (m_max_num_msg h) t ltac:(lia)) as Hs.
  destruct (lookup_lt_is_Some_2 (mp_index h) (Z.to_nat (slot (m_max_num_msg h) t)))
    as [addr Ha]; [lia|].
  exists addr. split; [done|].
  assert (Hf : size_t ((if m_cur_first_msg h =? 0 then m_max_num_msg h else m_cur_first_msg h) - 1)
               = slot (m_max_num_msg h) t).
  { rewrite Hfirst. rewrite slot_pred by lia. fold t.
    pose proof (position_range (m_max_num_msg h) t ltac:(lia)).
    case_test; apply size_t_small; lia. }
  assert (Hn : size_t (m_cur_num_msg h1 + 1) = Z.min (t + 1) (m_max_num_msg h)).
  { subst h1. unfold is_full. rewrite Hnum. fold t.
    destruct (Z.eqb_spec (Z.min t (m_max_num_msg h)) (m_max_num_msg h)); simpl.
    - rewrite Hnum. fold t. rewrite (size_t_small (_ - 1)), size_t_small; lia.
    - rewrite Hnum. fold t. rewrite size_t_small; lia. }
  assert (m_cur_first_msg h1 = m_cur_first_msg h ∧ mp_index h1 = mp_index h
          ∧ m_max_num_msg h1 = m_max_num_msg h ∧ m_max_msg_size h1 = m_max_msg_size h
          ∧ mem h1 = mem h) as (E1 & E2 & E3 & E4 & E5)
    by (subst h1; destruct (is_full h); done).
  unfold insert_at_begin. by rewrite Hn, E1, E2, E3, E4, E5, Hf, Ha.
Qed.

Lemma do_send_spec h sent buffer size :
  represents h sent -> 0 <= size <= m_max_msg_size h ->
  (Z.to_nat size <= length buffer)%nat ->
  ∃ h', do_send h buffer size = Ok h'
    ∧ represents h' (sent ++ [take (Z.to_nat size) buffer])
    ∧ m_max_num_msg h' = m_max_num_msg h ∧ m_max_msg_size h' = m_max_msg_size h.
Proof.
  intros Hrep Hsz Hbuf. pose proof Hrep as [Hmax ? Hidx Hnd Hmem Hfirst Hnum Hlive].
  destruct (insert_at_begin_spec _ _ Hrep) as (addr & Ha & Hins).
  unfold do_send. rewrite Z.gtb_ltb.
  destruct (Z.ltb_spec (m_max_msg_size h) size); [lia|].
  unfold queue_free_msg. rewrite Hins. simpl.
  destruct (Hmem addr) as (x & Hx & Hxl); [by eapply list_elem_of_lookup_2|].
  rewrite Hx. simpl. eexists. split_and!; [done| |done..].
  set (t := Z.of_nat (length sent)) in *. set (n := m_max_num_msg h) in *.
  pose proof (slot_range n t ltac:(lia)).
  split; simpl; fold n; rewrite ?length_app; simpl; try done.
  - intros a Hin. destruct (decide (a = addr)) as [->|Hne].
    + rewrite lookup_insert_eq. eexists. split; [done|]. simpl.
      rewrite memcpy_length; lia.
    + rewrite lookup_insert_ne by done. by apply Hmem.
  - rewrite Nat2Z.inj_add. simpl. by rewrite position_succ.
  - rewrite Nat2Z.inj_add. done.
  - rewrite Nat2Z.inj_add. fold t. intros k m Hk Hwin.
    pose proof (slot_range n (Z.of_nat k) ltac:(lia)).
    rewrite (msg_at_insert h (slot n t)) by (done || lia).
    apply lookup_app_Some in Hk as [Hk|[Hge Hk]].
    + pose proof (lookup_lt_Some _ _ _ Hk).
      destruct (Z.eqb_spec (slot n t) (slot n (Z.of_nat k))) as [He|_].
      * apply slot_inj in He; lia.
      * apply Hlive; [done | lia].
    + apply list_lookup_singleton_Some in Hk as [Hk0 <-].
      assert (Z.of_nat k = t) as -> by lia. rewrite Z.eqb_refl.
      eexists. split_and!; [done| |].
      * unfold payload. simpl. apply take_memcpy; lia.
      * simpl. rewrite length_take. lia.
Qed.

(** *** The fresh queue *)

Lemma length_init_index n b step : length (init_index n b step) = n.
Proof. revert b. induction n; intros; simpl; auto. Qed.

Lemma init_index_lookup n b step i :
  0 <= b -> 0 <= step -> b + Z.of_nat n * step < 2 ^ size_bits ->
  (i < n)%nat -> init_index n b step !! i = Some (b + Z.of_nat i * step).
Proof.
  revert b i. induction n as [|n IH]; intros b i Hb Hs Hfit Hi; [lia|].
  destruct i as [|i]; simpl; [f_equal; lia|].
  rewrite size_t_small by nia. rewrite IH by lia. f_equal. lia.
Qed.

(** What the [size_type] computations give when the layout fits. *)
Lemma layout_values num size :
  layout_fits num size ->
  num < 2 ^ size_bits
  ∧ num * sizeof_msg_hdr_ptr <= r_index_size num
  ∧ size + sizeof_msg_header <= r_max_msg_size size
  ∧ size_t (r_hdr_size + r_index_size num) = r_hdr_size + r_index_size num
  ∧ sizeof_mq_hdr <= r_hdr_size
  ∧ get_mem_size size num
    = r_hdr_size + r_index_size num + num * r_max_msg_size size + ManagedOpenOrCreateUserOffset
  ∧ get_mem_size size num < 2 ^ size_bits ∧ get_mem_size size num = layout_size size num.
Proof.
  intros (Hn & Hs & Hfit). unfold layout_size in Hfit.
  pose proof sizeof_msg_hdr_ptr_pos. pose proof sizeof_msg_header_pos. pose proof user_offset_nonneg.
  pose proof msg_hdr_align_pos as Ha. pose proof index_align_pos. pose proof sizeof_mq_hdr_pos.
  pose proof (rounded_ge size msg_hdr_align Hs Ha).
  assert (0 <= num * sizeof_msg_hdr_ptr) as Hp by nia.
  pose proof (rounded_ge (num * sizeof_msg_hdr_ptr) msg_hdr_align Hp Ha).
  assert (sizeof_mq_hdr <= r_hdr_size) by (apply rounded_ge; lia).
  set (m := get_rounded_size size msg_hdr_align) in *.
  set (x := get_rounded_size (num * sizeof_msg_hdr_ptr) msg_hdr_align) in *.
  assert (m + sizeof_msg_header <= num * (m + sizeof_msg_header)) by nia.
  assert (r_max_msg_size size = m + sizeof_msg_header) as Em
    by (unfold r_max_msg_size; fold m; rewrite !size_t_small by (rewrite ?size_t_small; lia); done).
  assert (r_index_size num = x) as Ex
    by (unfold r_index_size; rewrite (size_t_small (num * _)) by nia; fold x; rewrite size_t_small; lia).
  assert (get_mem_size size num = r_hdr_size + x + num * (m + sizeof_msg_header) + ManagedOpenOrCreateUserOffset) as Eg
    by (unfold get_mem_size; rewrite Em, Ex, (size_t_small (num * _)), size_t_small; lia).
  rewrite Em, Ex, Eg, size_t_small by lia. split_and!; try nia. done.
Qed.

Lemma layout_index num size i :
  layout_fits num size -> (i < Z.to_nat num)%nat ->
  mp_index (mq_hdr_init num size) !! i = Some (r_hdr_size + r_index_size num + Z.of_nat i * r_max_msg_size size).
Proof.
  intros Hf Hi. pose proof Hf as (Hn & Hs & _).
  destruct (layout_values num size Hf) as (_ & ? & ? & Eb & ? & Eg & ? & _).
  pose proof sizeof_msg_hdr_ptr_pos. pose proof sizeof_msg_header_pos. pose proof user_offset_nonneg.
  pose proof sizeof_mq_hdr_pos. simpl. rewrite Eb. apply init_index_lookup; [nia|lia|nia|done].
Qed.

Lemma layout_NoDup num size : layout_fits num size -> NoDup (mp_index (mq_hdr_init num size)).
Proof.
  intros Hf. apply NoDup_alt. intros i j x Hi Hj.
  pose proof (lookup_lt_Some _ _ _ Hi) as Li. pose proof (lookup_lt_Some _ _ _ Hj) as Lj.
  simpl in Li, Lj. rewrite length_init_index in Li, Lj.
  rewrite layout_index in Hi, Hj by done. destruct (layout_values num size Hf) as (_ & _ & ? & _).
  destruct Hf as (_ & ? & _). pose proof sizeof_msg_header_pos. simplify_eq. nia.
Qed.

Lemma mq_hdr_init_represents num size :
  layout_fits num size -> represents (mq_hdr_init num size) [].
Proof.
  intros Hf. pose proof Hf as (Hn & Hs & _). destruct (layout_values num size Hf) as (Hlt & _).
  pose proof (layout_NoDup num size Hf) as Hnd.
  split; try (simpl; done || lia).
  - apply length_init_index.
  - intros a Ha. eexists. split.
    + apply elem_of_list_to_map_1.
      * by rewrite <- list_fmap_compose, list_fmap_id.
      * apply list_elem_of_fmap. by exists a.
    + simpl. by rewrite length_replicate.
Qed.

(** *** The contents of the ring *)

Lemma contents_spec h sent :
  represents h sent ->
  contents h = Some <$> take (Z.to_nat (m_max_num_msg h)) (reverse sent).
Proof.
  intros [Hmax ? ? ? ? Hfirst Hnum Hlive]. apply list_eq. intros i.
  unfold contents. rewrite !list_lookup_fmap.
  destruct (decide (i < Z.to_nat (m_cur_num_msg h))%nat) as [Hi|Hi].
  - rewrite lookup_seq_lt by done. simpl.
    rewrite lookup_take_lt by lia. rewrite reverse_lookup by lia.
    destruct (lookup_lt_is_Some_2 sent (length sent - S i)) as [m Hm]; [lia|].
    rewrite Hm. simpl. f_equal.
    destruct (Hlive _ _ Hm) as (x & Hx & Hp & _); [lia|].
    replace ((m_cur_first_msg h + Z.of_nat i) mod m_max_num_msg h)
      with (slot (m_max_num_msg h) (Z.of_nat (length sent - S i))).
    + rewrite Hx. simpl. by rewrite Hp.
    + rewrite Hfirst. unfold slot, position. rewrite Zplus_mod_idemp_l. f_equal. lia.
  - rewrite lookup_seq_ge by lia. simpl.
    rewrite lookup_ge_None_2; [done|]. rewrite length_take, length_reverse. lia.
Qed.

Lemma send_all_spec h sent bs :
  represents h sent -> Forall (λ b, Z.of_nat (length b) <= m_max_msg_size h) bs ->
  ∃ h', send_all h bs = Ok h' ∧ represents h' (sent ++ bs)
    ∧ m_max_num_msg h' = m_max_num_msg h ∧ m_max_msg_size h' = m_max_msg_size h.
Proof.
  revert h sent. induction bs as [|b bs IH]; intros h sent Hrep Hf.
  { exists h. by rewrite app_nil_r. }
  apply Forall_cons in Hf as [Hb Hf].
  destruct (do_send_spec h sent b (Z.of_nat (length b))) as (h1 & Hs & Hrep1 & E1 & E2);
    [done | lia | lia |].
  rewrite Nat2Z.id, firstn_all in Hrep1.
  destruct (IH h1 _ Hrep1) as (h2 & Hs2 & Hrep2 & E3 & E4); [by rewrite E2|].
  exists h2. rewrite <- app_assoc in Hrep2. simpl. rewrite Hs. simpl.
  split_and!; [done | done | lia | lia].
Qed.

(** *** The polling reader *)

(** [pending] is the unread end of the log [sent]. *)
Lemma run_ops_spec h sent r got size os :
  represents h sent -> m_max_msg_size h <= size -> (r <= length sent)%nat ->
  Z.of_nat (length sent - r) < m_max_num_msg h ->
  Forall (fits (m_max_msg_size h)) os ->
  keeps_up (m_max_num_msg h) (Z.of_nat (length sent - r)) os = true ->
  ∃ s, run_ops size (MkRun h (position (m_max_num_msg h) (Z.of_nat r)) got) os = Ok s
    ∧ run_got s = fifo (drop r sent) got os.
Proof.
  revert h sent r got.
  induction os as [|[b|] os IH]; intros h sent r got Hrep Hsz Hr Hlag Hfit Hup.
  { eexists. done. }
  - apply Forall_cons in Hfit as [Hb Hfit]. simpl in *.
    apply andb_prop in Hup as [Hl Hup]. apply Z.ltb_lt in Hl.
    destruct (do_send_spec h sent b (Z.of_nat (length b))) as (h1 & Hs & Hrep1 & E1 & E2);
      [done | lia | lia |].
    rewrite Nat2Z.id, firstn_all in Hrep1. rewrite Hs. simpl.
    rewrite <- E1. rewrite <- drop_app_le by done.
    apply IH; rewrite ?length_app, ?E1, ?E2; simpl; try done; try lia.
    replace (Z.of_nat (length sent + 1 - r)) with (Z.of_nat (length sent - r) + 1) by lia.
    done.
  - apply Forall_cons in Hfit as [_ Hfit]. simpl in *. pose proof Hrep as [Hmax _ _ _ _ _ _ _].
    unfold try_receive. destruct (decide (r = length sent)) as [->|Hne].
    + rewrite (do_receive_level h sent) by (done || (rewrite Z.sub_diag; by apply Z.mod_0_l; lia)).
      simpl. rewrite drop_ge by done.
      replace (Z.max 0 _) with (Z.of_nat (length sent - length sent)) in Hup by lia.
      apply (IH h sent (length sent) got) in Hup as (s & Hs & Hg); try done; try lia.
      exists s. split; [done|]. by rewrite Hg, drop_ge.
    + assert (Hm : (Z.of_nat (length sent) - Z.of_nat r) mod m_max_num_msg h
              = Z.of_nat (length sent) - Z.of_nat r) by (apply Z.mod_small; lia).
      destruct (do_receive_lag non_blocking h sent (Z.of_nat r) [] size)
        as (k & m & Hk & Hkr & Hrecv); [done | lia | lia | lia |].
      rewrite Hrecv. simpl. assert (k = r) as -> by lia.
      rewrite (drop_S _ _ _ Hk). replace (Z.of_nat r + 1) with (Z.of_nat (S r)) by lia.
      apply lookup_lt_Some in Hk.
      apply IH; try done; try lia.
      replace (Z.of_nat (length sent - S r)) with (Z.max 0 (Z.of_nat (length sent - r) - 1))
        by lia. done.
Qed.
End Theory.

(** ** Properties *)

Section Properties.
Context {P : Platform} {POk : PlatformOk P}.


(** C6: On a queue whose segment [size_type] can address, a reader that polls with [try_receive] often enough that fewer than
    [max_num_msg] messages are ever unread receives every message exactly once
    and in order: whatever the interleaving of sends and polls, the run succeeds
    and the reader's messages are those of an unbounded FIFO. *)
Theorem mq_reader_fifo num size os :
  layout_fits num size ->
  Forall (fits size) os -> keeps_up num 0 os = true ->
  ∃ s, run_ops size (MkRun (mq_hdr_init num size) 0 []) os = Ok s
    ∧ run_got s = fifo [] [] os.
Proof.
  intros Hl Hf Hup. pose proof Hl as (? & ? & _).
  apply (run_ops_spec (mq_hdr_init num size) [] 0 []); simpl; try done; try lia.
  by apply mq_hdr_init_represents.
Qed.

(** C7: What a poll returns for any lag: with [t] messages sent and [r] consumed,
    [try_receive] returns no message exactly when [t - r] is a multiple of the
    capacity, and otherwise the message numbered [t - (t - r) mod capacity].  In
    particular a reader exactly one capacity behind is told there is nothing. *)
Theorem mq_try_receive_by_lag h sent r size :
  represents h sent -> m_max_msg_size h <= size ->
  0 <= r <= Z.of_nat (length sent) ->
  let t := Z.of_nat (length sent) in
  let lag := (t - r) mod m_max_num_msg h in
  ∃ out, try_receive h (position (m_max_num_msg h) r) size = Ok out
  ∧ out = if lag =? 0 then (recv_false, position (m_max_num_msg h) r)
          else (recv_true (Z.of_nat (length (sent !!! Z.to_nat (t - lag))))
                  (sent !!! Z.to_nat (t - lag)),
                position (m_max_num_msg h) (t - lag + 1)).
Proof.
  intros Hrep Hs Hr t lag. subst t lag. unfold try_receive. case_test.
  - eexists. split; [by apply (do_receive_level h sent) | done].
  - destruct (do_receive_lag non_blocking h sent r [] size) as (k & m & Hk & Hkr & ->);
      [done..|].
    eexists. split; [done|]. rewrite <- Hkr, Nat2Z.id.
    by rewrite (list_lookup_total_correct _ _ _ Hk).
Qed.

(** A reader that found nothing new and waits returns, once notified, the
    newest message of the queue it finds then (messages sent in between are
    skipped), and its position is level with the writer; a timeout returns
    [false] and leaves the position unchanged. *)
Theorem mq_wait_returns_newest b h h' sent m cur size ws :
  b <> non_blocking ->
  (is_empty h || (cur =? m_cur_first_msg h)) = true -> m_max_msg_size h <= size ->
  represents h' (sent ++ [m]) ->
  do_receive b h cur (notified h' :: ws) size
    = Ok (recv_true (Z.of_nat (length m)) m, m_cur_first_msg h')
  ∧ do_receive timed h cur (timed_out :: ws) size = Ok (recv_false, cur).
Proof.
  intros Hb Hw Hs Hrep. unfold do_receive.
  destruct (Z.ltb_spec size (m_max_msg_size h)); [lia|]. rewrite Hw.
  split; [|done]. pose proof Hrep as [Hmax _ _ _ _ Hfirst Hnum _].
  rewrite length_app in Hfirst, Hnum. simpl in Hfirst, Hnum.
  rewrite Nat2Z.inj_add in Hfirst. simpl in Hfirst. rewrite position_succ in Hfirst.
  pose proof (slot_range (m_max_num_msg h') (Z.of_nat (length sent)) ltac:(lia)).
  assert (He : is_empty h' = false) by (unfold is_empty; case_test; lia).
  assert (Ht : take_msg h' (size_t (m_cur_first_msg h' + 1))
               = Ok (recv_true (Z.of_nat (length m)) m, m_cur_first_msg h')).
  { rewrite Hfirst. apply (take_msg_spec _ (sent ++ [m])); [done| | |].
    - by apply list_lookup_middle.
    - rewrite length_app. simpl. lia.
    - rewrite (size_t_small (_ + 1)) by lia. case_test; [lia|].
      rewrite size_t_small; lia. }
  destruct b; [| |done]; simpl; rewrite He; apply Ht.
Qed.

(** Oversized sends and undersized receive buffers throw [size_error] before
    anything is touched, for every queue state. *)
Theorem mq_size_errors h buffer size b cur ws :
  (m_max_msg_size h < size -> do_send h buffer size = Err size_error)
  ∧ (size < m_max_msg_size h -> do_receive b h cur ws size = Err size_error).
Proof.
  unfold do_send, do_receive. split; intros Hs.
  - rewrite Z.gtb_ltb. by apply Z.ltb_lt in Hs as ->.
  - by apply Z.ltb_lt in Hs as ->.
Qed.

(** C38: If [size_type] can address the segment of a queue, the computed [get_mem_size] is its
    size without wrap-around, and it holds the header, the index and all message buffers
    without overlap: the index starts after the header and ends before the first message,
    consecutive messages are disjoint, and the last one ends inside the segment. *)
Theorem mq_layout_disjoint num size i a :
  layout_fits num size -> mp_index (mq_hdr_init num size) !! i = Some a ->
  get_mem_size size num = layout_size size num
  ∧ sizeof_mq_hdr <= r_hdr_size
  ∧ r_hdr_size + num * sizeof_msg_hdr_ptr <= a
  ∧ a + sizeof_msg_header + size + ManagedOpenOrCreateUserOffset <= get_mem_size size num
  ∧ (∀ j b, (i < j)%nat -> mp_index (mq_hdr_init num size) !! j = Some b ->
       a + sizeof_msg_header + size <= b).
Proof.
  intros Hf Hi. destruct (layout_values num size Hf) as (_ & ? & ? & _ & ? & Eg & ? & El).
  pose proof (lookup_lt_Some _ _ _ Hi) as Li. simpl in Li. rewrite length_init_index in Li.
  rewrite layout_index in Hi by done. injection Hi as <-. pose proof sizeof_msg_header_pos.
  split; [done|]. rewrite Eg.
  pose proof Hf as (? & ? & _). split_and!; [lia | nia | nia |].
  intros j b Hij Hj. pose proof (lookup_lt_Some _ _ _ Hj) as Lj. simpl in Lj.
  rewrite length_init_index in Lj. rewrite layout_index in Hj by done. simplify_eq. nia.
Qed.
End Properties.

(** ** Concrete instances *)

(** The queue's segment fits 32 bits. *)
Ltac fits32 := split; [reflexivity | split; [discriminate | reflexivity]].

Section Witnesses.

(** A 32-bit platform. *)
Definition platform32 : Platform := {|
  size_bits := 32; sizeof_mq_hdr := 76; sizeof_msg_hdr_ptr := 4; sizeof_msg_header := 4;
  msg_hdr_align := 4; index_align := 4;
  get_rounded_size := λ n a, (n + a - 1) / a * a;
  ManagedOpenOrCreateUserOffset := 8 |}.

Lemma platform32_ok : PlatformOk platform32.
Proof.
  split; simpl; try lia.
  - intros n a Hn Ha. pose proof (Z.div_mod (n + a - 1) a ltac:(lia)).
    pose proof (Z.mod_pos_bound (n + a - 1) a Ha). nia.
  - intros n a _ _. by exists ((n + a - 1) / a).
Qed.

#[local] Existing Instance platform32.
#[local] Existing Instance platform32_ok.

(** A message size close to the largest [size_type] makes the step from one buffer to the next
    wrap around to zero: both messages of the queue get the same buffer. *)
Lemma layout_wraps :
  mp_index (mq_hdr_init 2 (2 ^ 32 - 4)) = [84; 84] ∧ get_mem_size (2 ^ 32 - 4) 2 = 92
  ∧ layout_size (2 ^ 32 - 4) 2 = 92 + 2 * 2 ^ 32.
Proof.
  split; [|split; reflexivity]. unfold mq_hdr_init.
  change (r_max_msg_size (2 ^ 32 - 4)) with 0. cbn [mp_index]. reflexivity.
Qed.


Lemma mq_reader_fifo_witness :
  ∃ s, run_ops 4 (MkRun (mq_hdr_init 3 4) 0 [])
         [op_send [x01]; op_send [x02]; op_try_receive; op_send [x03]; op_try_receive;
          op_try_receive; op_try_receive] = Ok s
    ∧ run_got s = [[x01]; [x02]; [x03]].
Proof.
  apply (mq_reader_fifo 3 4); [fits32 | forall_lia | reflexivity].
Defined.

(** Two messages unread in a queue of capacity two: the poll finds nothing. *)
Lemma mq_try_receive_by_lag_witness :
  ∃ h, send_all (mq_hdr_init 2 4) [[x01]; [x02]] = Ok h
    ∧ ∃ out, try_receive h 0 4 = Ok out ∧ out = (recv_false, 0).
Proof.
  destruct (send_all_spec (mq_hdr_init 2 4) [] [[x01]; [x02]]) as (h & Hh & Hrep & E & E2).
  { apply mq_hdr_init_represents. fits32. }
  { forall_lia. }
  exists h. split; [done|].
  pose proof (mq_try_receive_by_lag h [[x01]; [x02]] 0 4 Hrep
                ltac:(rewrite E2; simpl; lia) ltac:(simpl; lia)) as Hw.
  rewrite E in Hw. apply Hw.
Defined.

Lemma mq_wait_returns_newest_witness :
  ∃ h, send_all (mq_hdr_init 2 4) [[x01]; [x02]] = Ok h
    ∧ receive (mq_hdr_init 2 4) 0 [notified h] 4 = Ok (recv_true 1 [x02], m_cur_first_msg h).
Proof.
  destruct (send_all_spec (mq_hdr_init 2 4) [] [[x01]; [x02]]) as (h & Hh & Hrep & E & E2).
  { apply mq_hdr_init_represents. fits32. }
  { forall_lia. }
  exists h. split; [done|].
  apply (mq_wait_returns_newest blocking (mq_hdr_init 2 4) h [[x01]] [x02] 0 4 []);
    [discriminate | reflexivity | discriminate | apply Hrep].
Defined.

Lemma mq_size_errors_witness :
  do_send (mq_hdr_init 2 1) [x01; x02] 2 = Err size_error
  ∧ try_receive (mq_hdr_init 2 4) 0 3 = Err size_error.
Proof.
  split.
  - apply (mq_size_errors (mq_hdr_init 2 1) [x01; x02] 2 non_blocking 0 []). reflexivity.
  - apply (mq_size_errors (mq_hdr_init 2 4) [] 3 non_blocking 0 []). reflexivity.
Defined.

Lemma mq_layout_disjoint_witness :
  mp_index (mq_hdr_init 2 10) !! 0%nat = Some 84
  ∧ 84 + sizeof_msg_header + 10 + ManagedOpenOrCreateUserOffset <= get_mem_size 10 2.
Proof.
  split; [reflexivity|].
  apply (mq_layout_disjoint 2 10 0 84); [fits32 | reflexivity].
Defined.
End Witnesses.
