(* ===== verification/QueueSync.v ===== *)
(** * Concurrent use of the message queue

    src/ipc/message_queue.hpp with its mutex and condition variable: any number of threads
    of any number of processes send and receive, interleaved between the acquisitions and
    releases of the mutex.  The messages sent so far, and for a receiver the headers it saw,
    are kept to state what happens; they have no counterpart in the code. *)

From Stdlib Require Import ZArith Lia Strings.Byte.
From stdpp Require Import base list gmap relations.
From S2P Require Import Prelude MessageQueue.

#[local] Open Scope Z_scope.

#[export] Instance block_t_eq_dec : EqDecision block_t.
Proof. solve_decision. Defined.

Section Sync.
Context {P : Platform} {POk : PlatformOk P}.

(** A receiver's call so far: its mode, the header and position it started with, and what
    woke it. *)
Record call := MkCall { cl_mode : block_t; cl_hdr : mq_hdr; cl_cur : Z; cl_wakes : list wake }.

Inductive proc :=
(* do_send: outside a call, before the lock, with the lock, after it and before notify_all *)
| WIdle
| WLock (buffer : list byte)
| WCritical (buffer : list byte)
| WNotify
(* do_receive, with the member m_cur_msg: outside a call, before the lock, with the lock,
   in the condition's wait, woken, with the lock again *)
| RIdle (m_cur_msg : Z)
| RLock (m_cur_msg : Z) (mode : block_t)
| RCritical (m_cur_msg : Z) (mode : block_t)
| RWait (m_cur_msg : Z) (c : call) (since : nat)
| RWoken (m_cur_msg : Z) (c : call) (notified : bool)
| RBack (m_cur_msg : Z) (c : call) (notified : bool).

(** A return of a receive: the thread, its call, the result and the position after it. *)
Record ret := MkRet { rt_thread : nat; rt_call : call; rt_result : received; rt_cur : Z }.

Record Sync := MkSync {
  q_hdr : mq_hdr;
  q_mutex : option nat;
  q_procs : gmap nat proc;
  q_sent : list (list byte);
  q_returns : list ret;
}.

Definition wake_waiting (p : proc) : proc :=
  match p with RWait cur c _ => RWoken cur c true | _ => p end.

Definition set_proc (i : nat) (p : proc) (q : Sync) : Sync :=
  MkSync (q_hdr q) (q_mutex q) (<[i := p]> (q_procs q)) (q_sent q) (q_returns q).
Definition lock (i : nat) (p : proc) (q : Sync) : Sync :=
  MkSync (q_hdr q) (Some i) (<[i := p]> (q_procs q)) (q_sent q) (q_returns q).
Definition unlock (i : nat) (p : proc) (q : Sync) : Sync :=
  MkSync (q_hdr q) None (<[i := p]> (q_procs q)) (q_sent q) (q_returns q).

(** Leaving [do_receive], which releases the lock. *)
Definition return_from (i : nat) (c : call) (r : received * Z) (q : Sync) : Sync :=
  MkSync (q_hdr q) None (<[i := RIdle r.2]> (q_procs q)) (q_sent q) (q_returns q ++ [MkRet i c r.1 r.2]).

(** [m_cond_recv.wait]: the lock is released and the thread waits, in one step. *)
Definition wait_on (i : nat) (cur : Z) (c : call) (q : Sync) : Sync :=
  unlock i (RWait cur c (length (q_sent q))) q.

(** [m_cond_recv.notify_all] by the sender [j]: every thread in the wait is woken. *)
Definition notify (j : nat) (q : Sync) : Sync :=
  MkSync (q_hdr q) (q_mutex q) (<[j := WIdle]> (wake_waiting <$> q_procs q)) (q_sent q) (q_returns q).

(** The critical section of a receive up to its return or its wait. *)
Inductive receive_checks (i : nat) (cur : Z) (mode : block_t) (q : Sync) : Sync -> Prop :=
| check_none :
    is_empty (q_hdr q) || (cur =? m_cur_first_msg (q_hdr q)) = true -> mode = non_blocking ->
    receive_checks i cur mode q (return_from i (MkCall mode (q_hdr q) cur []) (recv_false, cur) q)
| check_wait :
    is_empty (q_hdr q) || (cur =? m_cur_first_msg (q_hdr q)) = true -> mode ≠ non_blocking ->
    receive_checks i cur mode q (wait_on i cur (MkCall mode (q_hdr q) cur []) q)
| check_take r :
    is_empty (q_hdr q) || (cur =? m_cur_first_msg (q_hdr q)) = false -> take_msg (q_hdr q) cur = Ok r ->
    receive_checks i cur mode q (return_from i (MkCall mode (q_hdr q) cur []) r q).

Definition woken_call (w : wake) (c : call) : call := MkCall (cl_mode c) (cl_hdr c) (cl_cur c) (cl_wakes c ++ [w]).

(** After the wait, with the lock. *)
Inductive receive_resumes (i : nat) (cur : Z) (c : call) (q : Sync) : bool -> Sync -> Prop :=
| resume_timeout :
    receive_resumes i cur c q false (return_from i (woken_call timed_out c) (recv_false, cur) q)
| resume_empty :
    is_empty (q_hdr q) = true ->
    receive_resumes i cur c q true
      (wait_on i (size_t (m_cur_first_msg (q_hdr q) + 1)) (woken_call (notified (q_hdr q)) c) q)
| resume_take r :
    is_empty (q_hdr q) = false -> take_msg (q_hdr q) (size_t (m_cur_first_msg (q_hdr q) + 1)) = Ok r ->
    receive_resumes i cur c q true (return_from i (woken_call (notified (q_hdr q)) c) r q).

Inductive sync_step (q : Sync) : Sync -> Prop :=
| s_new_writer i : q_procs q !! i = None -> sync_step q (set_proc i WIdle q)
| s_new_reader i : q_procs q !! i = None -> sync_step q (set_proc i (RIdle 0) q)
(* do_send, for a buffer that passes the size check *)
| s_send i b : q_procs q !! i = Some WIdle -> Z.of_nat (length b) <= m_max_msg_size (q_hdr q) -> sync_step q (set_proc i (WLock b) q)
| s_send_lock i b : q_procs q !! i = Some (WLock b) -> q_mutex q = None -> sync_step q (lock i (WCritical b) q)
| s_send_body i b h : q_procs q !! i = Some (WCritical b) -> do_send (q_hdr q) b (Z.of_nat (length b)) = Ok h ->
    sync_step q (MkSync h None (<[i := WNotify]> (q_procs q)) (q_sent q ++ [b]) (q_returns q))
| s_notify i : q_procs q !! i = Some WNotify -> sync_step q (notify i q)
(* do_receive, with a buffer that is large enough *)
| s_receive i cur mode : q_procs q !! i = Some (RIdle cur) -> sync_step q (set_proc i (RLock cur mode) q)
| s_receive_lock i cur mode : q_procs q !! i = Some (RLock cur mode) -> q_mutex q = None -> sync_step q (lock i (RCritical cur mode) q)
| s_receive_body i cur mode q' : q_procs q !! i = Some (RCritical cur mode) -> receive_checks i cur mode q q' -> sync_step q q'
| s_spurious i cur c k : q_procs q !! i = Some (RWait cur c k) -> sync_step q (set_proc i (RWoken cur c true) q)
| s_timeout i cur c k : q_procs q !! i = Some (RWait cur c k) -> cl_mode c = timed -> sync_step q (set_proc i (RWoken cur c false) q)
| s_relock i cur c b : q_procs q !! i = Some (RWoken cur c b) -> q_mutex q = None -> sync_step q (lock i (RBack cur c b) q)
| s_resume i cur c b q' : q_procs q !! i = Some (RBack cur c b) -> receive_resumes i cur c q b q' -> sync_step q q'.

Definition sync_init (max_num_msg max_msg_size : Z) : Sync :=
  MkSync (mq_hdr_init max_num_msg max_msg_size) None ∅ [] [].

(** ** Taking a message, from any position *)

(** A reader's position is in the ring or just after it. *)
Definition cur_ok (num cur : Z) : Prop := 0 <= cur <= num.

Lemma slot_surj n t c : 0 < n -> 0 <= c < n -> ∃ k, slot n k = c ∧ t - n <= k < t.
Proof.
  intros Hn Hc. exists (t - 1 - (c + t) mod n). pose proof (Z.mod_pos_bound (c + t) n Hn). split; [|lia].
  unfold slot. pose proof (Z.div_mod (c + t) n ltac:(lia)).
  replace (- (t - 1 - (c + t) mod n + 1)) with (c + (- ((c + t) / n)) * n) by lia.
  rewrite Z_mod_plus_full. by apply Z.mod_small.
Qed.

Lemma take_msg_any h sent cur :
  represents h sent -> sent ≠ [] -> cur_ok (m_max_num_msg h) cur ->
  ∃ (k : nat) m, sent !! k = Some m
    ∧ take_msg h cur = Ok (recv_true (Z.of_nat (length m)) m, slot (m_max_num_msg h) (Z.of_nat k)).
Proof.
  intros Hrep Hne Hc. pose proof Hrep as [Hmax _ _ _ _ Hfirst Hnum _]. unfold cur_ok in Hc.
  set (n := m_max_num_msg h) in *. set (t := Z.of_nat (length sent)) in *.
  set (cur' := if cur =? 0 then size_t (n - 1) else size_t (cur - 1)).
  assert (0 <= cur' < n) as Hc' by (unfold cur'; case_test; rewrite size_t_small; lia).
  assert (0 < t) as Ht by (unfold t; destruct sent; [done|simpl; lia]).
  destruct (slot_surj n t cur' ltac:(lia) Hc') as (k & Ek & Hk).
  destruct (Z.le_gt_cases 0 k) as [Hpos|Hneg].
  - destruct (lookup_lt_is_Some_2 sent (Z.to_nat k)) as [m Hm]; [lia|]. exists (Z.to_nat k), m. split; [done|].
    apply (take_msg_spec h sent); try done; fold n t cur'; rewrite Z2Nat.id by lia; [lia|done].
  - destruct (lookup_lt_is_Some_2 sent 0) as [m Hm]; [lia|]. exists 0%nat, m. split; [done|].
    pose proof (end_index_spec h sent Hrep Hne) as Ee. fold n t in Ee.
    destruct (Z.ltb_spec t n); [|lia]. assert (slot n 0 = n - 1) as E0
      by (rewrite <- position_succ; rewrite position_low; lia).
    assert (slot n k = - (k + 1)) as Es by (unfold slot; apply Z.mod_small; lia).
    pose proof (position_low n t ltac:(lia)) as Ep.
    pose proof (take_msg_spec h sent 0 m 0 Hrep Hm ltac:(fold n t; lia)) as Hs. fold n in Hs.
    rewrite Nat2Z.inj_0, E0 in Hs. specialize (Hs ltac:(cbn; apply size_t_small; lia)).
    rewrite Nat2Z.inj_0, E0, <- Hs. unfold take_msg. fold n. fold cur'. cbn [Z.eqb].
    rewrite Ee, Hfirst, Ep, (size_t_small (n - 1)) by lia. rewrite Z.geb_leb.
    destruct (Z.leb_spec (n - t) (n - 1)); [|lia].
    rewrite !Z.gtb_ltb. destruct (Z.ltb_spec cur' (n - t)); [|lia]. rewrite orb_true_r.
    by destruct (Z.ltb_spec (n - 1) (n - 1)), (Z.ltb_spec (n - 1) (n - t)).
Qed.

(** ** The invariant *)

Section Invariant.
Variables num size : Z.

Definition in_critical (p : proc) : bool :=
  match p with WCritical _ | RCritical _ _ | RBack _ _ _ => true | _ => false end.

(** A call that waits, at position [cur], is a prefix of [do_receive]. *)
Definition call_waits (c : call) (cur : Z) : Prop :=
  cl_mode c ≠ non_blocking ∧ m_max_msg_size (cl_hdr c) = size
  ∧ is_empty (cl_hdr c) || (cl_cur c =? m_cur_first_msg (cl_hdr c)) = true
  ∧ wait_loop (cl_mode c) (cl_cur c) (cl_wakes c) = inr (recv_blocked, cur).

(** A thread, when [t] messages were sent. *)
Definition proc_ok (t : nat) (p : proc) : Prop :=
  match p with
  | WIdle | WNotify => True
  | WLock b | WCritical b => Z.of_nat (length b) <= size
  | RIdle cur | RLock cur _ | RCritical cur _ => cur_ok num cur
  | RWait cur c k => cur_ok num cur ∧ call_waits c cur ∧ (k <= t)%nat
  | RWoken cur c b | RBack cur c b => cur_ok num cur ∧ call_waits c cur ∧ (b = false -> cl_mode c = timed)
  end.

(** The mutex is held by the thread that is in a critical section. *)
Definition mutex_ok (m : option nat) (ps : gmap nat proc) : Prop :=
  ∀ i, m = Some i <-> ∃ p, ps !! i = Some p ∧ in_critical p = true.

(** A thread that has waited since before the last message will be notified. *)
Definition wakeup_ok (t : nat) (ps : gmap nat proc) : Prop :=
  ∀ i cur c k, ps !! i = Some (RWait cur c k) -> (k < t)%nat -> ∃ j, ps !! j = Some WNotify.

(** A return is what the call gives when it is run without interruption on the headers it
    saw, and a message received was sent. *)
Definition return_ok (sent : list (list byte)) (r : ret) : Prop :=
  do_receive (cl_mode (rt_call r)) (cl_hdr (rt_call r)) (cl_cur (rt_call r)) (cl_wakes (rt_call r)) size
    = Ok (rt_result r, rt_cur r)
  ∧ match rt_result r with
    | recv_true len m => m ∈ sent ∧ len = Z.of_nat (length m)
    | recv_false => True
    | recv_blocked => False
    end.

Record sync_ok (q : Sync) : Prop := {
  so_rep : represents (q_hdr q) (q_sent q);
  so_num : m_max_num_msg (q_hdr q) = num;
  so_size : m_max_msg_size (q_hdr q) = size;
  so_mutex : mutex_ok (q_mutex q) (q_procs q);
  so_procs : map_Forall (λ _, proc_ok (length (q_sent q))) (q_procs q);
  so_wakeup : wakeup_ok (length (q_sent q)) (q_procs q);
  so_returns : Forall (return_ok (q_sent q)) (q_returns q);
}.

Lemma mutex_set m ps i p :
  mutex_ok m ps -> (∀ p0, ps !! i = Some p0 -> in_critical p0 = false) -> in_critical p = false -> mutex_ok m (<[i := p]> ps).
Proof.
  intros Hm Hi Hp j. rewrite (Hm j). destruct (decide (i = j)) as [<-|Hne].
  - rewrite lookup_insert_eq. split; intros (p0 & E & Hc); [by rewrite (Hi _ E) in Hc|by simplify_eq; rewrite Hp in Hc].
  - by rewrite lookup_insert_ne.
Qed.

Lemma mutex_lock ps i p : mutex_ok None ps -> in_critical p = true -> mutex_ok (Some i) (<[i := p]> ps).
Proof.
  intros Hm Hp j. destruct (decide (i = j)) as [<-|Hne].
  - rewrite lookup_insert_eq. split; [by exists p|done].
  - rewrite lookup_insert_ne by done. split; [by intros [= ->]|]. intros H. by apply (Hm j) in H.
Qed.

Lemma mutex_unlock m ps i p0 p :
  mutex_ok m ps -> ps !! i = Some p0 -> in_critical p0 = true -> in_critical p = false -> mutex_ok None (<[i := p]> ps).
Proof.
  intros Hm Hi Hc Hp j. assert (m = Some i) as -> by (apply Hm; eauto). split; [done|].
  destruct (decide (i = j)) as [<-|Hne].
  - rewrite lookup_insert_eq. intros (p1 & [= <-] & H). by rewrite Hp in H.
  - rewrite lookup_insert_ne by done. intros H. apply (Hm j) in H. by simplify_eq.
Qed.

Lemma wakeup_insert t ps i p :
  wakeup_ok t ps -> ps !! i ≠ Some WNotify -> (∀ cur c k, p = RWait cur c k -> k = t) -> wakeup_ok t (<[i := p]> ps).
Proof.
  intros Hw Hi Hp j cur c k Hj Hk. destruct (decide (i = j)) as [<-|Hne].
  - rewrite lookup_insert_eq in Hj. injection Hj as Hj. apply Hp in Hj. lia.
  - rewrite lookup_insert_ne in Hj by done. destruct (Hw _ _ _ _ Hj Hk) as [l Hl]. exists l.
    rewrite lookup_insert_ne; [done|]. by intros ->.
Qed.

(** A step that leaves the ring alone. *)
Lemma sync_ok_step q m i p rs :
  sync_ok q -> mutex_ok m (<[i := p]> (q_procs q)) -> proc_ok (length (q_sent q)) p -> q_procs q !! i ≠ Some WNotify ->
  (∀ cur c k, p = RWait cur c k -> k = length (q_sent q)) -> Forall (return_ok (q_sent q)) rs ->
  sync_ok (MkSync (q_hdr q) m (<[i := p]> (q_procs q)) (q_sent q) rs).
Proof.
  intros [Hr Hn Hs Hm Hp Hw Hre] Hm' Hp' Hni Hwait Hrs. split; cbn; try done.
  - by apply map_Forall_insert_2.
  - by apply wakeup_insert.
Qed.

Lemma wait_loop_snoc b ws w : forall cur cur1,
  wait_loop b cur ws = inr (recv_blocked, cur1) -> wait_loop b cur (ws ++ [w]) = wait_loop b cur1 [w].
Proof.
  induction ws as [|[h|] ws IH]; intros cur cur1; cbn [wait_loop app].
  - by intros [= ->].
  - destruct (is_empty h); [apply IH|done].
  - destruct b; try done; apply IH.
Qed.

Lemma first_next h sent :
  represents h sent -> size_t (m_cur_first_msg h + 1) = m_cur_first_msg h + 1 ∧ cur_ok (m_max_num_msg h) (m_cur_first_msg h + 1).
Proof.
  intros [Hmax _ _ _ _ Hf _ _]. pose proof (position_range (m_max_num_msg h) (Z.of_nat (length sent)) ltac:(lia)).
  unfold cur_ok. split; [apply size_t_small|]; lia.
Qed.

Lemma take_ok h sent cur r :
  represents h sent -> is_empty h = false -> cur_ok (m_max_num_msg h) cur -> take_msg h cur = Ok r ->
  cur_ok (m_max_num_msg h) r.2
  ∧ match r.1 with recv_true len m => m ∈ sent ∧ len = Z.of_nat (length m) | _ => False end.
Proof.
  intros Hrep He Hc. assert (sent ≠ []) as Hne.
  { intros ->. destruct Hrep as [? _ _ _ _ _ Hnum _]. unfold is_empty in He. rewrite Hnum in He. cbn in He.
    rewrite Z.min_l in He by lia. done. }
  destruct (take_msg_any h sent cur Hrep Hne Hc) as (k & m & Hk & ->). intros [= <-]. cbn.
  split; [|split; [by eapply list_elem_of_lookup_2|done]].
  pose proof (slot_range (m_max_num_msg h) (Z.of_nat k)). destruct Hrep. unfold cur_ok. lia.
Qed.

(** The call, run to its end on what it saw. *)
Lemma call_resumes c cur w r :
  call_waits c cur -> wait_loop (cl_mode c) cur [w] = r ->
  do_receive (cl_mode c) (cl_hdr c) (cl_cur c) (cl_wakes c ++ [w]) size
  = match r with inl (h, cur) => take_msg h cur | inr o => Ok o end.
Proof.
  intros (Hb & Hs & He & Hw) <-. unfold do_receive. rewrite Hs, He. rewrite (wait_loop_snoc _ _ w _ _ Hw).
  destruct (Z.ltb_spec size size); [lia|]. by destruct (cl_mode c).
Qed.

Lemma return_ok_mono sent m rs : Forall (return_ok sent) rs -> Forall (return_ok (sent ++ [m])) rs.
Proof.
  intros H. eapply Forall_impl; [exact H|]. intros r [E Hr]. split; [done|]. destruct (rt_result r); try done.
  destruct Hr as [Hin ?]. split; [apply elem_of_app; by left|done].
Qed.

Lemma proc_ok_mono t t' p : (t <= t')%nat -> proc_ok t p -> proc_ok t' p.
Proof. destruct p; cbn; intuition lia. Qed.

Lemma receive_checks_ok q i cur mode q' :
  sync_ok q -> q_procs q !! i = Some (RCritical cur mode) -> receive_checks i cur mode q q' -> sync_ok q'.
Proof.
  intros Hok Hi Hst. pose proof Hok as [Hr Hn Hs Hm Hp Hw Hre]. pose proof (Hp _ _ Hi) as Hc. cbn in Hc.
  assert (∀ p, in_critical p = false -> mutex_ok None (<[i := p]> (q_procs q))) as Hmu by (intros p; by eapply mutex_unlock).
  destruct Hst as [He Hb|He Hb|r He Ht].
  - apply sync_ok_step; try (done || by rewrite Hi). { by apply Hmu. } apply Forall_app_2; [done|].
    constructor; [|done]. split; [|done]. cbn. unfold do_receive. rewrite Hs, He, Hb. by destruct (Z.ltb_spec size size); [lia|].
  - apply sync_ok_step; try (done || by rewrite Hi).
    + by apply Hmu.
    + by intros ? ? ? [= _ _ <-].
  - apply orb_false_iff in He as [He1 He2].
    destruct (take_ok _ _ cur r Hr He1) as [Hc' Hres]; [by rewrite Hn|done|].
    apply sync_ok_step; try (done || by rewrite Hi); [by apply Hmu|cbn; by rewrite <- Hn|].
    apply Forall_app_2; [done|]. constructor; [|done]. split; cbn; [|by destruct r.1].
    unfold do_receive. rewrite Hs, He1, He2. cbn. destruct (Z.ltb_spec size size); [lia|]. rewrite Ht. by destruct r.
Qed.

Lemma receive_resumes_ok q i cur c b q' :
  sync_ok q -> q_procs q !! i = Some (RBack cur c b) -> receive_resumes i cur c q b q' -> sync_ok q'.
Proof.
  intros Hok Hi Hst. pose proof Hok as [Hr Hn Hs Hm Hp Hw Hre]. pose proof (Hp _ _ Hi) as (Hc & Hcall & Htd).
  assert (∀ p, in_critical p = false -> mutex_ok None (<[i := p]> (q_procs q))) as Hmu by (intros p; by eapply mutex_unlock).
  destruct (first_next _ _ Hr) as [Ef Hfc]. rewrite Hn in Hfc.
  destruct Hst as [|He|r He Ht].
  - apply sync_ok_step; try (done || by rewrite Hi). { by apply Hmu. } apply Forall_app_2; [done|].
    constructor; [|done]. split; [|done]. cbn. erewrite (call_resumes c cur timed_out); [|done..]. cbn. by rewrite (Htd eq_refl).
  - apply sync_ok_step; try (done || by rewrite Hi).
    + by apply Hmu.
    + cbn. destruct Hcall as (Hb & Hsz & Hem & Hwl). split_and!; try by rewrite Ef; apply Hfc.
      * repeat split; try done. cbn. rewrite (wait_loop_snoc _ _ _ _ _ Hwl). cbn. by rewrite He.
      * done.
    + by intros ? ? ? [= _ _ <-].
  - destruct (take_ok _ _ (size_t (m_cur_first_msg (q_hdr q) + 1)) r Hr He) as [Hc' Hres]; [by rewrite Ef, Hn|done|].
    apply sync_ok_step; try (done || by rewrite Hi); [by apply Hmu|cbn; by rewrite <- Hn|].
    apply Forall_app_2; [done|]. constructor; [|done]. split; cbn; [|by destruct r.1].
    erewrite (call_resumes c cur (notified (q_hdr q))); [|done..]. cbn. rewrite He. rewrite Ht. by destruct r.
Qed.

Lemma send_body_ok q i b h :
  sync_ok q -> q_procs q !! i = Some (WCritical b) -> do_send (q_hdr q) b (Z.of_nat (length b)) = Ok h ->
  sync_ok (MkSync h None (<[i := WNotify]> (q_procs q)) (q_sent q ++ [b]) (q_returns q)).
Proof.
  intros [Hr Hn Hs Hm Hp Hw Hre] Hi Hd. pose proof (Hp _ _ Hi) as Hb. cbn in Hb.
  destruct (do_send_spec (q_hdr q) (q_sent q) b (Z.of_nat (length b)) Hr) as (h' & E & Hr' & En & Es); [lia..|].
  rewrite E in Hd. injection Hd as <-. rewrite Nat2Z.id, firstn_all in Hr'.
  split; cbn; try congruence; try done.
  - by eapply mutex_unlock.
  - apply map_Forall_insert_2; [done|]. intros j p Hj. eapply proc_ok_mono; [|by apply (Hp j)]. rewrite length_app. lia.
  - intros j cur c k _ _. exists i. apply lookup_insert_eq.
  - by apply return_ok_mono.
Qed.

Lemma notify_ok q i :
  sync_ok q -> q_procs q !! i = Some WNotify -> sync_ok (notify i q).
Proof.
  intros [Hr Hn Hs Hm Hp Hw Hre] Hi. split; cbn; try done.
  - apply mutex_set; [|rewrite lookup_fmap, Hi; by intros p [= <-]|done].
    intros j. rewrite (Hm j), lookup_fmap. destruct (q_procs q !! j) as [[]|]; naive_solver.
  - apply map_Forall_insert_2; [done|]. intros j p Hj. rewrite lookup_fmap in Hj.
    destruct (q_procs q !! j) as [p0|] eqn:E; [|done]. injection Hj as <-. pose proof (Hp _ _ E) as H.
    destruct p0; try done. cbn in *. naive_solver.
  - intros j cur c k Hj. destruct (decide (i = j)) as [<-|Hne]; [by rewrite lookup_insert_eq in Hj|].
    rewrite lookup_insert_ne, lookup_fmap in Hj by done. by destruct (q_procs q !! j) as [[]|].
Qed.

Lemma sync_step_ok q q' : sync_step q q' -> sync_ok q -> sync_ok q'.
Proof.
  intros Hst Hok. pose proof Hok as [Hr Hn Hs Hm Hp Hw Hre].
  destruct Hst as [i Hi|i Hi|i b Hi Hb|i b Hi Hl|i b h Hi Hd|i Hi|i cur mode Hi|i cur mode Hi Hl|i cur mode q' Hi Hc|
    i cur c k Hi|i cur c k Hi Ht|i cur c b Hi Hl|i cur c b q' Hi Hc];
    try (pose proof (Hp _ _ Hi) as Hpi; cbn in Hpi).
  5: by eapply send_body_ok. 5: by apply notify_ok. 7: by eapply receive_checks_ok. 10: by eapply receive_resumes_ok.
  all: apply sync_ok_step; try done; try by rewrite Hi.
  all: try (rewrite Hl in Hm; by apply mutex_lock).
  all: try (apply mutex_set; [done|rewrite Hi; by intros ? [= <-]|done]).
  all: cbn; try done.
  - destruct Hr. unfold cur_ok. lia.
  - lia.
  - by destruct Hpi as (? & ? & _).
  - by destruct Hpi as (? & ? & _).
Qed.

Lemma sync_reachable_ok q :
  layout_fits num size -> rtc sync_step (sync_init num size) q -> sync_ok q.
Proof.
  intros Hl H. apply (rtc_ind_r (R := sync_step) sync_ok (sync_init num size)); [..|exact H].
  - split; cbn; try done; [by apply mq_hdr_init_represents|]. intros i. split; [done|]. by intros (p & E & _).
  - intros y z _ Hyz IH. by eapply sync_step_ok.
Qed.
End Invariant.

(** ** Any interleaving *)

(** The critical section of a receive always ends. *)
Lemma critical_returns num size q i p :
  sync_ok num size q -> q_procs q !! i = Some p -> in_critical p = true -> ∃ q', sync_step q q' ∧ q_mutex q' = None.
Proof.
  intros [Hr Hn Hs Hm Hp Hw Hre] Hi Hc. pose proof (Hp _ _ Hi) as Hpi.
  assert (∀ cur, cur_ok num cur -> is_empty (q_hdr q) = false -> ∃ r, take_msg (q_hdr q) cur = Ok r) as Htake.
  { intros cur Hcur He. destruct (take_msg_any (q_hdr q) (q_sent q) cur Hr) as (k & m & _ & E); [|by rewrite Hn|by eexists].
    intros En. rewrite En in Hr. destruct Hr as [? _ _ _ _ _ Hnum _]. unfold is_empty in He. rewrite Hnum in He. cbn in He.
    rewrite Z.min_l in He by lia. done. }
  destruct p as [| |b| | | |cur mode| | |cur c b]; try done; cbn in Hpi.
  - destruct (do_send_spec (q_hdr q) (q_sent q) b (Z.of_nat (length b)) Hr) as (h & E & _); [lia..|].
    eexists. split; [by eapply s_send_body|done].
  - destruct (is_empty (q_hdr q) || (cur =? m_cur_first_msg (q_hdr q))) eqn:E.
    + destruct (decide (mode = non_blocking)) as [Hb|Hb].
      * eexists. split; [eapply s_receive_body, check_none; done|done].
      * eexists. split; [eapply s_receive_body, check_wait; done|done].
    + pose proof E as [He _]%orb_false_iff. destruct (Htake cur Hpi He) as [r Er].
      eexists. split; [eapply s_receive_body, check_take; done|done].
  - destruct b; [|eexists; split; [eapply s_resume, resume_timeout; done|done]].
    destruct (is_empty (q_hdr q)) eqn:E; [eexists; split; [eapply s_resume, resume_empty; done|done]|].
    destruct (first_next _ _ Hr) as [Ef Hf]. destruct (Htake (size_t (m_cur_first_msg (q_hdr q) + 1))) as [r Er]; [by rewrite Ef, <- Hn|done|].
    eexists. split; [eapply s_resume, resume_take; done|done].
Qed.


(** A receiver that was woken, and has the lock again when a message was sent, takes the
    newest message. *)
Lemma resume_newest num size q sent m :
  sync_ok num size q -> q_sent q = sent ++ [m] ->
  is_empty (q_hdr q) = false
  ∧ take_msg (q_hdr q) (size_t (m_cur_first_msg (q_hdr q) + 1))
    = Ok (recv_true (Z.of_nat (length m)) m, slot num (Z.of_nat (length sent))).
Proof.
  intros [Hrep En _ _ _ _ _] Es. rewrite Es in Hrep. destruct (first_next _ _ Hrep) as [Ef _].
  pose proof Hrep as [Hmax _ _ _ _ Hf Hnum _]. split.
  - unfold is_empty. rewrite Hnum, length_app. cbn. case_test; lia.
  - rewrite <- En. apply (take_msg_spec _ (sent ++ [m])); [done|by rewrite lookup_app_r, Nat.sub_diag|rewrite length_app; cbn; lia|].
    rewrite length_app, Nat2Z.inj_add in Hf. cbn in Hf. rewrite position_succ in Hf.
    rewrite Ef, Hf. pose proof (slot_range (m_max_num_msg (q_hdr q)) (Z.of_nat (length sent)) ltac:(lia)).
    destruct (Z.eqb_spec (slot (m_max_num_msg (q_hdr q)) (Z.of_nat (length sent)) + 1) 0); [lia|]. rewrite size_t_small; lia.
Qed.

(** Messages are only added to those sent. *)
Lemma sync_step_sent q q' : sync_step q q' -> q_sent q `prefix_of` q_sent q'.
Proof.
  intros Hst. destruct Hst; cbn; try done; [by apply prefix_app_r|..].
  all: match goal with H : receive_checks _ _ _ _ _ |- _ => by destruct H | H : receive_resumes _ _ _ _ _ _ |- _ => by destruct H end.
Qed.

Lemma sync_steps_sent q q' : rtc sync_step q q' -> q_sent q `prefix_of` q_sent q'.
Proof. induction 1 as [|? ? ? H _ IH]; [done|]. etrans; [by apply sync_step_sent|done]. Qed.

(** C4: No wake-up is lost.  A receiver that has waited since before the last message: some
    sender has its [notify_all] still to make, and whichever sender makes the next one, it
    wakes this receiver.  And at any later moment at which the receiver is woken and the mutex
    free, it can take the mutex, and then it returns the message that is the newest one, without
    a further message or a further wake-up. *)
Theorem no_lost_wakeup (num size : Z) (q : Sync) (i : nat) (cur : Z) (c : call) (since : nat) :
  layout_fits num size -> rtc sync_step (sync_init num size) q ->
  q_procs q !! i = Some (RWait cur c since) -> (since < length (q_sent q))%nat ->
  (∃ j, q_procs q !! j = Some WNotify)
  ∧ (∀ j, q_procs q !! j = Some WNotify ->
       sync_step q (notify j q) ∧ q_procs (notify j q) !! i = Some (RWoken cur c true))
  ∧ (∀ q1 cur1 c1, rtc sync_step q q1 -> q_procs q1 !! i = Some (RWoken cur1 c1 true) -> q_mutex q1 = None ->
       ∃ m r q2, last (q_sent q1) = Some m ∧ rt_thread r = i ∧ rt_result r = recv_true (Z.of_nat (length m)) m
         ∧ sync_step q1 (lock i (RBack cur1 c1 true) q1) ∧ sync_step (lock i (RBack cur1 c1 true) q1) q2
         ∧ q_procs q2 !! i = Some (RIdle (rt_cur r)) ∧ q_sent q2 = q_sent q1 ∧ q_returns q2 = q_returns q1 ++ [r]).
Proof.
  intros Hl Hr Hi Hsince. pose proof (sync_reachable_ok num size q Hl Hr) as [_ _ _ _ _ Hw _].
  split_and!; [by eapply Hw|intros j Hj; split; [by apply s_notify|]|].
  - cbn. rewrite lookup_insert_ne, lookup_fmap, Hi by (intros ->; by rewrite Hi in Hj). done.
  - intros q1 cur1 c1 Hr1 Hi1 Hm1. pose proof (sync_reachable_ok num size q1 Hl ltac:(by etrans)) as Hok.
    pose proof (prefix_length _ _ (sync_steps_sent _ _ Hr1)).
    destruct (exists_last (l := q_sent q1)) as (sent & m & Es); [intros E; rewrite E in *; cbn in *; lia|].
    destruct (resume_newest num size q1 sent m Hok Es) as [He Et].
    set (q2 := lock i (RBack cur1 c1 true) q1). set (res := (recv_true _ _, _)) in Et.
    set (c2 := woken_call (notified (q_hdr q2)) c1).
    exists m, (MkRet i c2 res.1 res.2), (return_from i c2 res q2).
    split_and!; try done; [by rewrite Es, last_snoc|by eapply s_relock| |apply lookup_insert_eq].
    eapply s_resume; [apply lookup_insert_eq|by apply resume_take].
Qed.
End Sync.

(** ** A concrete interleaving *)

Section Witnesses.
#[local] Existing Instance platform32.
#[local] Existing Instance platform32_ok.

(** Thread 0 blocks in a receive, and thread 1 sends up to its notification. *)
Lemma blocked_receive_run :
  ∃ q c, rtc sync_step (sync_init 2 4) q ∧ q_procs q !! 0%nat = Some (RWait 0 c 0)
    ∧ q_sent q = [[x01; x02]] ∧ q_mutex q = None.
Proof.
  destruct (do_send_spec (mq_hdr_init 2 4) [] [x01; x02] 2) as (h & Hh & _);
    [apply mq_hdr_init_represents; fits32|cbn; lia..|].
  eexists _, _. split_and!.
  - eapply rtc_l; [by apply (s_new_reader _ 0)|]. eapply rtc_l; [by apply (s_new_writer _ 1)|].
    eapply rtc_l; [by apply (s_receive _ 0 0 blocking)|]. eapply rtc_l; [by apply (s_receive_lock _ 0 0 blocking)|].
    eapply rtc_l; [by eapply (s_receive_body _ 0 0 blocking), check_wait|].
    eapply rtc_l; [by apply (s_send _ 1 [x01; x02])|]. eapply rtc_l; [by apply (s_send_lock _ 1 [x01; x02])|].
    apply rtc_once. eapply (s_send_body _ 1 [x01; x02]); [done|exact Hh].
  - reflexivity.
  - reflexivity.
  - reflexivity.
Qed.


Lemma no_lost_wakeup_witness :
  ∃ q q1 q2 q3 r, rtc sync_step (sync_init 2 4) q ∧ sync_step q q1 ∧ sync_step q1 q2 ∧ sync_step q2 q3
    ∧ q_returns q3 = q_returns q ++ [r] ∧ rt_thread r = 0%nat ∧ rt_result r = recv_true 2 [x01; x02].
Proof.
  destruct blocked_receive_run as (q & c & Hr & Hi & Hs & Hm).
  destruct (no_lost_wakeup 2 4 q 0 0 c 0) as ((j & Hj) & Hn & Hback); [fits32|exact Hr|exact Hi|rewrite Hs; cbn; lia|].
  destruct (Hn j Hj) as [Hst Hw].
  destruct (Hback (notify j q) 0 c (rtc_once _ _ Hst) Hw Hm) as (m & r & q3 & H5 & H4 & H6 & H1 & H2 & _ & _ & H3).
  exists q, (notify j q), (lock 0 (RBack 0 c true) (notify j q)), q3, r. cbn in H5. rewrite Hs in H5. injection H5 as <-.
  split_and!; assumption.
Defined.
End Witnesses.
