(* ===== verification/Clock.v ===== *)
(** * The simulated clock

    src/util/clock.cc and clock.h when the clock is faked: threads hold the shared mutex
    while they run and release it while they sleep; the manager takes it exclusively and
    moves time to the next wake-up.  The state has the clock's static members and what
    each thread does; a step is what happens under one acquisition of the mutex.
    Times are nanoseconds; the periodic loop of the nodes is at the end. *)

From Stdlib Require Import ZArith Lia Sorting.Sorted.
From stdpp Require Import base list gmap sorting relations.
From S2P Require Import Prelude.

#[local] Open Scope Z_scope.

(** A thread with a [ClockInstance]: holding the shared mutex, waiting on [tick_] in
    [sleep_until], or after [CleanUp]. *)
Inductive thread := Running | Waiting (len : Z) | Released.

Record Clock := MkClock {
  time_ : Z;
  wakeup_times_ : list Z;   (* a priority queue, smallest first *)
  done : bool;
  threads : gmap nat thread;
}.

Definition set_time (t : Z) (c : Clock) : Clock := MkClock t (wakeup_times_ c) (done c) (threads c).
Definition set_wakeups (w : list Z) (c : Clock) : Clock := MkClock (time_ c) w (done c) (threads c).
Definition set_thread (i : nat) (t : thread) (c : Clock) : Clock :=
  MkClock (time_ c) (wakeup_times_ c) (done c) (<[i := t]> (threads c)).

(** [push] of the priority queue; [top] is the head, [pop] the tail. *)
Fixpoint push (t : Z) (w : list Z) : list Z :=
  match w with
  | [] => [t]
  | x :: w => if t <=? x then t :: x :: w else x :: push t w
  end.

(** The loop that drops the times before [now]. *)
Fixpoint drop_past (now : Z) (w : list Z) : list Z :=
  match w with
  | x :: w' => if x <? now then drop_past now w' else w
  | [] => []
  end.

Definition next_wakeup (c : Clock) : Z :=
  match wakeup_times_ c with [] => time_ c | x :: _ => x end.

Definition set_wakeup (t : Z) (c : Clock) : Clock :=
  let w := if time_ c <? t then push t (wakeup_times_ c) else wakeup_times_ c in
  set_wakeups (drop_past (time_ c) w) c.

(** The predicate of the wait, for a thread asleep until [len]: its new state when it
    holds. *)
Definition wake_up (len : Z) (c : Clock) : option Clock :=
  if done c then Some c
  else if len <=? time_ c then
    Some (match wakeup_times_ c with
          | x :: w => if x =? len then set_wakeups w c else c
          | [] => c
          end)
  else None.

(** [sleep_until] up to the wait, whose predicate is tested first. *)
Definition sleep_until (i : nat) (len : Z) (c : Clock) : Clock :=
  if len <=? time_ c then c
  else
    let c := set_wakeup len c in
    match wake_up len c with
    | Some c => c
    | None => set_thread i (Waiting len) c
    end.

(** A notified (or spuriously woken) sleeper. *)
Definition wait_again (i : nat) (len : Z) (c : Clock) : Clock :=
  match wake_up len c with
  | Some c => set_thread i Running c
  | None => c
  end.

(** The body of the loop of [ClockManager::Run]. *)
Definition manager_tick (c : Clock) : Clock :=
  if time_ c <=? next_wakeup c then set_time (next_wakeup c) c else c.

(** The shutdown flag; the signal handler raises it. *)
Definition IsShutdown (c : Clock) : bool := done c.
Definition RaiseShutdown (c : Clock) : Clock := MkClock (time_ c) (wakeup_times_ c) true (threads c).
Definition CancelShutdown (c : Clock) : Clock := MkClock (time_ c) (wakeup_times_ c) false (threads c).

(** [CancelShutdown], which resets the flag between tests, is not a step. *)
Inductive clock_step (c : Clock) : Clock -> Prop :=
| step_instance i : threads c !! i = None -> clock_step c (set_thread i Running c)
| step_sleep i len : threads c !! i = Some Running -> clock_step c (sleep_until i len c)
| step_wake i len : threads c !! i = Some (Waiting len) -> clock_step c (wait_again i len c)
| step_cleanup i : threads c !! i = Some Running -> clock_step c (set_thread i Released c)
| step_tick : (∀ i, threads c !! i ≠ Some Running) -> clock_step c (manager_tick c)
| step_shutdown : clock_step c (RaiseShutdown c).

(** [ClockManager::Run] at its start. *)
Definition clock_init (start_time : Z) : Clock := MkClock start_time [] false ∅.

(** ** The priority queue *)

Lemma push_perm t w : push t w ≡ₚ t :: w.
Proof.
  induction w as [|x w IH]; simpl; [done|]. case_test; [done|]. rewrite IH. apply Permutation_swap.
Qed.

Lemma push_sorted t w : StronglySorted Z.le w -> StronglySorted Z.le (push t w).
Proof.
  induction 1 as [|x w Hs IH Hx]; simpl; [by repeat constructor|]. case_test.
  - constructor; [by constructor|]. constructor; [done|]. eapply Forall_impl; [exact Hx|]. simpl. lia.
  - constructor; [done|]. rewrite push_perm. constructor; [lia|done].
Qed.

Lemma drop_past_id now w : Forall (Z.le now) w -> drop_past now w = w.
Proof. intros H. destruct H as [|x w Hx Hw]; [done|]. simpl. case_test; [lia|done]. Qed.

(** ** Sleeping threads and pending wake-ups *)

Definition deadline (t : thread) : list Z := match t with Waiting len => [len] | _ => [] end.

Definition deadlines (m : gmap nat thread) : list Z := map_to_list m ≫= λ p, deadline p.2.

Lemma deadlines_lookup m i t : m !! i = Some t -> deadlines m ≡ₚ deadline t ++ deadlines (delete i m).
Proof.
  intros H. unfold deadlines. rewrite <- (insert_delete_id m i t H) at 1.
  rewrite map_to_list_insert by apply lookup_delete_eq. done.
Qed.

Lemma deadlines_insert m i t : deadlines (<[i := t]> m) ≡ₚ deadline t ++ deadlines (delete i m).
Proof.
  rewrite (deadlines_lookup _ i t) by apply lookup_insert_eq. by rewrite delete_insert_eq.
Qed.

(** The invariant: the pending wake-ups are those of the sleeping threads, and none is
    past. *)
Record clock_ok (c : Clock) : Prop := {
  ck_sorted : StronglySorted Z.le (wakeup_times_ c);
  ck_pending : wakeup_times_ c ≡ₚ deadlines (threads c);
  ck_future : Forall (Z.le (time_ c)) (wakeup_times_ c);
}.

Lemma set_thread_ok i t c :
  (∀ t0, threads c !! i = Some t0 -> deadline t0 = []) -> deadline t = [] -> clock_ok c -> clock_ok (set_thread i t c).
Proof.
  intros H0 Ht [Hs Hp Hf]. constructor; [done| |done]. simpl. rewrite deadlines_insert, Ht, Hp. simpl.
  destruct (threads c !! i) as [t0|] eqn:E.
  - by rewrite (deadlines_lookup _ _ _ E), (H0 t0).
  - by rewrite delete_id.
Qed.

Lemma sleep_until_ok i len c :
  clock_ok c -> done c = false -> threads c !! i = Some Running -> clock_ok (sleep_until i len c).
Proof.
  intros [Hs Hp Hf] Hd Hi. unfold sleep_until. destruct (Z.leb_spec len (time_ c)) as [|Hlt]; [done|].
  unfold wake_up, set_wakeup. simpl. rewrite Hd.
  destruct (Z.ltb_spec (time_ c) len); [|lia]. destruct (Z.leb_spec len (time_ c)); [lia|].
  assert (Forall (Z.le (time_ c)) (push len (wakeup_times_ c))) as Hf'.
  { rewrite push_perm. constructor; [lia|done]. }
  rewrite drop_past_id by done.
  constructor; simpl; [by apply push_sorted| |done].
  rewrite push_perm, deadlines_insert, Hp, (deadlines_lookup _ _ _ Hi). done.
Qed.

(** A sleeper's deadline is pending and not past, so time stops at it. *)
Lemma waiting_deadline i len c : clock_ok c -> threads c !! i = Some (Waiting len) -> next_wakeup c <= len ∧ time_ c <= len.
Proof.
  intros [Hs Hp Hf] Hi. pose proof (deadlines_lookup _ _ _ Hi) as Hl.
  assert (len ∈ wakeup_times_ c) as Hin by (rewrite Hp, Hl; left).
  split; [|by apply (proj1 (Forall_forall _ _) Hf)].
  unfold next_wakeup. destruct Hs as [|x w Hs Hx]; [by apply not_elem_of_nil in Hin|].
  apply elem_of_cons in Hin as [->|Hin]; [done|]. by apply (proj1 (Forall_forall _ _) Hx).
Qed.

(** When a sleeper's time has come its wake-up is the first pending one. *)
Lemma due_is_top i c : clock_ok c -> threads c !! i = Some (Waiting (time_ c)) ->
  ∃ w, wakeup_times_ c = time_ c :: w.
Proof.
  intros Hok Hi. destruct (waiting_deadline _ _ _ Hok Hi) as [Hn _]. destruct Hok as [Hs Hp Hf].
  unfold next_wakeup in Hn. destruct Hf as [|x w Hx Hf].
  - rewrite (deadlines_lookup _ _ _ Hi) in Hp. by apply Permutation_nil_cons in Hp.
  - exists w. f_equal. lia.
Qed.

Lemma wait_again_due i c :
  clock_ok c -> done c = false -> threads c !! i = Some (Waiting (time_ c)) ->
  ∃ w, wakeup_times_ c = time_ c :: w ∧ wait_again i (time_ c) c = set_thread i Running (set_wakeups w c).
Proof.
  intros Hok Hd Hi. destruct (due_is_top i c Hok Hi) as [w Ew]. exists w. split; [done|].
  unfold wait_again, wake_up. by rewrite Hd, Z.leb_refl, Ew, Z.eqb_refl.
Qed.

Lemma wait_again_early i len c : done c = false -> time_ c < len -> wait_again i len c = c.
Proof. intros Hd Hlt. unfold wait_again, wake_up. rewrite Hd. by destruct (Z.leb_spec len (time_ c)); [lia|]. Qed.

Lemma wait_again_ok i len c :
  clock_ok c -> done c = false -> threads c !! i = Some (Waiting len) -> clock_ok (wait_again i len c).
Proof.
  intros Hok Hd Hi. destruct (waiting_deadline _ _ _ Hok Hi) as [_ Hle].
  destruct (Z.eq_dec len (time_ c)) as [->|Hne]; [|rewrite wait_again_early; [done|done|lia]].
  destruct (wait_again_due i c Hok Hd Hi) as (w & Ew & ->). destruct Hok as [Hs Hp Hf].
  rewrite Ew in Hs, Hp, Hf. constructor; simpl.
  - by inversion Hs.
  - rewrite deadlines_insert. rewrite (deadlines_lookup _ _ _ Hi) in Hp. simpl in *. by apply Permutation_cons_inv in Hp.
  - by inversion Hf.
Qed.

Lemma manager_tick_ok c : clock_ok c -> clock_ok (manager_tick c).
Proof.
  intros [Hs Hp Hf]. unfold manager_tick. case_test; [|done]. constructor; [done|done|]. simpl.
  unfold next_wakeup in *. destruct Hs as [|x w Hs Hx]; [done|]. constructor; [done|]. done.
Qed.

Lemma clock_step_done c c' : clock_step c c' -> done c = true -> done c' = true.
Proof.
  intros [] Hd; try done; unfold sleep_until, wait_again, wake_up, manager_tick, set_wakeup; simpl; rewrite ?Hd;
    repeat case_match; done.
Qed.

Lemma clock_step_ok c c' : clock_step c c' -> done c' = false -> clock_ok c -> clock_ok c'.
Proof.
  intros H Hd' Hok. assert (done c = false) as Hd.
  { destruct (done c) eqn:E; [|done]. by rewrite (clock_step_done c c' H E) in Hd'. }
  destruct H as [i Hi|i len Hi|i len Hi|i Hi|Hi|].
  - apply set_thread_ok; [by rewrite Hi|done|done].
  - by apply sleep_until_ok.
  - by apply wait_again_ok.
  - apply set_thread_ok; [rewrite Hi; by intros t0 [= <-]|done|done].
  - by apply manager_tick_ok.
  - done.
Qed.

Lemma clock_reachable_ok t0 c : rtc clock_step (clock_init t0) c -> done c = false -> clock_ok c.
Proof.
  intros H. apply (rtc_ind_r (R := clock_step) (λ c, done c = false -> clock_ok c) (clock_init t0)); [..|exact H].
  - intros _. constructor; simpl; [constructor|done|constructor].
  - intros y z _ Hyz IH Hz. apply (clock_step_ok y z Hyz Hz), IH.
    destruct (done y) eqn:E; [|done]. by rewrite (clock_step_done y z Hyz E) in Hz.
Qed.

(** In every reachable state before shutdown, time has not passed the deadline of any
    sleeping thread, and a woken thread returns from [sleep_until] exactly when the clock
    shows its deadline, for any interleaving of threads, spurious wake-ups and the
    manager. *)
Theorem sleep_returns_on_time (t0 : Z) (c : Clock) (i : nat) (len : Z) :
  rtc clock_step (clock_init t0) c -> done c = false -> threads c !! i = Some (Waiting len) ->
  time_ c <= len ∧ (threads (wait_again i len c) !! i = Some Running <-> time_ c = len).
Proof.
  intros Hr Hd Hi. pose proof (clock_reachable_ok t0 c Hr Hd) as Hok.
  destruct (waiting_deadline _ _ _ Hok Hi) as [_ Hle]. split; [done|].
  destruct (Z.eq_dec len (time_ c)) as [->|Hne].
  - destruct (wait_again_due i c Hok Hd Hi) as (w & _ & ->). simpl. by rewrite lookup_insert_eq.
  - rewrite wait_again_early by (done || lia). rewrite Hi. split; [done|lia].
Qed.

Lemma wake_up_time len c c' : wake_up len c = Some c' -> time_ c' = time_ c.
Proof. unfold wake_up. repeat case_match; intros [= <-]; done. Qed.

Lemma clock_step_time c c' : clock_step c c' -> time_ c <= time_ c'.
Proof.
  intros []; try done.
  - unfold sleep_until. case_match; [done|]. case_match eqn:E; [|done].
    apply wake_up_time in E. by rewrite E.
  - unfold wait_again. case_match eqn:E; [|done]. apply wake_up_time in E. simpl. by rewrite E.
  - unfold manager_tick. by case_test.
Qed.

Lemma deadlines_elem m len : len ∈ deadlines m -> ∃ i, m !! i = Some (Waiting len).
Proof.
  unfold deadlines. intros ([i t] & Ht & Hin)%list_elem_of_bind. apply elem_of_map_to_list in Hin.
  exists i. destruct t; simpl in Ht; try by apply not_elem_of_nil in Ht.
  apply list_elem_of_singleton in Ht. by subst.
Qed.

(** The wake-ups that follow a tick, of any sleepers in any order, spurious ones included. *)
Inductive wake_step (c : Clock) : Clock -> Prop :=
| wake_one i len : threads c !! i = Some (Waiting len) -> wake_step c (wait_again i len c).

(** Time and the flag stay, and nobody starts to sleep. *)
Lemma wake_steps_keep c c' :
  rtc wake_step c c' -> clock_ok c -> done c = false ->
  clock_ok c' ∧ done c' = false ∧ time_ c' = time_ c
  ∧ ∀ i len, threads c' !! i = Some (Waiting len) -> threads c !! i = Some (Waiting len).
Proof.
  intros Hr Hok Hd. revert Hr. apply (rtc_ind_r (R := wake_step)
    (λ c', clock_ok c' ∧ done c' = false ∧ time_ c' = time_ c
      ∧ ∀ i len, threads c' !! i = Some (Waiting len) -> threads c !! i = Some (Waiting len)) c); [done|].
  intros y z _ [i len Hi] (H1 & H2 & H3 & H4).
  split; [by apply wait_again_ok|]. destruct (waiting_deadline _ _ _ H1 Hi) as [_ Hle].
  destruct (Z.eq_dec len (time_ y)) as [->|Hne]; [|by rewrite wait_again_early by (done || lia)].
  destruct (wait_again_due i y H1 H2 Hi) as (w & _ & ->). split_and!; [done|done|]. intros j l. cbn.
  destruct (decide (i = j)) as [->|Hij]; [by rewrite lookup_insert_eq|rewrite lookup_insert_ne by done; apply H4].
Qed.

(** C17: The simulated clock never gets stuck before shutdown: when no thread runs and some
    thread sleeps, one tick of the manager brings time to the earliest deadline, without
    moving back and without raising the shutdown; and however many sleepers have tested their
    condition since, in whatever order, a thread with that deadline runs when it tests its own,
    at that time, while a thread with a later deadline goes on sleeping. *)
Theorem clock_progress (t0 : Z) (c : Clock) :
  rtc clock_step (clock_init t0) c -> done c = false ->
  (∀ i, threads c !! i ≠ Some Running) -> (∃ i len, threads c !! i = Some (Waiting len)) ->
  let c1 := manager_tick c in
  clock_step c c1 ∧ time_ c <= time_ c1 ∧ done c1 = false ∧ threads c1 = threads c
  ∧ (∃ i, threads c !! i = Some (Waiting (time_ c1)))
  ∧ (∀ j l, threads c !! j = Some (Waiting l) -> time_ c1 <= l)
  ∧ ∀ c' i len, rtc wake_step c1 c' -> threads c' !! i = Some (Waiting len) ->
      if len =? time_ c1
      then threads (wait_again i len c') !! i = Some Running ∧ time_ (wait_again i len c') = len
      else wait_again i len c' = c'.
Proof.
  intros Hr Hd Hn (i0 & l0 & H0) c1. pose proof (clock_reachable_ok t0 c Hr Hd) as Hok.
  pose proof Hok as [Hs Hp Hf]. destruct (wakeup_times_ c) as [|x w] eqn:Ew.
  { rewrite (deadlines_lookup _ _ _ H0) in Hp. by apply Permutation_nil_cons in Hp. }
  assert (c1 = set_time x c) as Et.
  { unfold c1, manager_tick, next_wakeup. rewrite Ew. apply Forall_cons in Hf as [Hx _].
    by destruct (Z.leb_spec (time_ c) x); [|lia]. }
  assert (clock_step c c1) as Hst by (by constructor). clearbody c1. subst c1.
  pose proof (clock_step_ok _ _ Hst Hd Hok) as Hok'. split_and!; try done.
  - by apply Forall_cons in Hf as [Hx _].
  - apply deadlines_elem. rewrite <- Hp. left.
  - intros j l Hj. destruct (waiting_deadline _ _ _ Hok Hj) as [H _]. unfold next_wakeup in H. by rewrite Ew in H.
  - intros c' i len Hw Hi. destruct (wake_steps_keep _ _ Hw Hok' Hd) as (H1 & H2 & H3 & _).
    destruct (waiting_deadline _ _ _ H1 Hi) as [_ Hle]. rewrite H3 in Hle.
    destruct (Z.eqb_spec len (time_ (set_time x c))) as [->|Hne]; [|apply wait_again_early; [done|lia]].
    rewrite <- H3 in *. destruct (wait_again_due i c' H1 H2 Hi) as (w' & _ & ->). split; [apply lookup_insert_eq|done].
Qed.

(** One thread asleep until 5 ns. *)
Definition one_sleeper : Clock := sleep_until 0 5 (set_thread 0 Running (clock_init 0)).

Lemma one_sleeper_reachable : rtc clock_step (clock_init 0) one_sleeper.
Proof.
  eapply rtc_l; [by apply (step_instance _ 0%nat)|]. apply rtc_once. by apply step_sleep.
Qed.

Lemma sleep_returns_witness :
  time_ one_sleeper <= 5 ∧ (threads (wait_again 0 5 one_sleeper) !! 0%nat = Some Running <-> time_ one_sleeper = 5).
Proof. apply (sleep_returns_on_time 0 one_sleeper 0 5 one_sleeper_reachable); reflexivity. Defined.

Lemma clock_progress_witness :
  time_ (manager_tick one_sleeper) = 5 ∧ threads (wait_again 0 5 (manager_tick one_sleeper)) !! 0%nat = Some Running.
Proof.
  split; [reflexivity|].
  destruct (clock_progress 0 one_sleeper one_sleeper_reachable) as (_ & _ & _ & _ & _ & _ & H).
  - reflexivity.
  - intros i. destruct (decide (i = 0%nat)) as [->|Hne]; [done|].
    change (threads one_sleeper) with (<[0%nat := Waiting 5]> (<[0%nat := Running]> (∅ : gmap nat thread))).
    by rewrite !lookup_insert_ne.
  - exists 0%nat, 5. reflexivity.
  - apply (H (manager_tick one_sleeper) 0%nat 5); [apply rtc_refl|reflexivity].
Defined.

(** *** Shutdown *)

(** After the shutdown was raised nobody sleeps any more: it stays raised, a thread that
    sleeps returns as soon as it is woken, at whatever time, and a thread that starts to
    sleep does not wait. *)
Theorem shutdown_releases (c c' : Clock) (i : nat) (len : Z) :
  rtc clock_step (RaiseShutdown c) c' ->
  IsShutdown c' = true
  ∧ (threads c' !! i = Some (Waiting len) -> threads (wait_again i len c') !! i = Some Running ∧ time_ (wait_again i len c') = time_ c')
  ∧ (threads c' !! i = Some Running -> threads (sleep_until i len c') !! i = Some Running).
Proof.
  intros Hr. assert (done c' = true) as Hd.
  { revert Hr. apply (rtc_ind_r (R := clock_step) (λ c', done c' = true)); [done|]. intros y z _ H IH. by eapply clock_step_done. }
  split_and!; [done|..]; intros Hi.
  - unfold wait_again, wake_up. rewrite Hd. split; [apply lookup_insert_eq|done].
  - unfold sleep_until, wake_up, set_wakeup. destruct (len <=? time_ c'); [done|]. cbn. by rewrite Hd.
Qed.

Lemma shutdown_releases_witness : threads (wait_again 0 5 (RaiseShutdown one_sleeper)) !! 0%nat = Some Running.
Proof. apply (shutdown_releases one_sleeper (RaiseShutdown one_sleeper) 0 5); [apply rtc_refl|reflexivity]. Defined.

(** ** The real clock *)

(** [now] from what [clock_gettime] gives. *)
Definition now_real (tv_sec tv_nsec : Z) : Z := tv_nsec + tv_sec * 1000000000.

(** Which clock is used, and where the simulated one starts. *)
Definition SetFakeClock (is_fake set_start_time : bool) (c : Clock) : bool * Clock :=
  (is_fake, if set_start_time then set_time 0 c else c).

Definition now (fake_clock : bool) (tv_sec tv_nsec : Z) (c : Clock) : Z :=
  if negb fake_clock then now_real tv_sec tv_nsec else time_ c.

(** The absolute time [sleep_until] gives to [clock_nanosleep]. *)
Definition sleep_timespec (len : Z) : Z * Z :=
  let tv_sec := Z.quot len 1000000000 in (tv_sec, len - tv_sec * 1000000000).

(** From the epoch on, the time slept until is a valid [timespec] and reads back as asked for. *)
Theorem sleep_timespec_exact (len : Z) :
  0 <= len ->
  let '(tv_sec, tv_nsec) := sleep_timespec len in
  0 <= tv_sec ∧ 0 <= tv_nsec < 1000000000 ∧ now_real tv_sec tv_nsec = len.
Proof.
  intros H. unfold sleep_timespec, now_real. cbv zeta. rewrite Z.quot_div_nonneg by lia.
  pose proof (Z.div_mod len 1000000000 ltac:(lia)). pose proof (Z.mod_pos_bound len 1000000000 ltac:(lia)).
  split_and!; lia.
Qed.

(** ** Periodic loops *)

(** [Loop::WaitForNext] up to its sleep: the trigger it sleeps until.  [now k] is the
    reading of the clock in iteration [k]. *)
Fixpoint WaitForNext (fuel : nat) (now : nat -> Z) (k : nat) (period_ last_trigger_ : Z) : option Z :=
  match fuel with
  | O => None
  | S fuel =>
      let time := now k in
      let last_trigger_ := last_trigger_ + period_ in
      if last_trigger_ <? time then WaitForNext fuel now (S k) period_ last_trigger_ else Some last_trigger_
  end.

Lemma WaitForNext_spec fuel now k p last bound :
  0 < p -> (∀ j, now j <= bound) -> (Z.to_nat (bound - last) < fuel)%nat ->
  ∃ n : nat, WaitForNext fuel now k p last = Some (last + Z.of_nat (S n) * p)
    ∧ now (k + n)%nat <= last + Z.of_nat (S n) * p
    ∧ (∀ m, (m < n)%nat -> last + Z.of_nat (S m) * p < now (k + m)%nat).
Proof.
  intros Hp Hb. revert k last. induction fuel as [|fuel IH]; intros k last Hf; [lia|]. cbn [WaitForNext]. cbv zeta.
  destruct (Z.ltb_spec (last + p) (now k)) as [Hlt|Hge].
  - pose proof (Hb k). destruct (IH (S k) (last + p)) as (n & -> & Hn & Hm); [lia|].
    exists (S n). split_and!.
    + f_equal. lia.
    + rewrite Nat.add_succ_r. simpl in Hn. lia.
    + intros [|m] Hmn; [rewrite Nat.add_0_r; lia|]. specialize (Hm m ltac:(lia)).
      rewrite Nat.add_succ_r. simpl in Hm. lia.
  - exists 0%nat. split_and!; [f_equal; lia|rewrite Nat.add_0_r; lia|lia].
Qed.

(** With a positive period the search for the next trigger ends, for any readings of
    a clock below some bound, with the first multiple of the period after the last
    trigger that the clock has not passed when it is considered: all triggers skipped
    were already past. *)
Theorem next_trigger_correct (now : nat -> Z) (period last bound : Z) :
  0 < period -> (∀ k, now k <= bound) ->
  ∃ (fuel n : nat),
    let trigger := last + Z.of_nat (S n) * period in
    WaitForNext fuel now 0 period last = Some trigger
    ∧ now n <= trigger ∧ (∀ m, (m < n)%nat -> last + Z.of_nat (S m) * period < now m).
Proof.
  intros Hp Hb. exists (S (Z.to_nat (bound - last))).
  destruct (WaitForNext_spec (S (Z.to_nat (bound - last))) now 0 period last bound) as (n & H); [done|done|lia|].
  exists n. exact H.
Qed.

Lemma next_trigger_witness :
  ∃ fuel n : nat, WaitForNext fuel (λ _, 25) 0 10 0 = Some (0 + Z.of_nat (S n) * 10) ∧ 25 <= 0 + Z.of_nat (S n) * 10.
Proof.
  destruct (next_trigger_correct (λ _, 25) 10 0 25) as (f & n & H & Hn & _); [lia|lia|].
  exists f, n. auto.
Defined.
