(* ===== verification/Num.v ===== *)
(** * The arithmetic of C++ [double] and [float]

    The control code is written over floating-point numbers.  Its model is
    written once over the class [Num] of the operations it uses, and the class
    has two instances: exact real arithmetic (NumR.v), where the analytic
    properties are proved, and IEEE binary64 (NumF.v), where the definitions run.
    [NumOrder] states the laws of comparison both instances satisfy; what is
    proved from it alone holds of the binary64 code, rounding included. *)

From Stdlib Require Import ZArith Lia.
From stdpp Require Import base list.
From S2P Require Import Prelude.

Open Scope Z_scope.

Class Num (D : Type) := {
  nadd : D -> D -> D;
  nsub : D -> D -> D;
  nmul : D -> D -> D;
  ndiv : D -> D -> D;
  nopp : D -> D;
  nabs : D -> D;
  nltb : D -> D -> bool;
  nleb : D -> D -> bool;
  neqb : D -> D -> bool;
  nofZ : Z -> D;             (* conversion from an integer type *)
  ntrunc : D -> option Z;    (* truncation towards zero; None for NaN, infinities *)
  nint_oob : Z;              (* what the target yields for an unrepresentable conversion *)
  nfloat : D -> D;           (* conversion double -> float, as a double *)
  nlt_inf : D -> bool;       (* x < std::numeric_limits<double>::infinity() *)
  npi : D;                   (* M_PI *)
  nsqrt : D -> D;
  nsin : D -> D;
  ncos : D -> D;
  natan : D -> D;
  natan2 : D -> D -> D;
  nexp : D -> D;
  nfloor : D -> D;
}.

Declare Scope num_scope.
Delimit Scope num_scope with num.
Bind Scope num_scope with Num.
Infix "+" := nadd : num_scope.
Infix "-" := nsub : num_scope.
Infix "*" := nmul : num_scope.
Infix "/" := ndiv : num_scope.
Notation "- x" := (nopp x) : num_scope.
Infix "<?" := nltb : num_scope.
Infix "<=?" := nleb : num_scope.
Infix "=?" := neqb : num_scope.
Notation "x >? y" := (nltb y x) (only parsing) : num_scope.
Notation "x >=? y" := (nleb y x) (only parsing) : num_scope.
(** An integer literal such as [90.] *)
Notation "# z" := (nofZ z%Z) (at level 1, z at level 0, format "# z") : num_scope.

Section Num.
Context {D : Type} {ND : Num D}.
Open Scope num_scope.

(** A decimal literal: [dec m k] is [m * 10^-k]; with [m < 2^53] and [k <= 22]
    both operands are exact in binary64, so the quotient is the literal's value. *)
Definition dec (m k : Z) : D := nofZ m / nofZ (10 ^ k).

(** [std::max], [std::min]: the first argument when neither is smaller. *)
Definition nmax (a b : D) : D := if a <? b then b else a.
Definition nmin (a b : D) : D := if b <? a then b else a.

(** [float] operations: one rounding each. *)
Definition faddf (a b : D) : D := nfloat (a + b).
Definition fsubf (a b : D) : D := nfloat (a - b).
Definition fmulf (a b : D) : D := nfloat (a * b).
Definition fdivf (a b : D) : D := nfloat (a / b).

Definition nisnan (x : D) : bool := negb (x =? x).

(** Conversions to integer types. *)
Definition nto (ok : Z -> bool) (x : D) : Z :=
  match ntrunc x with
  | Some z => if ok z then z else nint_oob
  | None => nint_oob
  end.
Definition nint (x : D) : Z := nto (in_s 32) x.
Definition nuint64 (x : D) : Z := nto (in_u 64) x.
End Num.

(** Comparison as both instances provide it; [nnum] excludes NaN. *)
Class NumOrder (D : Type) {ND : Num D} := {
  nnum : D -> Prop;
  nltb_num x y : nltb x y = true -> nnum x ∧ nnum y;
  nltb_irrefl x : nltb x x = false;
  nltb_trans x y z : nltb x y = true -> nltb y z = true -> nltb x z = true;
  nltb_cotrans x y z : nnum y -> nltb x z = true -> nltb x y = true ∨ nltb y z = true;
  nleb_ltb x y : nnum x -> nnum y -> nleb x y = negb (nltb y x);
}.

Section Order.
Context {D : Type} {ND : Num D} {NO : NumOrder D}.

Lemma nltb_asym x y : nltb x y = true -> nltb y x = false.
Proof.
  intros H. destruct (nltb y x) eqn:E; [|done].
  pose proof (nltb_trans _ _ _ H E) as T. by rewrite nltb_irrefl in T.
Qed.

Lemma nleb_refl x : nnum x -> nleb x x = true.
Proof. intros Hx. rewrite nleb_ltb by done. by rewrite nltb_irrefl. Qed.

Lemma nltb_leb x y : nltb x y = true -> nleb x y = true.
Proof.
  intros H. destruct (nltb_num _ _ H). rewrite nleb_ltb by done.
  by rewrite (nltb_asym _ _ H).
Qed.

Lemma nltb_nleb x y : nnum x -> nnum y -> nltb x y = false -> nleb y x = true.
Proof. intros. rewrite nleb_ltb by done. by rewrite H1. Qed.

Lemma nleb_trans x y z :
  nnum x -> nnum y -> nnum z -> nleb x y = true -> nleb y z = true -> nleb x z = true.
Proof.
  intros Hx Hy Hz. rewrite !nleb_ltb by done. intros H1 H2.
  destruct (nltb z x) eqn:E; [|done].
  destruct (nltb_cotrans z y x Hy E) as [H|H]; rewrite H in *; done.
Qed.

Lemma nmax_num a b : nnum a -> nnum b -> nnum (nmax a b).
Proof. unfold nmax. by destruct (nltb a b). Qed.

Lemma nmin_num a b : nnum a -> nnum b -> nnum (nmin a b).
Proof. unfold nmin. by destruct (nltb b a). Qed.

Lemma nmin_le_r a b : nnum a -> nnum b -> nleb (nmin a b) b = true.
Proof.
  intros. unfold nmin. destruct (nltb b a) eqn:E; [by apply nleb_refl|].
  by apply nltb_nleb.
Qed.

Lemma nmax_ge_r a b : nnum a -> nnum b -> nleb b (nmax a b) = true.
Proof.
  intros. unfold nmax. destruct (nltb a b) eqn:E; [by apply nleb_refl|].
  by apply nltb_nleb.
Qed.

Lemma nmax_le a b c : nleb a c = true -> nleb b c = true -> nleb (nmax a b) c = true.
Proof. unfold nmax. by destruct (nltb a b). Qed.

Lemma nmin_ge a b c : nleb c a = true -> nleb c b = true -> nleb c (nmin a b) = true.
Proof. unfold nmin. by destruct (nltb b a). Qed.
End Order.

#[export] Hint Resolve nmax_num nmin_num nleb_refl nmin_le_r nmax_ge_r nmax_le nmin_ge : boat.
