(* ===== verification/NumR.v ===== *)
(** * Exact real arithmetic as an instance of [Num]

    The idealised instance: no rounding, [M_PI] is pi, [double] and [float]
    coincide, and there are no NaNs or infinities. *)

From Stdlib Require Import ZArith Reals Lra Lia Zfloor.
From stdpp Require Import base tactics.
From S2P Require Import Prelude Num.

Open Scope R_scope.

Definition Rltb (x y : R) : bool := if Rlt_dec x y then true else false.
Definition Rleb (x y : R) : bool := if Rle_dec x y then true else false.
Definition Reqb (x y : R) : bool := if Req_dec_T x y then true else false.

Definition Rtrunc (x : R) : Z :=
  if Rlt_dec x 0 then (- Zfloor (- x))%Z else Zfloor x.

(** The angle of the vector [(x, y)], in (-pi, pi]. *)
Definition Ratan2 (y x : R) : R :=
  if Rlt_dec 0 x then atan (y / x)
  else if Rlt_dec x 0 then
    if Rle_dec 0 y then atan (y / x) + PI else atan (y / x) - PI
  else if Rlt_dec 0 y then PI / 2
  else if Rlt_dec y 0 then - (PI / 2) else 0.

#[export] Instance num_R : Num R := {|
  nadd := Rplus; nsub := Rminus; nmul := Rmult; ndiv := Rdiv;
  nopp := Ropp; nabs := Rabs;
  nltb := Rltb; nleb := Rleb; neqb := Reqb;
  nofZ := IZR; ntrunc := λ x, Some (Rtrunc x); nint_oob := 0%Z;
  nfloat := λ x, x; nlt_inf := λ _, true; npi := PI;
  nsqrt := sqrt; nsin := sin; ncos := cos; natan := atan; natan2 := Ratan2;
  nexp := exp; nfloor := λ x, IZR (Zfloor x);
|}.

Lemma Rltb_spec x y : Bool.reflect (x < y) (Rltb x y).
Proof. unfold Rltb. destruct (Rlt_dec x y); by constructor. Qed.

Lemma Rleb_spec x y : Bool.reflect (x <= y) (Rleb x y).
Proof. unfold Rleb. destruct (Rle_dec x y); by constructor. Qed.

Lemma Reqb_spec x y : Bool.reflect (x = y) (Reqb x y).
Proof. unfold Reqb. destruct (Req_dec_T x y); by constructor. Qed.

(** Case analysis on the first comparison of reals in the goal. *)
Ltac case_R :=
  match goal with
  | |- context [Rltb ?a ?b] => destruct (Rltb_spec a b)
  | |- context [Rleb ?a ?b] => destruct (Rleb_spec a b)
  | |- context [Reqb ?a ?b] => destruct (Reqb_spec a b)
  end.

(** Decimal literals of the goal as fractions. *)
Ltac dec_R :=
  unfold dec; simpl;
  try change (IZR (10 ^ 1)) with 10; try change (IZR (10 ^ 2)) with 100;
  try change (IZR (10 ^ 3)) with 1000; try change (IZR (10 ^ 4)) with 10000.

#[export] Instance num_order_R : NumOrder R.
Proof.
  refine {| nnum := λ _, True |}; simpl; intros *; repeat case_R; try done; try lra.
Defined.

Lemma Rtrunc_bound x : Rabs (x - IZR (Rtrunc x)) < 1 ∧ Rabs (IZR (Rtrunc x)) <= Rabs x.
Proof.
  unfold Rtrunc. destruct (Rlt_dec x 0).
  - pose proof (Zfloor_bound (- x)). rewrite opp_IZR.
    assert (0 <= IZR (Zfloor (- x))) by (apply IZR_le, Zfloor_lub; lra).
    rewrite (Rabs_left x), (Rabs_left1 (- _)) by lra.
    split; [apply Rabs_def1; lra | lra].
  - pose proof (Zfloor_bound x).
    assert (0 <= IZR (Zfloor x)) by (apply IZR_le, Zfloor_lub; lra).
    rewrite !(Rabs_right x), (Rabs_right (IZR _)) by lra.
    split; [apply Rabs_def1; lra | lra].
Qed.

(** The trigonometric functions over whole turns. *)
Lemma sin_turns a k : sin (a - IZR k * (2 * PI)) = sin a.
Proof.
  destruct (Z_le_gt_dec 0 k) as [H|H].
  - rewrite <- (sin_period _ (Z.to_nat k)), INR_IZR_INZ, Z2Nat.id by lia. f_equal. lra.
  - rewrite <- (sin_period a (Z.to_nat (- k))), INR_IZR_INZ, Z2Nat.id, opp_IZR by lia. f_equal. lra.
Qed.

Lemma cos_turns a k : cos (a - IZR k * (2 * PI)) = cos a.
Proof.
  destruct (Z_le_gt_dec 0 k) as [H|H].
  - rewrite <- (cos_period _ (Z.to_nat k)), INR_IZR_INZ, Z2Nat.id by lia. f_equal. lra.
  - rewrite <- (cos_period a (Z.to_nat (- k))), INR_IZR_INZ, Z2Nat.id, opp_IZR by lia. f_equal. lra.
Qed.

(** [atan2] recovers the angle of a vector of any positive length, by quadrant. *)
Lemma Ratan2_right k t : 0 < k -> - (PI / 2) < t < PI / 2 -> Ratan2 (k * sin t) (k * cos t) = t.
Proof.
  intros Hk Ht. pose proof (cos_gt_0 t ltac:(lra) ltac:(lra)). unfold Ratan2.
  destruct (Rlt_dec 0 (k * cos t)); [|nra].
  replace (k * sin t / (k * cos t)) with (tan t) by (unfold tan; field; lra). by apply atan_tan.
Qed.

Lemma Ratan2_left k t s :
  0 < k -> s = PI ∨ s = - PI -> - (PI / 2) < t - s < PI / 2 ->
  (if Rle_dec 0 (k * sin t) then PI else - PI) = s -> Ratan2 (k * sin t) (k * cos t) = t.
Proof.
  intros Hk Hs Ht Hsel. pose proof (cos_gt_0 (t - s) ltac:(lra) ltac:(lra)) as Hc.
  assert (sin t = - sin (t - s) ∧ cos t = - cos (t - s)) as [Es Ec].
  { rewrite sin_minus, cos_minus. destruct Hs as [-> | ->];
      rewrite ?sin_neg, ?cos_neg, sin_PI, cos_PI; lra. }
  unfold Ratan2. destruct (Rlt_dec 0 (k * cos t)); [nra|]. destruct (Rlt_dec (k * cos t) 0); [|nra].
  assert (k * sin t / (k * cos t) = tan (t - s)) as -> by (rewrite Es, Ec; unfold tan; field; lra).
  rewrite atan_tan by lra. destruct (Rle_dec 0 (k * sin t)); lra.
Qed.

Lemma Ratan2_polar k t : 0 < k -> - PI < t <= PI -> Ratan2 (k * sin t) (k * cos t) = t.
Proof.
  intros Hk Ht. pose proof PI_RGT_0.
  destruct (Rlt_dec (- (PI / 2)) t) as [H1|H1]; [destruct (Rlt_dec t (PI / 2)) as [H2|H2]|].
  - by apply Ratan2_right.
  - destruct (Req_dec_T t (PI / 2)) as [->|Hne].
    + rewrite sin_PI2, cos_PI2. unfold Ratan2. repeat destruct (Rlt_dec _ _); lra.
    + apply Ratan2_left with PI; [done|by left|lra|].
      pose proof (sin_ge_0 t ltac:(lra) ltac:(lra)). destruct (Rle_dec _ _); [done|nra].
  - destruct (Req_dec_T t (- (PI / 2))) as [->|Hne].
    + rewrite sin_neg, cos_neg, sin_PI2, cos_PI2. unfold Ratan2. repeat destruct (Rlt_dec _ _); lra.
    + apply Ratan2_left with (- PI); [done|by right|lra|].
      pose proof (sin_lt_0_var t ltac:(lra) ltac:(lra)). destruct (Rle_dec _ _); [nra|done].
Qed.

(** [Ratan2] is the angle of polar coordinates. *)
Lemma atan_polar t : sqrt (1 + t * t) * cos (atan t) = 1 ∧ sqrt (1 + t * t) * sin (atan t) = t.
Proof.
  assert (0 < sqrt (1 + t * t)) by (apply sqrt_lt_R0; nra).
  rewrite cos_atan, sin_atan. unfold Rsqr. split; field; lra.
Qed.

Lemma Ratan2_cartesian y x :
  sqrt (x * x + y * y) * cos (Ratan2 y x) = x ∧ sqrt (x * x + y * y) * sin (Ratan2 y x) = y.
Proof.
  assert (∀ k, 0 < k -> k * k = x * x -> sqrt (x * x + y * y) = k * sqrt (1 + y / x * (y / x))) as Hr.
  { intros k Hk Ek. assert (x <> 0) by nra. rewrite <- (sqrt_square k) at 1 by lra. rewrite <- sqrt_mult by nra.
    f_equal. rewrite Ek. field. done. }
  destruct (atan_polar (y / x)) as [Hc Hs]. unfold Ratan2.
  destruct (Rlt_dec 0 x); [|destruct (Rlt_dec x 0)].
  - rewrite (Hr x) by lra. rewrite !Rmult_assoc, Hc, Hs. split; [lra|field; lra].
  - rewrite (Hr (- x)) by lra.
    assert (∀ a, cos a = - cos (atan (y / x)) -> sin a = - sin (atan (y / x)) ->
      - x * sqrt (1 + y / x * (y / x)) * cos a = x ∧ - x * sqrt (1 + y / x * (y / x)) * sin a = y) as Hp.
    { intros a -> ->. split.
      - replace (- x * _ * _) with (x * (sqrt (1 + y / x * (y / x)) * cos (atan (y / x)))) by ring. rewrite Hc. ring.
      - replace (- x * _ * _) with (x * (sqrt (1 + y / x * (y / x)) * sin (atan (y / x)))) by ring. rewrite Hs. field. lra. }
    destruct (Rle_dec 0 y); apply Hp.
    + by rewrite neg_cos.
    + by rewrite neg_sin.
    + replace (atan (y / x) - PI) with (atan (y / x) + PI - 2 * PI) by lra.
      pose proof (cos_turns (atan (y / x) + PI) 1) as E. rewrite Rmult_1_l in E. by rewrite E, neg_cos.
    + replace (atan (y / x) - PI) with (atan (y / x) + PI - 2 * PI) by lra.
      pose proof (sin_turns (atan (y / x) + PI) 1) as E. rewrite Rmult_1_l in E. by rewrite E, neg_sin.
  - assert (x = 0) as -> by lra. rewrite Rmult_0_l, Rplus_0_l.
    destruct (Rlt_dec 0 y); [|destruct (Rlt_dec y 0)].
    + rewrite sqrt_square, cos_PI2, sin_PI2 by lra. lra.
    + replace (y * y) with (- y * - y) by ring. rewrite sqrt_square, cos_neg, sin_neg, cos_PI2, sin_PI2 by lra. lra.
    + assert (y = 0) as -> by lra. rewrite Rmult_0_l, sqrt_0. lra.
Qed.
