(* ===== verification/NumF.v ===== *)
(** * IEEE binary64 as an instance of [Num]

    The executable instance, over the kernel's primitive floats.  The
    transcendental functions of the C library are not determined by its standard:
    they are the fields of [Libm], with the target's result for a conversion to
    an integer that does not represent the value. *)

From Stdlib Require Import ZArith Lia Floats.
From stdpp Require Import base tactics.
From S2P Require Import Prelude Num.

Open Scope Z_scope.

Record Libm := {
  m_sin : float -> float;
  m_cos : float -> float;
  m_atan : float -> float;
  m_atan2 : float -> float -> float;
  m_exp : float -> float;
  m_int_oob : Z;
}.

(** Rounding of an integer to the nearest binary64. *)
Definition float_ofZ (z : Z) : float := SF2Prim (binary_normalize prec emax z 0 false).

(** The integer part of a finite number, [None] for NaN and infinities. *)
Definition float_trunc (x : float) : option Z :=
  match Prim2SF x with
  | S754_zero _ => Some 0
  | S754_finite s m e =>
      let a := if 0 <=? e then Zpos m * 2 ^ e else Zpos m / 2 ^ (- e) in
      Some (if s then - a else a)
  | _ => None
  end.

(** Rounding to binary32 (round to nearest, 24 bits, exponents below 128), as a
    binary64 number. *)
Definition float_single (x : float) : float :=
  match Prim2SF x with
  | S754_finite s m e =>
      match binary_round 24 128 s m e with
      | S754_finite s' m' e' => SF2Prim (binary_round prec emax s' m' e')
      | y => SF2Prim y
      end
  | _ => x
  end.

Definition float_floor (x : float) : float :=
  match Prim2SF x with
  | S754_finite s m e =>
      if 0 <=? e then x
      else float_ofZ (if s then - ((Zpos m + 2 ^ (- e) - 1) / 2 ^ (- e)) else Zpos m / 2 ^ (- e))
  | _ => x
  end.

Definition num_float (L : Libm) : Num float := {|
  nadd := PrimFloat.add; nsub := PrimFloat.sub; nmul := PrimFloat.mul;
  ndiv := PrimFloat.div; nopp := PrimFloat.opp; nabs := PrimFloat.abs;
  nltb := PrimFloat.ltb; nleb := PrimFloat.leb; neqb := PrimFloat.eqb;
  nofZ := float_ofZ; ntrunc := float_trunc; nint_oob := m_int_oob L;
  nfloat := float_single; nlt_inf := λ x, PrimFloat.ltb x infinity;
  npi := 0x1.921fb54442d18p+1%float;
  nsqrt := PrimFloat.sqrt; nsin := m_sin L; ncos := m_cos L; natan := m_atan L;
  natan2 := m_atan2 L; nexp := m_exp L; nfloor := float_floor;
|}.

(** ** The order of binary64 numbers *)

Definition sf_nan (x : spec_float) : bool :=
  match x with S754_nan => true | _ => false end.

(** [SFltb] is the strict order of sign, exponent and mantissa, NaN excluded. *)
Lemma SFltb_irrefl x : SFltb x x = false.
Proof.
  destruct x as [s|s| |s m e]; try destruct s; try done;
    unfold SFltb, SFcompare; rewrite Z.compare_refl;
    change (Pos.compare_cont Eq m m) with (Pos.compare m m);
    by rewrite Pos.compare_refl.
Qed.

Ltac sf_cases :=
  unfold SFltb, SFleb, SFcompare, sf_nan;
  repeat match goal with
  | |- context [Z.compare ?a ?b] => destruct (Z.compare_spec a b); subst
  | |- context [Pos.compare_cont Eq ?a ?b] =>
      change (Pos.compare_cont Eq a b) with (Pos.compare a b);
      destruct (Pos.compare_spec a b); subst
  end; simpl; try done; try lia.

Lemma SFltb_trans x y z : SFltb x y = true -> SFltb y z = true -> SFltb x z = true.
Proof.
  destruct x as [[]|[]| |[] m e]; destruct y as [[]|[]| |[] m' e'];
    destruct z as [[]|[]| |[] m'' e'']; try done; sf_cases.
Qed.

Lemma SFltb_cotrans x y z :
  sf_nan y = false -> SFltb x z = true -> SFltb x y = true ∨ SFltb y z = true.
Proof.
  destruct x as [[]|[]| |[] m e]; destruct y as [[]|[]| |[] m' e'];
    destruct z as [[]|[]| |[] m'' e'']; try done; try (by left); try (by right);
    sf_cases; auto.
Qed.

Lemma SFleb_ltb x y :
  sf_nan x = false -> sf_nan y = false -> SFleb x y = negb (SFltb y x).
Proof.
  destruct x as [[]|[]| |[] m e]; destruct y as [[]|[]| |[] m' e']; try done; sf_cases.
Qed.

Lemma SFltb_num x y : SFltb x y = true -> sf_nan x = false ∧ sf_nan y = false.
Proof. destruct x, y; try done; by destruct s. Qed.

Definition num_order_float (L : Libm) : @NumOrder float (num_float L).
Proof.
  refine {| nnum := λ x, sf_nan (Prim2SF x) = false |}; simpl; intros *.
  - rewrite ltb_spec. apply SFltb_num.
  - rewrite ltb_spec. apply SFltb_irrefl.
  - rewrite !ltb_spec. apply SFltb_trans.
  - rewrite !ltb_spec. apply SFltb_cotrans.
  - rewrite ltb_spec, leb_spec. apply SFleb_ltb.
Defined.

(** ** A library to run the definitions with

    Low-order polynomial approximations; the concrete inputs of this development
    only use it where the result does not depend on their accuracy. *)

Definition libm_poly : Libm :=
  let c z := float_ofZ z in
  let atan (x : float) := (x - x * x * x / c 3%Z + x * x * x * x * x / c 5%Z)%float in
  {| m_sin := λ x, (x - x * x * x / c 6%Z + x * x * x * x * x / c 120%Z)%float;
     m_cos := λ x, (c 1%Z - x * x / c 2%Z + x * x * x * x / c 24%Z)%float;
     m_atan := atan;
     m_atan2 := λ y x, if (c 0%Z <? x)%float then atan (y / x)%float else
                       if (c 0%Z <=? y)%float then (0x1.921fb54442d18p+1 + atan (y / x))%float
                       else (atan (y / x) - 0x1.921fb54442d18p+1)%float;
     m_exp := λ x, (c 1%Z + x + x * x / c 2%Z + x * x * x / c 6%Z)%float;
     m_int_oob := - 2 ^ 31 |}.

(** Binary64 with [libm_poly]. *)
Definition num_poly : Num float := num_float libm_poly.
