(* ===== verification/Loops.v ===== *)
(** * Nodes in simulated time

    src/util/node.cc with the loop and the simulated clock of src/util/clock.cc: nodes that
    wait for the next trigger of their loop, beside other threads that sleep, and the
    manager that moves the time.  A node's state has its loop and, to state what happens,
    the time of its construction and the times of its iterations. *)

From Stdlib Require Import ZArith Lia Floats.
From stdpp Require Import base list gmap relations.
From S2P Require Import Prelude Clock Num NumF.

#[local] Open Scope Z_scope.

(** [Loop]: its constructor converts the period in seconds to nanoseconds. *)
Definition loop_period {D : Type} {ND : Num D} (period : D) : Z := nto (in_s 64) (nmul period (nofZ 1000000000)).

Record Loop := MkLoop { period_ : Z; last_trigger_ : Z }.

Record LoopNode := MkLoopNode {
  nd_loop : Loop;
  nd_start : Z;
  nd_iterations : list Z;
}.

Definition Loop_init (period : Z) (c : Clock) : Loop := MkLoop period (time_ c).

Record Sim := MkSim { sim_clock : Clock; sim_nodes : gmap nat LoopNode }.

Definition runs (i : nat) (c : Clock) : bool :=
  match threads c !! i with Some Running => true | _ => false end.

(** [Iterate], when the thread is back from [WaitForNext] and the process is not shutting
    down. *)
Definition iterate_if_back (i : nat) (c : Clock) (nd : LoopNode) : LoopNode :=
  if runs i c && negb (done c) then MkLoopNode (nd_loop nd) (nd_start nd) (nd_iterations nd ++ [time_ c]) else nd.

(** The call of [WaitForNext] in [Run]: the trigger is stored before the sleep. *)
Definition node_wait (i : nat) (trigger : Z) (nd : LoopNode) (s : Sim) : Sim :=
  let c := sleep_until i trigger (sim_clock s) in
  let nd := MkLoopNode (MkLoop (period_ (nd_loop nd)) trigger) (nd_start nd) (nd_iterations nd) in
  MkSim c (<[i := iterate_if_back i c nd]> (sim_nodes s)).

(** A node's thread woken in its sleep. *)
Definition node_wake (i : nat) (len : Z) (nd : LoopNode) (s : Sim) : Sim :=
  let c := wait_again i len (sim_clock s) in
  MkSim c (<[i := iterate_if_back i c nd]> (sim_nodes s)).

(** The steps of a thread that is not a node. *)
Inductive thread_step (i : nat) (c : Clock) : Clock -> Prop :=
| ts_instance : threads c !! i = None -> thread_step i c (set_thread i Running c)
| ts_sleep len : threads c !! i = Some Running -> thread_step i c (sleep_until i len c)
| ts_wake len : threads c !! i = Some (Waiting len) -> thread_step i c (wait_again i len c)
| ts_cleanup : threads c !! i = Some Running -> thread_step i c (set_thread i Released c).

Inductive sim_step (s : Sim) : Sim -> Prop :=
| sim_construct i p :
    threads (sim_clock s) !! i = None -> sim_nodes s !! i = None -> 0 < p ->
    sim_step s (MkSim (set_thread i Running (sim_clock s))
                  (<[i := MkLoopNode (Loop_init p (sim_clock s)) (time_ (sim_clock s)) []]> (sim_nodes s)))
| sim_wait i nd fuel trigger :
    threads (sim_clock s) !! i = Some Running -> sim_nodes s !! i = Some nd ->
    WaitForNext fuel (λ _, time_ (sim_clock s)) 0 (period_ (nd_loop nd)) (last_trigger_ (nd_loop nd)) = Some trigger ->
    sim_step s (node_wait i trigger nd s)
| sim_wake i nd len :
    threads (sim_clock s) !! i = Some (Waiting len) -> sim_nodes s !! i = Some nd -> sim_step s (node_wake i len nd s)
| sim_done i nd :
    threads (sim_clock s) !! i = Some Running -> sim_nodes s !! i = Some nd ->
    sim_step s (MkSim (set_thread i Released (sim_clock s)) (sim_nodes s))
| sim_other i c' :
    sim_nodes s !! i = None -> thread_step i (sim_clock s) c' -> sim_step s (MkSim c' (sim_nodes s))
| sim_tick :
    (∀ i, threads (sim_clock s) !! i ≠ Some Running) -> sim_step s (MkSim (manager_tick (sim_clock s)) (sim_nodes s))
| sim_shutdown :
    sim_step s (MkSim (MkClock (time_ (sim_clock s)) (wakeup_times_ (sim_clock s)) true (threads (sim_clock s))) (sim_nodes s)).

Definition sim_init (start_time : Z) : Sim := MkSim (clock_init start_time) ∅.

(** ** Every trigger is met *)

(** The [n]-th trigger after the construction. *)
Definition nth_trigger (nd : LoopNode) (n : nat) : Z := nd_start nd + Z.of_nat n * period_ (nd_loop nd).

(** A node of a reachable state: its iterations so far, and what its thread does. *)
Record node_ok (c : Clock) (i : nat) (nd : LoopNode) : Prop := {
  nk_period : 0 < period_ (nd_loop nd);
  nk_iterations : nd_iterations nd = nth_trigger nd <$> seq 1 (length (nd_iterations nd));
  nk_running : threads c !! i = Some Running ->
    last_trigger_ (nd_loop nd) = time_ c ∧ time_ c = nth_trigger nd (length (nd_iterations nd));
  nk_waiting len : threads c !! i = Some (Waiting len) ->
    last_trigger_ (nd_loop nd) = len ∧ len = nth_trigger nd (S (length (nd_iterations nd)));
  nk_known : threads c !! i ≠ None;
}.

Record sim_ok (s : Sim) : Prop := {
  so_clock : clock_ok (sim_clock s);
  so_nodes i nd : sim_nodes s !! i = Some nd -> node_ok (sim_clock s) i nd;
}.

Lemma sleep_until_frame i len c :
  time_ (sleep_until i len c) = time_ c ∧ ∀ j, j ≠ i -> threads (sleep_until i len c) !! j = threads c !! j.
Proof.
  unfold sleep_until, wake_up, set_wakeup, set_wakeups, set_thread. simpl. repeat case_match; simplify_eq; simpl;
    (split; [done|]); intros j Hj; by rewrite ?lookup_insert_ne.
Qed.

Lemma wait_again_frame i len c :
  time_ (wait_again i len c) = time_ c ∧ ∀ j, j ≠ i -> threads (wait_again i len c) !! j = threads c !! j.
Proof.
  unfold wait_again, wake_up, set_wakeups, set_thread. repeat case_match; simplify_eq; simpl;
    (split; [done|]); intros j Hj; by rewrite ?lookup_insert_ne.
Qed.

Lemma thread_step_frame i c c' :
  thread_step i c c' -> time_ c' = time_ c ∧ ∀ j, j ≠ i -> threads c' !! j = threads c !! j.
Proof.
  intros []; auto using sleep_until_frame, wait_again_frame; (split; [done|]); intros j Hj; simpl; by rewrite lookup_insert_ne.
Qed.

Lemma thread_step_clock i c c' : thread_step i c c' -> clock_step c c'.
Proof. intros []; by econstructor. Qed.

(** The steps of the system are steps of its clock. *)
Lemma sim_step_clock s s' : sim_step s s' -> clock_step (sim_clock s) (sim_clock s').
Proof.
  intros [i p Hi|i nd fuel t Hi|i nd len Hi|i nd Hi|i c' _ Ht|Hn|]; simpl; eauto using thread_step_clock, clock_step.
Qed.

Lemma sleep_until_future i len c :
  done c = false -> time_ c < len -> threads (sleep_until i len c) = <[i := Waiting len]> (threads c).
Proof.
  intros Hd Hlt. unfold sleep_until, wake_up, set_wakeup, set_wakeups. simpl. rewrite Hd.
  by destruct (Z.leb_spec len (time_ c)); [lia|].
Qed.

(** What happens elsewhere does not concern a node. *)
Lemma node_ok_frame c c' i nd :
  time_ c' = time_ c -> threads c' !! i = threads c !! i -> node_ok c i nd -> node_ok c' i nd.
Proof. intros Et Ei [Hp Hi Hr Hw Hk]. split; rewrite ?Et, ?Ei; auto. Qed.

Lemma WaitForNext_on_time fuel now p last t :
  0 < p -> now = last -> WaitForNext fuel (λ _, now) 0 p last = Some t -> t = last + p.
Proof.
  intros Hp -> H. destruct fuel; [done|]. cbn in H. destruct (Z.ltb_spec (last + p) last); [lia|]. by injection H.
Qed.

Lemma node_wait_ok i nd t s :
  done (sim_clock s) = false -> threads (sim_clock s) !! i = Some Running -> node_ok (sim_clock s) i nd ->
  t = last_trigger_ (nd_loop nd) + period_ (nd_loop nd) ->
  ∃ nd', sim_nodes (node_wait i t nd s) = <[i := nd']> (sim_nodes s) ∧ node_ok (sim_clock (node_wait i t nd s)) i nd'.
Proof.
  intros Hd Hi [Hp Hit Hr Hw Hk] ->. destruct (Hr Hi) as [El Et]. unfold node_wait. eexists. split; [done|].
  set (t := last_trigger_ (nd_loop nd) + period_ (nd_loop nd)).
  assert (threads (sleep_until i t (sim_clock s)) !! i = Some (Waiting t)) as Es
    by (rewrite sleep_until_future, lookup_insert_eq by (done || lia); done).
  cbn [sim_clock]. unfold iterate_if_back, runs. rewrite Es. cbn [andb]. split; rewrite ?Es; cbn; try done.
  intros len [= <-]. split; [done|]. unfold nth_trigger in *. cbn. unfold t. lia.
Qed.

Lemma node_wake_ok i nd len s :
  done (sim_clock s) = false -> clock_ok (sim_clock s) -> threads (sim_clock s) !! i = Some (Waiting len) ->
  node_ok (sim_clock s) i nd ->
  ∃ nd', sim_nodes (node_wake i len nd s) = <[i := nd']> (sim_nodes s) ∧ node_ok (sim_clock (node_wake i len nd s)) i nd'.
Proof.
  intros Hd Hok Hi [Hp Hit Hr Hw Hk]. destruct (Hw len Hi) as [El En]. unfold node_wake. eexists. split; [done|].
  cbn [sim_clock]. destruct (waiting_deadline _ _ _ Hok Hi) as [_ Hle].
  destruct (Z.eq_dec len (time_ (sim_clock s))) as [E|Hne].
  - rewrite E in Hi |- *. destruct (wait_again_due i _ Hok Hd Hi) as (w & _ & ->).
    unfold iterate_if_back, runs. cbn [threads set_thread]. rewrite lookup_insert_eq.
    change (done (set_thread i Running (set_wakeups w (sim_clock s)))) with (done (sim_clock s)). rewrite Hd. cbn [andb negb].
    change (time_ (set_thread i Running (set_wakeups w (sim_clock s)))) with (time_ (sim_clock s)).
    split; cbn [nd_loop nd_start nd_iterations]; rewrite ?length_app, ?Nat.add_1_r; cbn [length threads set_thread];
      rewrite ?lookup_insert_eq; try done.
    + rewrite seq_S, fmap_app. cbn. f_equal; [exact Hit|]. f_equal. unfold nth_trigger in *. cbn in *. lia.
    + intros _. cbn. split; [lia|]. unfold nth_trigger in *. cbn in *. lia.
  - rewrite wait_again_early by (done || lia). unfold iterate_if_back, runs. rewrite Hi. by split.
Qed.

Lemma sim_ok_insert s c' i nd' :
  sim_ok s -> clock_ok c' -> time_ c' = time_ (sim_clock s) -> (∀ j, j ≠ i -> threads c' !! j = threads (sim_clock s) !! j) ->
  node_ok c' i nd' -> sim_ok (MkSim c' (<[i := nd']> (sim_nodes s))).
Proof.
  intros [Hc Hn] Hc' Et Ef Hi. split; [done|]. intros j nd. cbn [sim_nodes sim_clock].
  destruct (decide (i = j)) as [<-|Hne]; [rewrite lookup_insert_eq; by intros [= <-]|].
  rewrite lookup_insert_ne by done. intros Hj. apply (node_ok_frame (sim_clock s)); auto.
Qed.

Lemma sim_step_ok s s' : sim_step s s' -> done (sim_clock s') = false -> sim_ok s -> sim_ok s'.
Proof.
  intros Hst Hd' Hok. pose proof (sim_step_clock _ _ Hst) as Hcs.
  pose proof (clock_step_ok _ _ Hcs Hd' (so_clock _ Hok)) as Hc'.
  assert (done (sim_clock s) = false) as Hd.
  { destruct (done (sim_clock s)) eqn:E; [|done]. by rewrite (clock_step_done _ _ Hcs E) in Hd'. }
  destruct Hst as [i p Hi Hni Hp|i nd fuel t Hi Hni Ht|i nd len Hi Hni|i nd Hi Hni|i c' Hni Ht|Hn|].
  - apply sim_ok_insert; try done; [intros j Hj; cbn; by rewrite lookup_insert_ne|].
    split; cbn; rewrite ?lookup_insert_eq; try done. intros _. unfold nth_trigger. cbn. lia.
  - destruct (so_nodes _ Hok _ _ Hni) as [Hp _ Hr _ _]. destruct (Hr Hi) as [El _].
    destruct (node_wait_ok i nd t s Hd Hi (so_nodes _ Hok _ _ Hni)) as (nd' & En' & Hnd').
    { apply (WaitForNext_on_time fuel (time_ (sim_clock s))); [done|done|exact Ht]. }
    destruct (sleep_until_frame i t (sim_clock s)) as [Et Ef].
    pose proof (sim_ok_insert s _ i nd' Hok Hc' Et Ef Hnd') as Hs. by rewrite <- En' in Hs.
  - destruct (node_wake_ok i nd len s Hd (so_clock _ Hok) Hi (so_nodes _ Hok _ _ Hni)) as (nd' & En' & Hnd').
    destruct (wait_again_frame i len (sim_clock s)) as [Et Ef].
    pose proof (sim_ok_insert s _ i nd' Hok Hc' Et Ef Hnd') as Hs. by rewrite <- En' in Hs.
  - split; [done|]. intros j ndj Hj. cbn [sim_nodes sim_clock] in *. destruct (so_nodes _ Hok _ _ Hj) as [Hp Hit Hr Hw Hk].
    destruct (decide (i = j)) as [<-|Hne]; split; cbn; rewrite ?lookup_insert_eq, ?lookup_insert_ne by done; done.
  - destruct (thread_step_frame _ _ _ Ht) as [Et Ef]. split; [done|]. intros j ndj Hj. cbn [sim_nodes sim_clock] in *.
    apply (node_ok_frame (sim_clock s)); [done| |by apply Hok]. apply Ef. intros ->. by rewrite Hni in Hj.
  - split; [done|]. intros j ndj Hj. destruct (so_nodes _ Hok _ _ Hj) as [Hp Hit Hr Hw Hk].
    cbn [sim_clock]. assert (threads (manager_tick (sim_clock s)) = threads (sim_clock s)) as Em
      by (unfold manager_tick; by case_test).
    split; rewrite ?Em; try done. intros Hrun. by destruct (Hn j).
  - done.
Qed.

Lemma sim_reachable_ok t0 s : rtc sim_step (sim_init t0) s -> done (sim_clock s) = false -> sim_ok s.
Proof.
  intros H. apply (rtc_ind_r (R := sim_step) (λ s, done (sim_clock s) = false -> sim_ok s) (sim_init t0)); [..|exact H].
  - intros _. split; [|done]. split; cbn; [constructor|done|constructor].
  - intros y z _ Hyz IH Hz. apply (sim_step_ok y z Hyz Hz), IH. pose proof (sim_step_clock _ _ Hyz) as Hc.
    destruct (done (sim_clock y)) eqn:E; [|done]. by rewrite (clock_step_done _ _ Hc E) in Hz.
Qed.

(** C14: In simulated time no node ever misses a period: in every reachable state before
    shutdown, with any number of nodes and other sleeping threads and any interleaving,
    the iterations of a node were at exactly one, two, three, ... periods after its
    construction, a waiting node waits for the next of these times, which has not passed,
    and if no thread runs and no thread waits for an earlier time, the manager and the
    node's thread go on to that iteration. *)
Theorem simulated_periods_exact (t0 : Z) (s : Sim) (i : nat) (nd : LoopNode) :
  rtc sim_step (sim_init t0) s -> done (sim_clock s) = false -> sim_nodes s !! i = Some nd ->
  let next := nth_trigger nd (S (length (nd_iterations nd))) in
  nd_iterations nd = nth_trigger nd <$> seq 1 (length (nd_iterations nd))
  ∧ ∀ len, threads (sim_clock s) !! i = Some (Waiting len) ->
    len = next ∧ time_ (sim_clock s) <= next
    ∧ ((∀ j, threads (sim_clock s) !! j ≠ Some Running) ->
       (∀ j l, threads (sim_clock s) !! j = Some (Waiting l) -> next <= l) ->
       ∃ s' nd', rtc sim_step s s' ∧ sim_nodes s' !! i = Some nd' ∧ time_ (sim_clock s') = next
         ∧ nd_iterations nd' = nd_iterations nd ++ [next] ∧ threads (sim_clock s') !! i = Some Running).
Proof.
  intros Hr Hd Hi next. pose proof (sim_reachable_ok t0 s Hr Hd) as [Hc Hn].
  destruct (Hn _ _ Hi) as [Hp Hit Hru Hw Hk]. split; [done|]. intros len Hl.
  destruct (Hw len Hl) as [_ En]. fold next in En. subst len. destruct (waiting_deadline _ _ _ Hc Hl) as [Hle Hle2].
  split_and!; [done|done|]. intros Hnr Hmin.
  assert (next_wakeup (sim_clock s) = next) as Ew.
  { pose proof Hc as [Hs Hpe Hf]. unfold next_wakeup in *. destruct (wakeup_times_ (sim_clock s)) as [|x w] eqn:Ew.
    - rewrite (deadlines_lookup _ _ _ Hl) in Hpe. by apply Permutation_nil_cons in Hpe.
    - destruct (deadlines_elem (threads (sim_clock s)) x) as [j Hj]; [rewrite <- Hpe; left|]. apply Hmin in Hj. lia. }
  assert (manager_tick (sim_clock s) = set_time next (sim_clock s)) as Em.
  { unfold manager_tick. rewrite Ew. by destruct (Z.leb_spec (time_ (sim_clock s)) next); [|lia]. }
  set (s1 := MkSim (manager_tick (sim_clock s)) (sim_nodes s)). assert (sim_step s s1) as H1 by by apply sim_tick.
  assert (threads (sim_clock s1) !! i = Some (Waiting next)) as Hl1 by (cbn; by rewrite Em).
  assert (done (sim_clock s1) = false) as Hd1 by (cbn; by rewrite Em).
  pose proof (so_clock _ (sim_step_ok _ _ H1 Hd1 (sim_reachable_ok t0 s Hr Hd))) as Hc1.
  assert (sim_step s1 (node_wake i next nd s1)) as H2 by by apply sim_wake.
  exists (node_wake i next nd s1). eexists. split; [by eapply rtc_l, rtc_once|].
  split; [apply lookup_insert_eq|]. unfold node_wake. cbn [sim_clock]. cbn in Hc1, Hl1, Hd1. rewrite Em in *.
  destruct (wait_again_due i (set_time next (sim_clock s)) Hc1 Hd1 Hl1) as (w & _ & E). cbn in E. cbn [s1 sim_clock].
  rewrite Em, E. unfold iterate_if_back, runs. cbn. rewrite lookup_insert_eq, Hd. done.
Qed.

(** ** A node with a period of ten nanoseconds *)

Definition one_node : LoopNode := MkLoopNode (MkLoop 10 10) 0 [].
Definition one_node_sim : Sim := MkSim (sleep_until 0 10 (set_thread 0 Running (clock_init 0))) {[ 0%nat := one_node ]}.

Lemma one_node_reachable : rtc sim_step (sim_init 0) one_node_sim.
Proof.
  eapply rtc_l; [by apply (sim_construct _ 0%nat 10)|]. apply rtc_once.
  exact (sim_wait (MkSim (set_thread 0 Running (clock_init 0)) {[ 0%nat := MkLoopNode (MkLoop 10 0) 0 [] ]})
    0%nat (MkLoopNode (MkLoop 10 0) 0 []) 1%nat 10 eq_refl eq_refl eq_refl).
Qed.

Lemma simulated_periods_witness :
  ∃ s' nd', rtc sim_step one_node_sim s' ∧ sim_nodes s' !! 0%nat = Some nd' ∧ nd_iterations nd' = [10].
Proof.
  destruct (simulated_periods_exact 0 one_node_sim 0 one_node one_node_reachable) as [_ H]; [reflexivity..|].
  destruct (H 10) as (_ & _ & Hs); [reflexivity|].
  assert (∀ j t, threads (sim_clock one_node_sim) !! j = Some t -> t = Waiting 10) as Ht.
  { intros j t. change (threads (sim_clock one_node_sim)) with (<[0%nat := Waiting 10]> (<[0%nat := Running]> (∅ : gmap nat thread))).
    rewrite insert_insert_eq, lookup_insert_Some. intros [[_ <-]|[_ Hj]]; [done|]. by rewrite lookup_empty in Hj. }
  destruct Hs as (s' & nd' & Hr & Hi & _ & Hn & _).
  - intros j Hj. by apply Ht in Hj.
  - intros j l Hj. apply Ht in Hj as [= ->]. reflexivity.
  - exists s', nd'. auto.
Defined.

(** The periods are single-precision numbers: a tenth and a hundredth of a second become
    these numbers of nanoseconds. *)
Lemma loop_period_rounds (L : Libm) :
  loop_period (ND := num_float L) (nfloat (Num := num_float L) (dec (ND := num_float L) 1 1)) = 100000001
  ∧ loop_period (ND := num_float L) (nfloat (Num := num_float L) (dec (ND := num_float L) 1 2)) = 9999999.
Proof. split; vm_compute; reflexivity. Qed.
