(* ===== verification/Pgn.v ===== *)
(** * CAN identifiers and the NMEA 2000 message table

    src/can/pgn.h and pgn.cc: packing of the 29-bit CAN identifier; and the part
    of src/can/canboat-pgn.h the node uses: the field descriptions and the table
    [pgnList] of the known parameter group numbers (PGNs). *)

From Stdlib Require Import ZArith Lia String.
From stdpp Require Import base list.
From S2P Require Import Prelude Num NumF.

Open Scope Z_scope.

(** ** CAN identifiers *)

(** The bit fields of [CANID], in declaration order. *)
Record CANID := MkCANID {
  source : Z;
  PS : Z;
  PF : Z;
  DP : Z;
  reserved : Z;
  priority : Z;
  unused : Z;
  eff_ident : Z;
}.

(** The constructor leaves the other members as they are in memory. *)
Definition CANID_init (id : CANID) : CANID :=
  MkCANID (source id) (PS id) (PF id) (DP id) 0 (priority id) 0 1.

(** The object representation of a [CANID] on a little-endian target. *)
Definition ConstructID (id : CANID) : Z :=
  source id + PS id * 2 ^ 8 + PF id * 2 ^ 16 + DP id * 2 ^ 24 + reserved id * 2 ^ 25
  + priority id * 2 ^ 26 + unused id * 2 ^ 29 + eff_ident id * 2 ^ 31.

(** Bits [lo, lo + n) of [x]. *)
Definition bits (x lo n : Z) : Z := Z.land (Z.shiftr x lo) (Z.ones n).

Definition RetrieveID (raw_id : Z) : CANID :=
  MkCANID (bits raw_id 0 8) (bits raw_id 8 8) (bits raw_id 16 8) (bits raw_id 24 1)
    (bits raw_id 25 1) (bits raw_id 26 3) (bits raw_id 29 2) (bits raw_id 31 1).

Definition GetPGN (id : CANID) : Z :=
  wrapu 32 (Z.shiftl (DP id) 16 + Z.shiftl (PF id) 8 + (if PF id <? 240 then 0 else PS id)).

(** [pgn] is an [int32_t], shifted arithmetically. *)
Definition SetPGN (id : CANID) (pgn : Z) : CANID :=
  let low := Z.land pgn 255 in
  let pgn := Z.shiftr pgn 8 in
  let pf := Z.land pgn 255 in
  let pgn := Z.shiftr pgn 8 in
  let dp := Z.land pgn 1 in
  MkCANID (source id) (if 240 <=? pf then low else PS id) pf dp
    (reserved id) (priority id) (unused id) (eff_ident id).

(** ** Field descriptions *)

Definition BYTES (x : Z) : Z := x * 8.

(** The lookup tables the listed messages refer to. *)
#[local] Open Scope string_scope.
Definition LOOKUP_DIRECTION_REFERENCE : string := ",0=True,1=Magnetic".
Definition LOOKUP_GNS : string := ",0=GPS,1=GLONASS,2=GPS+GLONASS,3=GPS+SBAS/WAAS,4=GPS+SBAS/WAAS+GLONASS,5=Chayka,6=integrated,7=surveyed,8=Galileo".
Definition LOOKUP_GNS_INTEGRITY : string := ",0=No integrity checking,1=Safe,2=Caution".
Definition LOOKUP_GNS_METHOD : string := ",0=no GNSS,1=GNSS fix,2=DGNSS fix,3=Precise GNSS,4=RTK Fixed Integer,5=RTK float,6=Estimated (DR) mode,7=Manual Input,8=Simulate mode".
Definition LOOKUP_HUMIDITY_SOURCE : string := ",0=Inside,1=Outside".
Definition LOOKUP_MAGNETIC_VARIATION : string := ",0=Manual,1=Automatic Chart,2=Automatic Table,3=Automatic Calculation,4=WMM 2000,5=WMM 2005,6=WMM 2010,7=WMM 2015,8=WMM 2020".
Definition LOOKUP_PRESSURE_SOURCE : string := ",0=Atmospheric,1=Water,2=Steam,3=Compressed Air,4=Hydraulic".
Definition LOOKUP_SYSTEM_TIME : string := ",0=GPS,1=GLONASS,2=Radio Station,3=Local Cesium clock,4=Local Rubidium clock,5=Local Crystal clock".
Definition LOOKUP_TEMPERATURE_SOURCE : string := ",0=Sea Temperature,1=Outside Temperature,2=Inside Temperature,3=Engine Room Temperature,4=Main Cabin Temperature,5=Live Well Temperature,6=Bait Well Temperature,7=Refridgeration Temperature,8=Heating System Temperature,9=Dew Point Temperature,10=Apparent Wind Chill Temperature,11=Theoretical Wind Chill Temperature,12=Heat Index Temperature,13=Freezer Temperature,14=Exhaust Gas Temperature".
Definition LOOKUP_WIND_REFERENCE : string := ",0=True (ground referenced to North),1=Magnetic (ground referenced to Magnetic North),2=Apparent,3=True (boat referenced),4=True (water referenced)".
#[local] Close Scope string_scope.

Section Pgn.
Context {D : Type} {ND : Num D}.
Open Scope num_scope.

Definition RES_LAT_LONG : D := dec 1 7.
Definition RES_LAT_LONG_64 : D := dec 1 16.
Definition RES_RADIANS : D := dec 1 4.
Definition RES_HIRES_ROTATION : D := (dec 1 3 / #32) * dec 1 3.
Definition RES_ASCII : D := - #1.
Definition RES_LATITUDE : D := - #2.
Definition RES_LONGITUDE : D := - #3.
Definition RES_DATE : D := - #4.
Definition RES_TIME : D := - #5.
Definition RES_TEMPERATURE : D := - #6.
Definition RES_INTEGER : D := - #8.
Definition RES_LOOKUP : D := - #9.
Definition RES_BINARY : D := - #10.
Definition RES_PRESSURE : D := - #14.
Definition RES_PRESSURE_HIRES : D := - #21.

Record Field := MkField {
  fname : string;
  fsize : Z;              (* in bits *)
  resolution : D;
  hasSign : bool;
  units : option string;  (* None is a null pointer *)
  fdescription : option string;
}.

(** [fieldList] up to its terminating null entry. *)
Record Pgn := MkPgn {
  description : string;
  pgn : Z;
  known : bool;
  size : Z;
  repeatingFields : Z;
  fieldList : list Field;
}.

#[local] Arguments MkField (_)%_string (_)%_Z (_)%_num _ _ _.
#[local] Arguments MkPgn (_)%_string (_)%_Z _ (_)%_Z (_)%_Z _.
#[local] Open Scope string_scope.

(** ** The table *)

Definition pgn_System_Time : Pgn := MkPgn "System Time" 126992 true 8 0 [
  MkField "SID" (BYTES 1) #1 false None (Some EmptyString);
  MkField "Source" 4 RES_LOOKUP false (Some LOOKUP_SYSTEM_TIME) (Some EmptyString);
  MkField "Reserved" 4 RES_BINARY false None (Some "Reserved");
  MkField "Date" (BYTES 2) RES_DATE false (Some "days") (Some "Days since January 1, 1970");
  MkField "Time" (BYTES 4) RES_TIME false (Some "s") (Some "Seconds since midnight")].

Definition pgn_Configuration_Information : Pgn := MkPgn "Configuration Information" 126998 false 42 0 [
  MkField "Station ID" (BYTES 2) #1 false None (Some EmptyString);
  MkField "Station Name" (BYTES 2) #1 false None (Some EmptyString);
  MkField "A" (BYTES 2) #1 false None (Some EmptyString);
  MkField "Manufacturer" (BYTES 36) RES_ASCII false None (Some EmptyString);
  MkField "Installation Description #1" (BYTES 2) #1 false None (Some EmptyString);
  MkField "Installation Description #2" (BYTES 2) #1 false None (Some EmptyString)].

Definition pgn_Vessel_Heading : Pgn := MkPgn "Vessel Heading" 127250 true 8 0 [
  MkField "SID" (BYTES 1) #1 false None (Some EmptyString);
  MkField "Heading" (BYTES 2) RES_RADIANS false (Some "rad") (Some EmptyString);
  MkField "Deviation" (BYTES 2) RES_RADIANS true (Some "rad") (Some EmptyString);
  MkField "Variation" (BYTES 2) RES_RADIANS true (Some "rad") (Some EmptyString);
  MkField "Reference" 2 RES_LOOKUP false (Some LOOKUP_DIRECTION_REFERENCE) (Some EmptyString)].

Definition pgn_Rate_of_Turn : Pgn := MkPgn "Rate of Turn" 127251 true 5 0 [
  MkField "SID" (BYTES 1) #1 false None (Some EmptyString);
  MkField "Rate" (BYTES 4) RES_HIRES_ROTATION true (Some "rad/s") (Some EmptyString)].

Definition pgn_Analog_Read : Pgn := MkPgn "Analog Read" 65281 true 1 0 [
  MkField "Val" (BYTES 1) #4 false None (Some EmptyString);
  MkField "Current" (BYTES 1) #1 false None (Some EmptyString)].

Definition pgn_PWM_Write : Pgn := MkPgn "PWM Write" 65282 true 3 0 [
  MkField "Winch" (BYTES 1) #1 false None (Some EmptyString);
  MkField "Rudder" (BYTES 1) #1 false None (Some EmptyString);
  MkField "Ballast" (BYTES 1) #1 false None (Some EmptyString)].

Definition pgn_Debug_SCAMP1 : Pgn := MkPgn "Debug SCAMP1" 65283 true 8 0 [
  MkField "D1" (BYTES 4) #1 false None (Some EmptyString);
  MkField "D2" (BYTES 4) #1 false None (Some EmptyString)].

Definition pgn_Debug_SCAMP2 : Pgn := MkPgn "Debug SCAMP2" 65284 true 8 0 [
  MkField "D1" (BYTES 4) #1 false None (Some EmptyString);
  MkField "D2" (BYTES 4) #1 false None (Some EmptyString)].

Definition pgn_Ballast_State : Pgn := MkPgn "Ballast State" 65285 true 4 0 [
  MkField "Heel" (BYTES 2) RES_RADIANS true (Some "radians") (Some "Heel angle of boat");
  MkField "Ballast Arm" (BYTES 2) RES_RADIANS true (Some "radians") (Some "Angle of ballast arm")].

Definition pgn_Sailbot_State : Pgn := MkPgn "Sailbot State" 65296 true 8 0 [
  MkField "Wing State" (BYTES 1) #1 false None (Some EmptyString);
  MkField "Ballast" (BYTES 1) #1 false None (Some EmptyString);
  MkField "Winch" (BYTES 1) #1 false None (Some EmptyString);
  MkField "Rudder" (BYTES 1) #1 false None (Some EmptyString);
  MkField "Tacker" (BYTES 1) #1 false None (Some EmptyString)].

Definition pgn_Connection_Status : Pgn := MkPgn "Connection Status" 65297 true 8 0 [
  MkField "Wing Connection" (BYTES 1) #1 false None (Some EmptyString);
  MkField "Radio Connection" (BYTES 1) #1 false None (Some EmptyString);
  MkField "WiFi Connection" (BYTES 1) #1 false None (Some EmptyString);
  MkField "Jetson Connection" (BYTES 1) #1 false None (Some EmptyString);
  MkField "UI Connection" (BYTES 1) #1 false None (Some EmptyString)].

Definition pgn_Battery_Voltage : Pgn := MkPgn "Battery Voltage" 65312 true 4 0 [
  MkField "Voltage" (BYTES 1) (dec 1 1) false (Some "volts") (Some "Battery Voltage")].

Definition pgn_Attitude : Pgn := MkPgn "Attitude" 127257 true 7 0 [
  MkField "SID" (BYTES 1) #1 false None (Some EmptyString);
  MkField "Yaw" (BYTES 2) RES_RADIANS true (Some "rad") (Some EmptyString);
  MkField "Pitch" (BYTES 2) RES_RADIANS true (Some "rad") (Some EmptyString);
  MkField "Roll" (BYTES 2) RES_RADIANS true (Some "rad") (Some EmptyString)].

Definition pgn_Magnetic_Variation : Pgn := MkPgn "Magnetic Variation" 127258 true 6 0 [
  MkField "SID" (BYTES 1) #1 false None (Some EmptyString);
  MkField "Source" 4 RES_LOOKUP false (Some LOOKUP_MAGNETIC_VARIATION) (Some EmptyString);
  MkField "Reserved" 4 RES_BINARY false None (Some "Reserved");
  MkField "Age of service" (BYTES 2) RES_DATE false (Some "days") (Some "Days since January 1, 1970");
  MkField "Variation" (BYTES 2) RES_RADIANS true (Some "rad") (Some EmptyString)].

Definition pgn_Position_Rapid_Update : Pgn := MkPgn "Position, Rapid Update" 129025 true 8 0 [
  MkField "Latitude" (BYTES 4) RES_LATITUDE true (Some "deg") (Some EmptyString);
  MkField "Longitude" (BYTES 4) RES_LONGITUDE true (Some "deg") (Some EmptyString)].

Definition pgn_COG_SOG_Rapid_Update : Pgn := MkPgn "COG & SOG, Rapid Update" 129026 true 8 0 [
  MkField "SID" (BYTES 1) #1 false None (Some EmptyString);
  MkField "COG Reference" 2 RES_LOOKUP false (Some LOOKUP_DIRECTION_REFERENCE) (Some EmptyString);
  MkField "Reserved" 6 RES_BINARY false None (Some "Reserved");
  MkField "COG" (BYTES 2) RES_RADIANS false (Some "rad") (Some EmptyString);
  MkField "SOG" (BYTES 2) (dec 1 2) false (Some "m/s") (Some EmptyString);
  MkField "Reserved" (BYTES 2) RES_BINARY false None (Some "Reserved")].

Definition pgn_Time_Date : Pgn := MkPgn "Time & Date" 129033 true 8 0 [
  MkField "Date" (BYTES 2) RES_DATE false (Some "days") (Some "Days since January 1, 1970");
  MkField "Time" (BYTES 4) RES_TIME false (Some "s") (Some "Seconds since midnight");
  MkField "Local Offset" (BYTES 2) RES_INTEGER true (Some "minutes") (Some "Minutes")].

Definition pgn_Datum : Pgn := MkPgn "Datum" 129044 true 24 0 [
  MkField "Local Datum" (BYTES 4) RES_ASCII false None (Some "defined in IHO Publication S-60, Appendices B and C. First three chars are datum ID as per IHO tables. Fourth char is local datum subdivision code.");
  MkField "Delta Latitude" (BYTES 4) RES_LATITUDE true (Some "deg") (Some EmptyString);
  MkField "Delta Longitude" (BYTES 4) RES_LONGITUDE true (Some "deg") (Some EmptyString);
  MkField "Delta Altitude" (BYTES 4) (dec 1 6) true (Some "m") (Some EmptyString);
  MkField "Reference Datum" (BYTES 4) RES_ASCII false None (Some "defined in IHO Publication S-60, Appendices B and C. First three chars are datum ID as per IHO tables. Fourth char is local datum subdivision code.")].

Definition pgn_GNSS_Control_Status : Pgn := MkPgn "GNSS Control Status" 129538 false 0 0 [
  MkField "SV Elevation Mask" (BYTES 2) #1 false None (Some "Will not use SV below this elevation");
  MkField "PDOP Mask" (BYTES 2) (dec 1 2) false None (Some "Will not report position above this PDOP");
  MkField "PDOP Switch" (BYTES 2) (dec 1 2) false None (Some "Will report 2D position above this PDOP");
  MkField "SNR Mask" (BYTES 2) (dec 1 2) false None (Some "Will not use SV below this SNR");
  MkField "GNSS Mode (desired)" 3 RES_LOOKUP false (Some ",0=1D,1=2D,2=3D,3=Auto,4=Reserved,5=Reserved,6=Error") (Some EmptyString);
  MkField "DGNSS Mode (desired)" 3 RES_LOOKUP false (Some ",0=no SBAS,1=SBAS,3=SBAS") (Some EmptyString);
  MkField "Position/Velocity Filter" 2 #1 false None (Some EmptyString);
  MkField "Max Correction Age" (BYTES 2) #1 false None (Some EmptyString);
  MkField "Antenna Altitude for 2D Mode" (BYTES 2) (dec 1 2) false (Some "m") (Some EmptyString);
  MkField "Use Antenna Altitude for 2D Mode" 2 RES_LOOKUP false (Some ",0=use last 3D height,1=Use antenna altitude") (Some EmptyString)].

Definition pgn_GNSS_DOPs : Pgn := MkPgn "GNSS DOPs" 129539 true 8 0 [
  MkField "SID" (BYTES 1) #1 false None (Some EmptyString);
  MkField "Desired Mode" 3 RES_LOOKUP false (Some ",0=1D,1=2D,2=3D,3=Auto,4=Reserved,5=Reserved,6=Error") (Some EmptyString);
  MkField "Actual Mode" 3 RES_LOOKUP false (Some ",0=1D,1=2D,2=3D,3=Auto,4=Reserved,5=Reserved,6=Error") (Some EmptyString);
  MkField "Reserved" 2 RES_BINARY false None (Some "Reserved");
  MkField "HDOP" (BYTES 2) (dec 1 2) true None (Some "Horizontal dilution of precision");
  MkField "VDOP" (BYTES 2) (dec 1 2) true None (Some "Vertical dilution of precision");
  MkField "TDOP" (BYTES 2) (dec 1 2) false None (Some "Time dilution of precision")].

Definition pgn_GNSS_Sats_in_View : Pgn := MkPgn "GNSS Sats in View" 129540 true 255 7 [
  MkField "SID" (BYTES 1) #1 false None (Some EmptyString);
  MkField "Mode" 2 RES_LOOKUP false (Some ",3=Range residuals used to calculate position") (Some EmptyString);
  MkField "Reserved" 6 RES_BINARY false None (Some "Reserved");
  MkField "Sats in View" (BYTES 1) #1 false None (Some EmptyString);
  MkField "PRN" (BYTES 1) #1 false None (Some EmptyString);
  MkField "Elevation" (BYTES 2) RES_RADIANS false (Some "rad") (Some EmptyString);
  MkField "Azimuth" (BYTES 2) RES_RADIANS false (Some "rad") (Some EmptyString);
  MkField "SNR" (BYTES 2) (dec 1 2) false (Some "dB") (Some EmptyString);
  MkField "Range residuals" (BYTES 4) #1 true None (Some EmptyString);
  MkField "Status" 4 RES_LOOKUP false (Some ",0=Not tracked,1=Tracked,2=Used,3=Not tracked+Diff,4=Tracked+Diff,5=Used+Diff") (Some EmptyString);
  MkField "Reserved" 4 RES_BINARY false None (Some "Reserved")].

Definition pgn_Wind_Data : Pgn := MkPgn "Wind Data" 130306 true 6 0 [
  MkField "SID" (BYTES 1) #1 false None (Some EmptyString);
  MkField "Wind Speed" (BYTES 2) (dec 1 2) false (Some "m/s") (Some EmptyString);
  MkField "Wind Angle" (BYTES 2) RES_RADIANS false (Some "rad") (Some EmptyString);
  MkField "Reference" 3 RES_LOOKUP false (Some LOOKUP_WIND_REFERENCE) (Some EmptyString)].

Definition pgn_Environmental_Parameters : Pgn := MkPgn "Environmental Parameters" 130310 true 7 0 [
  MkField "SID" (BYTES 1) #1 false None (Some EmptyString);
  MkField "Water Temperature" (BYTES 2) RES_TEMPERATURE false (Some "K") (Some EmptyString);
  MkField "Outside Ambient Air Temperature" (BYTES 2) RES_TEMPERATURE false (Some "K") (Some EmptyString);
  MkField "Atmospheric Pressure" (BYTES 2) RES_PRESSURE false (Some "hPa") (Some EmptyString)].

Definition pgn_Environmental_Parameters_130311 : Pgn := MkPgn "Environmental Parameters" 130311 true 8 0 [
  MkField "SID" (BYTES 1) #1 false None (Some EmptyString);
  MkField "Temperature Source" 6 RES_LOOKUP false (Some LOOKUP_TEMPERATURE_SOURCE) (Some EmptyString);
  MkField "Humidity Source" 2 RES_LOOKUP false (Some LOOKUP_HUMIDITY_SOURCE) (Some EmptyString);
  MkField "Temperature" (BYTES 2) RES_TEMPERATURE false (Some "K") (Some EmptyString);
  MkField "Humidity" (BYTES 2) (#100 / #25000) true (Some "%") (Some EmptyString);
  MkField "Atmospheric Pressure" (BYTES 2) RES_PRESSURE false (Some "hPa") (Some EmptyString)].

Definition pgn_Temperature : Pgn := MkPgn "Temperature" 130312 true 8 0 [
  MkField "SID" (BYTES 1) #1 false None (Some EmptyString);
  MkField "Temperature Instance" (BYTES 1) #1 false None (Some EmptyString);
  MkField "Temperature Source" (BYTES 1) RES_LOOKUP false (Some LOOKUP_TEMPERATURE_SOURCE) (Some EmptyString);
  MkField "Actual Temperature" (BYTES 2) RES_TEMPERATURE false (Some "K") (Some EmptyString);
  MkField "Set Temperature" (BYTES 2) RES_TEMPERATURE false (Some "K") (Some EmptyString)].

Definition pgn_Humidity : Pgn := MkPgn "Humidity" 130313 true 8 0 [
  MkField "SID" (BYTES 1) #1 false None (Some EmptyString);
  MkField "Humidity Instance" (BYTES 1) #1 false None (Some EmptyString);
  MkField "Humidity Source" (BYTES 1) RES_LOOKUP false (Some LOOKUP_HUMIDITY_SOURCE) (Some EmptyString);
  MkField "Actual Humidity" (BYTES 2) (#100 / #25000) true (Some "%") (Some EmptyString);
  MkField "Set Humidity" (BYTES 2) (#100 / #25000) true (Some "%") (Some EmptyString)].

Definition pgn_Actual_Pressure : Pgn := MkPgn "Actual Pressure" 130314 false 8 0 [
  MkField "SID" (BYTES 1) #1 false None (Some EmptyString);
  MkField "Pressure Instance" (BYTES 1) #1 false None (Some EmptyString);
  MkField "Pressure Source" (BYTES 1) RES_LOOKUP false (Some LOOKUP_PRESSURE_SOURCE) (Some EmptyString);
  MkField "Pressure" (BYTES 4) RES_PRESSURE_HIRES false (Some "dPa") (Some EmptyString)].

Definition pgn_GNSS_Position_Data : Pgn := MkPgn "GNSS Position Data" 129029 true 51 3 [
  MkField "SID" (BYTES 1) #1 false None (Some EmptyString);
  MkField "Date" (BYTES 2) RES_DATE false (Some "days") (Some "Days since January 1, 1970");
  MkField "Time" (BYTES 4) RES_TIME false (Some "s") (Some "Seconds since midnight");
  MkField "Latitude" (BYTES 8) RES_LATITUDE true (Some "deg") (Some EmptyString);
  MkField "Longitude" (BYTES 8) RES_LONGITUDE true (Some "deg") (Some EmptyString);
  MkField "Altitude" (BYTES 8) (dec 1 6) true (Some "m") (Some "Altitude referenced to WGS-84");
  MkField "GNSS type" 4 RES_LOOKUP false (Some LOOKUP_GNS) (Some EmptyString);
  MkField "Method" 4 RES_LOOKUP false (Some LOOKUP_GNS_METHOD) (Some EmptyString);
  MkField "Integrity" 2 RES_LOOKUP false (Some LOOKUP_GNS_INTEGRITY) (Some EmptyString);
  MkField "Reserved" 6 RES_BINARY false None (Some "Reserved");
  MkField "Number of SVs" (BYTES 1) #1 false None (Some "Number of satellites used in solution");
  MkField "HDOP" (BYTES 2) (dec 1 2) true None (Some "Horizontal dilution of precision");
  MkField "PDOP" (BYTES 2) (dec 1 2) true None (Some "Probable dilution of precision");
  MkField "Geoidal Separation" (BYTES 2) (dec 1 2) true (Some "m") (Some "Geoidal Separation");
  MkField "Reference Stations" (BYTES 1) #1 false None (Some "Number of reference stations");
  MkField "Reference Station Type" 4 RES_LOOKUP false (Some LOOKUP_GNS) (Some EmptyString);
  MkField "Reference Station ID" 12 #1 false (Some EmptyString) None;
  MkField "Age of DGNSS Corrections" (BYTES 2) (dec 1 2) false (Some "s") (Some EmptyString)].

Definition pgnList : list Pgn := [
  pgn_System_Time;
  pgn_Configuration_Information;
  pgn_Vessel_Heading;
  pgn_Rate_of_Turn;
  pgn_Analog_Read;
  pgn_PWM_Write;
  pgn_Debug_SCAMP1;
  pgn_Debug_SCAMP2;
  pgn_Ballast_State;
  pgn_Sailbot_State;
  pgn_Connection_Status;
  pgn_Battery_Voltage;
  pgn_Attitude;
  pgn_Magnetic_Variation;
  pgn_Position_Rapid_Update;
  pgn_COG_SOG_Rapid_Update;
  pgn_Time_Date;
  pgn_Datum;
  pgn_GNSS_Control_Status;
  pgn_GNSS_DOPs;
  pgn_GNSS_Sats_in_View;
  pgn_Wind_Data;
  pgn_Environmental_Parameters;
  pgn_Environmental_Parameters_130311;
  pgn_Temperature;
  pgn_Humidity;
  pgn_Actual_Pressure;
  pgn_GNSS_Position_Data].

Definition pgnListSize : nat := length pgnList.
End Pgn.

Arguments Field D : clear implicits.
Arguments Pgn D : clear implicits.

(** ** Correctness of the identifiers *)

Lemma bits_div_mod x lo n : 0 <= lo -> 0 <= n -> bits x lo n = (x / 2 ^ lo) mod 2 ^ n.
Proof. intros. unfold bits. by rewrite Z.land_ones, Z.shiftr_div_pow2. Qed.

(** Every member is within the width of its bit field. *)
Definition CANID_ok (id : CANID) : Prop :=
  0 <= source id < 256 ∧ 0 <= PS id < 256 ∧ 0 <= PF id < 256 ∧ 0 <= DP id < 2
  ∧ 0 <= reserved id < 2 ∧ 0 <= priority id < 8 ∧ 0 <= unused id < 4 ∧ 0 <= eff_ident id < 2.

(** [x] has the digit [d] of [n] bits at position [lo], over [low] and under [high]. *)
Lemma bits_digit lo n low d high :
  0 <= lo -> 0 <= n -> 0 <= low < 2 ^ lo -> 0 <= d < 2 ^ n ->
  bits (low + 2 ^ lo * (d + 2 ^ n * high)) lo n = d.
Proof.
  intros Hlo Hn Hl Hd. rewrite bits_div_mod by done.
  rewrite Z.add_comm, Z.mul_comm, Z.div_add_l, (Z.div_small low) by lia.
  rewrite Z.add_0_r, Z.mul_comm, Z_mod_plus_full. by apply Z.mod_small.
Qed.

Lemma RetrieveID_ok raw : CANID_ok (RetrieveID raw).
Proof.
  unfold CANID_ok, RetrieveID. simpl. rewrite !bits_div_mod by lia.
  split_and!; apply Z.mod_pos_bound; lia.
Qed.

Lemma ConstructID_RetrieveID raw :
  0 <= raw < 2 ^ 32 -> ConstructID (RetrieveID raw) = raw.
Proof.
  intros Hr. unfold ConstructID, RetrieveID. simpl. rewrite !bits_div_mod by lia.
  Z.div_mod_to_equations. lia.
Qed.

Ltac id_digit lo n low d high :=
  match goal with
  | |- bits ?x _ _ = _ =>
      replace x with (low + 2 ^ lo * (d + 2 ^ n * high)) by lia; apply bits_digit; lia
  end.

Lemma RetrieveID_ConstructID id : CANID_ok id -> RetrieveID (ConstructID id) = id.
Proof.
  destruct id as [s ps pf dp r p u e]. intros (?&?&?&?&?&?&?&?).
  unfold RetrieveID, ConstructID. simpl in *.
  f_equal.
  - id_digit 0 8 0 s (ps + 2^8 * (pf + 2^8 * (dp + 2 * (r + 2 * (p + 8 * (u + 4 * e)))))).
  - id_digit 8 8 s ps (pf + 2^8 * (dp + 2 * (r + 2 * (p + 8 * (u + 4 * e))))).
  - id_digit 16 8 (s + 2^8 * ps) pf (dp + 2 * (r + 2 * (p + 8 * (u + 4 * e)))).
  - id_digit 24 1 (s + 2^8 * ps + 2^16 * pf) dp (r + 2 * (p + 8 * (u + 4 * e))).
  - id_digit 25 1 (s + 2^8 * ps + 2^16 * pf + 2^24 * dp) r (p + 8 * (u + 4 * e)).
  - id_digit 26 3 (s + 2^8 * ps + 2^16 * pf + 2^24 * dp + 2^25 * r) p (u + 4 * e).
  - id_digit 29 2 (s + 2^8 * ps + 2^16 * pf + 2^24 * dp + 2^25 * r + 2^26 * p) u e.
  - id_digit 31 1 (s + 2^8 * ps + 2^16 * pf + 2^24 * dp + 2^25 * r + 2^26 * p + 2^29 * u) e 0.
Qed.

Lemma land_255 x : Z.land x 255 = x mod 256.
Proof. change 255 with (Z.ones 8). by rewrite Z.land_ones. Qed.

Lemma land_1 x : Z.land x 1 = x mod 2.
Proof. change 1 with (Z.ones 1) at 1. by rewrite Z.land_ones. Qed.

(** PGNs of at least 240 in the second byte are stored whole; below, the low byte
    (a destination address) is dropped. *)
Lemma GetPGN_SetPGN id p :
  0 <= p < 2 ^ 17 ->
  GetPGN (SetPGN id p) = if (p / 256) mod 256 <? 240 then p - p mod 256 else p.
Proof.
  intros Hp. unfold GetPGN, SetPGN. simpl.
  rewrite !land_255, land_1, !Z.shiftr_div_pow2, !Z.shiftl_mul_pow2 by lia.
  change (2 ^ 8) with 256. rewrite Z.div_div by lia. change (256 * 256) with 65536.
  destruct (Z.ltb_spec ((p / 256) mod 256) 240);
    destruct (Z.leb_spec 240 ((p / 256) mod 256)); try lia;
    rewrite wrapu_small; Z.div_mod_to_equations; lia.
Qed.

Lemma SetPGN_ok id p : CANID_ok id -> CANID_ok (SetPGN id p).
Proof.
  intros (?&?&?&?&?&?&?&?). unfold CANID_ok, SetPGN. simpl.
  rewrite !land_255, land_1. repeat case_test;
    split_and!; first [lia | apply Z.mod_pos_bound; lia].
Qed.

(** Every listed PGN fits the identifier and is stored whole. *)
Lemma pgnList_whole {D : Type} {ND : Num D} :
  Forall (λ p : Pgn D, 0 <= pgn p < 2 ^ 17 ∧ 240 <= (pgn p / 256) mod 256) pgnList.
Proof. repeat (apply Forall_cons_2; [vm_compute; split; [split|]; done|]); apply Forall_nil_2. Qed.

(** ** Properties *)

(** The 32-bit identifier and the bit-field structure determine each other:
    every in-range structure survives [ConstructID] then [RetrieveID], and every
    32-bit identifier survives [RetrieveID] then [ConstructID]. *)
Theorem canid_roundtrip id raw :
  CANID_ok id -> 0 <= raw < 2 ^ 32 ->
  RetrieveID (ConstructID id) = id ∧ ConstructID (RetrieveID raw) = raw
  ∧ 0 <= ConstructID id < 2 ^ 32.
Proof.
  intros Hid Hraw. split_and!.
  - by apply RetrieveID_ConstructID.
  - by apply ConstructID_RetrieveID.
  - destruct Hid as (?&?&?&?&?&?&?&?). unfold ConstructID. lia.
  - destruct Hid as (?&?&?&?&?&?&?&?). unfold ConstructID. lia.
Qed.

(** For every message of the table, the identifier built by [SetPGN] and
    [ConstructID] is decoded by [RetrieveID] and [GetPGN] to the same PGN: frames
    the node sends are recognised as that message. *)
Theorem pgn_wire_roundtrip {D : Type} {ND : Num D} (p : Pgn D) id :
  p ∈ pgnList -> CANID_ok id ->
  GetPGN (RetrieveID (ConstructID (SetPGN id (pgn p)))) = pgn p.
Proof.
  intros Hp Hid. rewrite RetrieveID_ConstructID by (by apply SetPGN_ok).
  pose proof (proj1 (Forall_forall _ _) pgnList_whole p Hp) as [Hr Hw].
  rewrite GetPGN_SetPGN by done. case_test; lia.
Qed.

Lemma canid_roundtrip_witness :
  RetrieveID (ConstructID (MkCANID 21 19 241 1 0 5 0 1)) = MkCANID 21 19 241 1 0 5 0 1
  ∧ ConstructID (RetrieveID 0x95F11315) = 0x95F11315.
Proof.
  destruct (canid_roundtrip (MkCANID 21 19 241 1 0 5 0 1) 0x95F11315) as (H1 & H2 & _).
  - unfold CANID_ok. simpl. lia.
  - lia.
  - split; [exact H1 | exact H2].
Defined.

Lemma pgn_wire_roundtrip_witness :
  GetPGN (RetrieveID (ConstructID (SetPGN (MkCANID 21 0 0 0 0 5 0 1) 127251))) = 127251.
Proof.
  apply (pgn_wire_roundtrip (ND := num_poly) (pgn_Rate_of_Turn (ND := num_poly))
           (MkCANID 21 0 0 0 0 5 0 1)).
  - apply (list_elem_of_lookup_2 _ 3). reflexivity.
  - unfold CANID_ok. simpl. lia.
Defined.
