(* ===== verification/Vec.v ===== *)
(** * Vectors and matrices

    The fixed-size vectors and matrices of the control code.  The sources use the
    Eigen library; its operations are the fields of the class [Eigen], with their
    documented meaning in [EigenLaws].  [eigen_plain] is an instance over any
    arithmetic. *)

From Stdlib Require Import ZArith Reals Lra.
From stdpp Require Import base tactics.
From S2P Require Import Prelude Num NumR.

Record vec2 (D : Type) := V2 { vx : D; vy : D }.
Arguments V2 {D} _ _.
Arguments vx {D} _.
Arguments vy {D} _.

Record vec3 (D : Type) := V3 { v3x : D; v3y : D; v3z : D }.
Arguments V3 {D} _ _ _.
Arguments v3x {D} _.
Arguments v3y {D} _.
Arguments v3z {D} _.

(** A 3x3 matrix by its rows. *)
Record mat3 (D : Type) := M3 { row0 : vec3 D; row1 : vec3 D; row2 : vec3 D }.
Arguments M3 {D} _ _ _.
Arguments row0 {D} _.
Arguments row1 {D} _.
Arguments row2 {D} _.

Section Coefficients.
Context {D : Type} {ND : Num D}.
#[local] Open Scope num_scope.

(** Coefficient-wise operations. *)
Definition add2 (a b : vec2 D) : vec2 D := V2 (vx a + vx b) (vy a + vy b).
Definition sub2 (a b : vec2 D) : vec2 D := V2 (vx a - vx b) (vy a - vy b).
Definition scale2 (k : D) (a : vec2 D) : vec2 D := V2 (k * vx a) (k * vy a).
Definition div2 (a : vec2 D) (k : D) : vec2 D := V2 (vx a / k) (vy a / k).
Definition opp2 (a : vec2 D) : vec2 D := V2 (- vx a) (- vy a).
Definition zero2 : vec2 D := V2 #0 #0.
Definition add3 (a b : vec3 D) : vec3 D := V3 (v3x a + v3x b) (v3y a + v3y b) (v3z a + v3z b).
Definition sub3 (a b : vec3 D) : vec3 D := V3 (v3x a - v3x b) (v3y a - v3y b) (v3z a - v3z b).
Definition scale3 (k : D) (a : vec3 D) : vec3 D := V3 (k * v3x a) (k * v3y a) (k * v3z a).
Definition identity3 : mat3 D := M3 (V3 #1 #0 #0) (V3 #0 #1 #0) (V3 #0 #0 #1).

(** Entry [(i, j)], indices from 0. *)
Definition entry (R : mat3 D) (i j : nat) : D :=
  let r := match i with O => row0 R | 1%nat => row1 R | _ => row2 R end in
  match j with O => v3x r | 1%nat => v3y r | _ => v3z r end.
End Coefficients.

Inductive axis := UnitX | UnitY | UnitZ.

Class Eigen (D : Type) {ND : Num D} := {
  dot2 : vec2 D -> vec2 D -> D;
  squaredNorm2 : vec2 D -> D;
  norm2 : vec2 D -> D;
  normalized2 : vec2 D -> vec2 D;
  dot3 : vec3 D -> vec3 D -> D;
  cross3 : vec3 D -> vec3 D -> vec3 D;
  squaredNorm3 : vec3 D -> D;
  norm3 : vec3 D -> D;
  mat_vec : mat3 D -> vec3 D -> vec3 D;
  mat_mul : mat3 D -> mat3 D -> mat3 D;
  AngleAxis : D -> axis -> mat3 D;   (* as a rotation matrix *)
}.

(** The documented values; a non-zero vector is normalised by dividing by its norm. *)
Class EigenLaws (D : Type) {ND : Num D} {EG : Eigen D} := {
  dot2_eq a b : dot2 a b = (vx a * vx b + vy a * vy b)%num;
  squaredNorm2_eq a : squaredNorm2 a = (vx a * vx a + vy a * vy a)%num;
  norm2_eq a : norm2 a = nsqrt (vx a * vx a + vy a * vy a)%num;
  normalized2_eq a : nltb (nofZ 0) (norm2 a) = true -> normalized2 a = div2 a (norm2 a);
  dot3_eq a b : dot3 a b = (v3x a * v3x b + v3y a * v3y b + v3z a * v3z b)%num;
  cross3_eq a b : cross3 a b =
    V3 (v3y a * v3z b - v3z a * v3y b)%num (v3z a * v3x b - v3x a * v3z b)%num
       (v3x a * v3y b - v3y a * v3x b)%num;
  squaredNorm3_eq a : squaredNorm3 a = (v3x a * v3x a + v3y a * v3y a + v3z a * v3z a)%num;
  norm3_eq a : norm3 a = nsqrt (v3x a * v3x a + v3y a * v3y a + v3z a * v3z a)%num;
  mat_vec_eq R a : mat_vec R a = V3 (dot3 (row0 R) a) (dot3 (row1 R) a) (dot3 (row2 R) a);
  mat_mul_eq A B : mat_mul A B =
    let col j := V3 (entry B 0 j) (entry B 1 j) (entry B 2 j) in
    let row r := V3 (dot3 r (col 0%nat)) (dot3 r (col 1%nat)) (dot3 r (col 2%nat)) in
    M3 (row (row0 A)) (row (row1 A)) (row (row2 A));
  AngleAxis_eq t e : AngleAxis t e =
    let c := ncos t in
    let s := nsin t in
    let o := nofZ 0 in
    let u := nofZ 1 in
    match e with
    | UnitX => M3 (V3 u o o) (V3 o c (nopp s)) (V3 o s c)
    | UnitY => M3 (V3 c o s) (V3 o u o) (V3 (nopp s) o c)
    | UnitZ => M3 (V3 c (nopp s) o) (V3 s c o) (V3 o o u)
    end;
}.

Section Plain.
Context {D : Type} {ND : Num D}.
#[local] Open Scope num_scope.

Definition plain_dot3 (a b : vec3 D) : D := v3x a * v3x b + v3y a * v3y b + v3z a * v3z b.

(** Rotation about a coordinate axis. *)
Definition plain_rotation (t : D) (e : axis) : mat3 D :=
  let c := ncos t in
  let s := nsin t in
  match e with
  | UnitX => M3 (V3 #1 #0 #0) (V3 #0 c (- s)) (V3 #0 s c)
  | UnitY => M3 (V3 c #0 s) (V3 #0 #1 #0) (V3 (- s) #0 c)
  | UnitZ => M3 (V3 c (- s) #0) (V3 s c #0) (V3 #0 #0 #1)
  end.

Definition eigen_plain : Eigen D := {|
  dot2 a b := vx a * vx b + vy a * vy b;
  squaredNorm2 a := vx a * vx a + vy a * vy a;
  norm2 a := nsqrt (vx a * vx a + vy a * vy a);
  normalized2 a := div2 a (nsqrt (vx a * vx a + vy a * vy a));
  dot3 := plain_dot3;
  cross3 a b := V3 (v3y a * v3z b - v3z a * v3y b) (v3z a * v3x b - v3x a * v3z b)
                   (v3x a * v3y b - v3y a * v3x b);
  squaredNorm3 a := plain_dot3 a a;
  norm3 a := nsqrt (plain_dot3 a a);
  mat_vec R a := V3 (plain_dot3 (row0 R) a) (plain_dot3 (row1 R) a) (plain_dot3 (row2 R) a);
  mat_mul A B :=
    let col j := V3 (entry B 0 j) (entry B 1 j) (entry B 2 j) in
    let row r := V3 (plain_dot3 r (col 0%nat)) (plain_dot3 r (col 1%nat)) (plain_dot3 r (col 2%nat)) in
    M3 (row (row0 A)) (row (row1 A)) (row (row2 A));
  AngleAxis := plain_rotation;
|}.

Definition eigen_plain_laws : @EigenLaws D ND eigen_plain.
Proof. constructor; reflexivity. Qed.
End Plain.

(** ** Planar vectors of reals *)

Section Plane.
Context {EG : Eigen R} {EL : EigenLaws R}.
#[local] Open Scope R_scope.

Lemma norm2_sqr (a : vec2 R) : norm2 a * norm2 a = vx a * vx a + vy a * vy a.
Proof. rewrite norm2_eq. simpl. apply sqrt_sqrt. nra. Qed.

Lemma norm2_nonneg (a : vec2 R) : 0 <= norm2 a.
Proof. rewrite norm2_eq. apply sqrt_pos. Qed.

Lemma norm2_zero (a : vec2 R) : norm2 a = 0 -> vx a = 0 ∧ vy a = 0.
Proof. intros H. pose proof (norm2_sqr a). rewrite H in *. nra. Qed.

Lemma normalized2_pos (a : vec2 R) :
  0 < norm2 a -> normalized2 a = V2 (vx a / norm2 a) (vy a / norm2 a).
Proof. intros H. rewrite normalized2_eq; [done|]. simpl. by case_R. Qed.

(** The norm is determined by its square. *)
Lemma norm2_unique (a : vec2 R) d : 0 <= d -> d * d = vx a * vx a + vy a * vy a -> norm2 a = d.
Proof. intros Hd H. pose proof (norm2_nonneg a). pose proof (norm2_sqr a). nra. Qed.
End Plane.
