(* ===== verification/Dense.v ===== *)
(** * Dense matrices

    Matrices larger than 3x3 and products of them, as the sources use them of the Eigen
    library: the class [Dense] has the operations, [DenseLaws] their documented values,
    and [dense_plain] is an instance over any arithmetic. *)

From Stdlib Require Import ZArith.
From stdpp Require Import base list.
From S2P Require Import Prelude Num.

(** Matrices are lists of rows; [mmul A B] and [mvec A v] are products, [cmax] and [cmin]
    the coefficient-wise maximum and minimum. *)
Class Dense (D : Type) := {
  mmul : list (list D) -> list (list D) -> list (list D);
  mvec : list (list D) -> list D -> list D;
  cmax : list D -> list D -> list D;
  cmin : list D -> list D -> list D;
}.

Definition row_dot {D : Type} {ND : Num D} (r v : list D) : D :=
  fold_right nadd (nofZ 0) (zip_with nmul r v).
Definition mcol {D : Type} {ND : Num D} (B : list (list D)) (j : nat) : list D := map (λ r, nth j r (nofZ 0)) B.

Class DenseLaws (D : Type) {ND : Num D} {DE : Dense D} := {
  mvec_eq A v : mvec A v = map (λ r, row_dot r v) A;
  mmul_eq A B : mmul A B = map (λ r, map (λ j, row_dot r (mcol B j)) (seq 0 (length (nth 0 B [])))) A;
  cmax_eq a b : cmax a b = zip_with nmax a b;
  cmin_eq a b : cmin a b = zip_with nmin a b;
}.

Definition dense_plain {D : Type} {ND : Num D} : Dense D := {|
  mvec A v := map (λ r, row_dot r v) A;
  mmul A B := map (λ r, map (λ j, row_dot r (mcol B j)) (seq 0 (length (nth 0 B [])))) A;
  cmax := zip_with nmax;
  cmin := zip_with nmin;
|}.

Definition dense_plain_laws {D : Type} {ND : Num D} : @DenseLaws D ND dense_plain.
Proof. constructor; reflexivity. Qed.
