(* ===== verification/Can.v ===== *)
(** * The CAN node: decoding and encoding NMEA 2000 frames

    src/can/can.cc and can.h, with src/can/can.proto for the message types and
    src/util/proto_util.cc for reading a numeric field.  A frame read from the bus
    is stored into the message of its PGN, and a complete message is decoded field
    by field into a protocol buffer and published; a published outgoing message is
    encoded into a frame.

    Operations the language leaves undefined are errors ([CanErr]).  The protocol
    buffer library is used through the interface [ProtoMsg]: getting and setting a
    field of a message by number. *)

From Stdlib Require Import ZArith Lia String Floats.
From stdpp Require Import base list gmap.
From S2P Require Import Prelude Num NumF Pgn.

Open Scope Z_scope.

Inductive CanErr :=
| OutOfBounds       (* access outside an array *)
| SignedOverflow    (* overflow of signed arithmetic *)
| BadShift          (* shift by at least the width *)
| BadConversion     (* floating value not representable in the integer type *)
| Uninitialized.    (* read of an uninitialised frame *)

(** ** Protocol buffers *)

Inductive FieldType :=
| TYPE_DOUBLE | TYPE_FLOAT | TYPE_BOOL
| TYPE_ENUM (values : list Z)
| TYPE_INT32 | TYPE_SINT32 | TYPE_SFIXED32
| TYPE_INT64 | TYPE_SFIXED64 | TYPE_SINT64
| TYPE_UINT32 | TYPE_FIXED32 | TYPE_UINT64 | TYPE_FIXED64
| TYPE_STRING | TYPE_BYTES | TYPE_MESSAGE.

(** The value of a numeric field. *)
Inductive PVal (D : Type) :=
| VReal (d : D)      (* double and float fields *)
| VBool (b : bool)
| VInt (z : Z).      (* integer and enum fields *)
Arguments VReal {D} _.
Arguments VBool {D} _.
Arguments VInt {D} _.

(** Messages of the protocol buffer library: the value of a set field, setting a
    field, and the message with no field set. *)
Class ProtoMsg (D M : Type) := {
  pm_empty : M;
  pm_get : M -> Z -> option (PVal D);
  pm_set : M -> Z -> PVal D -> M;
  pm_get_empty k : pm_get pm_empty k = None;
  pm_get_set m k v : pm_get (pm_set m k v) k = Some v;
  pm_get_set_ne m k k' v : k ≠ k' -> pm_get (pm_set m k v) k' = pm_get m k';
}.

#[global, program] Instance gmap_ProtoMsg D : ProtoMsg D (gmap Z (PVal D)) := {|
  pm_empty := ∅;
  pm_get m k := m !! k;
  pm_set m k v := <[k := v]> m;
|}.
Next Obligation. intros. apply lookup_empty. Qed.
Next Obligation. intros. apply lookup_insert_eq. Qed.
Next Obligation. intros. by apply lookup_insert_ne. Qed.

(** A message type: its fields by number. *)
Definition Descriptor : Type := list (Z * FieldType).

Fixpoint FindFieldByNumber (d : Descriptor) (n : Z) : option FieldType :=
  match d with
  | [] => None
  | (k, t) :: d' => if k =? n then Some t else FindFieldByNumber d' n
  end.

Definition u32s (l : list Z) : Descriptor := map (λ k, (k, TYPE_UINT32)) l.
Definition DIRECTION_REFERENCE : FieldType := TYPE_ENUM [0; 1].
Definition GNSS_TYPE : FieldType := TYPE_ENUM [0; 1; 2; 3; 4; 5; 6; 7; 8].

Definition SystemTime : Descriptor := u32s [1; 4; 5].
Definition VesselHeading : Descriptor :=
  [(1, TYPE_UINT32); (2, TYPE_FLOAT); (3, TYPE_FLOAT); (4, TYPE_FLOAT);
   (5, DIRECTION_REFERENCE)].
Definition RateOfTurn : Descriptor := [(1, TYPE_UINT32); (2, TYPE_FLOAT)].
Definition Attitude : Descriptor :=
  [(1, TYPE_UINT32); (2, TYPE_FLOAT); (3, TYPE_FLOAT); (4, TYPE_FLOAT)].
Definition TimeDate : Descriptor := [(1, TYPE_UINT32); (2, TYPE_UINT32); (3, TYPE_INT32)].
Definition GNSSDOP : Descriptor :=
  [(1, TYPE_UINT32); (2, TYPE_ENUM [0; 1; 2; 3; 6]); (3, TYPE_ENUM [0; 1; 2; 3; 6]);
   (4, TYPE_UINT32); (5, TYPE_FLOAT); (6, TYPE_FLOAT); (7, TYPE_FLOAT)].
Definition GNSSPositionData : Descriptor :=
  [(1, TYPE_UINT32); (2, TYPE_UINT32); (3, TYPE_UINT32); (4, TYPE_DOUBLE);
   (5, TYPE_DOUBLE); (6, TYPE_DOUBLE); (7, GNSS_TYPE);
   (8, TYPE_ENUM [0; 1; 2; 3; 4; 5; 6; 7; 8]); (9, TYPE_ENUM [0; 1; 2]);
   (10, TYPE_UINT32); (11, TYPE_UINT32); (12, TYPE_FLOAT); (13, TYPE_FLOAT);
   (14, TYPE_FLOAT); (15, TYPE_UINT32); (16, GNSS_TYPE); (17, TYPE_UINT32);
   (18, TYPE_FLOAT)].
Definition PosRapidUpdate : Descriptor := [(1, TYPE_DOUBLE); (2, TYPE_DOUBLE)].
Definition COGSOGRapidUpdate : Descriptor :=
  [(1, TYPE_UINT32); (2, DIRECTION_REFERENCE); (3, TYPE_UINT32); (4, TYPE_FLOAT);
   (5, TYPE_FLOAT); (6, TYPE_UINT32)].
Definition WindData : Descriptor :=
  [(1, TYPE_UINT32); (2, TYPE_FLOAT); (3, TYPE_FLOAT); (4, TYPE_ENUM [0; 1; 2; 3; 4])].
Definition AnalogPot : Descriptor := u32s [1; 2].
Definition PWMWrite : Descriptor := u32s [1; 2; 3].
Definition DebugSCAMP : Descriptor := u32s [1; 2].
Definition BallastState : Descriptor := [(1, TYPE_FLOAT); (2, TYPE_FLOAT)].
Definition CONTROL_MODE : FieldType := TYPE_ENUM [0; 1; 2; 3; 4].
Definition SailbotState : Descriptor :=
  [(1, CONTROL_MODE); (2, CONTROL_MODE); (3, CONTROL_MODE); (4, CONTROL_MODE);
   (5, TYPE_ENUM [0; 1; 2; 3; 4])].
Definition SailbotConn : Descriptor :=
  map (λ k, (k, TYPE_ENUM [0; 1; 255])) [1; 2; 3; 4; 5].
Definition BatteryVoltage : Descriptor := [(1, TYPE_FLOAT)].

(** The message fields of [CANMaster]: their number is the PGN. *)
Definition CANMaster_desc : list (Z * Descriptor) :=
  [(126992, SystemTime); (127250, VesselHeading); (127251, RateOfTurn);
   (127257, Attitude); (129025, PosRapidUpdate); (129026, COGSOGRapidUpdate);
   (129029, GNSSPositionData); (129033, TimeDate); (129539, GNSSDOP);
   (130306, WindData); (65281, AnalogPot); (65282, PWMWrite); (65283, DebugSCAMP);
   (65284, DebugSCAMP); (65285, BallastState); (65296, SailbotState);
   (65297, SailbotConn); (65312, BatteryVoltage)].

Definition FindPgn (n : Z) : option Descriptor :=
  snd <$> find (λ e, fst e =? n) CANMaster_desc.

(** ** Integers *)

Definition in_int64 (z : Z) : bool := in_s 64 z.

(** [maxval - val] is a signed subtraction. *)
Definition IsReserved (val maxval : Z) : result CanErr bool :=
  let overflow := ((15 <=? maxval) || (1 <? maxval)) && negb (in_int64 (maxval - val)) in
  if overflow then Err SignedOverflow
  else Ok (((15 <=? maxval) && (maxval - val <=? 2))
           || ((1 <? maxval) && (maxval - val <=? 1)) || (maxval =? val)).

(** The little-endian unsigned value of bytes. *)
Fixpoint le_value (l : list Z) : Z :=
  match l with
  | [] => 0
  | b :: l' => b + 2 ^ 8 * le_value l'
  end.

(** The little-endian bytes of an unsigned value. *)
Fixpoint le_bytes (n : nat) (z : Z) : list Z :=
  match n with
  | O => []
  | S n' => z mod 2 ^ 8 :: le_bytes n' (z / 2 ^ 8)
  end.

(** The [n] bytes at [off], as [memcpy] reads them. *)
Definition read_bytes (data : list Z) (off n : nat) : result CanErr (list Z) :=
  if (off + n <=? length data)%nat then Ok (take n (drop off data)) else Err OutOfBounds.

(** Writing [bs] at [off]. *)
Definition write_bytes (data : list Z) (off : nat) (bs : list Z) : result CanErr (list Z) :=
  if (off + length bs <=? length data)%nat
  then Ok (take off data ++ bs ++ drop (off + length bs) data)
  else Err OutOfBounds.

#[local] Open Scope result_scope.

(** The loop of [ExtractNumberField]: [data] from the current byte on. *)
Fixpoint extract_loop (fuel : nat) (data : list Z) (start_bit bits_left magnitude retval maxval : Z)
  : result CanErr (Z * Z * Z) :=
  if bits_left =? 0 then Ok (retval, maxval, magnitude) else
  match fuel, data with
  | O, _ => Err OutOfBounds
  | _, [] => Err OutOfBounds
  | S fuel, byte :: data =>
      if 64 <=? magnitude then Err BadShift else
      let byte_bits := wrapu 8 (Z.min (8 - start_bit) bits_left) in
      let end_gap := 8 - byte_bits - start_bit in
      let mask := wrapu 8 (Z.land (Z.shiftr 0xFF end_gap) (Z.shiftl 0xFF start_bit)) in
      let cur_val := wrapu 64 (Z.shiftl (Z.shiftr (Z.land mask byte) start_bit) magnitude) in
      let retval := wraps 64 (wrapu 64 (wrapu 64 retval + cur_val)) in
      let maxval := wraps 64 (Z.shiftl maxval byte_bits) in
      let maxval := wraps 64 (maxval + Z.shiftr mask start_bit) in
      extract_loop fuel data 0 (bits_left - byte_bits) (magnitude + byte_bits) retval maxval
  end.

Section Node.
Context {D : Type} {ND : Num D} {M : Type} {PM : ProtoMsg D M}.
Abbreviation Pgn := (Pgn D).
Abbreviation Field := (Field D).

(** The value and [*maxval]. *)
Definition ExtractNumberField (f : Field) (data : list Z) (start_bit : Z)
  : result CanErr (Z * Z) :=
  let* (retval, maxval, magnitude) :=
    extract_loop (Z.to_nat (fsize f)) (drop (Z.to_nat (start_bit / 8)) data)
      (start_bit mod 8) (fsize f) 0 0 0 in
  if hasSign f then
    if magnitude =? 0 then Err BadShift else
    let maxval := Z.shiftr maxval 1 in
    let retval := if Z.shiftr retval (magnitude - 1) =? 0 then retval
                  else Z.lor retval (Z.lnot maxval) in
    Ok (retval, maxval)
  else Ok (retval, maxval).

(** Conversion of a [double] argument to an integer parameter. *)
Definition to_integer (ok : Z -> bool) (x : D) : result CanErr Z :=
  match ntrunc x with
  | Some z => if ok z then Ok z else Err BadConversion
  | None => Err BadConversion
  end.

(** An enum value that is not in the enum is kept aside by the library and does
    not change the field. *)
Definition SetProtoNumberField (d : Descriptor) (msg : M) (field_num : Z) (val : D)
  : result CanErr M :=
  match FindFieldByNumber d field_num with
  | None => Ok msg
  | Some TYPE_DOUBLE => Ok (pm_set msg field_num (VReal val))
  | Some TYPE_FLOAT => Ok (pm_set msg field_num (VReal (nfloat val)))
  | Some TYPE_BOOL => Ok (pm_set msg field_num (VBool (negb (neqb val (nofZ 0)))))
  | Some (TYPE_ENUM values) =>
      let* z := to_integer (in_s 32) val in
      Ok (if existsb (Z.eqb z) values then pm_set msg field_num (VInt z) else msg)
  | Some TYPE_INT32 | Some TYPE_SINT32 | Some TYPE_SFIXED32 =>
      let* z := to_integer (in_s 32) val in Ok (pm_set msg field_num (VInt z))
  | Some TYPE_INT64 | Some TYPE_SFIXED64 | Some TYPE_SINT64 =>
      let* z := to_integer (in_s 64) val in Ok (pm_set msg field_num (VInt z))
  | Some TYPE_UINT32 | Some TYPE_FIXED32 =>
      let* z := to_integer (in_u 32) val in Ok (pm_set msg field_num (VInt z))
  | Some TYPE_UINT64 | Some TYPE_FIXED64 =>
      let* z := to_integer (in_u 64) val in Ok (pm_set msg field_num (VInt z))
  | Some _ => Ok msg
  end.

(** [GetDouble], [GetInt32] and the others: the value, or the default zero. *)
Definition GetProtoNumberField (t : FieldType) (msg : M) (field_num : Z) : D :=
  match t with
  | TYPE_STRING | TYPE_BYTES | TYPE_MESSAGE => nofZ 0
  | _ => match pm_get msg field_num with
         | Some (VReal d) => d
         | Some (VBool b) => nofZ (if b then 1 else 0)
         | Some (VInt z) => nofZ z
         | None => nofZ 0
         end
  end.

Definition GetProtoNumberFieldById (d : Descriptor) (msg : M) (num : Z) : D :=
  match FindFieldByNumber d num with
  | None => nofZ 0
  | Some t => GetProtoNumberField t msg num
  end.

(** [CANMaster]: the [outgoing] flag, and the messages that are set, by PGN. *)
Record CANMaster := MkCANMaster {
  outgoing : option bool;
  submsg : gmap Z M;
}.
Definition outgoing_value (m : CANMaster) : bool := default true (outgoing m).

(** ** Messages under assembly *)

Record CANMessage := MkCANMessage {
  cm_pgn : Pgn;
  is_long : bool;
  len : Z;
  base : Z;
  cm_data : list Z;
  store_msg : CANMaster;
}.

Definition CANMessage_new (p : Pgn) (store : CANMaster) : CANMessage :=
  MkCANMessage p (8 <? size p) (size p) 0
    (repeat 0 (Z.to_nat ((size p / 8 + 1) * 8))) store.

(** The messages the node handles: [std::map::emplace] keeps the first entry of a
    key. *)
Definition CanNode_msgs : list Pgn -> gmap Z CANMessage :=
  fix go l :=
    match l with
    | [] => ∅
    | p :: l =>
        match FindPgn (pgn p) with
        | None => go l
        | Some _ => <[pgn p := CANMessage_new p (MkCANMaster None ∅)]> (go l)
        end
    end.

(** ** Decoding *)

Definition decode_latlon (f : Field) (d : Descriptor) (data : list Z) (cur_bit i : Z) (m : M)
  : result CanErr M :=
  let byte_aligned := cur_bit mod 8 =? 0 in
  let* (val, reserved) :=
    if negb byte_aligned then Ok (nofZ 0, false)
    else if fsize f =? 32 then
      let* bs := read_bytes data (Z.to_nat (cur_bit / 8)) 4 in
      let short_val := wraps 32 (le_value bs) in
      let* r := IsReserved short_val (Z.shiftr (2 ^ 32 - 1) 1) in
      Ok (nmul (nofZ short_val) RES_LAT_LONG, r)
    else if fsize f =? 64 then
      let* bs := read_bytes data (Z.to_nat (cur_bit / 8)) 8 in
      let int_val := wraps 64 (le_value bs) in
      let* r := IsReserved int_val (2 ^ 63 - 1) in
      Ok (nmul (nofZ int_val) RES_LAT_LONG_64, r)
    else Ok (nofZ 0, false) in
  if reserved then Ok m else SetProtoNumberField d m (i + 1) val.

(** The body of the field loop: field number [i], at bit [cur_bit]. *)
Definition decode_field (d : Descriptor) (data : list Z) (f : Field) (cur_bit i : Z) (m : M)
  : result CanErr M :=
  let res := resolution f in
  if nltb (nofZ 0) res then
    let* (val, max_val) := ExtractNumberField f data cur_bit in
    let* r := IsReserved val max_val in
    if r then Ok m else SetProtoNumberField d m (i + 1) (nmul (nofZ val) res)
  else if nltb res (nofZ 0) then
    if neqb res RES_LATITUDE || neqb res RES_LONGITUDE then
      decode_latlon f d data cur_bit i m
    else if neqb res RES_DATE then
      let* bs := read_bytes data (Z.to_nat (cur_bit / 8)) 2 in
      SetProtoNumberField d m (i + 1) (nofZ (le_value bs))
    else if neqb res RES_TIME then
      let* bs := read_bytes data (Z.to_nat (cur_bit / 8)) 4 in
      SetProtoNumberField d m (i + 1) (nofZ (le_value bs))
    else if neqb res RES_LOOKUP then
      let* (val, max_val) := ExtractNumberField f data cur_bit in
      let* r := IsReserved val max_val in
      if r then Ok m else SetProtoNumberField d m (i + 1) (nofZ val)
    else Ok m
  else Ok m.

Fixpoint decode_fields (d : Descriptor) (data : list Z) (fl : list Field) (cur_bit i : Z) (m : M)
  : result CanErr M :=
  match fl with
  | [] => Ok m
  | f :: fl =>
      let* m := decode_field d data f cur_bit i m in
      decode_fields d data fl (cur_bit + fsize f) (i + 1) m
  end.

(** The message with its stored protocol buffer updated, and what is published. *)
Definition DecodeAndSend (msg : CANMessage) : result CanErr (CANMessage * option CANMaster) :=
  let n := pgn (cm_pgn msg) in
  match FindPgn n with
  | None => Ok (msg, None)
  | Some d =>
      let pgn_msg := default pm_empty (submsg (store_msg msg) !! n) in
      let* m := decode_fields d (cm_data msg) (fieldList (cm_pgn msg)) 0 0 pgn_msg in
      let store := MkCANMaster (Some false) (<[n := m]> (submsg (store_msg msg))) in
      Ok (MkCANMessage (cm_pgn msg) (is_long msg) (len msg) (base msg) (cm_data msg) store,
          Some store)
  end.

(** ** Receiving *)

Record can_frame := MkFrame {
  can_id : Z;
  can_dlc : Z;
  fdata : list Z;   (* 8 bytes *)
}.

(** One attempt of the reading loop: the value of [util::IsShutdown()] before it,
    and the frame or the failure [read] reports.  A shutdown leaves the frame
    uninitialised. *)
Fixpoint read_frame (reads : list (bool * option can_frame)) : result CanErr (option can_frame) :=
  match reads with
  | [] => Ok None
  | (true, _) :: _ => Err Uninitialized
  | (false, Some f) :: _ => Ok (Some f)
  | (false, None) :: reads => read_frame reads
  end.

(** Storing a frame's bytes: [size_t] arithmetic; [data_start + i] for [i < dlc]. *)
Definition store_frame (msg : CANMessage) (frame : can_frame) : result CanErr (CANMessage * Z * Z) :=
  let '(dlc, skip, data_start, base') :=
    if is_long msg then
      let index := Z.land (nth 0 (fdata frame) 0) 0x1F in
      let b := Z.land (nth 0 (fdata frame) 0) 0xE0 in
      let data_start := if index =? 0 then 0 else index * 7 - 1 in
      if index =? 0 then (wrapu 64 (can_dlc frame - 2), 2%nat, data_start, b)
      else (wrapu 64 (can_dlc frame - 1), 1%nat, data_start, base msg)
    else (can_dlc frame, 0%nat, 0, base msg) in
  if 8 <? dlc + Z.of_nat skip then Err OutOfBounds else
  let* bs := read_bytes (fdata frame) skip (Z.to_nat dlc) in
  let* data := write_bytes (cm_data msg) (Z.to_nat data_start) bs in
  Ok (MkCANMessage (cm_pgn msg) (is_long msg) (len msg) base' data (store_msg msg),
      data_start, dlc).

(** [Iterate] once a frame has been read: the new messages and what is published
    on the queue of the frame's PGN. *)
Definition HandleFrame (msgs : gmap Z CANMessage) (frame : can_frame)
  : result CanErr (gmap Z CANMessage * option CANMaster) :=
  let n := GetPGN (RetrieveID (can_id frame)) in
  match msgs !! n with
  | None => Ok (msgs, None)
  | Some msg =>
      let* (msg, data_start, dlc) := store_frame msg frame in
      let at_end := negb (is_long msg) || (len msg <=? 8 * (data_start + dlc)) in
      if at_end then
        let* (msg, out) := DecodeAndSend msg in
        Ok (<[n := msg]> msgs, out)
      else Ok (<[n := msg]> msgs, None)
  end.

Definition Iterate (msgs : gmap Z CANMessage) (reads : list (bool * option can_frame))
  : result CanErr (gmap Z CANMessage * option CANMaster) :=
  let* f := read_frame reads in
  match f with
  | None => Ok (msgs, None)
  | Some frame => HandleFrame msgs frame
  end.

(** ** Sending *)

(** The field loop of [ConstructMessage]: the bytes and [can_dlc] (a [uint8_t]);
    [None] when it gives up. *)
Fixpoint construct_fields (d : Descriptor) (pgn_msg : M) (fl : list Field) (i : Z)
    (data : list Z) (dlc : Z) : result CanErr (option (list Z * Z)) :=
  match fl with
  | [] => Ok (Some (data, dlc))
  | f :: fl =>
      if negb (fsize f mod 8 =? 0) then Ok None else
      let nbytes := fsize f / 8 in
      let* data :=
        if nltb (nofZ 0) (resolution f) then
          let x := GetProtoNumberFieldById d pgn_msg (i + 1) in
          let* n_wire := to_integer (in_u 64) (ndiv x (resolution f)) in
          if 8 <? nbytes then Err OutOfBounds else
          write_bytes data (Z.to_nat dlc) (le_bytes (Z.to_nat nbytes) n_wire)
        else Ok data in
      construct_fields d pgn_msg fl (i + 1) data (wrapu 8 (dlc + nbytes))
  end.

Definition pad_frame (data : list Z) (dlc : Z) : list Z :=
  take (Z.to_nat dlc) data ++ repeat 0xFF (8 - Z.to_nat dlc).

(** [frame0] and [id0] are the contents of the uninitialised locals. *)
Definition ConstructMessage (id0 : CANID) (frame0 : can_frame) (msg : CANMaster) (msg_info : CANMessage)
  : result CanErr (option can_frame) :=
  let n := pgn (cm_pgn msg_info) in
  match FindPgn n with
  | None => Ok None
  | Some d =>
      let pgn_msg := default pm_empty (submsg msg !! n) in
      let* r := construct_fields d pgn_msg (fieldList (cm_pgn msg_info)) 0 (fdata frame0) 0 in
      match r with
      | None => Ok None
      | Some (data, dlc) =>
          let id := SetPGN (CANID_init id0) n in
          let id := MkCANID 0x15 (PS id) (PF id) (DP id) (reserved id) 0x5 (unused id)
                      (eff_ident id) in
          let data := if dlc <? 8 then pad_frame data dlc else data in
          Ok (Some (MkFrame (ConstructID id) (Z.max dlc 8) data))
      end
  end.

(** The frame written to the socket, if any; [operator[]] would add an entry with an
    uninitialised table pointer for an unknown PGN. *)
Definition SendMessage (id0 : CANID) (frame0 : can_frame) (msgs : gmap Z CANMessage)
    (msg : CANMaster) (n : Z) : result CanErr (option can_frame) :=
  if negb (outgoing_value msg) then Ok None
  else match msgs !! n with
       | None => Err Uninitialized
       | Some msg_info => ConstructMessage id0 frame0 msg msg_info
       end.

End Node.
Arguments CANMaster : clear implicits.
Arguments CANMessage : clear implicits.

(** ** Bit fields of byte strings *)

Definition byte (b : Z) : Prop := 0 <= b < 2 ^ 8.

Lemma le_value_range l : Forall byte l -> 0 <= le_value l < 2 ^ (8 * Z.of_nat (length l)).
Proof.
  induction 1 as [|b l Hb Hl IH]; simpl le_value; [simpl; lia|].
  replace (8 * Z.of_nat (length (b :: l))) with (8 + 8 * Z.of_nat (length l))
    by (simpl length; lia).
  rewrite Z.pow_add_r by lia. unfold byte in Hb. nia.
Qed.

Lemma bits_range x lo n : 0 <= lo -> 0 <= n -> 0 <= bits x lo n < 2 ^ n.
Proof. intros. rewrite bits_div_mod by done. apply Z.mod_pos_bound. auto with boat. Qed.

(** The mask of [byte_bits] bits from [start_bit] on, and what it selects. *)
Lemma mask_spec s n :
  0 <= s < 8 -> 1 <= n <= 8 - s ->
  wrapu 8 (Z.land (Z.shiftr 0xFF (8 - n - s)) (Z.shiftl 0xFF s)) = Z.shiftl (Z.ones n) s.
Proof.
  intros Hs Hn.
  assert (s = 0 ∨ s = 1 ∨ s = 2 ∨ s = 3 ∨ s = 4 ∨ s = 5 ∨ s = 6 ∨ s = 7) as Es by lia.
  assert (n = 1 ∨ n = 2 ∨ n = 3 ∨ n = 4 ∨ n = 5 ∨ n = 6 ∨ n = 7 ∨ n = 8) as En by lia.
  destruct Es as [->|[->|[->|[->|[->|[->|[->| ->]]]]]]];
    destruct En as [->|[->|[->|[->|[->|[->|[->| ->]]]]]]]; lia || reflexivity.
Qed.

Lemma mask_select s n b :
  0 <= s -> 0 <= n -> Z.shiftr (Z.land (Z.shiftl (Z.ones n) s) b) s = bits b s n.
Proof.
  intros. rewrite Z.shiftr_land, Z.shiftr_shiftl_l, Z.sub_diag, Z.shiftl_0_r by lia.
  unfold bits. apply Z.land_comm.
Qed.

(** A bit field inside the first byte, and one that reaches the next bytes. *)
Lemma bits_head b x s n :
  byte b -> 0 <= s -> 0 <= n -> s + n <= 8 -> bits (b + 2 ^ 8 * x) s n = bits b s n.
Proof.
  intros Hb Hs Hn Hsn. rewrite !bits_div_mod by lia.
  replace (2 ^ 8) with (2 ^ s * 2 ^ (8 - s)) by (rewrite <- Z.pow_add_r by lia; f_equal; lia).
  rewrite <- Z.mul_assoc, (Z.mul_comm (2 ^ s)), Z.div_add by (pose proof (pow2_pos s Hs); lia).
  replace (2 ^ (8 - s)) with (2 ^ n * 2 ^ (8 - s - n))
    by (rewrite <- Z.pow_add_r by lia; f_equal; lia).
  rewrite <- Z.mul_assoc, (Z.mul_comm (2 ^ n)). apply Z_mod_plus_full.
Qed.

Lemma bits_cons b x s n :
  byte b -> 0 <= s < 8 -> 8 - s <= n ->
  bits (b + 2 ^ 8 * x) s n = bits b s (8 - s) + 2 ^ (8 - s) * bits x 0 (n - (8 - s)).
Proof.
  intros Hb Hs Hn. unfold byte in Hb. rewrite !bits_div_mod by lia.
  rewrite Z.pow_0_r, Z.div_1_r.
  assert (2 ^ 8 = 2 ^ s * 2 ^ (8 - s)) as E8 by (rewrite <- Z.pow_add_r by lia; f_equal; lia).
  assert (2 ^ n = 2 ^ (8 - s) * 2 ^ (n - (8 - s))) as En
    by (rewrite <- Z.pow_add_r by lia; f_equal; lia).
  pose proof (pow2_pos s ltac:(lia)). pose proof (pow2_pos (8 - s) ltac:(lia)).
  pose proof (pow2_pos (n - (8 - s)) ltac:(lia)).
  assert (0 <= b / 2 ^ s < 2 ^ (8 - s)) as Hq.
  { split; [apply Z.div_pos; lia|]. apply Z.div_lt_upper_bound; lia. }
  rewrite E8, <- Z.mul_assoc, (Z.mul_comm (2 ^ s)), Z.div_add by lia.
  rewrite (Z.mod_small (b / 2 ^ s) (2 ^ (8 - s))) by done.
  rewrite En, Z.rem_mul_r, (Z.mul_comm (2 ^ (8 - s)) x) by lia.
  rewrite Z_mod_plus_full, Z.mod_small by done.
  rewrite Z_div_plus_full by lia. rewrite (Z.div_small _ _ Hq). done.
Qed.

Lemma bits_split b x s n :
  byte b -> 0 <= s < 8 -> 0 <= n ->
  bits (b + 2 ^ 8 * x) s n =
  bits b s (Z.min (8 - s) n) + 2 ^ Z.min (8 - s) n * bits x 0 (n - Z.min (8 - s) n).
Proof.
  intros Hb Hs Hn. destruct (Z.le_gt_cases (8 - s) n).
  - rewrite Z.min_l by lia. by apply bits_cons.
  - rewrite Z.min_r, Z.sub_diag by lia. rewrite bits_head by (done || lia).
    unfold bits at 3. rewrite Z.land_0_r. lia.
Qed.

(** The loop adds the bit field at weight [2^magnitude], and builds the mask of
    all ones. *)
Lemma extract_loop_spec fuel : ∀ data s n mag ret max,
  Forall byte data -> 0 <= s < 8 -> 0 <= n -> (Z.to_nat n <= fuel)%nat ->
  s + n <= 8 * Z.of_nat (length data) -> 0 <= mag -> mag + n <= 64 ->
  wraps 64 ret = ret -> wraps 64 max = max ->
  extract_loop fuel data s n mag ret max =
  Ok (wraps 64 (ret + 2 ^ mag * bits (le_value data) s n),
      wraps 64 (max * 2 ^ n + (2 ^ n - 1)), mag + n).
Proof.
  induction fuel as [|fuel IH]; intros data s n mag ret max Hd Hs Hn Hf Hl Hm Hmn Hret Hmax;
    simpl extract_loop; case_test; try lia; subst.
  1-2: unfold bits; rewrite Z.land_0_r, Z.mul_0_r, Z.pow_0_r, !Z.add_0_r, Z.mul_1_r, Hret;
    by rewrite Hmax.
  destruct Hd as [|b data Hb Hd]; [simpl in Hl; lia|].
  destruct (Z.leb_spec 64 mag); [lia|].
  rewrite (wrapu_small 8 (Z.min _ _)) by lia.
  set (bb := Z.min (8 - s) n).
  rewrite mask_spec, mask_select by lia.
  rewrite IH; [|done|lia|lia|lia|simpl length in Hl; lia|lia|lia|apply wraps_wraps|apply wraps_wraps].
  rewrite Z.shiftr_shiftl_l, Z.sub_diag, Z.shiftl_0_r by lia.
  do 2 f_equal; [f_equal|lia].
  - rewrite !wraps_wraps || idtac. apply wraps_proper.
    rewrite wraps_eqm, wrapu_eqm, !wrapu_eqm, Z.shiftl_mul_pow2 by lia.
    change (le_value (b :: data)) with (b + 2 ^ 8 * le_value data).
    rewrite bits_split, Z.pow_add_r by (done || lia). fold bb. apply eq_subrelation; [tc_solve | lia].
  - apply wraps_proper. rewrite wraps_eqm, wraps_eqm, Z.shiftl_mul_pow2, Z.ones_equiv by lia.
    apply eq_subrelation; [tc_solve|].
    assert (2 ^ n = 2 ^ bb * 2 ^ (n - bb)) as -> by (rewrite <- Z.pow_add_r by lia; f_equal; lia).
    lia.
Qed.

Lemma le_value_drop k : ∀ l, Forall byte l -> le_value (drop k l) = le_value l / 2 ^ (8 * Z.of_nat k).
Proof.
  induction k as [|k IH]; intros l Hl.
  - by rewrite Z.div_1_r.
  - destruct Hl as [|b l Hb Hl]; [done|]. simpl drop. rewrite IH by done.
    replace (8 * Z.of_nat (S k)) with (8 + 8 * Z.of_nat k) by lia.
    rewrite Z.pow_add_r, <- Z.div_div by (try apply Z.pow_nonzero; auto with boat; lia).
    f_equal. simpl le_value. unfold byte in Hb.
    rewrite (Z.mul_comm (2 ^ 8)), Z_div_plus_full, Z.div_small; lia.
Qed.

Lemma bits_drop k l s n :
  Forall byte l -> 0 <= s -> 0 <= n ->
  bits (le_value (drop k l)) s n = bits (le_value l) (8 * Z.of_nat k + s) n.
Proof.
  intros Hl Hs Hn. rewrite le_value_drop by done. rewrite !bits_div_mod by lia.
  rewrite Z.div_div, <- Z.pow_add_r by (try apply Z.pow_nonzero; auto with boat; lia). done.
Qed.

(** Setting the bits from the sign bit up, when it is set, reads the field as signed. *)
Lemma sign_extend n x :
  1 <= n -> 0 <= x < 2 ^ n ->
  (if Z.shiftr x (n - 1) =? 0 then x else Z.lor x (Z.lnot (2 ^ (n - 1) - 1))) = wraps n x.
Proof.
  intros Hn Hx. rewrite wraps_of_unsigned by lia. rewrite Z.shiftr_div_pow2 by lia.
  assert (2 ^ n = 2 * 2 ^ (n - 1)) by (rewrite <- Z.pow_succ_r by lia; f_equal; lia).
  pose proof (pow2_pos (n - 1) ltac:(lia)).
  destruct (Z.ltb_spec x (2 ^ (n - 1))) as [Hl|Hl].
  - by rewrite Z.div_small by lia.
  - assert (x / 2 ^ (n - 1) = 1) as Eq by (symmetry; apply Z.div_unique with (x - 2 ^ (n - 1)); lia).
    rewrite Eq. simpl. pose proof (Z.add_lor_land x (Z.lnot (2 ^ (n - 1) - 1))) as Ha.
    replace (Z.land x (Z.lnot (2 ^ (n - 1) - 1))) with (2 ^ (n - 1)) in Ha.
    { unfold Z.lnot in *. lia. }
    rewrite <- Z.ldiff_land. replace (2 ^ (n - 1) - 1) with (Z.ones (n - 1)) by (rewrite Z.ones_equiv; lia).
    rewrite Z.ldiff_ones_r, Z.shiftr_div_pow2, Z.shiftl_mul_pow2, Eq by lia. lia.
Qed.

Section Extract.
Context {D : Type}.

(** The loop's result, before the sign is handled. *)
Lemma extract_raw (f : Field D) data start :
  Forall byte data -> 0 <= start -> 1 <= fsize f <= 64 ->
  start + fsize f <= 8 * Z.of_nat (length data) ->
  extract_loop (Z.to_nat (fsize f)) (drop (Z.to_nat (start / 8)) data)
    (start mod 8) (fsize f) 0 0 0 =
  Ok (wraps 64 (bits (le_value data) start (fsize f)), wraps 64 (2 ^ fsize f - 1), fsize f).
Proof.
  intros Hd Hs Hn Hl.
  pose proof (Z.div_mod start 8 ltac:(lia)). pose proof (Z.mod_pos_bound start 8 ltac:(lia)).
  rewrite extract_loop_spec; try lia; try done.
  - rewrite bits_drop by (done || lia). rewrite Z2Nat.id by lia.
    replace (8 * (start / 8) + start mod 8) with start by lia.
    by rewrite Z.mul_1_l, !Z.add_0_l.
  - by apply Forall_drop.
  - rewrite length_drop. lia.
Qed.

Lemma extract_spec (f : Field D) (data : list Z) (start : Z) :
  Forall byte data -> 0 <= start -> 1 <= fsize f <= 64 ->
  start + fsize f <= 8 * Z.of_nat (length data) ->
  ExtractNumberField f data start =
  Ok (wraps (if hasSign f then fsize f else 64) (bits (le_value data) start (fsize f)),
      if fsize f =? 64 then -1
      else if hasSign f then 2 ^ (fsize f - 1) - 1 else 2 ^ fsize f - 1).
Proof.
  intros Hd Hs Hn Hl. unfold ExtractNumberField. rewrite extract_raw by done. simpl rbind.
  pose proof (bits_range (le_value data) start (fsize f) ltac:(lia) ltac:(lia)) as Hr.
  destruct (Z.eqb_spec (fsize f) 0); [lia|].
  destruct (Z.eqb_spec (fsize f) 64) as [E|E].
  - rewrite E. destruct (hasSign f); [|done].
    change (Z.lnot (wraps 64 (2 ^ 64 - 1) ≫ 1)) with 0. rewrite Z.lor_0_r.
    by destruct (_ =? 0).
  - assert (2 ^ fsize f <= 2 ^ 63) by (apply Z.pow_le_mono_r; lia).
    rewrite !wraps_small by (simpl; lia).
    destruct (hasSign f); [|by rewrite wraps_small by (simpl; lia)].
    replace ((2 ^ fsize f - 1) ≫ 1) with (2 ^ (fsize f - 1) - 1); [by rewrite sign_extend by lia|].
    assert (2 ^ fsize f = 2 * 2 ^ (fsize f - 1)) by (rewrite <- Z.pow_succ_r by lia; f_equal; lia).
    rewrite Z.shiftr_div_pow2 by lia. apply Z.div_unique with 1; lia.
Qed.

(** C9: [ExtractNumberField] returns the [size]-bit little-endian field of the data that
    starts at bit [start_bit], wherever the field starts and ends within its bytes,
    sign-extended when the field has a sign; and [*maxval] is the largest value of the
    field, except that a 64-bit field has the wrapped value -1. *)
Theorem extract_number_field_correct (f : Field D) (data : list Z) (start : Z) :
  Forall byte data -> 0 <= start -> 1 <= fsize f <= 64 ->
  start + fsize f <= 8 * Z.of_nat (length data) ->
  ExtractNumberField f data start =
  Ok (wraps (if hasSign f then fsize f else 64) (bits (le_value data) start (fsize f)),
      if fsize f =? 64 then -1
      else if hasSign f then 2 ^ (fsize f - 1) - 1 else 2 ^ fsize f - 1).
Proof. apply extract_spec. Qed.
End Extract.

(** ** Encoding *)

Lemma le_bytes_length n : ∀ z, length (le_bytes n z) = n.
Proof. induction n; simpl; auto. Qed.

Lemma le_bytes_byte n : ∀ z, Forall byte (le_bytes n z).
Proof. induction n; simpl; constructor; auto. apply Z.mod_pos_bound. lia. Qed.

Lemma le_value_app l l' :
  le_value (l ++ l') = le_value l + 2 ^ (8 * Z.of_nat (length l)) * le_value l'.
Proof.
  induction l as [|b l IH]; [simpl; lia|]. simpl app. simpl le_value. rewrite IH.
  replace (8 * Z.of_nat (length (b :: l))) with (8 + 8 * Z.of_nat (length l))
    by (simpl length; lia).
  rewrite Z.pow_add_r by lia. lia.
Qed.

Lemma le_value_bytes n : ∀ z, le_value (le_bytes n z) = z mod 2 ^ (8 * Z.of_nat n).
Proof.
  induction n as [|n IH]; intros z; [symmetry; apply Z.mod_1_r|].
  simpl le_bytes. simpl le_value. rewrite IH.
  replace (8 * Z.of_nat (S n)) with (8 + 8 * Z.of_nat n) by lia.
  rewrite Z.pow_add_r, Z.rem_mul_r by (try apply Z.pow_nonzero; auto with boat; lia). done.
Qed.

(** The field written at a byte offset is read back from there. *)
Lemma bits_written pre n z post :
  Forall byte pre -> Forall byte post ->
  bits (le_value (pre ++ le_bytes n z ++ post)) (8 * Z.of_nat (length pre)) (8 * Z.of_nat n)
  = z mod 2 ^ (8 * Z.of_nat n).
Proof.
  intros Hpre Hpost.
  pose proof (bits_drop (length pre) (pre ++ le_bytes n z ++ post) 0 (8 * Z.of_nat n)) as E.
  rewrite Z.add_0_r in E. rewrite <- E, drop_app_length by (try lia;
    repeat apply Forall_app_2; auto using le_bytes_byte). clear E.
  rewrite bits_div_mod, Z.div_1_r, le_value_app, le_bytes_length by lia.
  rewrite Z.mul_comm, Z_mod_plus_full, le_value_bytes. apply Zmod_mod.
Qed.

Section Construct.
Context {D : Type} {ND : Num D} {M : Type} {PM : ProtoMsg D M}.

(** The integers the fields of a message are sent as. *)
Fixpoint wire_values (d : Descriptor) (m : M) (fl : list (Field D)) (i : Z) : result CanErr (list Z) :=
  match fl with
  | [] => Ok []
  | f :: fl =>
      let* n := to_integer (in_u 64) (ndiv (GetProtoNumberFieldById d m (i + 1)) (resolution f)) in
      let* ns := wire_values d m fl (i + 1) in
      Ok (n :: ns)
  end.

(** Fields [ConstructMessage] supports. *)
Definition sendable (f : Field D) : bool :=
  (fsize f mod 8 =? 0) && (8 <=? fsize f) && (fsize f <=? 64) && nltb (nofZ 0) (resolution f).

Definition total_size (fl : list (Field D)) : Z := foldr Z.add 0 (map fsize fl).

Definition wire_bytes (fl : list (Field D)) (ns : list Z) : list Z :=
  concat (zip_with (λ f n, le_bytes (Z.to_nat (fsize f / 8)) n) fl ns).

Lemma sendable_inv f :
  sendable f = true -> ∃ k, fsize f = 8 * k ∧ 1 <= k <= 8 ∧ nltb (nofZ 0) (resolution f) = true.
Proof.
  unfold sendable. rewrite !andb_true_iff, Z.eqb_eq, !Z.leb_le. intros [[[Hm ?] ?] ?].
  exists (fsize f / 8). pose proof (Z.div_mod (fsize f) 8 ltac:(lia)). split_and!; (done || lia).
Qed.

Lemma wire_values_length d m fl : ∀ i ns, wire_values d m fl i = Ok ns -> length ns = length fl.
Proof.
  induction fl as [|f fl IH]; simpl; intros i ns; [by intros [= <-]|].
  destruct (to_integer _ _); [simpl|done].
  destruct (wire_values d m fl (i + 1)) eqn:E; [simpl|done]. intros [= <-].
  simpl. by rewrite (IH _ _ E).
Qed.

Lemma total_size_nonneg fl : forallb sendable fl = true -> 0 <= total_size fl.
Proof.
  induction fl as [|f fl IH]; [done|]. simpl. intros [Hf Hfl]%andb_true_iff.
  apply sendable_inv in Hf as (k & ? & ? & _). specialize (IH Hfl). unfold total_size in *. simpl. lia.
Qed.

Lemma wire_bytes_length fl : ∀ ns,
  forallb sendable fl = true -> length ns = length fl ->
  8 * Z.of_nat (length (wire_bytes fl ns)) = total_size fl.
Proof.
  induction fl as [|f fl IH]; intros [|n ns] Hs Hl; try done.
  simpl in Hs. apply andb_true_iff in Hs as [Hf Hfl].
  apply sendable_inv in Hf as (k & Hk & ? & _).
  unfold wire_bytes, total_size in *. simpl. rewrite length_app, le_bytes_length.
  rewrite Hk, (Z.mul_comm 8 k), Z.div_mul by lia. specialize (IH ns Hfl ltac:(simpl in Hl; lia)). lia.
Qed.

(** The field loop writes the fields one after the other. *)
Lemma construct_fields_spec d m fl : ∀ i ns data dlc,
  forallb sendable fl = true -> wire_values d m fl i = Ok ns ->
  length data = 8%nat -> 0 <= dlc -> 8 * dlc + total_size fl <= 64 ->
  ∃ data', construct_fields d m fl i data dlc = Ok (Some (data', dlc + total_size fl / 8))
    ∧ length data' = 8%nat
    ∧ take (Z.to_nat (dlc + total_size fl / 8)) data' = take (Z.to_nat dlc) data ++ wire_bytes fl ns.
Proof.
  induction fl as [|f fl IH]; intros i ns data dlc Hs Hw Hlen Hd Ht.
  { injection Hw as <-. exists data. simpl. rewrite Z.add_0_r, app_nil_r. done. }
  simpl in Hs. apply andb_true_iff in Hs as [Hf Hfl].
  pose proof (total_size_nonneg fl Hfl). pose proof (sendable_inv f Hf) as (k & Hk & Hk8 & Hres).
  simpl in Hw. destruct (to_integer _ _) as [n|] eqn:En; [simpl in Hw|done].
  destruct (wire_values d m fl (i + 1)) as [ns'|] eqn:Ens; [simpl in Hw|done]. injection Hw as <-.
  unfold total_size in *. simpl foldr in *.
  simpl construct_fields. rewrite Hk, (Z.mul_comm 8 k), Z_mod_mult, Z.div_mul, Hres by lia. simpl.
  rewrite En. simpl. destruct (Z.ltb_spec 8 k); [lia|].
  unfold write_bytes. rewrite le_bytes_length.
  destruct (Nat.leb_spec (Z.to_nat dlc + Z.to_nat k) (length data)); [simpl|lia].
  rewrite wrapu_small by lia.
  set (data1 := take _ _ ++ _).
  destruct (IH (i + 1) ns' data1 (dlc + k)) as (data' & E & Hl' & Ht'); try (done || lia).
  { unfold data1. rewrite !length_app, le_bytes_length, length_take, length_drop. lia. }
  exists data'. rewrite (Z.add_comm (k * 8)), Z_div_plus_full by lia.
  replace (dlc + (foldr Z.add 0 (map fsize fl) / 8 + k))
    with (dlc + k + foldr Z.add 0 (map fsize fl) / 8) by lia.
  split_and!; try done. rewrite Ht'. unfold wire_bytes. simpl. rewrite Hk, (Z.mul_comm 8 k), Z.div_mul by lia.
  rewrite app_assoc. f_equal. unfold data1.
  rewrite Z2Nat.inj_add, take_app_add', take_app_length' by (rewrite ?length_take, ?le_bytes_length; lia). done.
Qed.

(** The bytes of field [k] of the written fields. *)
Lemma wire_bytes_field fl : ∀ ns k f n,
  forallb sendable fl = true -> fl !! k = Some f -> ns !! k = Some n ->
  ∃ pre post, wire_bytes fl ns = pre ++ le_bytes (Z.to_nat (fsize f / 8)) n ++ post
    ∧ 8 * Z.of_nat (length pre) = total_size (take k fl) ∧ Forall byte pre ∧ Forall byte post.
Proof.
  induction fl as [|g fl IH]; intros [|n' ns] [|k] f n Hs Hf Hn; try done;
    simpl in Hs; apply andb_true_iff in Hs as [Hg Hfl]; simpl in Hf, Hn.
  - injection Hf as ->. injection Hn as ->. exists [], (wire_bytes fl ns). split_and!; try done.
    unfold wire_bytes. clear -fl. revert ns.
    induction fl as [|g fl IH]; intros [|n' ns]; simpl; try constructor.
    apply Forall_app_2; auto using le_bytes_byte.
  - destruct (IH ns k f n Hfl Hf Hn) as (pre & post & E & Hl & Hpre & Hpost).
    apply sendable_inv in Hg as (j & Hj & Hj8 & _).
    exists (le_bytes (Z.to_nat (fsize g / 8)) n' ++ pre), post. unfold wire_bytes, total_size in *. simpl.
    rewrite E, <- app_assoc, length_app, le_bytes_length, Hj, (Z.mul_comm 8 j), Z.div_mul by lia.
    split_and!; try (done || lia). apply Forall_app_2; auto using le_bytes_byte.
Qed.

(** The identifier [ConstructMessage] sends. *)
Lemma sent_id_pgn id0 (p : Pgn D) :
  p ∈ pgnList -> CANID_ok id0 ->
  let id := SetPGN (CANID_init id0) (pgn p) in
  GetPGN (RetrieveID (ConstructID
    (MkCANID 0x15 (PS id) (PF id) (DP id) (reserved id) 0x5 (unused id) (eff_ident id)))) = pgn p.
Proof.
  intros Hp Hid id.
  assert (CANID_ok (CANID_init id0)) as Hi
    by (unfold CANID_ok, CANID_init in *; simpl; lia).
  pose proof (SetPGN_ok _ (pgn p) Hi) as Hok. fold id in Hok.
  rewrite RetrieveID_ConstructID by (clearbody id; unfold CANID_ok in *; simpl; lia).
  change (GetPGN id = pgn p). unfold id.
  pose proof (proj1 (Forall_forall _ _) pgnList_whole p Hp) as [Hr Hw].
  rewrite GetPGN_SetPGN by done. case_test; lia.
Qed.

Lemma pad_frame_length data dlc :
  length data = 8%nat -> 0 <= dlc -> length (if dlc <? 8 then pad_frame data dlc else data) = 8%nat.
Proof.
  intros. unfold pad_frame. case_test; [|done].
  rewrite length_app, length_take, repeat_length. lia.
Qed.

Lemma byte_repeat n : Forall byte (repeat 0xFF n).
Proof. apply Forall_forall. intros x Hx%list_elem_of_In%repeat_spec. subst. unfold byte. lia. Qed.

(** The frame is the fields' bytes one after the other, filled up with ones. *)
Lemma ConstructMessage_frame (id0 : CANID) (frame0 : can_frame) (msg : CANMaster M)
    (info : CANMessage D M) (d : Descriptor) (ns : list Z) :
  let p := cm_pgn info in
  p ∈ pgnList -> CANID_ok id0 ->
  length (fdata frame0) = 8%nat ->
  FindPgn (pgn p) = Some d ->
  forallb sendable (fieldList p) = true -> total_size (fieldList p) <= 64 ->
  wire_values d (default pm_empty (submsg msg !! pgn p)) (fieldList p) 0 = Ok ns ->
  ∃ frame, ConstructMessage id0 frame0 msg info = Ok (Some frame)
    ∧ can_dlc frame = 8 ∧ length (fdata frame) = 8%nat
    ∧ GetPGN (RetrieveID (can_id frame)) = pgn p
    ∧ fdata frame = wire_bytes (fieldList p) ns
                    ++ repeat 0xFF (8 - Z.to_nat (total_size (fieldList p) / 8)).
Proof.
  intros p Hp Hid Hl0 Hd Hs Ht Hw. unfold ConstructMessage. fold p. rewrite Hd.
  destruct (construct_fields_spec d _ _ 0 ns (fdata frame0) 0 Hs Hw Hl0 ltac:(lia) ltac:(lia))
    as (data & E & Hlen & Htake). rewrite E. simpl. clear E.
  rewrite Z.add_0_l in *. simpl in Htake.
  pose proof (total_size_nonneg _ Hs) as Hpos.
  assert (0 <= total_size (fieldList p) / 8 <= 8) as Hdlc by (Z.div_mod_to_equations; lia).
  eexists. split; [done|]. simpl. split_and!.
  - lia.
  - apply pad_frame_length; lia.
  - by apply sent_id_pgn.
  - rewrite <- Htake. unfold pad_frame. case_test; [done|].
    replace (8 - Z.to_nat (total_size (fieldList p) / 8))%nat with 0%nat by lia. cbn [repeat].
    rewrite app_nil_r, take_ge by lia. done.
Qed.

(** A message of the table whose fields are whole bytes with a positive resolution and fill
    at most a frame is sent as one 8-byte frame that carries its PGN, and extracting
    any of its fields from the frame gives the integer [value / resolution] of the
    protocol buffer field, reduced to the field's width: [ConstructMessage] and
    [ExtractNumberField] agree on the wire format. *)
Lemma construct_extract_roundtrip (id0 : CANID) (frame0 : can_frame) (msg : CANMaster M)
    (info : CANMessage D M) (d : Descriptor) (ns : list Z) :
  let p := cm_pgn info in
  p ∈ pgnList -> CANID_ok id0 ->
  length (fdata frame0) = 8%nat ->
  FindPgn (pgn p) = Some d ->
  forallb sendable (fieldList p) = true -> total_size (fieldList p) <= 64 ->
  wire_values d (default pm_empty (submsg msg !! pgn p)) (fieldList p) 0 = Ok ns ->
  ∃ frame, ConstructMessage id0 frame0 msg info = Ok (Some frame)
    ∧ can_dlc frame = 8 ∧ length (fdata frame) = 8%nat
    ∧ GetPGN (RetrieveID (can_id frame)) = pgn p
    ∧ ∀ k f n, fieldList p !! k = Some f -> ns !! k = Some n -> ∃ maxval,
      ExtractNumberField f (fdata frame) (total_size (take k (fieldList p)))
      = Ok (wraps (if hasSign f then fsize f else 64) (n mod 2 ^ fsize f), maxval).
Proof.
  intros p Hp Hid Hl0 Hd Hs Ht Hw.
  destruct (ConstructMessage_frame id0 frame0 msg info d ns) as (frame & E & H8 & Hlen & Hpgn & Hdata); [done..|].
  fold p in Hpgn, Hdata. exists frame. split_and!; [done..|]. intros k f n Hf Hn. rewrite Hdata.
  destruct (wire_bytes_field _ _ _ _ _ Hs Hf Hn) as (pre & post & Ew & Hpre & Bpre & Bpost).
  pose proof (proj1 (forallb_forall _ _) Hs f (proj1 (list_elem_of_In _ _)
    (list_elem_of_lookup_2 _ _ _ Hf))) as (j & Hj & Hj8 & _)%sendable_inv.
  assert (fsize f / 8 = j) as Ej by (rewrite Hj, Z.mul_comm; apply Z.div_mul; lia).
  pose proof (byte_repeat (8 - Z.to_nat (total_size (fieldList p) / 8))) as Bpad.
  rewrite Ew, Ej, <- !app_assoc.
  eexists. rewrite extract_spec.
  - rewrite <- Hpre. do 2 f_equal. f_equal. rewrite Hj. replace j with (Z.of_nat (Z.to_nat j)) by lia.
    rewrite Nat2Z.id. apply bits_written; [done|]. by apply Forall_app_2.
  - repeat apply Forall_app_2; auto using le_bytes_byte.
  - rewrite <- Hpre. lia.
  - lia.
  - rewrite <- Hpre, !length_app, le_bytes_length. lia.
Qed.

End Construct.

(** ** Memory safety of receiving *)

(** No access outside an array, no oversized shift, no uninitialised frame. *)
Definition memory_safe {A : Type} (r : result CanErr A) : bool :=
  match r with
  | Err OutOfBounds | Err BadShift | Err Uninitialized => false
  | _ => true
  end.

Lemma safe_bind {A B : Type} (m : result CanErr A) (k : A -> result CanErr B) :
  memory_safe m = true -> (∀ a, m = Ok a -> memory_safe (k a) = true) ->
  memory_safe (rbind m k) = true.
Proof. destruct m as [a|[]]; simpl; auto. Qed.

(** Frames as the kernel delivers them. *)
Definition frame_ok (f : can_frame) : Prop :=
  length (fdata f) = 8%nat ∧ Forall byte (fdata f) ∧ 0 <= can_dlc f <= 8.

(** Fast-packet frames of a message of at most 56 bytes: at least one byte of
    payload, and an index of at most 7. *)
Definition fast_packet_ok (f : can_frame) : Prop :=
  2 <= can_dlc f ∧ Z.land (nth 0 (fdata f) 0) 0x1F <= 7.

Definition GNSS_PGN : Z := 129029.

Definition frame_pgn (f : can_frame) : Z := GetPGN (RetrieveID (can_id f)).

Section Safety.
Context {D : Type} {ND : Num D} {M : Type} {PM : ProtoMsg D M}.

(** The bytes [decode_field] reads of a field lie within [n] bytes. *)
Definition field_in_bounds (n : Z) (f : Field D) (cur_bit : Z) : bool :=
  let res := resolution f in
  let number := (1 <=? fsize f) && (fsize f <=? 64) && (cur_bit + fsize f <=? 8 * n) in
  if nltb (nofZ 0) res then number
  else if nltb res (nofZ 0) then
    if neqb res RES_LATITUDE || neqb res RES_LONGITUDE then cur_bit / 8 + fsize f / 8 <=? n
    else if neqb res RES_DATE then cur_bit / 8 + 2 <=? n
    else if neqb res RES_TIME then cur_bit / 8 + 4 <=? n
    else if neqb res RES_LOOKUP then number else true
  else true.

Fixpoint fields_in_bounds (n : Z) (fl : list (Field D)) (cur_bit : Z) : bool :=
  match fl with
  | [] => true
  | f :: fl => field_in_bounds n f cur_bit && (0 <=? fsize f)
               && fields_in_bounds n fl (cur_bit + fsize f)
  end.

(** A message of the table decodes within the buffer [CANMessage] allocates, and
    only GNSS position data is a multi-frame message. *)
Definition pgn_in_bounds (p : Pgn D) : bool :=
  match FindPgn (pgn p) with
  | None => true
  | Some _ => fields_in_bounds ((size p / 8 + 1) * 8) (fieldList p) 0
              && (1 <=? size p) && ((size p <=? 8) || (pgn p =? GNSS_PGN) && (size p =? 51))
  end.

Definition msg_ok (m : CANMessage D M) : Prop :=
  pgn_in_bounds (cm_pgn m) = true ∧ FindPgn (pgn (cm_pgn m)) ≠ None
  ∧ is_long m = (8 <? size (cm_pgn m)) ∧ len m = size (cm_pgn m)
  ∧ Z.of_nat (length (cm_data m)) = (size (cm_pgn m) / 8 + 1) * 8 ∧ Forall byte (cm_data m).

Definition msgs_ok (msgs : gmap Z (CANMessage D M)) : Prop :=
  map_Forall (λ n m, msg_ok m ∧ pgn (cm_pgn m) = n) msgs.

Lemma IsReserved_safe v m : memory_safe (IsReserved v m) = true.
Proof. unfold IsReserved. by destruct (_ && _). Qed.

Lemma to_integer_safe ok (x : D) : memory_safe (to_integer ok x) = true.
Proof. unfold to_integer. destruct (ntrunc x) as [z|]; [by destruct (ok z)|done]. Qed.

Lemma SetProtoNumberField_safe d (m : M) i x : memory_safe (SetProtoNumberField d m i x) = true.
Proof.
  unfold SetProtoNumberField. destruct (FindFieldByNumber d i) as [[]|]; try done;
    (apply safe_bind; [apply to_integer_safe|done]).
Qed.

Lemma read_bytes_safe data off n :
  (off + n <= length data)%nat -> memory_safe (read_bytes data off n) = true.
Proof. intros. unfold read_bytes. by destruct (Nat.leb_spec (off + n) (length data)); [|lia]. Qed.

#[local] Hint Resolve IsReserved_safe SetProtoNumberField_safe : boat.

(** Reading a number and storing it unless it is reserved. *)
Lemma number_safe d f data cur_bit i m (g : Z -> D) :
  Forall byte data -> 0 <= cur_bit ->
  (1 <=? fsize f) && (fsize f <=? 64) && (cur_bit + fsize f <=? 8 * Z.of_nat (length data)) = true ->
  memory_safe (let* (val, max_val) := ExtractNumberField (D := D) f data cur_bit in
               let* r := IsReserved val max_val in
               if r then Ok m else SetProtoNumberField d m i (g val)) = true.
Proof.
  intros Hd Hc. rewrite !andb_true_iff, !Z.leb_le. intros [[? ?] ?].
  rewrite extract_spec by (done || lia). simpl. apply safe_bind; [auto with boat|].
  intros [] _; auto with boat.
Qed.

Lemma decode_latlon_safe d data f cur_bit i (m : M) :
  0 <= cur_bit -> cur_bit / 8 + fsize f / 8 <= Z.of_nat (length data) ->
  memory_safe (decode_latlon f d data cur_bit i m) = true.
Proof.
  intros Hc Hl. unfold decode_latlon. pose proof (Z.div_pos cur_bit 8 Hc ltac:(lia)).
  apply safe_bind.
  - destruct (_ =? 0); simpl; [|done].
    destruct (Z.eqb_spec (fsize f) 32) as [E|_]; [|destruct (Z.eqb_spec (fsize f) 64) as [E|_]; [|done]];
      (apply safe_bind; [apply read_bytes_safe; rewrite E in Hl; Z.div_mod_to_equations; lia|intros bs _]);
      (apply safe_bind; [auto with boat|done]).
  - intros [v []] _; auto with boat.
Qed.

Lemma decode_field_safe d data f cur_bit i (m : M) :
  Forall byte data -> 0 <= cur_bit ->
  field_in_bounds (Z.of_nat (length data)) f cur_bit = true ->
  memory_safe (decode_field d data f cur_bit i m) = true.
Proof.
  intros Hd Hc Hb. unfold field_in_bounds in Hb. unfold decode_field.
  pose proof (Z.div_pos cur_bit 8 Hc ltac:(lia)).
  destruct (nltb (nofZ 0) (resolution f)); [by apply (number_safe d f data cur_bit (i + 1) m (λ v, nmul (nofZ v) (resolution f)))|].
  destruct (nltb _ _); [|done].
  destruct (_ || _); [apply decode_latlon_safe; lia|].
  destruct (neqb _ RES_DATE); [|destruct (neqb _ RES_TIME)].
  1-2: apply safe_bind; [apply read_bytes_safe; lia|auto with boat].
  destruct (neqb _ RES_LOOKUP); [|done].
  by apply (number_safe d f data cur_bit (i + 1) m (λ v, nofZ v)).
Qed.

Lemma decode_fields_safe d data fl : ∀ cur_bit i (m : M),
  Forall byte data -> 0 <= cur_bit ->
  fields_in_bounds (Z.of_nat (length data)) fl cur_bit = true ->
  memory_safe (decode_fields d data fl cur_bit i m) = true.
Proof.
  induction fl as [|f fl IH]; intros cur_bit i m Hd Hc Hb; [done|].
  simpl in Hb. apply andb_true_iff in Hb as [[Hf Hs]%andb_true_iff Hb].
  simpl. apply safe_bind; [by apply decode_field_safe|]. intros m' _. apply IH; [done|lia|done].
Qed.

Lemma DecodeAndSend_safe (m : CANMessage D M) :
  msg_ok m -> memory_safe (DecodeAndSend m) = true
    ∧ ∀ m' out, DecodeAndSend m = Ok (m', out) -> msg_ok m' ∧ cm_pgn m' = cm_pgn m ∧ out ≠ None.
Proof.
  intros (Hp & Hf & Hlong & Hlen & Hd & Hby). unfold DecodeAndSend.
  unfold pgn_in_bounds in Hp. pose proof Hp as Hp0.
  destruct (FindPgn (pgn (cm_pgn m))) as [d|] eqn:Ef; [|done].
  rewrite !andb_true_iff in Hp. destruct Hp as [[Hp _] _]. rewrite <- Hd in Hp. split.
  - apply safe_bind; [by apply decode_fields_safe|done].
  - intros m' out. destruct (decode_fields _ _ _ _ _ _); [simpl|done]. intros [= <- <-].
    unfold msg_ok, pgn_in_bounds. simpl. rewrite Ef. done.
Qed.
End Safety.

Section Frames.
Context {D : Type} {ND : Num D} {M : Type} {PM : ProtoMsg D M}.

Lemma write_bytes_ok data off bs :
  (off + length bs <= length data)%nat -> ∃ data', write_bytes data off bs = Ok data'
    ∧ length data' = length data
    ∧ (Forall byte data -> Forall byte bs -> Forall byte data').
Proof.
  intros H. unfold write_bytes. destruct (Nat.leb_spec (off + length bs) (length data)); [|lia].
  eexists. split; [done|]. split.
  - rewrite !length_app, length_take, length_drop. lia.
  - intros. repeat apply Forall_app_2; auto using Forall_take, Forall_drop.
Qed.

(** A frame's bytes: how many are skipped and stored, and where. *)
Lemma store_bytes (msg : CANMessage D M) frame skip dlc start b :
  frame_ok frame -> msg_ok msg -> 0 <= dlc -> 0 <= start -> dlc + Z.of_nat skip <= 8 ->
  start + dlc <= Z.of_nat (length (cm_data msg)) ->
  ∃ msg', (if 8 <? dlc + Z.of_nat skip then Err OutOfBounds else
           let* bs := read_bytes (fdata frame) skip (Z.to_nat dlc) in
           let* data := write_bytes (cm_data msg) (Z.to_nat start) bs in
           Ok (MkCANMessage (cm_pgn msg) (is_long msg) (len msg) b data (store_msg msg), start, dlc))
          = Ok (msg', start, dlc) ∧ msg_ok msg' ∧ cm_pgn msg' = cm_pgn msg.
Proof.
  intros (Hl8 & Hby & _) (? & ? & ? & ? & Hlen & Hbm) Hd Hs Hds Hst.
  destruct (Z.ltb_spec 8 (dlc + Z.of_nat skip)); [lia|].
  unfold read_bytes. destruct (Nat.leb_spec (skip + Z.to_nat dlc) (length (fdata frame))); [simpl|lia].
  destruct (write_bytes_ok (cm_data msg) (Z.to_nat start) (take (Z.to_nat dlc) (drop skip (fdata frame))))
    as (data & E & El & Hb). { rewrite length_take, length_drop. lia. }
  rewrite E. simpl. eexists. split; [done|]. unfold msg_ok. simpl. rewrite El.
  split_and!; auto using Forall_take, Forall_drop.
Qed.

(** Frames that fit are stored; [data_start] and [dlc] are as in the source. *)
Lemma store_frame_ok (msg : CANMessage D M) frame :
  frame_ok frame -> msg_ok msg -> (is_long msg = true -> fast_packet_ok frame) ->
  ∃ msg' start dlc, store_frame msg frame = Ok (msg', start, dlc) ∧ msg_ok msg'
    ∧ cm_pgn msg' = cm_pgn msg
    ∧ let index := Z.land (nth 0 (fdata frame) 0) 0x1F in
      (is_long msg = true -> index ≠ 0 -> start = index * 7 - 1 ∧ dlc = can_dlc frame - 1)
      ∧ (is_long msg = true -> index = 0 -> start = 0 ∧ dlc = can_dlc frame - 2).
Proof.
  intros Hf Hm Hfp. pose proof Hf as (Hl8 & Hby & Hdlc).
  pose proof Hm as (Hp & Hfind & Hlong & _ & Hlen & _).
  assert (0 <= size (cm_pgn msg) ∧ (is_long msg = true -> size (cm_pgn msg) = 51)) as [Hsz H51].
  { unfold pgn_in_bounds in Hp. destruct (FindPgn _); [|done]. rewrite Hlong. lia. }
  assert (8 <= (size (cm_pgn msg) / 8 + 1) * 8) by (Z.div_mod_to_equations; lia).
  unfold store_frame. destruct (is_long msg) eqn:El.
  - specialize (Hfp eq_refl) as [Hd2 Hi]. rewrite (H51 eq_refl) in Hlen. change ((51 / 8 + 1) * 8) with 56 in Hlen.
    assert (0 <= Z.land (nth 0 (fdata frame) 0) 0x1F).
    { apply Z.land_nonneg. right. lia. }
    set (index := Z.land (nth 0 (fdata frame) 0) 0x1F) in *.
    destruct (Z.eqb_spec index 0) as [E0|E0].
    + rewrite wrapu_small by lia.
      destruct (store_bytes msg frame 2 (can_dlc frame - 2) 0 (Z.land (nth 0 (fdata frame) 0) 0xE0) Hf Hm)
        as (m' & E & Hm' & Hp'); try lia.
      rewrite El in E. exists m', 0, (can_dlc frame - 2). split_and!; try done; intros; lia.
    + rewrite wrapu_small by lia.
      destruct (store_bytes msg frame 1 (can_dlc frame - 1) (index * 7 - 1) (base msg) Hf Hm)
        as (m' & E & Hm' & Hp'); try lia.
      rewrite El in E. exists m', (index * 7 - 1), (can_dlc frame - 1). split_and!; try done; intros; lia.
  - destruct (store_bytes msg frame 0 (can_dlc frame) 0 (base msg) Hf Hm) as (m' & E & Hm' & Hp'); try lia.
    rewrite El in E. exists m', 0, (can_dlc frame). split_and!; done.
Qed.

Lemma HandleFrame_safe (msgs : gmap Z (CANMessage D M)) frame :
  msgs_ok msgs -> frame_ok frame -> (frame_pgn frame = GNSS_PGN -> fast_packet_ok frame) ->
  memory_safe (HandleFrame msgs frame) = true
  ∧ ∀ msgs' out, HandleFrame msgs frame = Ok (msgs', out) -> msgs_ok msgs'.
Proof.
  intros Hms Hf. unfold HandleFrame. fold (frame_pgn frame).
  generalize (frame_pgn frame). intros n Hg. destruct (msgs !! n) as [msg|] eqn:E; [|split; [done|by intros ? ? [= <- <-]]].
  destruct (Hms _ _ E) as [Hm Hn].
  destruct (store_frame_ok msg frame Hf Hm) as (msg' & start & dlc & -> & Hm' & Hp' & _).
  { intros Hl. apply Hg. destruct Hm as (Hp & Hfind & Hlong & _). unfold pgn_in_bounds in Hp.
    destruct (FindPgn _); [|done]. rewrite Hl in Hlong. unfold GNSS_PGN in *. lia. }
  cbn [rbind]. destruct (DecodeAndSend_safe msg' Hm') as [Hs Hd].
  destruct (negb _ || _).
  - split; [apply safe_bind; [done|by intros []]|]. intros msgs' out.
    destruct (DecodeAndSend msg') as [[msg2 o]|]; [cbn [rbind]|done]. intros [= <- <-].
    destruct (Hd _ _ eq_refl) as (? & Hc & _). apply map_Forall_insert_2; [|done]. by rewrite Hc, Hp'.
  - split; [done|]. intros ? ? [= <- <-]. apply map_Forall_insert_2; [|done]. by rewrite Hp'.
Qed.

(** The node on the frames of a bus. *)
Fixpoint handle_all (msgs : gmap Z (CANMessage D M)) (frames : list can_frame)
  : result CanErr (gmap Z (CANMessage D M) * list (CANMaster M)) :=
  match frames with
  | [] => Ok (msgs, [])
  | f :: frames =>
      let* (msgs, o) := HandleFrame msgs f in
      let* (msgs, os) := handle_all msgs frames in
      Ok (msgs, match o with Some m => m :: os | None => os end)
  end.

Lemma handle_all_safe frames : ∀ msgs,
  msgs_ok msgs -> Forall (λ f, frame_ok f ∧ (frame_pgn f = GNSS_PGN -> fast_packet_ok f)) frames ->
  memory_safe (handle_all msgs frames) = true.
Proof.
  induction frames as [|f frames IH]; intros msgs Hm Hf; [done|].
  apply Forall_cons in Hf as [[Hf Hg] Hfs]. destruct (HandleFrame_safe _ _ Hm Hf Hg) as [Hs Hok].
  cbn [handle_all]. apply safe_bind; [done|]. intros [msgs' o] E.
  apply safe_bind; [by eapply IH, Hfs; eapply Hok|by intros []].
Qed.

Lemma CanNode_msgs_ok (l : list (Pgn D)) :
  forallb pgn_in_bounds l = true -> msgs_ok (CanNode_msgs (M := M) l).
Proof.
  induction l as [|p l IH]; [intros _; apply map_Forall_empty|].
  simpl. intros [Hp Hl]%andb_true_iff. destruct (FindPgn (pgn p)) eqn:E; [|by apply IH].
  apply map_Forall_insert_2; [|by apply IH]. split; [|done].
  assert (1 <= size p) by (unfold pgn_in_bounds in Hp; rewrite E in Hp; lia).
  assert (0 <= size p / 8) by (apply Z.div_pos; lia).
  unfold msg_ok, CANMessage_new. simpl. rewrite repeat_length, E.
  split_and!; try done; [lia|].
  apply Forall_forall. intros x Hx%list_elem_of_In%repeat_spec. subst. unfold byte. lia.
Qed.
End Frames.

Lemma pgnList_in_bounds L : forallb (@pgn_in_bounds _ (num_float L)) (@pgnList _ (num_float L)) = true.
Proof. vm_compute. reflexivity. Qed.

(** ** Properties of receiving *)

Section Receive.
Context {M : Type} {L : Libm}.
#[local] Instance receive_num : Num float := num_float L.
Context {PM : ProtoMsg float M}.

(** C11: Whatever frames arrive, started from the node's initial messages, storing and
    decoding them accesses no memory outside the message buffers and shifts no
    integer by its width or more, provided the frames of the one multi-frame
    message the node knows have a payload and an index of at most 7. *)
Theorem can_receive_memory_safe (frames : list can_frame) :
  Forall (λ f, frame_ok f ∧ (frame_pgn f = GNSS_PGN -> fast_packet_ok f)) frames ->
  memory_safe (handle_all (CanNode_msgs (M := M) pgnList) frames) = true.
Proof. apply handle_all_safe, CanNode_msgs_ok, pgnList_in_bounds. Qed.
End Receive.

Section Gnss.
Context {D : Type} {ND : Num D} {M : Type} {PM : ProtoMsg D M}.

(** The end-of-message test compares a bit count with the message length in bytes:
    the 51-byte GNSS position message is decoded and published at every frame after
    the first one, beginning with the second of its frames. *)
Theorem gnss_published_every_frame (msgs msgs' : gmap Z (CANMessage D M)) frame msg out :
  msgs_ok msgs -> frame_ok frame -> fast_packet_ok frame ->
  frame_pgn frame = GNSS_PGN -> msgs !! GNSS_PGN = Some msg -> size (cm_pgn msg) = 51 ->
  Z.land (nth 0 (fdata frame) 0) 0x1F ≠ 0 ->
  HandleFrame msgs frame = Ok (msgs', out) -> out ≠ None.
Proof.
  intros Hms Hf Hfp. unfold HandleFrame. fold (frame_pgn frame). generalize (frame_pgn frame).
  intros n -> Hmsg Hsz Hi. rewrite Hmsg. destruct (Hms _ _ Hmsg) as [Hm _].
  destruct (store_frame_ok msg frame Hf Hm ltac:(done)) as (msg' & start & dlc & -> & Hm' & Hp & Hst & _).
  cbn [rbind]. destruct Hm as (_ & _ & Hlong & _). rewrite Hsz in Hlong. change (8 <? 51) with true in Hlong.
  destruct (Hst Hlong Hi) as [-> ->]. destruct Hfp as [Hd _].
  assert (0 <= Z.land (nth 0 (fdata frame) 0) 0x1F) by (apply Z.land_nonneg; right; lia).
  pose proof Hm' as (_ & _ & _ & Hlen & _). rewrite Hp, Hsz in Hlen. rewrite Hlen.
  destruct (Z.leb_spec 51 (8 * (Z.land (nth 0 (fdata frame) 0) 0x1F * 7 - 1 + (can_dlc frame - 1)))); [|lia].
  rewrite orb_true_r. destruct (DecodeAndSend_safe msg' Hm') as [_ Hd'].
  destruct (DecodeAndSend msg') as [[msg2 o]|]; [cbn [rbind]|done].
  destruct (Hd' _ _ eq_refl) as (_ & _ & Ho). by intros [= <- <-].
Qed.

(** A 64-bit latitude or longitude with a negative value (south, or west) makes the
    reserved-value test overflow: [maxval - val] does not fit [int64_t]. *)
Theorem latlon64_negative_overflows (f : Field D) (d : Descriptor) (data : list Z) (cur_bit i : Z) (m : M) :
  fsize f = 64 -> 0 <= cur_bit -> cur_bit mod 8 = 0 -> Forall byte data ->
  cur_bit + 64 <= 8 * Z.of_nat (length data) ->
  2 ^ 63 <= bits (le_value data) cur_bit 64 ->
  decode_latlon f d data cur_bit i m = Err SignedOverflow.
Proof.
  intros Hf Hc Hm Hby Hl Hneg. unfold decode_latlon. rewrite Hm, Hf. simpl negb. cbv iota.
  pose proof (Z.div_mod cur_bit 8 ltac:(lia)) as Hdm. unfold read_bytes.
  destruct (Nat.leb_spec (Z.to_nat (cur_bit / 8) + 8) (length data)); [simpl rbind|lia].
  set (bs := take 8 _).
  assert (le_value bs = bits (le_value data) cur_bit 64) as E.
  { replace cur_bit with (8 * Z.of_nat (Z.to_nat (cur_bit / 8)) + 0) at 1 by lia.
    rewrite <- bits_drop by (done || lia). rewrite bits_div_mod, Z.div_1_r by lia.
    rewrite <- (take_drop 8 (drop _ data)), le_value_app. fold bs.
    assert (length bs = 8%nat) as Hbs by (unfold bs; rewrite length_take, length_drop; lia).
    rewrite Hbs, Z.mul_comm, Z_mod_plus_full, Z.mod_small; [done|].
    pose proof (le_value_range bs) as Hr. rewrite Hbs in Hr. apply Hr.
    by apply Forall_take, Forall_drop. }
  pose proof (bits_range (le_value data) cur_bit 64 ltac:(lia) ltac:(lia)).
  rewrite E, wraps_of_unsigned by lia. destruct (Z.ltb_spec (bits (le_value data) cur_bit 64) (2 ^ (64 - 1))) as [|_]; [simpl in *; lia|].
  unfold IsReserved, in_int64, in_s. 
  destruct (Z.ltb_spec (2 ^ 63 - 1 - (bits (le_value data) cur_bit 64 - 2 ^ 64)) (2 ^ (64 - 1))); [simpl in *; lia|].
  by rewrite andb_false_r.
Qed.
End Gnss.

(** ** Concrete inputs *)

Section Examples.
#[local] Instance example_num : Num float := num_poly.
#[local] Abbreviation PB := (gmap Z (PVal float)).

Definition example_field (n : Z) : Field float := MkField "FooBar"%string n (nofZ 1) true None None.
Definition example_id : CANID := MkCANID 0 0 0 0 0 0 0 0.
Definition example_frame : can_frame := MkFrame 0 0 (repeat 0 8).

(** The rate of turn message of the encoding test: SID 0x23, 1.2398 rad/s. *)
Definition example_rate : CANMaster PB :=
  MkCANMaster None {[127251 := <[1 := VInt 0x23]> {[2 := VReal (nfloat (dec 12398 4))]}]}.
Definition example_info : CANMessage float PB :=
  CANMessage_new pgn_Rate_of_Turn (MkCANMaster None ∅).

(** The second frame of a GNSS position message. *)
Definition example_gnss : can_frame :=
  MkFrame (ConstructID (SetPGN example_id 129029)) 8 [0x21; 1; 2; 3; 4; 5; 6; 7].

Ltac bytes := repeat constructor; unfold byte; simpl; lia.

Lemma extract_number_field_witness :
  ExtractNumberField (example_field 16) [0xFF; 0xFF; 0x20; 0x9E; 0xF8] 21 = Ok (-0x3B0F, 32767).
Proof.
  rewrite (extract_number_field_correct (example_field 16)); [reflexivity|bytes|..]; simpl; lia.
Defined.

Lemma construct_extract_witness : ∃ frame,
  ConstructMessage example_id example_frame example_rate example_info = Ok (Some frame)
  ∧ GetPGN (RetrieveID (can_id frame)) = 127251
  ∧ ∃ m, ExtractNumberField (MkField "Rate"%string (BYTES 4) RES_HIRES_ROTATION true
            (Some "rad/s"%string) (Some EmptyString)) (fdata frame) 8 = Ok (39673599, m).
Proof.
  destruct (construct_extract_roundtrip example_id example_frame example_rate example_info
              RateOfTurn [0x23; 39673599]) as (frame & E & _ & _ & Hp & Hx).
  - apply (list_elem_of_lookup_2 _ 3). reflexivity.
  - unfold CANID_ok. simpl. lia.
  - reflexivity.
  - reflexivity.
  - vm_compute. reflexivity.
  - vm_compute. discriminate.
  - vm_compute. reflexivity.
  - exists frame. split; [exact E|]. split; [exact Hp|].
    exact (Hx 1%nat _ _ eq_refl eq_refl).
Defined.

Lemma can_receive_witness :
  memory_safe (handle_all (CanNode_msgs (M := PB) pgnList) [example_gnss]) = true.
Proof.
  apply (can_receive_memory_safe (L := libm_poly)). constructor; [|constructor].
  split; [|intros _; unfold fast_packet_ok; vm_compute; split; discriminate].
  split; [reflexivity|]. split; [bytes|simpl; lia].
Defined.

Lemma gnss_published_witness : ∃ msgs' out,
  HandleFrame (CanNode_msgs (M := PB) pgnList) example_gnss = Ok (msgs', out) ∧ out ≠ None.
Proof.
  destruct (HandleFrame (CanNode_msgs (M := PB) pgnList) example_gnss) as [[msgs' out]|e] eqn:E.
  - exists msgs', out. split; [reflexivity|].
    apply (gnss_published_every_frame (CanNode_msgs (M := PB) pgnList) msgs' example_gnss
             (CANMessage_new pgn_GNSS_Position_Data (MkCANMaster None ∅)) out).
    + apply CanNode_msgs_ok, (pgnList_in_bounds libm_poly).
    + split; [reflexivity|]. split; [bytes|simpl; lia].
    + unfold fast_packet_ok. vm_compute. split; discriminate.
    + vm_compute. reflexivity.
    + vm_compute. reflexivity.
    + reflexivity.
    + vm_compute. discriminate.
    + exact E.
  - exfalso. vm_compute in E. discriminate E.
Defined.

Lemma latlon64_negative_witness :
  decode_latlon (example_field 64) PosRapidUpdate (repeat 0xFF 8) 0 0 (∅ : PB) = Err SignedOverflow.
Proof.
  apply (latlon64_negative_overflows (example_field 64)).
  - reflexivity.
  - lia.
  - reflexivity.
  - simpl. bytes.
  - simpl. lia.
  - vm_compute. discriminate.
Defined.
End Examples.
