(* ===== verification/CanBus.v ===== *)
(** * From one CAN node over the bus to another

    The two halves of src/can/can.cc composed: [SendMessage] on the node that has a
    protocol buffer to send, and [Iterate] with [DecodeAndSend] on a node that reads the
    frame.  What the receiver publishes is the sent message to within the resolutions of
    the table of PGNs. *)

From Stdlib Require Import ZArith Lia Reals Lra Zfloor.
From stdpp Require Import base list gmap.
From S2P Require Import Prelude Num NumR Pgn Can.

#[local] Open Scope Z_scope.
#[local] Open Scope result_scope.

(** ** What a receiver makes of the integers on the wire *)

Section Receive.
Context {D : Type} {ND : Num D} {M : Type} {PM : ProtoMsg D M}.

(** The integer [ExtractNumberField] reads where [n] was written, and the largest value of
    the field, which with the two below it means that there is no data. *)
Definition wire_int (f : Field D) (n : Z) : Z :=
  wraps (if hasSign f then fsize f else 64) (n mod 2 ^ fsize f).
Definition field_max (f : Field D) : Z :=
  if hasSign f then 2 ^ (fsize f - 1) - 1 else 2 ^ fsize f - 1.

(** Setting the fields of a protocol buffer from the integers of a frame. *)
Fixpoint receive_values (d : Descriptor) (fl : list (Field D)) (ns : list Z) (i : Z) (m : M)
  : result CanErr M :=
  match fl, ns with
  | f :: fl, n :: ns =>
      let v := wire_int f n in
      let* m := if field_max f - v <=? 2 then Ok m
                else SetProtoNumberField d m (i + 1) (nmul (nofZ v) (resolution f)) in
      receive_values d fl ns (i + 1) m
  | _, _ => Ok m
  end.

(** A field of the sender that is shorter than 64 bits, of which no maximum is known. *)
Definition bus_field (f : Field D) : bool := sendable f && (fsize f <? 64).

Lemma bus_field_sendable fl : forallb bus_field fl = true -> forallb sendable fl = true.
Proof.
  induction fl as [|f fl IH]; [done|]. simpl. unfold bus_field at 1.
  rewrite !andb_true_iff. intros [[? _] ?]. auto.
Qed.

Lemma bus_field_max f :
  bus_field f = true ->
  fsize f < 64 ∧ 127 <= field_max f ∧ field_max f < 2 ^ 56 ∧ nltb (nofZ 0) (resolution f) = true
  ∧ ∃ j, fsize f = 8 * j ∧ 1 <= j <= 7.
Proof.
  unfold bus_field. intros [Hs H64%Z.ltb_lt]%andb_true_iff.
  destruct (sendable_inv f Hs) as (j & Hj & Hj8 & Hr). unfold field_max.
  assert (2 ^ 8 <= 2 ^ fsize f <= 2 ^ 56) by (split; apply Z.pow_le_mono_r; lia).
  assert (2 ^ 7 <= 2 ^ (fsize f - 1) <= 2 ^ 56) by (split; apply Z.pow_le_mono_r; lia).
  split_and!; [done|destruct (hasSign f); lia..|done|]. exists j. lia.
Qed.

Lemma wire_int_range f n :
  bus_field f = true -> - 2 ^ 62 <= wire_int f n < 2 ^ 63.
Proof.
  intros (H64 & _ & _ & _ & j & Hj & Hj7)%bus_field_max. unfold wire_int.
  assert (2 ^ fsize f <= 2 ^ 63) by (apply Z.pow_le_mono_r; lia).
  pose proof (Z.mod_pos_bound n (2 ^ fsize f) ltac:(apply Z.pow_pos_nonneg; lia)).
  destruct (hasSign f).
  - assert (2 ^ fsize f = 2 * 2 ^ (fsize f - 1)) by (rewrite <- Z.pow_succ_r by lia; f_equal; lia).
    assert (2 ^ (fsize f - 1) <= 2 ^ 62) by (apply Z.pow_le_mono_r; lia).
    rewrite wraps_of_unsigned by lia. case_test; lia.
  - rewrite wraps_small by (simpl; lia). lia.
Qed.

Lemma IsReserved_field f n :
  bus_field f = true -> IsReserved (wire_int f n) (field_max f) = Ok (field_max f - wire_int f n <=? 2).
Proof.
  intros Hf. pose proof (wire_int_range f n Hf). destruct (bus_field_max f Hf) as (_ & ? & ? & _).
  unfold IsReserved, in_int64, in_s. change (64 - 1) with 63.
  destruct (Z.leb_spec 15 (field_max f)), (Z.ltb_spec 1 (field_max f)); try lia. cbn [orb andb].
  destruct (Z.leb_spec (- 2 ^ 63) (field_max f - wire_int f n)); [|lia].
  destruct (Z.ltb_spec (field_max f - wire_int f n) (2 ^ 63)); [|lia]. cbn [andb negb]. f_equal.
  destruct (Z.leb_spec (field_max f - wire_int f n) 2), (Z.leb_spec (field_max f - wire_int f n) 1),
    (Z.eqb_spec (field_max f) (wire_int f n)); try done; lia.
Qed.

(** A field read where it was written. *)
Lemma extract_written f n pre post :
  bus_field f = true -> Forall byte pre -> Forall byte post ->
  ExtractNumberField f (pre ++ le_bytes (Z.to_nat (fsize f / 8)) n ++ post) (8 * Z.of_nat (length pre))
  = Ok (wire_int f n, field_max f).
Proof.
  intros Hf Hpre Hpost. destruct (bus_field_max f Hf) as (H64 & _ & _ & _ & j & Hj & Hj7).
  assert (fsize f / 8 = j) as Ej by (rewrite Hj, Z.mul_comm; apply Z.div_mul; lia).
  rewrite Ej, extract_spec.
  - unfold wire_int, field_max. destruct (Z.eqb_spec (fsize f) 64); [lia|]. do 3 f_equal.
    rewrite Hj. replace j with (Z.of_nat (Z.to_nat j)) by lia. rewrite Nat2Z.id. by apply bits_written.
  - repeat apply Forall_app_2; auto using le_bytes_byte.
  - lia.
  - lia.
  - rewrite !length_app, le_bytes_length. lia.
Qed.

Lemma wire_bytes_byte (fl : list (Field D)) : ∀ ns, Forall byte (wire_bytes fl ns).
Proof.
  induction fl as [|f fl IH]; intros [|n ns]; try constructor.
  unfold wire_bytes. simpl. apply Forall_app_2; [apply le_bytes_byte|apply IH].
Qed.

(** The field loop of [DecodeAndSend] on what the field loop of [ConstructMessage] wrote. *)
Lemma decode_sent_fields d fl : ∀ ns pre post i m,
  forallb bus_field fl = true -> length ns = length fl -> Forall byte pre -> Forall byte post ->
  decode_fields d (pre ++ wire_bytes fl ns ++ post) fl (8 * Z.of_nat (length pre)) i m
  = receive_values d fl ns i m.
Proof.
  induction fl as [|f fl IH]; intros [|n ns] pre post i m Hs Hl Hpre Hpost; try done.
  simpl in Hs. apply andb_true_iff in Hs as [Hf Hfl].
  destruct (bus_field_max f Hf) as (_ & _ & _ & Hr & j & Hj & Hj7).
  change (wire_bytes (f :: fl) (n :: ns)) with (le_bytes (Z.to_nat (fsize f / 8)) n ++ wire_bytes fl ns).
  cbn [decode_fields receive_values]. unfold decode_field. rewrite Hr, <- app_assoc.
  rewrite extract_written by (try apply Forall_app_2; auto using wire_bytes_byte). cbn [rbind].
  rewrite IsReserved_field by done. cbn [rbind].
  destruct (if _ <=? 2 then _ else _) as [m'|]; [cbn [rbind]|done].
  rewrite app_assoc. etransitivity; [|apply (IH ns (pre ++ le_bytes (Z.to_nat (fsize f / 8)) n) post)].
  - f_equal. rewrite length_app, le_bytes_length, Hj, (Z.mul_comm 8 j), Z.div_mul by lia. lia.
  - done.
  - simpl in Hl. lia.
  - apply Forall_app_2; auto using le_bytes_byte.
  - done.
Qed.

(** A message of one frame under assembly. *)
Definition short_message (p : Pgn D) (m : CANMessage D M) : Prop :=
  cm_pgn m = p ∧ is_long m = false ∧ (8 <= length (cm_data m))%nat ∧ Forall byte (cm_data m).

Lemma short_message_new p store :
  1 <= size p <= 8 -> short_message p (CANMessage_new p store).
Proof.
  intros Hs. unfold short_message, CANMessage_new. cbn [cm_pgn is_long cm_data]. split_and!; [done|lia|..].
  - rewrite repeat_length. Z.div_mod_to_equations. lia.
  - apply Forall_forall. intros x Hx%list_elem_of_In%repeat_spec. subst. unfold byte. lia.
Qed.

(** A whole frame is stored at the start of the message's bytes. *)
Lemma store_short p msg frame :
  short_message p msg -> can_dlc frame = 8 -> length (fdata frame) = 8%nat ->
  store_frame msg frame
  = Ok (MkCANMessage p false (len msg) (base msg) (fdata frame ++ drop 8 (cm_data msg)) (store_msg msg), 0, 8).
Proof.
  intros (Hp & Hl & H8 & _) Hd Hf. unfold store_frame, read_bytes, write_bytes. rewrite Hl, Hd, Hf. simpl.
  rewrite drop_0, take_ge, Hf by lia.
  destruct (Nat.leb_spec 8 (length (cm_data msg))); [|lia]. simpl. by rewrite Hp.
Qed.

(** The two nodes: the frame the sender writes, and what the receiver makes of it. *)
Lemma send_receive id0 frame0 (A B : gmap Z (CANMessage D M)) (msg : CANMaster M) (p : Pgn D) d ns ma mb :
  p ∈ pgnList -> CANID_ok id0 -> length (fdata frame0) = 8%nat -> FindPgn (pgn p) = Some d ->
  forallb bus_field (fieldList p) = true -> total_size (fieldList p) <= 64 ->
  A !! pgn p = Some ma -> cm_pgn ma = p -> B !! pgn p = Some mb -> short_message p mb ->
  outgoing_value msg = true ->
  wire_values d (default pm_empty (submsg msg !! pgn p)) (fieldList p) 0 = Ok ns ->
  ∃ frame, SendMessage id0 frame0 A msg (pgn p) = Ok (Some frame)
    ∧ ∀ m, receive_values d (fieldList p) ns 0 (default pm_empty (submsg (store_msg mb) !! pgn p)) = Ok m ->
      let out := MkCANMaster (Some false) (<[pgn p := m]> (submsg (store_msg mb))) in
      ∃ mb', short_message p mb' ∧ store_msg mb' = out
        ∧ HandleFrame B frame = Ok (<[pgn p := mb']> B, Some out).
Proof.
  intros Hp Hid Hl0 Hd Hs Ht EA Ema EB Hmb Ho Hw.
  destruct (ConstructMessage_frame id0 frame0 msg ma d ns) as (frame & E & H8 & Hlen & Hpgn & Hdata);
    rewrite ?Ema in *; try done; [by apply bus_field_sendable|].
  exists frame. split. { unfold SendMessage. by rewrite Ho, EA. }
  intros m Hm out. unfold HandleFrame. rewrite Hpgn, EB, (store_short p) by done. cbn [rbind is_long negb orb].
  unfold DecodeAndSend. cbn [cm_pgn cm_data store_msg is_long len base]. rewrite Hd.
  pose proof (decode_sent_fields d (fieldList p) ns []
    (repeat 0xFF (8 - Z.to_nat (total_size (fieldList p) / 8)) ++ drop 8 (cm_data mb)) 0
    (default pm_empty (submsg (store_msg mb) !! pgn p)) Hs (wire_values_length _ _ _ _ _ Hw)) as Hdec.
  rewrite Hm in Hdec. destruct Hmb as (_ & _ & _ & Hby). cbn [app length] in Hdec.
  change (8 * Z.of_nat 0) with 0 in Hdec.
  rewrite Hdata, <- app_assoc, Hdec by (repeat apply Forall_app_2; auto using byte_repeat, Forall_drop).
  cbn [rbind]. eexists. split_and!; [..|done]; [|done].
  unfold short_message. cbn [cm_pgn is_long cm_data]. split_and!; try done.
  - rewrite !length_app. apply Nat.le_trans with (length (fdata frame)); [lia|]. rewrite Hdata, length_app. lia.
  - repeat apply Forall_app_2; auto using wire_bytes_byte, byte_repeat, Forall_drop.
Qed.
End Receive.

(** ** Values *)

Section Values.
Context {M : Type} {PM : ProtoMsg R M}.
#[local] Open Scope R_scope.

(** The values of an integer type of protocol buffer fields. *)
Definition int_type (t : FieldType) : option (Z -> bool) :=
  match t with
  | TYPE_INT32 | TYPE_SINT32 | TYPE_SFIXED32 => Some (in_s 32)
  | TYPE_INT64 | TYPE_SFIXED64 | TYPE_SINT64 => Some (in_s 64)
  | TYPE_UINT32 | TYPE_FIXED32 => Some (in_u 32)
  | TYPE_UINT64 | TYPE_FIXED64 => Some (in_u 64)
  | TYPE_ENUM values => Some (λ z, in_s 32 z && existsb (Z.eqb z) values)
  | _ => None
  end.

(** [x] rounded down to a multiple of the field's resolution. *)
Definition quantize (f : Field R) (x : R) : R := IZR (Zfloor (x / resolution f)) * resolution f.

(** The field of the table can carry the value of field [i] of the protocol buffer: it is not
    negative and below the reserved values, and an integer field has a resolution that is an
    integer, whose multiples its type has. *)
Definition carried (d : Descriptor) (m : M) (i : Z) (f : Field R) : Prop :=
  let x := GetProtoNumberFieldById d m i in
  0 <= x / resolution f < IZR (field_max f - 2)
  ∧ match FindFieldByNumber d i with
    | None | Some TYPE_DOUBLE | Some TYPE_FLOAT => True
    | Some t => ∃ ok z r, int_type t = Some ok ∧ x = IZR z ∧ resolution f = IZR r ∧ ok (r * (z / r))%Z = true
    end.

Lemma bus_field_pos (f : Field R) : bus_field f = true -> 0 < resolution f.
Proof. intros (_ & _ & _ & Hr & _)%bus_field_max. revert Hr. simpl. by case_R. Qed.

Lemma quantize_bounds (f : Field R) x :
  bus_field f = true -> x - resolution f < quantize f x <= x.
Proof.
  intros Hf%bus_field_pos. unfold quantize. pose proof (Zfloor_bound (x / resolution f)).
  assert (x = x / resolution f * resolution f) as Ex by (field; lra). rewrite Ex at 1 4. split; nra.
Qed.

Lemma quantize_int (f : Field R) z r :
  bus_field f = true -> resolution f = IZR r -> quantize f (IZR z) = IZR (r * (z / r)).
Proof.
  intros Hf%bus_field_pos Er. unfold quantize. rewrite Er in *. apply lt_IZR in Hf.
  replace (Zfloor (IZR z / IZR r)) with (z / r)%Z; [by rewrite <- mult_IZR, Z.mul_comm|].
  assert (0 < IZR r) by by apply IZR_lt. symmetry. apply Zfloor_eq.
  pose proof (Z.div_mod z r ltac:(lia)) as E. pose proof (Z.mod_pos_bound z r ltac:(lia)) as [Hm1 Hm2].
  apply (f_equal IZR) in E. rewrite plus_IZR, mult_IZR in E. apply IZR_le in Hm1. apply IZR_lt in Hm2.
  rewrite E. replace ((IZR r * IZR (z / r) + IZR (z mod r)) / IZR r) with (IZR (z / r) + IZR (z mod r) / IZR r) by (field; lra).
  assert (0 <= IZR (z mod r) / IZR r < 1); [|lra].
  assert (IZR (z mod r) = IZR (z mod r) / IZR r * IZR r) as Em by (field; lra). split; nra.
Qed.

Lemma Rtrunc_floor x : 0 <= x -> Rtrunc x = Zfloor x.
Proof. intros. unfold Rtrunc. destruct (Rlt_dec x 0); [lra|done]. Qed.

Lemma Rtrunc_int z : Rtrunc (IZR z) = z.
Proof.
  unfold Rtrunc. destruct (Rlt_dec (IZR z) 0); [|apply ZfloorZ].
  rewrite <- opp_IZR, ZfloorZ. lia.
Qed.

Lemma wire_int_carried (f : Field R) n : (0 <= n < field_max f - 2)%Z -> bus_field f = true -> wire_int f n = n.
Proof.
  intros Hn (_ & _ & ? & _ & j & Hj & Hj7)%bus_field_max. unfold wire_int, field_max in *.
  assert (2 ^ fsize f = 2 * 2 ^ (fsize f - 1))%Z by (rewrite <- Z.pow_succ_r by lia; f_equal; lia).
  assert (0 < 2 ^ (fsize f - 1))%Z by (apply Z.pow_pos_nonneg; lia).
  destruct (hasSign f); rewrite Z.mod_small by lia; apply wraps_small; simpl; lia.
Qed.

Lemma get_ext d (m m' : M) i : pm_get m i = pm_get m' i -> GetProtoNumberFieldById d m i = GetProtoNumberFieldById d m' i.
Proof. intros E. unfold GetProtoNumberFieldById, GetProtoNumberField. by rewrite E. Qed.

(** Setting a field to the value that was carried. *)
Lemma set_carried d (sent m : M) i f :
  bus_field f = true -> carried d sent i f ->
  let y := quantize f (GetProtoNumberFieldById d sent i) in
  ∃ m', SetProtoNumberField d m i y = Ok m' ∧ GetProtoNumberFieldById d m' i = y
    ∧ ∀ j, j ≠ i -> pm_get m' j = pm_get m j.
Proof.
  intros Hf [_ Ht]. cbv zeta. destruct (FindFieldByNumber d i) as [t|] eqn:Ed.
  - set (x := GetProtoNumberFieldById d sent i) in *. clearbody x.
    unfold SetProtoNumberField, GetProtoNumberFieldById. rewrite Ed. unfold GetProtoNumberField.
    assert (t = TYPE_DOUBLE ∨ t = TYPE_FLOAT ∨ ∃ ok z r, int_type t = Some ok
      ∧ x = IZR z ∧ resolution f = IZR r ∧ ok (r * (z / r))%Z = true)
      as [->|[->|(ok & z & r & Et & -> & Er & Hok)]] by (destruct t; auto).
    1,2: eexists; split_and!; [done|by rewrite pm_get_set|intros j Hj; by rewrite pm_get_set_ne].
    rewrite (quantize_int f z r Hf Er). exists (pm_set m i (VInt (r * (z / r)))).
    split_and!; [|destruct t; try done; by rewrite pm_get_set|intros j Hj; by rewrite pm_get_set_ne].
    destruct t; try done; injection Et as <-; unfold to_integer; simpl; rewrite Rtrunc_int;
      try (by rewrite Hok). apply andb_true_iff in Hok as [-> Hok]. simpl. by rewrite Hok.
  - exists m. unfold SetProtoNumberField, GetProtoNumberFieldById. rewrite Ed. split_and!; try done.
    unfold quantize, Rdiv. simpl nofZ. by rewrite Rmult_0_l, (ZfloorZ 0), Rmult_0_l.
Qed.

(** The integer a carried field is sent as. *)
Lemma wire_carried d (sent : M) i f :
  bus_field f = true -> carried d sent i f ->
  let n := Zfloor (GetProtoNumberFieldById d sent i / resolution f) in
  to_integer (in_u 64) (GetProtoNumberFieldById d sent i / resolution f) = Ok n
  ∧ (0 <= n < field_max f - 2)%Z.
Proof.
  intros Hf [[H0 H1] _] n. destruct (bus_field_max f Hf) as (_ & _ & Hm & _).
  assert (0 <= n < field_max f - 2)%Z as Hn.
  { pose proof (Zfloor_bound (GetProtoNumberFieldById d sent i / resolution f)). fold n in H.
    split; [by apply Zfloor_lub|]. apply lt_IZR. lra. }
  split; [|done]. unfold to_integer. simpl ntrunc. rewrite Rtrunc_floor by done. fold n.
  unfold in_u. destruct (Z.leb_spec 0 n); [|lia]. destruct (Z.ltb_spec n (2 ^ 64)); [done|lia].
Qed.

(** All fields of a message. *)
Lemma carried_fields d (sent : M) fl : ∀ i (m : M),
  forallb bus_field fl = true -> (∀ k f, fl !! k = Some f -> carried d sent (i + Z.of_nat k + 1) f) ->
  ∃ ns m', wire_values d sent fl i = Ok ns ∧ receive_values d fl ns i m = Ok m'
    ∧ (∀ k f, fl !! k = Some f -> let j := (i + Z.of_nat k + 1)%Z in
        GetProtoNumberFieldById d m' j = quantize f (GetProtoNumberFieldById d sent j))
    ∧ ∀ j, (j <= i)%Z -> pm_get m' j = pm_get m j.
Proof.
  induction fl as [|f fl IH]; intros i m Hs Hc; [by exists [], m|].
  simpl in Hs. apply andb_true_iff in Hs as [Hf Hfl].
  pose proof (Hc 0%nat f eq_refl) as Hc0. rewrite Z.add_0_r in Hc0.
  destruct (wire_carried d sent (i + 1) f Hf Hc0) as [Hw Hn].
  destruct (set_carried d sent m (i + 1) f Hf Hc0) as (m1 & Es & Hg & Hm1).
  destruct (IH (i + 1)%Z m1 Hfl) as (ns & m' & Ens & Er & Hf' & Hm').
  { intros k g Hk. specialize (Hc (S k) g Hk). by replace (i + 1 + Z.of_nat k + 1)%Z with (i + Z.of_nat (S k) + 1)%Z by lia. }
  exists (Zfloor (GetProtoNumberFieldById d sent (i + 1) / resolution f) :: ns), m'. split_and!.
  - cbn [wire_values ndiv num_R]. by rewrite Hw, Ens.
  - cbn [receive_values]. rewrite wire_int_carried by done.
    destruct (Z.leb_spec (field_max f - Zfloor (GetProtoNumberFieldById d sent (i + 1) / resolution f)) 2); [lia|].
    simpl nmul. simpl nofZ. fold (quantize f (GetProtoNumberFieldById d sent (i + 1))). by rewrite Es.
  - intros [|k] g Hk; simpl in Hk.
    + injection Hk as <-. rewrite Z.add_0_r. cbv zeta. rewrite <- Hg. apply get_ext, Hm'. lia.
    + cbv zeta. replace (i + Z.of_nat (S k) + 1)%Z with (i + 1 + Z.of_nat k + 1)%Z by lia. by apply Hf'.
  - intros j Hj. rewrite Hm' by lia. apply Hm1. lia.
Qed.

(** C10: In exact arithmetic, a protocol buffer sent by one CAN node reaches the queues of another: if every field
    of a one-frame message of the table can carry its value, the sender writes one frame, and
    the receiver, whatever it stored before, publishes a message marked as not outgoing in
    which every field is the sent value rounded down to a multiple of its resolution, so less
    than one resolution below it, and equal to it for an integer of resolution one.  The
    receiver's own handler does not send it back to the bus, and its state again accepts the
    next frame. *)
Theorem can_bus_roundtrip (id0 : CANID) (frame0 : can_frame) (A B : gmap Z (CANMessage R M))
    (msg : CANMaster M) (p : Pgn R) (d : Descriptor) (ma mb : CANMessage R M) :
  p ∈ pgnList -> CANID_ok id0 -> length (fdata frame0) = 8%nat -> FindPgn (pgn p) = Some d ->
  forallb bus_field (fieldList p) = true -> (total_size (fieldList p) <= 64)%Z ->
  A !! pgn p = Some ma -> cm_pgn ma = p -> B !! pgn p = Some mb -> short_message p mb ->
  outgoing_value msg = true ->
  let sent := default pm_empty (submsg msg !! pgn p) in
  (∀ k f, fieldList p !! k = Some f -> carried d sent (Z.of_nat k + 1) f) ->
  ∃ frame mb' out m, SendMessage id0 frame0 A msg (pgn p) = Ok (Some frame)
    ∧ HandleFrame B frame = Ok (<[pgn p := mb']> B, Some out)
    ∧ short_message p mb' ∧ outgoing out = Some false ∧ submsg out !! pgn p = Some m
    ∧ SendMessage id0 frame0 (<[pgn p := mb']> B) out (pgn p) = Ok None
    ∧ ∀ k f, fieldList p !! k = Some f ->
      let x := GetProtoNumberFieldById d sent (Z.of_nat k + 1) in
      let y := GetProtoNumberFieldById d m (Z.of_nat k + 1) in
      y = quantize f x ∧ x - resolution f < y <= x
      ∧ ((∃ z, x = IZR z) -> resolution f = 1 -> y = x).
Proof.
  intros Hp Hid Hl0 Hd Hs Ht EA Ema EB Hmb Ho sent Hc.
  destruct (carried_fields d sent (fieldList p) 0
    (default pm_empty (submsg (store_msg mb) !! pgn p)) Hs Hc) as (ns & m & Hw & Hr & Hf & _).
  destruct (send_receive id0 frame0 A B msg p d ns ma mb) as (frame & Es & Hh); try done.
  destruct (Hh m Hr) as (mb' & Hmb' & _ & E).
  exists frame, mb', (MkCANMaster (Some false) (<[pgn p := m]> (submsg (store_msg mb)))), m.
  split_and!; try done. { simpl. by rewrite lookup_insert_eq. }
  intros k f Hk x y. assert (bus_field f = true) as Hfb.
  { eapply (proj1 (forallb_forall _ _) Hs), list_elem_of_In, list_elem_of_lookup_2, Hk. }
  assert (y = quantize f x) as Ey by apply (Hf k f Hk).
  split; [done|]. rewrite Ey. split; [by apply quantize_bounds|].
  intros [z ->] H1. rewrite (quantize_int f z 1) by done. f_equal. rewrite Z.div_1_r. lia.
Qed.
End Values.

(** ** A concrete run *)

Section Example.
#[local] Open Scope R_scope.

(** The rate of turn message of the encoding test, in real numbers. *)
Definition bus_rate : CANMaster (gmap Z (PVal R)) :=
  MkCANMaster None {[127251%Z := <[1%Z := VInt 0x23]> {[2%Z := VReal (12398 / 10000)]}]}.
Definition bus_node : gmap Z (CANMessage R (gmap Z (PVal R))) :=
  {[127251%Z := CANMessage_new pgn_Rate_of_Turn (MkCANMaster None ∅)]}.

Lemma res_rotation : RES_HIRES_ROTATION (D := R) = / 32000000.
Proof. unfold RES_HIRES_ROTATION. dec_R. lra. Qed.

Lemma bus_field_R (f : Field R) k :
  fsize f = (8 * k)%Z -> (1 <= k <= 7)%Z -> 0 < resolution f -> bus_field f = true.
Proof.
  intros Hs Hk Hr. unfold bus_field, sendable. rewrite Hs, Z.mul_comm, Z_mod_mult. simpl.
  case_R; [|done]. lia.
Qed.

(** The messages of the table that the theorem is about: the ten whose fields are all whole
    bytes with a positive resolution. *)
Lemma bus_messages : Forall (λ p : Pgn R,
    forallb bus_field (fieldList p) = true ∧ (total_size (fieldList p) <= 64)%Z ∧ (1 <= size p <= 8)%Z
    ∧ is_Some (FindPgn (pgn p)))
  [pgn_Rate_of_Turn; pgn_Analog_Read; pgn_PWM_Write; pgn_Debug_SCAMP1; pgn_Debug_SCAMP2; pgn_Ballast_State;
   pgn_Sailbot_State; pgn_Connection_Status; pgn_Battery_Voltage; pgn_Attitude].
Proof.
  repeat constructor; try (by vm_compute); try (by eexists);
    apply forallb_forall; intros f Hf; cbn [fieldList In] in Hf;
    repeat (destruct Hf as [<-|Hf]; [eapply bus_field_R; cbn [fsize resolution];
      [unfold BYTES; rewrite Z.mul_comm; reflexivity|lia|rewrite ?res_rotation; unfold RES_RADIANS; dec_R; lra]|]); done.
Qed.

Lemma can_bus_witness : ∃ frame B' out m,
  SendMessage (MkCANID 0 0 0 0 0 0 0 0) (MkFrame 0 0 (repeat 0%Z 8)) bus_node bus_rate 127251 = Ok (Some frame)
  ∧ HandleFrame bus_node frame = Ok (B', Some out) ∧ submsg out !! 127251%Z = Some m
  ∧ GetProtoNumberFieldById RateOfTurn m 1 = 35.
Proof.
  destruct (can_bus_roundtrip (MkCANID 0 0 0 0 0 0 0 0) (MkFrame 0 0 (repeat 0%Z 8)) bus_node bus_node bus_rate
    pgn_Rate_of_Turn RateOfTurn (CANMessage_new pgn_Rate_of_Turn (MkCANMaster None ∅))
    (CANMessage_new pgn_Rate_of_Turn (MkCANMaster None ∅)))
    as (frame & mb' & out & m & Es & Eh & _ & _ & Em & _ & Hf).
  - apply (list_elem_of_lookup_2 _ 3). reflexivity.
  - unfold CANID_ok. simpl. lia.
  - reflexivity.
  - reflexivity.
  - exact (proj1 (Forall_inv bus_messages)).
  - vm_compute. discriminate.
  - reflexivity.
  - reflexivity.
  - reflexivity.
  - apply short_message_new. simpl. lia.
  - reflexivity.
  - intros [|[|k]] f [= <-]; unfold carried.
    + change (field_max _ - 2)%Z with 253%Z. change (GetProtoNumberFieldById _ _ _) with 35.
      simpl. split; [lra|]. exists (in_u 32), 35%Z, 1%Z. done.
    + change (field_max _ - 2)%Z with 2147483645%Z. change (GetProtoNumberFieldById _ _ _) with (12398 / 10000).
      match goal with |- context [_ / ?r < _] => change r with (RES_HIRES_ROTATION (D := R)) end. rewrite res_rotation. split; [lra|done].
  - exists frame, (<[127251%Z := mb']> bus_node), out, m. split_and!; [done..|].
    destruct (Hf 0%nat _ eq_refl) as (_ & _ & H1). apply H1; [by exists 35%Z|done].
Defined.
End Example.
