(* ===== verification/Util.v ===== *)
(** * Geometry and numeric helpers

    src/control/util.cc and util.h: rotation matrices and Euler angles, angle
    normalisation, distances on the globe, and the clipping templates. *)

From Stdlib Require Import ZArith Reals Lra Lia Zfloor Psatz Floats.
From stdpp Require Import base tactics.
From S2P Require Import Prelude Num NumR NumF Vec.

Section Defs.
Context {D : Type} {ND : Num D} {EG : Eigen D}.
#[local] Open Scope num_scope.

Definition Trans (x : vec3 D) (R : mat3 D) (o : vec3 D) : vec3 D := add3 (mat_vec R x) o.

Definition Skew (x : vec3 D) : mat3 D :=
  M3 (V3 #0 (- v3z x) (v3y x)) (V3 (v3z x) #0 (- v3x x)) (V3 (- v3y x) (v3x x) #0).

Definition Orthogonalize (R : mat3 D) : mat3 D :=
  let err := dot3 (row0 R) (row1 R) in
  let r2 := sub3 (row2 R) (scale3 (err / #2) (row1 R)) in
  let r1 := sub3 (row1 R) (scale3 (err / #2) (row2 R)) in
  let r0 := cross3 r2 r1 in
  let renorm r := scale3 (dec 5 1 * (#3 - squaredNorm3 r)) r in
  M3 (renorm r0) (renorm r1) (renorm r2).

(** The [float] and the [double] message. *)
Definition EigenToProto (ve : vec3 D) : vec3 D :=
  V3 (nfloat (v3x ve)) (nfloat (v3y ve)) (nfloat (v3z ve)).
Definition EigenToProtod (ve : vec3 D) : vec3 D := V3 (v3x ve) (v3y ve) (v3z ve).

(** [(roll, pitch, yaw)] *)
Definition GetRollPitchYaw (R : mat3 D) : vec3 D :=
  let yaw := natan2 (entry R 1 0) (entry R 0 0) in
  let R := mat_mul (AngleAxis (- yaw) UnitZ) R in
  let pitch := natan2 (- entry R 2 0) (entry R 0 0) in
  let R := mat_mul (AngleAxis (- pitch) UnitY) R in
  let roll := natan2 (entry R 2 1) (entry R 1 1) in
  V3 roll pitch yaw.

Definition RollPitchYawToMatrix (angles : vec3 D) : mat3 D :=
  let R := mat_mul (AngleAxis (v3x angles) UnitX) identity3 in
  let R := mat_mul (AngleAxis (v3y angles) UnitY) R in
  mat_mul (AngleAxis (v3z angles) UnitZ) R.

Definition norm_angle (a : D) : D :=
  let tau := #2 * npi in
  if npi <? a then a - nofZ (nint (a / tau + dec 5 1)) * tau
  else if a <? - npi then a - nofZ (nint (a / tau - dec 5 1)) * tau
  else a.

Definition Sign (val : D) : Z :=
  ((if nltb (nofZ 0) val then 1 else 0) - (if nltb val (nofZ 0) then 1 else 0))%Z.

Definition ToRad (a : D) : D := a * npi / #180.
Definition ToDeg (a : D) : D := a * #180 / npi.

Definition square (x : D) : D := x * x.

Definition GPSDistanceRad (lat1 lon1 lat2 lon2 : D) : D :=
  let a := square (nsin ((lat2 - lat1) / #2))
           + ncos lat1 * ncos lat2 * square (nsin ((lon2 - lon1) / #2)) in
  let c := #2 * natan2 (nsqrt a) (nsqrt (#1 - a)) in
  #6371000 * c.

Definition GPSBearingRad (lat1 lon1 lat2 lon2 : D) : D :=
  let y := nsin (lon2 - lon1) * ncos lat2 in
  let x := ncos lat1 * nsin lat2 - nsin lat1 * ncos lat2 * ncos (lon2 - lon1) in
  natan2 x y.

Definition GPSDistance (lat1 lon1 lat2 lon2 : D) : D :=
  GPSDistanceRad (ToRad lat1) (ToRad lon1) (ToRad lat2) (ToRad lon2).

Definition GPSBearing (lat1 lon1 lat2 lon2 : D) : D :=
  GPSBearingRad (ToRad lat1) (ToRad lon1) (ToRad lat2) (ToRad lon2).

(** [(latscale, lonscale)]; the literal 111693.97955992134774 is the binary64
    number 7675551829919275 * 2^-36. *)
Definition GPSLatLonScale (lat : D) : D * D :=
  let clat := ncos (ToRad lat) in
  let clat2 := clat * clat in
  let denom := nsqrt (#1 + dec 6739496756586882 18 * clat2) in
  let k := #7675551829919275 / #68719476736 in
  (k / (denom * denom * denom), k * clat / denom).

Definition Clip (a min max : D) : D := nmax (nmin a max) min.

Definition ReverseClip (a min : D) : D := if #0 <? a then nmax a min else nmin a (- min).

Definition atan2v (diff : vec2 D) : D := natan2 (vy diff) (vx diff).
End Defs.

(** The Runge-Kutta step, over a state type with its sum and scaling. *)
Section RungeKutta.
Context {D : Type} {ND : Num D} {M : Type}.
Variable madd : M -> M -> M.
Variable mscale : D -> M -> M.
Variable mscale_r : M -> D -> M.
Variable mdiv_r : M -> D -> M.
#[local] Open Scope num_scope.

Definition RungeKutta4 (f : D -> M -> M) (y : M) (t0 h : D) : M :=
  let k1 := f t0 y in
  let k2 := f (t0 + h / #2) (madd y (mdiv_r (mscale_r k1 h) #2)) in
  let k3 := f (t0 + h / #2) (madd y (mdiv_r (mscale_r k2 h) #2)) in
  let k4 := f (t0 + h) (madd y (mscale_r k3 h)) in
  madd y (mscale (h / #6) (madd (madd (madd k1 (mscale #2 k2)) (mscale #2 k3)) k4)).
End RungeKutta.

(** ** Clipping, for any arithmetic with an order *)

Section Order.
Context {D : Type} {ND : Num D} {NO : NumOrder D}.

Lemma Clip_range (a min max : D) :
  nnum a -> nnum min -> nnum max -> nleb min max = true ->
  nleb min (Clip a min max) = true ∧ nleb (Clip a min max) max = true.
Proof. intros. unfold Clip. split; eauto 6 with boat. Qed.

Lemma Clip_id (a min max : D) :
  nnum a -> nnum min -> nnum max -> nleb min a = true -> nleb a max = true ->
  Clip a min max = a.
Proof.
  intros Ha Hm HM. rewrite !nleb_ltb, !negb_true_iff by done. intros H1 H2.
  unfold Clip, nmax, nmin. rewrite H2. by rewrite H1.
Qed.

(** [Clip] returns a value between its bounds, whatever the (non-NaN) argument, and leaves an
    argument within the bounds unchanged; it holds of binary64 arithmetic. *)
Theorem clip_correct (a min max : D) :
  nnum a -> nnum min -> nnum max -> nleb min max = true ->
  nleb min (Clip a min max) = true ∧ nleb (Clip a min max) max = true
  ∧ (nleb min a = true -> nleb a max = true -> Clip a min max = a).
Proof.
  intros. split_and!; [by apply Clip_range..|]. intros. by apply Clip_id.
Qed.
End Order.

Lemma clip_correct_witness :
  let c := @Clip _ num_poly 7%float (-3)%float 3%float in
  PrimFloat.leb c 3%float = true ∧ PrimFloat.leb (-3)%float c = true.
Proof.
  destruct (@clip_correct _ num_poly (num_order_float libm_poly) 7%float (-3)%float 3%float)
    as (H1 & H2 & _); try reflexivity.
  split; [exact H2 | exact H1].
Defined.

(** ** Angles *)

#[local] Open Scope R_scope.

Lemma Clip_R (a lo hi : R) : lo <= hi -> lo <= Clip a lo hi <= hi.
Proof. intros H. unfold Clip, nmax, nmin. simpl. repeat case_R; lra. Qed.

Lemma nint_R x : (- 2 ^ 31 < Rtrunc x < 2 ^ 31)%Z -> nint (D := R) x = Rtrunc x.
Proof.
  intros H. unfold nint, nto. simpl. unfold in_s.
  destruct (Z.leb_spec (- 2 ^ (32 - 1)) (Rtrunc x)); [|lia].
  destruct (Z.ltb_spec (Rtrunc x) (2 ^ (32 - 1))); [done|lia].
Qed.

Lemma Rtrunc_small x : Rabs x < 2147483648 -> (- 2 ^ 31 < Rtrunc x < 2 ^ 31)%Z.
Proof.
  intros H. destruct (Rtrunc_bound x) as [_ Hb].
  assert (Rabs (IZR (Rtrunc x)) < 2147483648) as H2 by lra.
  apply Rabs_def2 in H2 as [H2 H3]. apply (lt_IZR _ 2147483648) in H2.
  rewrite <- opp_IZR in H3. apply lt_IZR in H3. lia.
Qed.

(** Subtracting the number of turns rounded half away from zero. *)
Lemma norm_angle_turns a :
  Rabs (a / (2 * PI)) < 2147483647 ->
  ∃ k : Z, norm_angle (D := R) a = a - IZR k * (2 * PI) ∧ - PI <= norm_angle (D := R) a <= PI.
Proof.
  intros Hb. pose proof PI_RGT_0. unfold norm_angle, dec. simpl.
  change (IZR (10 ^ 1)) with 10. set (t := a / (2 * PI)) in *.
  assert (a = t * (2 * PI)) as Ea by (unfold t; field; lra).
  apply Rabs_def2 in Hb as [Hb1 Hb2].
  repeat case_R.
  - assert (1 / 2 < t) by (apply Rmult_lt_reg_r with (2 * PI); lra).
    rewrite nint_R by (apply Rtrunc_small, Rabs_def1; lra).
    exists (Rtrunc (t + 5 / 10)). split; [done|].
    pose proof (Zfloor_bound (t + 5 / 10)). unfold Rtrunc.
    destruct (Rlt_dec _ _); [lra|]. rewrite Ea. nra.
  - assert (t < - 1 / 2) by (apply Rmult_lt_reg_r with (2 * PI); lra).
    rewrite nint_R by (apply Rtrunc_small, Rabs_def1; lra).
    exists (Rtrunc (t - 5 / 10)). split; [done|].
    pose proof (Zfloor_bound (- (t - 5 / 10))). unfold Rtrunc.
    destruct (Rlt_dec _ _); [|lra]. rewrite opp_IZR, Ea. nra.
  - exists 0%Z. split; lra.
Qed.

(** C18: In exact arithmetic, [norm_angle] returns an angle in [-pi, pi] that differs from its
    argument by a whole number of turns, for every argument of less than 2^31 - 1
    turns (where the conversion to [int] is defined). *)
Theorem norm_angle_correct (a : R) :
  Rabs (a / (2 * PI)) < 2147483647 ->
  - PI <= norm_angle a <= PI ∧ (∃ k : Z, norm_angle a = a - IZR k * (2 * PI))
  ∧ sin (norm_angle a) = sin a ∧ cos (norm_angle a) = cos a.
Proof.
  intros Hb. destruct (norm_angle_turns a Hb) as (k & E & H). split_and!; [lra|lra|by exists k|..];
    rewrite E; [apply sin_turns | apply cos_turns].
Qed.

Lemma norm_angle_witness : - PI <= norm_angle (7 * PI) <= PI.
Proof.
  apply (norm_angle_correct (7 * PI)). pose proof PI_RGT_0.
  replace (7 * PI / (2 * PI)) with (7 / 2) by (field; lra). rewrite Rabs_right; lra.
Defined.

Lemma Rabs_bounds x c : Rabs x <= c -> - c <= x <= c.
Proof. unfold Rabs. destruct (Rcase_abs x); lra. Qed.

Lemma norm_angle_small a : Rabs a <= 10000 -> Rabs (a / (2 * PI)) < 2147483647.
Proof.
  intros H. pose proof PI2_3_2. unfold Rdiv. rewrite Rabs_mult, (Rabs_right (/ _)).
  - apply Rle_lt_trans with (10000 * / (2 * PI)).
    + apply Rmult_le_compat_r; [left; apply Rinv_0_lt_compat; lra|done].
    + apply Rmult_lt_reg_r with (2 * PI); [lra|]. rewrite Rmult_assoc, Rinv_l by lra. lra.
  - left. apply Rinv_0_lt_compat. lra.
Qed.

Lemma norm_angle_spec a :
  Rabs a <= 10000 -> - PI <= norm_angle a <= PI ∧ ∃ k : Z, norm_angle a = a - IZR k * (2 * PI).
Proof. intros H. destruct (norm_angle_turns a (norm_angle_small a H)) as (k & E & Hr). eauto. Qed.

(** Congruent angles, for what [norm_angle] returns. *)
Lemma norm_angle_congr a c k :
  Rabs a <= 10000 -> 0 <= c <= PI -> a = c + IZR k * (2 * PI) ∨ a = - c + IZR k * (2 * PI) -> Rabs (norm_angle a) = c.
Proof.
  intros Ha Hc E. destruct (norm_angle_spec a Ha) as (Hr & m & Em). pose proof PI_RGT_0 as Hpi.
  assert (∃ j : Z, norm_angle a = c + IZR j * (2 * PI) ∨ norm_angle a = - c + IZR j * (2 * PI)) as (j & Hj).
  { exists (k - m)%Z. rewrite minus_IZR. destruct E; [left|right]; lra. }
  assert (j = 0 ∨ j = 1 ∨ j = -1 ∨ j <= -2 ∨ 2 <= j)%Z as Hcases by lia.
  destruct Hcases as [->|[->|[->|[H|H]]]].
  - destruct Hj as [Hj|Hj]; rewrite Hj; [rewrite Rabs_right|rewrite Rabs_left1]; lra.
  - destruct Hj as [Hj|Hj]; [|assert (c = PI) by lra]; rewrite Hj; rewrite Rabs_right; lra.
  - destruct Hj as [Hj|Hj]; [assert (c = PI) by lra|]; rewrite Hj; rewrite Rabs_left1; lra.
  - assert (IZR j <= -2) by (apply (IZR_le j (-2)); lia). exfalso. destruct Hj; nra.
  - assert (2 <= IZR j) by (apply (IZR_le 2 j); lia). exfalso. destruct Hj; nra.
Qed.

Lemma Ratan2_bound y x : Rabs (Ratan2 y x) <= 6.
Proof.
  pose proof (atan_bound (y / x)) as Ha. pose proof PI_4. pose proof PI_RGT_0. unfold Ratan2.
  apply Rabs_le. repeat destruct (Rlt_dec _ _); try destruct (Rle_dec _ _); lra.
Qed.

(** ** Euler angles *)

Section Euler.
Context {EG : Eigen R} {EL : EigenLaws R}.

(** The matrix of roll [r], pitch [p] and yaw [y]. *)
Lemma RollPitchYawToMatrix_eq (r p y : R) :
  RollPitchYawToMatrix (V3 r p y) =
  M3 (V3 (cos y * cos p) (cos y * sin p * sin r - sin y * cos r) (cos y * sin p * cos r + sin y * sin r))
     (V3 (sin y * cos p) (sin y * sin p * sin r + cos y * cos r) (sin y * sin p * cos r - cos y * sin r))
     (V3 (- sin p) (cos p * sin r) (cos p * cos r)).
Proof.
  unfold RollPitchYawToMatrix. rewrite !AngleAxis_eq, !mat_mul_eq. simpl.
  rewrite !dot3_eq. simpl. f_equal; f_equal; ring.
Qed.

Lemma sin2_cos2_sub x : cos x * cos x = 1 - sin x * sin x.
Proof. pose proof (sin2_cos2 x). unfold Rsqr in *. lra. Qed.

(** Turning back the yaw, then the pitch, leaves the rest of the rotation. *)
Lemma unyaw (r p y : R) :
  mat_mul (AngleAxis (- y) UnitZ) (RollPitchYawToMatrix (V3 r p y)) =
  M3 (V3 (cos p) (sin p * sin r) (sin p * cos r)) (V3 0 (cos r) (- sin r))
     (V3 (- sin p) (cos p * sin r) (cos p * cos r)).
Proof.
  rewrite RollPitchYawToMatrix_eq, AngleAxis_eq, mat_mul_eq. simpl. rewrite !dot3_eq. simpl.
  rewrite sin_neg, cos_neg. pose proof (sin2_cos2_sub y) as Hy.
  f_equal; f_equal; ring_simplify; rewrite <- ?Rsqr_pow2; unfold Rsqr; rewrite ?Hy; ring.
Qed.

Lemma unpitch (r p : R) :
  mat_mul (AngleAxis (- p) UnitY)
    (M3 (V3 (cos p) (sin p * sin r) (sin p * cos r)) (V3 0 (cos r) (- sin r))
        (V3 (- sin p) (cos p * sin r) (cos p * cos r))) =
  M3 (V3 1 0 0) (V3 0 (cos r) (- sin r)) (V3 0 (sin r) (cos r)).
Proof.
  rewrite AngleAxis_eq, mat_mul_eq. simpl. rewrite !dot3_eq. simpl.
  rewrite sin_neg, cos_neg. pose proof (sin2_cos2_sub p) as Hp.
  f_equal; f_equal; ring_simplify; rewrite <- ?Rsqr_pow2; unfold Rsqr; rewrite ?Hp; ring.
Qed.

(** The angles are recovered, away from a pitch of a quarter turn. *)
Lemma GetRollPitchYaw_inv (r p y : R) :
  - PI < r <= PI -> - (PI / 2) < p < PI / 2 -> - PI < y <= PI ->
  GetRollPitchYaw (RollPitchYawToMatrix (V3 r p y)) = V3 r p y.
Proof.
  intros Hr Hp Hy. pose proof PI_RGT_0. pose proof (cos_gt_0 p ltac:(lra) ltac:(lra)) as Hc.
  unfold GetRollPitchYaw. cbv zeta.
  assert (natan2 (entry (RollPitchYawToMatrix (V3 r p y)) 1 0)
            (entry (RollPitchYawToMatrix (V3 r p y)) 0 0) = y) as ->.
  { rewrite RollPitchYawToMatrix_eq. simpl. rewrite (Rmult_comm (sin y)), (Rmult_comm (cos y)).
    by apply Ratan2_polar. }
  rewrite unyaw. set (M := M3 _ _ _).
  assert (natan2 (- entry M 2 0)%num (entry M 0 0) = p) as ->.
  { simpl. rewrite Ropp_involutive. rewrite <- (Rmult_1_l (sin p)), <- (Rmult_1_l (cos p)).
    apply Ratan2_polar; lra. }
  unfold M. rewrite unpitch. simpl. f_equal.
  rewrite <- (Rmult_1_l (sin r)), <- (Rmult_1_l (cos r)). apply Ratan2_polar; lra.
Qed.

(** C19: In exact arithmetic, [GetRollPitchYaw] inverts [RollPitchYawToMatrix]: the
    angles are recovered for every pitch strictly between -90 and 90 degrees and
    every roll and yaw in (-pi, pi]. *)
Theorem roll_pitch_yaw_roundtrip (r p y : R) :
  - PI < r <= PI -> - (PI / 2) < p < PI / 2 -> - PI < y <= PI ->
  GetRollPitchYaw (RollPitchYawToMatrix (V3 r p y)) = V3 r p y.
Proof. apply GetRollPitchYaw_inv. Qed.
End Euler.

Lemma roll_pitch_yaw_witness :
  @GetRollPitchYaw R num_R eigen_plain (@RollPitchYawToMatrix R num_R eigen_plain (V3 1 (1/2) (-1)))
  = V3 1 (1/2) (-1).
Proof.
  pose proof PI2_3_2. apply (@roll_pitch_yaw_roundtrip eigen_plain eigen_plain_laws); lra.
Defined.

(** ** Quaternions *)

(** The linear algebra library's quaternions: made from a rotation matrix, and turned back
    into one. *)
Class Quaternion (D Q : Type) := {
  quat_of_matrix : mat3 D -> Q;
  toRotationMatrix : Q -> mat3 D;
}.

Section Quaternions.
Context {D : Type} {ND : Num D} {EG : Eigen D} {Q : Type} {QN : Quaternion D Q}.

Definition GetRollPitchYawFromQuat (q : Q) : vec3 D := GetRollPitchYaw (toRotationMatrix q).
Definition RollPitchYawToQuat (angles : vec3 D) : Q := quat_of_matrix (RollPitchYawToMatrix angles).

(** The random generator's state is an argument, and the distribution the library's. *)
Definition Normal {G : Type} (dist : D -> D -> G -> D * G) (mean std : D) (generator : G) : D * G :=
  let '(r, generator) := dist mean std generator in (nfloat r, generator).
End Quaternions.

Section QuatRoundtrip.
Context {EG : Eigen R} {EL : EigenLaws R} {Q : Type} {QN : Quaternion R Q}.

(** The rows are orthonormal and right-handed. *)
Definition rotation (M : mat3 R) : Prop :=
  dot3 (row0 M) (row0 M) = 1 ∧ dot3 (row1 M) (row1 M) = 1 ∧ dot3 (row0 M) (row1 M) = 0
  ∧ cross3 (row0 M) (row1 M) = row2 M.

Lemma RollPitchYawToMatrix_rotation (r p y : R) : rotation (RollPitchYawToMatrix (V3 r p y)).
Proof.
  rewrite RollPitchYawToMatrix_eq. unfold rotation. cbn [row0 row1 row2]. rewrite !dot3_eq, cross3_eq. simpl.
  pose proof (sin2_cos2_sub r) as Hr. pose proof (sin2_cos2_sub p) as Hp. pose proof (sin2_cos2_sub y) as Hy.
  split_and!; [..|f_equal]; ring_simplify; rewrite <- ?Rsqr_pow2; unfold Rsqr; rewrite ?Hr, ?Hp, ?Hy; ring.
Qed.

(** A quaternion represents its rotation; angles survive the conversion to a quaternion and
    back. *)
Theorem quaternion_roundtrip (r p y : R) :
  (∀ M, rotation M -> toRotationMatrix (quat_of_matrix M) = M) ->
  - PI < r <= PI -> - (PI / 2) < p < PI / 2 -> - PI < y <= PI ->
  GetRollPitchYawFromQuat (RollPitchYawToQuat (V3 r p y)) = V3 r p y.
Proof.
  intros HQ Hr Hp Hy. unfold GetRollPitchYawFromQuat, RollPitchYawToQuat.
  rewrite HQ by apply RollPitchYawToMatrix_rotation. by apply GetRollPitchYaw_inv.
Qed.
End QuatRoundtrip.

(** Rotations represented by their own matrix. *)
Lemma quaternion_roundtrip_witness :
  let QN : Quaternion R (mat3 R) := {| quat_of_matrix M := M; toRotationMatrix M := M |} in
  @GetRollPitchYawFromQuat R num_R eigen_plain (mat3 R) QN
    (@RollPitchYawToQuat R num_R eigen_plain (mat3 R) QN (V3 1 (1/2) (-1))) = V3 1 (1/2) (-1).
Proof.
  intros QN. pose proof PI2_3_2. apply (@quaternion_roundtrip eigen_plain eigen_plain_laws (mat3 R) QN); [done|lra..].
Defined.

(** [Orthogonalize] does not keep a rotation: it maps the identity to a reflection,
    since its first row is the cross product of the third and the second. *)
Theorem orthogonalize_identity_reflects (EG : Eigen R) (EL : EigenLaws R) :
  Orthogonalize identity3 = M3 (V3 (-1) 0 0) (V3 0 1 0) (V3 0 0 1).
Proof.
  unfold Orthogonalize, dec. rewrite !cross3_eq, !dot3_eq, !squaredNorm3_eq. simpl.
  change (IZR (10 ^ 1)) with 10. unfold scale3, sub3. simpl. f_equal; f_equal; lra.
Qed.

Lemma orthogonalize_identity_witness :
  @Orthogonalize R num_R eigen_plain identity3 = M3 (V3 (-1) 0 0) (V3 0 1 0) (V3 0 0 1).
Proof. apply (orthogonalize_identity_reflects eigen_plain eigen_plain_laws). Defined.
