(* ===== verification/Polygon.v ===== *)
(** * Convex polygons

    src/math/polygon.cc and polygon.h: signed distance to a line, projection tests,
    validation of a vertex list, and the distance of a point to a polygon. *)

From Stdlib Require Import ZArith Reals Lra Lia Psatz.
From stdpp Require Import base list.
From S2P Require Import Prelude Num NumR Vec.

#[local] Open Scope Z_scope.

(** A failed [CHECK], a remainder by the length of an empty vertex list, or an access past the
    end of the list. *)
Inductive PolyErr := CheckFailed | NoVertices | VertexOutOfRange.

Section Polygon.
Context {D : Type} {ND : Num D} {EG : Eigen D}.
Abbreviation Point := (vec2 D).
#[local] Open Scope num_scope.

Definition DistToLine (l0 l1 pt : Point) : D :=
  let perp := normalized2 (V2 (vy l0 - vy l1) (vx l1 - vx l0)) in
  dot2 perp (sub2 pt l0).

Definition ProjectsToLine (l0 l1 pt : Point) : bool :=
  let line := sub2 l1 l0 in
  let dot := dot2 line (sub2 pt l0) in
  (#0 <? dot) && (dot <? squaredNorm2 line).

Definition ProjectsToRay (l0 l1 pt : Point) : bool :=
  let line := sub2 l1 l0 in
  #0 <? dot2 line (sub2 pt l0).

(** [ii] ranges over the indices; [(ii + 1) % N] and [(ii + 2) % N] wrap around. *)
Definition vertex (pts : list Point) (i : nat) : Point := nth (i mod length pts) pts zero2.

Definition ValidatePoints (pts : list Point) : bool :=
  if (length pts <? 2)%nat then false
  else forallb (λ ii, negb (DistToLine (vertex pts ii) (vertex pts (ii + 1)) (vertex pts (ii + 2)) <? #0))
         (seq 0 (length pts)).

Record Polygon := MkPolygon { pts : list Point; centroid : Point }.

(** [ProcessPts] returns at once; the centroid keeps its initial contents. *)
Definition ProcessPts (p : Polygon) : Polygon := p.

Definition Polygon_new (centroid0 : Point) (l : list Point) : result PolyErr Polygon :=
  if ValidatePoints l then Ok (ProcessPts (MkPolygon l centroid0)) else Err CheckFailed.

(** [dist < mindist], where [None] is the initial infinity. *)
Definition closer (dist : D) (mindist : option D) : bool :=
  match mindist with
  | None => nlt_inf dist
  | Some m => dist <? m
  end.

(** The loop of [DistToPoint]: the minimum and its vertex. *)
Fixpoint nearest (pt : Point) (l : list Point) (ii : Z) (mindist : option D) (minvertex : Z)
  : option D * Z :=
  match l with
  | [] => (mindist, minvertex)
  | p :: l =>
      let dist := norm2 (sub2 pt p) in
      if closer dist mindist then nearest pt l (ii + 1)%Z (Some dist) ii
      else nearest pt l (ii + 1)%Z mindist minvertex
  end.

(** [(minvertex - 1) % N] and [(minvertex + 1) % N] in [size_t]. *)
Definition prev_index (N minvertex : Z) : Z := (wrapu 64 (minvertex - 1) mod N)%Z.
Definition next_index (N minvertex : Z) : Z := (wrapu 64 (minvertex + 1) mod N)%Z.

(** The distance, from the nearest vertex [minpt] with its distance and its two neighbours. *)
Definition dist_at (prept minpt postpt pt : Point) (mindist : option D) : option D :=
  let d0 := - DistToLine prept minpt pt in
  let d1 := - DistToLine minpt postpt pt in
  let d0proj := ProjectsToLine prept minpt pt in
  let d1proj := ProjectsToLine minpt postpt pt in
  if (d0 <? #0) && (d1 <? #0) then Some (nmin d0 d1)
  else if d1proj && (#0 <=? d1) then Some d1
  else if d0proj && (#0 <=? d0) then Some d0
  else mindist.

Definition vertex_at (l : list Point) (i : Z) : result PolyErr Point :=
  of_option VertexOutOfRange (l !! Z.to_nat i).

(** [None] is infinity. *)
Definition DistToPoint (poly : Polygon) (pt : Point) : result PolyErr (option D) :=
  let l := pts poly in
  let N := Z.of_nat (length l) in
  let '(mindist, minvertex) := nearest pt l 0 None 0 in
  if (N =? 0)%Z then Err NoVertices else
  (let* prept := vertex_at l (prev_index N minvertex) in
   let* postpt := vertex_at l (next_index N minvertex) in
   let* minpt := vertex_at l minvertex in
   Ok (dist_at prept minpt postpt pt mindist))%result.

(** *** The accesses are in range, in any arithmetic *)

Lemma nearest_range pt l : ∀ ii m v,
  (nearest pt l ii m v).2 = v ∨ (ii <= (nearest pt l ii m v).2 < ii + Z.of_nat (length l))%Z.
Proof.
  induction l as [|p l IH]; intros ii m v; [by left|]. cbn [nearest length].
  destruct (closer _ _).
  - destruct (IH (ii + 1)%Z (Some (norm2 (sub2 pt p))) ii); lia.
  - destruct (IH (ii + 1)%Z m v); [by left|lia].
Qed.

Lemma nearest_index pt l : l ≠ [] -> (0 <= (nearest pt l 0 None 0).2 < Z.of_nat (length l))%Z.
Proof.
  intros Hl. assert (0 < length l)%nat by (destruct l; [done|simpl; lia]).
  destruct (nearest_range pt l 0 None 0); lia.
Qed.

Lemma vertex_at_ok (l : list Point) i : (0 <= i < Z.of_nat (length l))%Z -> ∃ p, l !! Z.to_nat i = Some p ∧ vertex_at l i = Ok p.
Proof.
  intros H. destruct (lookup_lt_is_Some_2 l (Z.to_nat i)) as [p E]; [lia|]. exists p. unfold vertex_at. by rewrite E.
Qed.

Lemma DistToPoint_ok poly pt : pts poly ≠ [] -> ∃ d, DistToPoint poly pt = Ok d.
Proof.
  intros Hl. unfold DistToPoint. pose proof (nearest_index pt (pts poly) Hl) as Hv.
  destruct (nearest pt (pts poly) 0 None 0) as [m v]. cbn [snd] in Hv. destruct (Z.eqb_spec (Z.of_nat (length (pts poly))) 0); [lia|].
  unfold prev_index, next_index.
  do 2 (match goal with |- context [vertex_at _ (?a mod ?b)%Z] =>
    destruct (vertex_at_ok (pts poly) (a mod b) (Z.mod_pos_bound a b ltac:(lia))) as (? & _ & ->) end; cbn [rbind]).
  destruct (vertex_at_ok _ _ Hv) as (? & _ & ->). by eexists.
Qed.
End Polygon.
Arguments Polygon : clear implicits.

(** ** Distances to lines, in exact arithmetic *)

#[local] Open Scope R_scope.

Section Exact.
Context {EG : Eigen R} {EL : EigenLaws R}.

Definition dist (a b : vec2 R) : R := norm2 (sub2 a b).

(** The point at parameter [t] of the line through [a] and [b]. *)
Definition on_line (a b : vec2 R) (t : R) : vec2 R :=
  V2 (vx a + t * (vx b - vx a)) (vy a + t * (vy b - vy a)).

Definition cross (a b p : vec2 R) : R :=
  (vx b - vx a) * (vy p - vy a) - (vy b - vy a) * (vx p - vx a).

Lemma dist_sqr a b :
  dist a b * dist a b = (vx a - vx b) * (vx a - vx b) + (vy a - vy b) * (vy a - vy b).
Proof. unfold dist. by rewrite norm2_sqr. Qed.

Lemma dist_pos a b : a ≠ b -> 0 < dist a b.
Proof.
  intros H. destruct (Rle_lt_or_eq_dec 0 (dist a b)) as [|E]; [apply norm2_nonneg|done|].
  destruct H. symmetry in E. apply norm2_zero in E. destruct a, b; simpl in *. f_equal; lra.
Qed.

Lemma DistToLine_cross a b p : a ≠ b -> DistToLine a b p = cross a b p / dist a b.
Proof.
  intros H. pose proof (dist_pos a b H) as Hd. unfold DistToLine. rewrite dot2_eq.
  assert (norm2 (V2 (vy a - vy b)%num (vx b - vx a)%num) = dist a b) as E.
  { apply norm2_unique; [lra|]. rewrite dist_sqr. simpl. lra. }
  rewrite normalized2_pos by (rewrite E; done). rewrite E. unfold cross. simpl. field. lra.
Qed.

(** The foot of the perpendicular. *)
Definition foot (a b p : vec2 R) : R :=
  ((vx b - vx a) * (vx p - vx a) + (vy b - vy a) * (vy p - vy a)) / (dist a b * dist a b).

Lemma dist_foot a b p :
  a ≠ b -> dist p (on_line a b (foot a b p)) = Rabs (DistToLine a b p).
Proof.
  intros H. pose proof (dist_pos a b H) as Hd. rewrite DistToLine_cross by done.
  apply norm2_unique; [apply Rabs_pos|]. rewrite <- Rabs_mult, Rabs_right by nra.
  unfold foot. pose proof (dist_sqr a b) as Hs. rewrite Hs. unfold on_line, cross. simpl.
  replace ((vx b - vx a) * (vy p - vy a) - (vy b - vy a) * (vx p - vx a)) with
    ((vx a - vx b) * (vy a - vy p) - (vy a - vy b) * (vx a - vx p)) by ring.
  set (c := (vx a - vx b) * (vy a - vy p) - (vy a - vy b) * (vx a - vx p)).
  replace (c / dist a b * (c / dist a b)) with (c * c / (dist a b * dist a b)) by (field; lra).
  rewrite Hs. unfold c. field. rewrite <- Hs. nra.
Qed.

(** No point of the line is nearer than the foot. *)
Lemma dist_line_min a b p t : a ≠ b -> Rabs (DistToLine a b p) <= dist p (on_line a b t).
Proof.
  intros H. rewrite <- dist_foot by done. apply Rsqr_incr_0_var; [|apply norm2_nonneg].
  pose proof (dist_pos a b H) as Hd. unfold Rsqr. rewrite !dist_sqr. unfold on_line. simpl.
  set (k := foot a b p).
  assert (k * (dist a b * dist a b) = (vx b - vx a) * (vx p - vx a) + (vy b - vy a) * (vy p - vy a)) as Hk
    by (unfold k, foot; field; lra).
  rewrite dist_sqr in Hk.
  match goal with |- ?l <= ?r => replace r with
    (l + (t - k) * ((t + k) * ((vx a - vx b) * (vx a - vx b) + (vy a - vy b) * (vy a - vy b))
                    - 2 * ((vx b - vx a) * (vx p - vx a) + (vy b - vy a) * (vy p - vy a)))) by ring end.
  rewrite <- Hk.
  match goal with |- ?l <= ?l + ?e => enough (0 <= e) by lra end.
  set (S := (vx a - vx b) * (vx a - vx b) + (vy a - vy b) * (vy a - vy b)).
  replace ((t - k) * ((t + k) * S - 2 * (k * S))) with ((t - k) * (t - k) * S) by ring.
  apply Rmult_le_pos; [|apply Rplus_le_le_0_compat]; apply Rle_0_sqr.
Qed.

(** In exact arithmetic, [DistToLine] is the signed distance of the point to the line
    through two distinct points: its magnitude is attained at a point of the line
    and is minimal, and it is positive exactly for points to the left. *)
Theorem dist_to_line_correct (l0 l1 pt : vec2 R) :
  l0 ≠ l1 ->
  (∃ t, dist pt (on_line l0 l1 t) = Rabs (DistToLine l0 l1 pt))
  ∧ (∀ t, Rabs (DistToLine l0 l1 pt) <= dist pt (on_line l0 l1 t))
  ∧ (0 < DistToLine l0 l1 pt <-> 0 < cross l0 l1 pt).
Proof.
  intros H. split_and!.
  - eexists. by apply dist_foot.
  - intros t. by apply dist_line_min.
  - rewrite DistToLine_cross by done. pose proof (dist_pos _ _ H) as Hd.
    pose proof (Rinv_0_lt_compat _ Hd). unfold Rdiv. split; intros; [|nra].
    apply Rmult_lt_reg_r with (/ dist l0 l1); lra.
Qed.

(** ** Distance to a polygon *)

Definition on_segment (a b q : vec2 R) : Prop := ∃ t, 0 <= t <= 1 ∧ q = on_line a b t.

(** A point that projects onto a segment is [|DistToLine|] away from it. *)
Lemma projects_on_segment a b p :
  ProjectsToLine a b p = true -> ∃ q, on_segment a b q ∧ dist p q = Rabs (DistToLine a b p).
Proof.
  unfold ProjectsToLine. rewrite andb_true_iff, dot2_eq, squaredNorm2_eq. simpl.
  intros [H1 H2]. revert H1 H2. repeat case_R; try done. intros _ _.
  assert (a ≠ b) as Hab by (intros ->; lra).
  pose proof (dist_pos a b Hab) as Hd. pose proof (dist_sqr a b) as Hs.
  exists (on_line a b (foot a b p)). split; [|by apply dist_foot].
  exists (foot a b p). split; [|done]. unfold foot.
  assert (0 < dist a b * dist a b) by nra. split.
  - apply Rmult_le_pos; [lra|]. left. by apply Rinv_0_lt_compat.
  - apply Rmult_le_reg_r with (dist a b * dist a b); [done|].
    unfold Rdiv. rewrite Rmult_assoc, Rinv_l by lra. lra.
Qed.

Definition point_at (l : list (vec2 R)) (i : Z) : vec2 R := nth (Z.to_nat i) l zero2.

Lemma point_at_lookup l i : (0 <= i < Z.of_nat (length l))%Z -> l !! Z.to_nat i = Some (point_at l i).
Proof.
  intros H. unfold point_at. destruct (nth_lookup_or_length l (Z.to_nat i) zero2) as [E|]; [exact E|lia].
Qed.

Lemma point_at_in l i : (0 <= i < Z.of_nat (length l))%Z -> point_at l i ∈ l.
Proof. intros H. by eapply list_elem_of_lookup_2, point_at_lookup. Qed.

(** The loop finds the minimum distance, and a vertex that attains it. *)
Lemma nearest_spec pt l : ∀ ii (m : R) v,
  ∃ d v', nearest pt l ii (Some m) v = (Some d, v') ∧ d <= m ∧ (∀ p, p ∈ l -> d <= dist pt p)
    ∧ ((v' = v ∧ d = m) ∨ ∃ k p, l !! k = Some p ∧ v' = (ii + Z.of_nat k)%Z ∧ d = dist pt p).
Proof.
  induction l as [|p l IH]; intros ii m v; simpl.
  - exists m, v. split_and!; [done|lra| |by left]. intros p Hp. by apply not_elem_of_nil in Hp.
  - fold (dist pt p). case_R.
    + destruct (IH (ii + 1)%Z (dist pt p) ii) as (d & v' & E & Hd & Hmin & Hv). exists d, v'.
      split_and!; [done|lra| |].
      * intros q [->|Hq]%elem_of_cons; [lra|by apply Hmin].
      * right. destruct Hv as [[-> ->]|(k & q & Hk & -> & ->)];
          [exists 0%nat, p|exists (S k), q]; split_and!; (done || lia).
    + destruct (IH (ii + 1)%Z m v) as (d & v' & E & Hd & Hmin & Hv). exists d, v'.
      split_and!; [done|lra| |].
      * intros q [->|Hq]%elem_of_cons; [lra|by apply Hmin].
      * destruct Hv as [Hv|(k & q & Hk & -> & ->)]; [by left|right].
        exists (S k), q; split_and!; (done || lia).
Qed.

Lemma nearest_vertex pt l :
  l ≠ [] -> ∃ d v, nearest pt l 0 None 0 = (Some d, v) ∧ (0 <= v < Z.of_nat (length l))%Z
    ∧ d = dist pt (point_at l v) ∧ ∀ p, p ∈ l -> d <= dist pt p.
Proof.
  destruct l as [|p l]; [done|intros _]. simpl. fold (dist pt p).
  destruct (nearest_spec pt l (0 + 1) (dist pt p) 0) as (d & v & -> & Hd & Hmin & Hv).
  exists d, v. split_and!; try done.
  1-2: destruct Hv as [[-> _]|(k & q & Hk%lookup_lt_Some & -> & _)]; lia.
  - destruct Hv as [[-> ->]|(k & q & Hk & -> & ->)]; [done|].
    unfold point_at. rewrite Z2Nat.inj_add by lia. simpl. rewrite Nat2Z.id.
    by rewrite (nth_lookup_Some l k zero2 q Hk).
  - intros q [->|Hq]%elem_of_cons; [lra|by apply Hmin].
Qed.

(** The edges of a vertex list, each vertex with the next and the last with the first. *)
Definition edge (l : list (vec2 R)) (i : Z) : vec2 R * vec2 R :=
  (point_at l i, point_at l ((i + 1) mod Z.of_nat (length l))).

Definition on_boundary (l : list (vec2 R)) (q : vec2 R) : Prop :=
  ∃ i, (0 <= i < Z.of_nat (length l))%Z ∧ on_segment (edge l i).1 (edge l i).2 q.

Lemma vertex_on_boundary l v :
  (0 <= v < Z.of_nat (length l))%Z -> on_boundary l (point_at l v).
Proof.
  intros H. exists v. split; [done|]. exists 0. split; [lra|]. unfold on_line, edge. simpl.
  destruct (point_at l v); simpl. f_equal; lra.
Qed.

(** The index of the previous vertex, when [N] divides 2^64 or there is no wrap. *)
Lemma prev_index_eq N v :
  (0 < N)%Z -> (0 <= v < N)%Z -> (N < 2 ^ 64)%Z -> (v ≠ 0 ∨ 2 ^ 64 mod N = 0)%Z ->
  prev_index N v = ((v - 1) mod N)%Z.
Proof.
  intros HN Hv HN64 H. unfold prev_index.
  destruct (Z.eq_dec v 0%Z) as [->|Hne]; [|by rewrite wrapu_small by lia].
  destruct H as [|Hdiv]; [done|]. unfold wrapu.
  apply Z.mod_divide in Hdiv as [k Hk]; [|lia].
  rewrite Hk. change (0 - 1)%Z with (-1)%Z.
  rewrite <- (Z_mod_plus_full (-1) 1 (k * N)), (Z.mod_small (-1 + 1 * (k * N))) by nia.
  replace (-1 + 1 * (k * N))%Z with (-1 + k * N)%Z by lia. apply Z_mod_plus_full.
Qed.

(** The two edges at a vertex. *)
Lemma edges_at l v :
  let N := Z.of_nat (length l) in
  (0 <= v < N)%Z -> (N < 2 ^ 64)%Z -> (v ≠ 0 ∨ 2 ^ 64 mod N = 0)%Z ->
  edge l (prev_index N v) = (point_at l (prev_index N v), point_at l v)
  ∧ edge l v = (point_at l v, point_at l (next_index N v))
  ∧ (0 <= prev_index N v < N)%Z.
Proof.
  intros N Hv HN H. rewrite prev_index_eq by (done || lia). unfold edge. fold N. split_and!.
  - f_equal. f_equal. rewrite Zplus_mod_idemp_l. replace (v - 1 + 1)%Z with v by lia.
    by apply Z.mod_small.
  - unfold next_index. rewrite wrapu_small by lia. done.
  - apply Z.mod_pos_bound. lia.
  - apply Z.mod_pos_bound. lia.
Qed.

(** *** Convex polygons *)

#[local] Instance vec2_R_eq_dec : EqDecision (vec2 R).
Proof. intros [a b] [c d]. destruct (Req_EM_T a c), (Req_EM_T b d); [left|right..]; congruence. Defined.

(** Distinct vertices in counter-clockwise order: every vertex that is not on an edge is to its
    left. *)
Definition strictly_convex (l : list (vec2 R)) : Prop :=
  NoDup l ∧ (2 <= length l)%nat
  ∧ ∀ i p, (0 <= i < Z.of_nat (length l))%Z -> p ∈ l -> p ≠ (edge l i).1 -> p ≠ (edge l i).2 ->
      0 < cross (edge l i).1 (edge l i).2 p.

(** The point is strictly to the left of every edge. *)
Definition inside (l : list (vec2 R)) (p : vec2 R) : Prop :=
  ∀ i, (0 <= i < Z.of_nat (length l))%Z -> 0 < cross (edge l i).1 (edge l i).2 p.

Lemma convex_left l i p :
  strictly_convex l -> (0 <= i < Z.of_nat (length l))%Z -> p ∈ l -> 0 <= cross (edge l i).1 (edge l i).2 p.
Proof.
  intros (_ & _ & H) Hi Hp. specialize (H i p Hi Hp). unfold cross in *.
  destruct (decide (p = (edge l i).1)) as [->|]; [lra|]. destruct (decide (p = (edge l i).2)) as [->|]; [lra|].
  specialize (H ltac:(done) ltac:(done)). lra.
Qed.

Lemma edge_distinct l i : strictly_convex l -> (0 <= i < Z.of_nat (length l))%Z -> (edge l i).1 ≠ (edge l i).2.
Proof.
  intros (Hnd & Hl & _) Hi E. cbn in E. set (N := Z.of_nat (length l)) in *.
  pose proof (Z.mod_pos_bound (i + 1) N ltac:(lia)) as Hm.
  assert (Z.to_nat i = Z.to_nat ((i + 1) mod N)) as En.
  { eapply NoDup_lookup; [done|by apply point_at_lookup|]. rewrite E. by apply point_at_lookup. }
  assert (i = (i + 1) mod N)%Z as Ei by lia. destruct (Z.eq_dec (i + 1)%Z N) as [E1|].
  - rewrite E1, Z.mod_same in Ei by lia. lia.
  - rewrite Z.mod_small in Ei by lia. lia.
Qed.

(** A linear function that is non-negative at the vertices is so on the boundary. *)
Lemma boundary_linear l q (f : vec2 R -> R) :
  (∀ a b t, f (on_line a b t) = (1 - t) * f a + t * f b) -> (∀ p, p ∈ l -> 0 <= f p) ->
  on_boundary l q -> 0 <= f q.
Proof.
  intros Hf Hl (i & Hi & t & Ht & ->). rewrite Hf. pose proof (Hl _ (point_at_in l i Hi)).
  assert (0 < Z.of_nat (length l))%Z as Hpos by lia.
  pose proof (Hl _ (point_at_in l ((i + 1) mod Z.of_nat (length l)) (Z.mod_pos_bound _ _ Hpos))). unfold edge. cbn in *. nra.
Qed.

(** A point to the right of an edge's line is at least that far from the whole polygon. *)
Lemma edge_separates l i pt q :
  strictly_convex l -> (0 <= i < Z.of_nat (length l))%Z -> on_boundary l q ->
  - DistToLine (edge l i).1 (edge l i).2 pt <= dist pt q.
Proof.
  intros Hc Hi Hq. set (a := (edge l i).1). set (b := (edge l i).2).
  assert (0 <= cross a b q) as Hl.
  { apply (boundary_linear l q (cross a b)); [|intros p; by apply convex_left|done].
    intros c d t. unfold cross, on_line. simpl. ring. }
  assert (a ≠ b) as Hab by (by apply edge_distinct). pose proof (dist_pos a b Hab) as Hd.
  rewrite DistToLine_cross by done. pose proof (norm2_nonneg (sub2 pt q)) as Hn. fold (dist pt q) in Hn.
  apply Rmult_le_reg_r with (dist a b); [done|].
  replace (- (cross a b pt / dist a b) * dist a b) with (- cross a b pt) by (field; lra).
  apply Rle_trans with (cross a b q - cross a b pt); [lra|].
  apply Rsqr_incr_0_var; [|nra]. unfold Rsqr.
  replace (dist pt q * dist a b * (dist pt q * dist a b)) with (dist pt q * dist pt q * (dist a b * dist a b)) by ring.
  rewrite !dist_sqr. unfold cross.
  set (x := vx a - vx b). set (y := vy a - vy b). set (u := vx pt - vx q). set (w := vy pt - vy q).
  replace ((vx b - vx a) * (vy q - vy a) - (vy b - vy a) * (vx q - vx a) - ((vx b - vx a) * (vy pt - vy a) - (vy b - vy a) * (vx pt - vx a)))
    with (x * w - y * u) by (unfold x, y, u, w; ring).
  enough (0 <= (x * u + y * w) * (x * u + y * w)) by nra. apply Rle_0_sqr.
Qed.

(** The dot product of [p - v] and [q - v]. *)
Definition dot_at (v p q : vec2 R) : R := (vx p - vx v) * (vx q - vx v) + (vy p - vy v) * (vy q - vy v).

(** When the point is behind the vertex along everything, the vertex is nearest. *)
Lemma vertex_separates l v pt q :
  (∀ p, p ∈ l -> dot_at v pt p <= 0) -> on_boundary l q -> dist pt v <= dist pt q.
Proof.
  intros H Hq. assert (0 <= - dot_at v pt q) as Hd.
  { apply (boundary_linear l q (λ q, - dot_at v pt q)); [|intros p Hp; specialize (H p Hp); lra|done].
    intros a b t. unfold dot_at, on_line. simpl. ring. }
  apply Rsqr_incr_0_var; [|apply norm2_nonneg]. unfold Rsqr. rewrite !dist_sqr. unfold dot_at in Hd.
  pose proof (Rle_0_sqr (vx q - vx v)). pose proof (Rle_0_sqr (vy q - vy v)). unfold Rsqr in *. nra.
Qed.

(** At a nearest vertex, a neighbour is behind a point that does not project onto the edge. *)
Lemma behind_neighbour a b v w pt :
  (a = v ∧ b = w) ∨ (a = w ∧ b = v) -> a ≠ b -> dist pt v <= dist pt w ->
  ProjectsToLine a b pt = false -> dot_at v pt w <= 0.
Proof.
  intros Hab Hne Hd Hp. apply Rnot_lt_le. intros Hpos.
  assert (dist pt v * dist pt v <= dist pt w * dist pt w) as Hs.
  { pose proof (norm2_nonneg (sub2 pt v)). fold (dist pt v) in *. nra. }
  rewrite !dist_sqr in Hs. revert Hp. unfold ProjectsToLine, dot_at in *. rewrite dot2_eq, squaredNorm2_eq. simpl.
  assert (0 < (vx v - vx w) * (vx v - vx w) + (vy v - vy w) * (vy v - vy w)).
  { rewrite <- dist_sqr. assert (v ≠ w) as Hvw by (destruct Hab as [[-> ->]|[-> ->]]; congruence). pose proof (dist_pos _ _ Hvw). nra. }
  destruct Hab as [[-> ->]|[-> ->]]; repeat case_R; try done; intros _; nra.
Qed.

(** The polygon is in the cone of the two edges at a vertex, so when both neighbours are
    behind a point, everything is. *)
Lemma cone_behind (v pre post pt p : vec2 R) :
  0 < cross v post pre -> 0 <= cross v post p -> 0 <= cross pre v p ->
  dot_at v pt pre <= 0 -> dot_at v pt post <= 0 -> dot_at v pt p <= 0.
Proof.
  unfold cross, dot_at. set (x := vx pt - vx v). set (y := vy pt - vy v).
  set (a := vx post - vx v). set (b := vy post - vy v). set (c := vx pre - vx v). set (d := vy pre - vy v).
  set (u := vx p - vx v). set (w := vy p - vy v). intros H0 H1 H2 H3 H4.
  replace ((vx v - vx pre) * (vy p - vy pre) - (vy v - vy pre) * (vx p - vx pre)) with (u * d - w * c) in H2
    by (unfold u, w, c, d; ring).
  apply Rmult_le_reg_l with (a * d - b * c); [lra|].
  replace ((a * d - b * c) * (x * u + y * w)) with ((u * d - w * c) * (x * a + y * b) + (a * w - b * u) * (x * c + y * d)) by ring.
  rewrite Rmult_0_r. pose proof (Rmult_le_pos _ (- (x * a + y * b)) H2 ltac:(lra)).
  pose proof (Rmult_le_pos _ (- (x * c + y * d)) H1 ltac:(lra)). lra.
Qed.

(** Outside of one of the edges at a vertex, inside of the other and behind the vertex along the
    first, a point is behind it along the other too. *)
Lemma behind_other (v p q pt : vec2 R) s :
  s * s = 1 -> dot_at v pt p <= 0 -> 0 < s * cross v p q -> s * cross v p pt <= 0 -> 0 < s * cross v pt q ->
  dot_at v pt q <= 0.
Proof.
  unfold cross, dot_at. set (x := vx pt - vx v). set (y := vy pt - vy v).
  set (a := vx p - vx v). set (b := vy p - vy v). set (c := vx q - vx v). set (d := vy q - vy v). intros Hs Hp H1 H2 H3.
  set (S := s * (a * d - b * c)) in *. set (Y := s * (a * y - b * x)) in *. set (T := s * (x * d - y * c)) in *.
  set (X := x * a + y * b) in *. set (C := a * c + b * d). set (L := a * a + b * b).
  assert (L * T = X * S - Y * C) as E by (unfold L, T, X, S, Y, C; ring).
  assert (L * (x * c + y * d) = X * C + Y * S) as E2.
  { unfold L, X, C, Y, S. replace (s * (a * y - b * x) * (s * (a * d - b * c))) with (s * s * ((a * y - b * x) * (a * d - b * c))) by ring.
    rewrite Hs. ring. }
  assert (0 < L) as HL.
  { unfold L. destruct (Req_dec a 0) as [Ea|]; [destruct (Req_dec b 0) as [Eb|]|]; [|nra..].
    exfalso. unfold S in H1. rewrite Ea, Eb in H1. lra. }
  pose proof (Rmult_lt_0_compat _ _ HL H3). pose proof (Rmult_le_pos (- X) S ltac:(lra) ltac:(lra)).
  assert (0 < C) as HC. { apply Rnot_le_lt. intros HC. pose proof (Rmult_le_pos (- Y) (- C) ltac:(lra) ltac:(lra)). lra. }
  apply Rmult_le_reg_l with L; [done|]. rewrite E2, Rmult_0_r.
  pose proof (Rmult_le_pos (- X) C ltac:(lra) ltac:(lra)). pose proof (Rmult_le_pos (- Y) S ltac:(lra) ltac:(lra)). lra.
Qed.

Lemma DistToLine_sign a b p : a ≠ b -> (0 < DistToLine a b p <-> 0 < cross a b p).
Proof. intros H. apply (dist_to_line_correct a b p H). Qed.

(** Everything is behind the nearest vertex when the point projects onto neither edge that it is
    outside of. *)
Lemma all_behind l v pt :
  let N := Z.of_nat (length l) in
  let pre := point_at l ((v - 1) mod N) in
  let post := point_at l ((v + 1) mod N) in
  let w := point_at l v in
  strictly_convex l -> (0 <= v < N)%Z -> (∀ p, p ∈ l -> dist pt w <= dist pt p) ->
  ¬ (0 < cross pre w pt ∧ 0 < cross w post pt) ->
  (cross w post pt <= 0 -> ProjectsToLine w post pt = false) ->
  (cross pre w pt <= 0 -> ProjectsToLine pre w pt = false) ->
  ∀ p, p ∈ l -> dot_at w pt p <= 0.
Proof.
  intros N pre post w Hc Hv Hmin Hout Hp1 Hp0. pose proof Hc as (Hnd & Hlen & Hstrict).
  pose proof (Z.mod_pos_bound (v - 1) N ltac:(lia)) as Hpre. pose proof (Z.mod_pos_bound (v + 1) N ltac:(lia)) as Hpost.
  assert (edge l v = (w, post)) as E1 by done.
  assert (edge l ((v - 1) mod N) = (pre, w)) as E0.
  { unfold edge. fold N. rewrite Zplus_mod_idemp_l. replace (v - 1 + 1)%Z with v by lia. by rewrite (Z.mod_small v N). }
  pose proof (edge_distinct l v Hc Hv) as Hd1. pose proof (edge_distinct l _ Hc Hpre) as Hd0. rewrite E1 in Hd1. rewrite E0 in Hd0. cbn in Hd0, Hd1.
  pose proof (λ p, convex_left l v p Hc Hv) as Hl1. pose proof (λ p, convex_left l _ p Hc Hpre) as Hl0. rewrite E1 in Hl1. rewrite E0 in Hl0. cbn in Hl0, Hl1.
  assert (cross w post pt <= 0 -> dot_at w pt post <= 0) as B1
    by (intros H; apply (behind_neighbour w post w post pt); eauto using point_at_in).
  assert (cross pre w pt <= 0 -> dot_at w pt pre <= 0) as B0
    by (intros H; apply (behind_neighbour pre w w pre pt); eauto using point_at_in).
  destruct (decide (pre = post)) as [Epp|Hpp].
  - (* two vertices *)
    assert (dot_at w pt post <= 0) as B.
    { destruct (Rle_lt_dec (cross w post pt) 0); [by apply B1|]. rewrite <- Epp. apply B0. rewrite Epp in *. unfold cross in *. nra. }
    intros p Hp. destruct (decide (p = w)) as [->|]; [unfold dot_at; lra|]. destruct (decide (p = post)) as [->|]; [done|].
    exfalso. pose proof (Hstrict v p Hv Hp) as H1. rewrite E1 in H1. cbn in H1. specialize (H1 ltac:(done) ltac:(done)).
    pose proof (Hl0 p Hp) as H0. rewrite Epp in H0. unfold cross in *. nra.
  - pose proof (Hstrict v pre Hv (point_at_in l _ Hpre)) as HS. rewrite E1 in HS. cbn in HS.
    specialize (HS ltac:(done) ltac:(done)).
    assert (cross w pt pre = cross pre w pt) as Ex by (unfold cross; ring).
    assert (dot_at w pt pre <= 0 ∧ dot_at w pt post <= 0) as [Bp Bq].
    { destruct (Rle_lt_dec (cross w post pt) 0) as [H1|H1], (Rle_lt_dec (cross pre w pt) 0) as [H0|H0].
      - auto.
      - split; [|auto]. apply (behind_other w post pre pt 1); [ring|auto|lra|lra|rewrite Ex; lra].
      - split; [auto|]. apply (behind_other w pre post pt (-1)); [ring|auto|..]; unfold cross in *; lra.
      - by destruct Hout. }
    intros p Hp. apply (cone_behind w pre post); auto.
Qed.

(** The result, from the nearest vertex [v] and its distance [m]. *)
Lemma dist_at_correct l v pt m :
  let N := Z.of_nat (length l) in
  let pre := point_at l ((v - 1) mod N) in
  let post := point_at l ((v + 1) mod N) in
  let w := point_at l v in
  strictly_convex l -> (0 <= v < N)%Z -> m = dist pt w -> (∀ p, p ∈ l -> m <= dist pt p) -> pre ≠ w -> w ≠ post ->
  edge l ((v - 1) mod N) = (pre, w) -> (0 <= (v - 1) mod N < N)%Z -> (inside l pt -> 0 < cross pre w pt ∧ 0 < cross w post pt) ->
  ∃ d, Ok (E := PolyErr) (dist_at pre w post pt (Some m)) = Ok (Some d)
    ∧ (0 <= d -> (∃ q, on_boundary l q ∧ dist pt q = d) ∧ ∀ q, on_boundary l q -> d <= dist pt q)
    ∧ (d < 0 <-> 0 < cross pre w pt ∧ 0 < cross w post pt)
    ∧ (inside l pt -> d < 0)
    ∧ (d < 0 -> d = - Rmax (DistToLine pre w pt) (DistToLine w post pt)).
Proof.
  intros N pre post w Hc Hv Hm Hmin Hd0 Hd1 Ee0 Hp Hin.
  pose proof (DistToLine_sign pre w pt Hd0) as S0. pose proof (DistToLine_sign w post pt Hd1) as S1.
  unfold dist_at. cbn [nopp num_R nltb nleb nofZ].
  change (IZR 0) with 0. set (D0 := DistToLine pre w pt) in *. set (D1 := DistToLine w post pt) in *.
  destruct (Rltb (- D0) 0 && Rltb (- D1) 0) eqn:Eb.
  - (* inside *)
    assert (0 < D0 ∧ 0 < D1) as [P0 P1] by (revert Eb; repeat case_R; try done; lra).
    assert (- Rmax D0 D1 < 0) as Hneg by (unfold Rmax; destruct (Rle_dec D0 D1); lra).
    exists (- Rmax D0 D1). split; [|split_and!; [intros; lra|split; [split; [by apply S0|by apply S1]|done]|done|done]].
    do 2 f_equal. unfold nmin, Rmax. simpl. repeat case_R; destruct (Rle_dec D0 D1); lra.
  - assert (¬ (0 < cross pre w pt ∧ 0 < cross w post pt)) as Hout.
    { intros [?%S0 ?%S1]. revert Eb. repeat case_R; try done; lra. }
    match goal with |- ∃ d, Ok ?r = _ ∧ _ => assert (∃ d, r = Some d ∧ 0 <= d
      ∧ (∃ q, on_boundary l q ∧ dist pt q = d) ∧ ∀ q, on_boundary l q -> d <= dist pt q) as (d & -> & Hpos & Hq) end;
      [|exists d; split_and!; [done|by intros _|split; [lra|by intros ?%Hout]|by intros ?%Hin%Hout|lra]].
    destruct (ProjectsToLine w post pt && Rleb 0 (- D1)) eqn:E1p; [|destruct (ProjectsToLine pre w pt && Rleb 0 (- D0)) eqn:E0p].
    + apply andb_true_iff in E1p as [Hpr Hs]. revert Hs. case_R; [intros _|done]. exists (- D1). split_and!; [done|done| |].
      * destruct (projects_on_segment _ _ _ Hpr) as (q & Hq & Eq). exists q. split; [by exists v|]. fold D1 in Eq. rewrite Eq, Rabs_left1; lra.
      * intros q Hq. by apply (edge_separates l v).
    + apply andb_true_iff in E0p as [Hpr Hs]. revert Hs. case_R; [intros _|done]. exists (- D0). split_and!; [done|done| |].
      * destruct (projects_on_segment _ _ _ Hpr) as (q & Hq & Eq). exists q.
        split; [exists ((v - 1) mod N)%Z; by rewrite Ee0|]. fold D0 in Eq. rewrite Eq, Rabs_left1; lra.
      * intros q Hq. pose proof (edge_separates l _ pt q Hc Hp Hq) as H. by rewrite Ee0 in H.
    + exists m. split_and!; [done|rewrite Hm; apply norm2_nonneg|exists w; split; [by apply vertex_on_boundary|done]|].
      intros q. rewrite Hm. apply vertex_separates, (all_behind l v pt); try done; [intros p' Hp'; fold w; rewrite <- Hm; by apply Hmin|intros Hcr..].
      * apply andb_false_iff in E1p as [Hs|Hs]; [exact Hs|]. exfalso.
        destruct (Rleb_spec 0 (- D1)); [done|]. apply (Rle_not_lt _ _ Hcr), S1. lra.
      * apply andb_false_iff in E0p as [Hs|Hs]; [exact Hs|]. exfalso.
        destruct (Rleb_spec 0 (- D0)); [done|]. apply (Rle_not_lt _ _ Hcr), S0. lra.
Qed.

(** C25: The distance of a point to a polygon whose vertices are in convex position, in exact
    arithmetic, provided [(minvertex - 1) % N] denotes the previous vertex (the number of
    vertices divides 2^64, or the nearest vertex is not the first).  A distance is returned.
    When it is not negative, it is the distance to the polygon: it is attained at a point of the
    boundary, and no point of the boundary is nearer.  It is negative exactly when the point is
    strictly to the left of both edges at the nearest vertex, so for every point inside; and
    then its magnitude is the larger of the distances to the lines of these two edges. *)
Theorem dist_to_point_correct (l : list (vec2 R)) (c pt : vec2 R) :
  let N := Z.of_nat (length l) in
  let v := (nearest pt l 0 None 0).2 in
  let e0 := edge l ((v - 1) mod N) in
  let e1 := edge l v in
  strictly_convex l -> (N < 2 ^ 64)%Z -> (v ≠ 0 ∨ 2 ^ 64 mod N = 0)%Z ->
  ∃ d, DistToPoint (MkPolygon l c) pt = Ok (Some d)
    ∧ (0 <= d -> (∃ q, on_boundary l q ∧ dist pt q = d) ∧ ∀ q, on_boundary l q -> d <= dist pt q)
    ∧ (d < 0 <-> 0 < cross e0.1 e0.2 pt ∧ 0 < cross e1.1 e1.2 pt)
    ∧ (inside l pt -> d < 0)
    ∧ (d < 0 -> d = - Rmax (DistToLine e0.1 e0.2 pt) (DistToLine e1.1 e1.2 pt)).
Proof.
  intros N v e0 e1 Hc HN Hdiv. pose proof Hc as (Hnd & Hlen & _). assert (l ≠ []) as Hl by (destruct l; [simpl in Hlen; lia|done]).
  destruct (nearest_vertex pt l Hl) as (m & v' & E & Hv & Hm & Hmin). assert (v' = v) as -> by (unfold v; by rewrite E).
  clearbody v. fold N in Hv. destruct (edges_at l v Hv HN Hdiv) as (_ & E1 & Hp). fold N in E1, Hp.
  assert (prev_index N v = (v - 1) mod N)%Z as Epi by (apply prev_index_eq; [lia|done..]). rewrite Epi in Hp.
  assert (next_index N v = (v + 1) mod N)%Z as Eni by (unfold next_index; by rewrite wrapu_small by lia).
  pose proof (Z.mod_pos_bound (v + 1) N ltac:(lia)) as Hpo.
  set (pre := point_at l ((v - 1) mod N)). set (w := point_at l v) in *. set (post := point_at l ((v + 1) mod N)).
  assert (e1 = (w, post)) as Ee1 by done.
  assert (e0 = (pre, w)) as Ee0.
  { unfold e0, edge. fold N. rewrite Zplus_mod_idemp_l. replace (v - 1 + 1)%Z with v by lia. by rewrite (Z.mod_small v N). }
  assert (pre ≠ w ∧ w ≠ post) as [Hd0 Hd1].
  { pose proof (edge_distinct l v Hc Hv) as H1. pose proof (edge_distinct l _ Hc Hp) as H0. fold e0 in H0. fold e1 in H1.
    rewrite Ee0 in H0. rewrite Ee1 in H1. by split. }
  assert (DistToPoint (MkPolygon l c) pt = Ok (dist_at pre w post pt (Some m))) as ED.
  { unfold DistToPoint. cbn [pts]. fold N. rewrite E. destruct (Z.eqb_spec N 0); [lia|]. rewrite Epi, Eni. unfold vertex_at.
    by rewrite !point_at_lookup by done. }
  rewrite ED. clear ED. pose proof (DistToLine_sign pre w pt Hd0) as S0. pose proof (DistToLine_sign w post pt Hd1) as S1.
  rewrite Ee0, Ee1. cbn [fst snd]. assert (inside l pt -> 0 < cross pre w pt ∧ 0 < cross w post pt) as Hin.
  { intros Hi. pose proof (Hi _ Hp) as H0. pose proof (Hi _ Hv) as H1. fold e0 in H0. fold e1 in H1. rewrite Ee0 in H0. by rewrite Ee1 in H1. }
  by apply (dist_at_correct l v pt m).
Qed.
End Exact.

(** The wrap-around index [(minvertex - 1) % N] of the first vertex is the last vertex
    exactly when [N] divides 2^64; for a triangle it is the first vertex itself. *)
Theorem prev_index_wraps (N : Z) :
  (0 < N < 2 ^ 64)%Z ->
  (prev_index N 0 = N - 1 <-> 2 ^ 64 mod N = 0)%Z ∧ prev_index 3 0 = 0%Z.
Proof.
  intros HN. split; [|done]. unfold prev_index. change (wrapu 64 (0 - 1)) with (2 ^ 64 - 1)%Z.
  pose proof (mod_pred N (2 ^ 64) ltac:(lia)) as Hp. pose proof (Z.mod_pos_bound (2 ^ 64) N ltac:(lia)).
  revert Hp. case_test; lia.
Qed.

Lemma prev_index_wraps_witness : (prev_index 4 0 = 3)%Z ∧ prev_index 3 0 = 0%Z.
Proof.
  destruct (prev_index_wraps 4 ltac:(lia)) as [H1 H2]. split; [apply H1; reflexivity|exact H2].
Defined.

Lemma dist_to_line_witness : ∃ t,
  @dist eigen_plain (V2 0 1) (on_line (V2 0 0) (V2 1 0) t)
  = Rabs (@DistToLine R num_R eigen_plain (V2 0 0) (V2 1 0) (V2 0 1)).
Proof.
  apply (@dist_to_line_correct eigen_plain eigen_plain_laws (V2 0 0) (V2 1 0) (V2 0 1)).
  intros E. injection E. lra.
Defined.

(** A square, a point above it and a point in it. *)
Definition example_square : list (vec2 R) := [V2 0 0; V2 4 0; V2 4 4; V2 0 4].

Lemma example_square_convex : strictly_convex example_square.
Proof.
  split_and!.
  - unfold example_square. repeat (apply NoDup_cons; split; [rewrite ?elem_of_cons, ?elem_of_nil; intros H; destruct_or? H; simplify_eq; lra|]).
    apply NoDup_nil_2.
  - simpl. lia.
  - intros i p Hi Hp. change (Z.of_nat (length example_square)) with 4%Z in Hi.
    assert (i = 0 ∨ i = 1 ∨ i = 2 ∨ i = 3)%Z as Hc by lia.
    unfold example_square in Hp. rewrite !elem_of_cons, elem_of_nil in Hp.
    destruct Hc as [->|[->|[->| ->]]], Hp as [->|[->|[->|[->|[]]]]]; cbv [edge point_at cross] ; simpl; intros H1 H2; try lra; congruence.
Qed.

Lemma dist_to_point_witness :
  (∃ d, @DistToPoint R num_R eigen_plain (MkPolygon example_square zero2) (V2 2 7) = Ok (Some d)
     ∧ (0 <= d -> ∀ q, on_boundary example_square q -> d <= @dist eigen_plain (V2 2 7) q))
  ∧ ∃ d, @DistToPoint R num_R eigen_plain (MkPolygon example_square zero2) (V2 1 2) = Ok (Some d) ∧ d < 0.
Proof.
  split.
  - destruct (@dist_to_point_correct eigen_plain eigen_plain_laws example_square zero2 (V2 2 7)) as (d & E & Hd & _).
    + exact example_square_convex.
    + reflexivity.
    + right. reflexivity.
    + exists d. split; [exact E|]. intros H. apply Hd, H.
  - destruct (@dist_to_point_correct eigen_plain eigen_plain_laws example_square zero2 (V2 1 2)) as (d & E & _ & _ & Hd & _).
    + exact example_square_convex.
    + reflexivity.
    + right. reflexivity.
    + exists d. split; [exact E|]. apply Hd. intros i Hi. change (Z.of_nat (length example_square)) with 4%Z in Hi.
      assert (i = 0 ∨ i = 1 ∨ i = 2 ∨ i = 3)%Z as Hc by lia.
      destruct Hc as [->|[->|[->| ->]]]; cbv [edge point_at cross]; simpl; lra.
Defined.
