(* ===== verification/Messages.v ===== *)
(** * Messages between the nodes

    The protocol buffers of src/control/actuator_cmd.proto that the control nodes
    exchange.  A field is [None] until it is set; an accessor of an unset field gives
    the type's zero.  [Clear] is the message with no field set. *)

From Stdlib Require Import ZArith.
From stdpp Require Import base decidable option.
From S2P Require Import Prelude Num Vec.

Inductive MODE := MANUAL_RC | AUTO | MANUAL_WIFI | DISABLE | FILTERED_RC.
Inductive TACKER := TACKER_NONE | LINE | REWARD | DISABLED | LINE_PLAN.

#[global] Instance MODE_eq_dec : EqDecision MODE.
Proof. solve_decision. Defined.
#[global] Instance TACKER_eq_dec : EqDecision TACKER.
Proof. solve_decision. Defined.

Definition mode_eqb (a b : MODE) : bool := bool_decide (a = b).

Record ControlMode := MkControlMode {
  winch_mode : option MODE;
  tacker : option TACKER;
  rudder_mode : option MODE;
  rigid_mode : option MODE;
  ballast_mode : option MODE;
}.
Definition set_winch_mode (v : option MODE) (s : ControlMode) : ControlMode := MkControlMode v (s.(tacker)) (s.(rudder_mode)) (s.(rigid_mode)) (s.(ballast_mode)).
Definition set_tacker (v : option TACKER) (s : ControlMode) : ControlMode := MkControlMode (s.(winch_mode)) v (s.(rudder_mode)) (s.(rigid_mode)) (s.(ballast_mode)).
Definition set_rudder_mode (v : option MODE) (s : ControlMode) : ControlMode := MkControlMode (s.(winch_mode)) (s.(tacker)) v (s.(rigid_mode)) (s.(ballast_mode)).
Definition set_rigid_mode (v : option MODE) (s : ControlMode) : ControlMode := MkControlMode (s.(winch_mode)) (s.(tacker)) (s.(rudder_mode)) v (s.(ballast_mode)).
Definition set_ballast_mode (v : option MODE) (s : ControlMode) : ControlMode := MkControlMode (s.(winch_mode)) (s.(tacker)) (s.(rudder_mode)) (s.(rigid_mode)) v.
Definition ControlMode_clear : ControlMode := MkControlMode None None None None None.

Record HeadingCmd (D : Type) := MkHeadingCmd {
  heading : option D;
  extra_sail : option D;
}.
Arguments MkHeadingCmd {D}.
Arguments heading {D} _.
Arguments extra_sail {D} _.
Definition set_heading {D : Type} (v : option D) (s : HeadingCmd D) : HeadingCmd D := MkHeadingCmd v (s.(extra_sail)).
Definition set_extra_sail {D : Type} (v : option D) (s : HeadingCmd D) : HeadingCmd D := MkHeadingCmd (s.(heading)) v.
Definition HeadingCmd_clear {D : Type} : HeadingCmd D := MkHeadingCmd None None.

Record SailCmd (D : Type) := MkSailCmd {
  sail_vel : option D;
  sail_voltage : option D;
  sail_pos : option D;
}.
Arguments MkSailCmd {D}.
Arguments sail_vel {D} _.
Arguments sail_voltage {D} _.
Arguments sail_pos {D} _.
Definition set_sail_vel {D : Type} (v : option D) (s : SailCmd D) : SailCmd D := MkSailCmd v (s.(sail_voltage)) (s.(sail_pos)).
Definition set_sail_voltage {D : Type} (v : option D) (s : SailCmd D) : SailCmd D := MkSailCmd (s.(sail_vel)) v (s.(sail_pos)).
Definition set_sail_pos {D : Type} (v : option D) (s : SailCmd D) : SailCmd D := MkSailCmd (s.(sail_vel)) (s.(sail_voltage)) v.
Definition SailCmd_clear {D : Type} : SailCmd D := MkSailCmd None None None.

Record RudderCmd (D : Type) := MkRudderCmd {
  rudder_vel : option D;
  rudder_pos : option D;
}.
Arguments MkRudderCmd {D}.
Arguments rudder_vel {D} _.
Arguments rudder_pos {D} _.
Definition set_rudder_vel {D : Type} (v : option D) (s : RudderCmd D) : RudderCmd D := MkRudderCmd v (s.(rudder_pos)).
Definition set_rudder_pos {D : Type} (v : option D) (s : RudderCmd D) : RudderCmd D := MkRudderCmd (s.(rudder_vel)) v.
Definition RudderCmd_clear {D : Type} : RudderCmd D := MkRudderCmd None None.

Record BallastCmd (D : Type) := MkBallastCmd {
  ballast_vel : option D;
  ballast_voltage : option D;
}.
Arguments MkBallastCmd {D}.
Arguments ballast_vel {D} _.
Arguments ballast_voltage {D} _.
Definition set_ballast_vel {D : Type} (v : option D) (s : BallastCmd D) : BallastCmd D := MkBallastCmd v (s.(ballast_voltage)).
Definition set_ballast_voltage {D : Type} (v : option D) (s : BallastCmd D) : BallastCmd D := MkBallastCmd (s.(ballast_vel)) v.
Definition BallastCmd_clear {D : Type} : BallastCmd D := MkBallastCmd None None.

Record InternalBoatState (D : Type) := MkInternal {
  sail : option D;
  rudder : option D;
  ballast : option D;
  saildot : option D;
  rudderdot : option D;
  ballastdot : option D;
}.
Arguments MkInternal {D}.
Arguments sail {D} _.
Arguments rudder {D} _.
Arguments ballast {D} _.
Arguments saildot {D} _.
Arguments rudderdot {D} _.
Arguments ballastdot {D} _.
Definition set_sail {D : Type} (v : option D) (s : InternalBoatState D) : InternalBoatState D := MkInternal v (s.(rudder)) (s.(ballast)) (s.(saildot)) (s.(rudderdot)) (s.(ballastdot)).
Definition set_rudder {D : Type} (v : option D) (s : InternalBoatState D) : InternalBoatState D := MkInternal (s.(sail)) v (s.(ballast)) (s.(saildot)) (s.(rudderdot)) (s.(ballastdot)).
Definition set_ballast {D : Type} (v : option D) (s : InternalBoatState D) : InternalBoatState D := MkInternal (s.(sail)) (s.(rudder)) v (s.(saildot)) (s.(rudderdot)) (s.(ballastdot)).
Definition set_saildot {D : Type} (v : option D) (s : InternalBoatState D) : InternalBoatState D := MkInternal (s.(sail)) (s.(rudder)) (s.(ballast)) v (s.(rudderdot)) (s.(ballastdot)).
Definition set_rudderdot {D : Type} (v : option D) (s : InternalBoatState D) : InternalBoatState D := MkInternal (s.(sail)) (s.(rudder)) (s.(ballast)) (s.(saildot)) v (s.(ballastdot)).
Definition set_ballastdot {D : Type} (v : option D) (s : InternalBoatState D) : InternalBoatState D := MkInternal (s.(sail)) (s.(rudder)) (s.(ballast)) (s.(saildot)) (s.(rudderdot)) v.
Definition Internal_clear {D : Type} : InternalBoatState D := MkInternal None None None None None None.

(** The state estimate: position, velocity, angular velocity, Euler angles (roll,
    pitch, yaw) and the actuators. *)
Record BoatState (D : Type) := MkBoatState {
  pos : vec3 D;
  vel : vec3 D;
  omega : vec3 D;
  euler : vec3 D;
  internal : InternalBoatState D;
}.
Arguments MkBoatState {D}.
Arguments pos {D} _.
Arguments vel {D} _.
Arguments omega {D} _.
Arguments euler {D} _.
Arguments internal {D} _.
Definition set_pos {D : Type} (v : vec3 D) (s : BoatState D) : BoatState D := MkBoatState v (s.(vel)) (s.(omega)) (s.(euler)) (s.(internal)).
Definition set_vel {D : Type} (v : vec3 D) (s : BoatState D) : BoatState D := MkBoatState (s.(pos)) v (s.(omega)) (s.(euler)) (s.(internal)).
Definition set_omega {D : Type} (v : vec3 D) (s : BoatState D) : BoatState D := MkBoatState (s.(pos)) (s.(vel)) v (s.(euler)) (s.(internal)).
Definition set_euler {D : Type} (v : vec3 D) (s : BoatState D) : BoatState D := MkBoatState (s.(pos)) (s.(vel)) (s.(omega)) v (s.(internal)).
Definition set_internal {D : Type} (v : InternalBoatState D) (s : BoatState D) : BoatState D := MkBoatState (s.(pos)) (s.(vel)) (s.(omega)) (s.(euler)) v.

Inductive ChallengeType := STATION_KEEP | CHALLENGE_WAYPOINT | VISION | OBSTACLE.
Inductive SearchSTATE := NO_TARGET | GOING_TO_BUOY | AT_BUOY.

Record TackerState := MkTackerState { done : bool; last_waypoint : Z; near_waypoint : bool }.

(** A list of waypoints or of vertices, with the flags' declared defaults. *)
Record WaypointList (D : Type) := MkWaypointList {
  points : list (vec2 D);
  restart : option bool;
  defined_start : option bool;
  repeat_ : option bool;
}.
Arguments MkWaypointList {D}.
Arguments points {D} _.
Arguments restart {D} _.
Arguments defined_start {D} _.
Arguments repeat_ {D} _.

(** The value of an optional numeric field. *)
Definition get {D : Type} {ND : Num D} (o : option D) : D := default (nofZ 0) o.

Record ControllerConstants (D : Type) := MkConstants {
  max_rudder : option D;
  rudder_kp : option D;
  winch_kp : option D;
  sail_heel_k : option D;
  qf : option D;
  rudder_ki : option D;
  ballast_arm_kp : option D;
  ballast_arm_kd : option D;
  ballast_arm_kff_arm : option D;
  ballast_arm_kff_heel : option D;
  ballast_heel_kp : option D;
  ballast_heel_ki : option D;
  ballast_heel_kd : option D;
  ballast_heel_kff_goal : option D;
  nominal_heel : option D;
  rigid_port_servo_pos : option D;
  rigid_starboard_servo_pos : option D;
}.
Arguments MkConstants {D}.
Arguments max_rudder {D} _.
Arguments rudder_kp {D} _.
Arguments winch_kp {D} _.
Arguments sail_heel_k {D} _.
Arguments qf {D} _.
Arguments rudder_ki {D} _.
Arguments ballast_arm_kp {D} _.
Arguments ballast_arm_kd {D} _.
Arguments ballast_arm_kff_arm {D} _.
Arguments ballast_arm_kff_heel {D} _.
Arguments ballast_heel_kp {D} _.
Arguments ballast_heel_ki {D} _.
Arguments ballast_heel_kd {D} _.
Arguments ballast_heel_kff_goal {D} _.
Arguments nominal_heel {D} _.
Arguments rigid_port_servo_pos {D} _.
Arguments rigid_starboard_servo_pos {D} _.
Definition set_max_rudder {D : Type} (v : option D) (s : ControllerConstants D) : ControllerConstants D := MkConstants v (s.(rudder_kp)) (s.(winch_kp)) (s.(sail_heel_k)) (s.(qf)) (s.(rudder_ki)) (s.(ballast_arm_kp)) (s.(ballast_arm_kd)) (s.(ballast_arm_kff_arm)) (s.(ballast_arm_kff_heel)) (s.(ballast_heel_kp)) (s.(ballast_heel_ki)) (s.(ballast_heel_kd)) (s.(ballast_heel_kff_goal)) (s.(nominal_heel)) (s.(rigid_port_servo_pos)) (s.(rigid_starboard_servo_pos)).
Definition set_rudder_kp {D : Type} (v : option D) (s : ControllerConstants D) : ControllerConstants D := MkConstants (s.(max_rudder)) v (s.(winch_kp)) (s.(sail_heel_k)) (s.(qf)) (s.(rudder_ki)) (s.(ballast_arm_kp)) (s.(ballast_arm_kd)) (s.(ballast_arm_kff_arm)) (s.(ballast_arm_kff_heel)) (s.(ballast_heel_kp)) (s.(ballast_heel_ki)) (s.(ballast_heel_kd)) (s.(ballast_heel_kff_goal)) (s.(nominal_heel)) (s.(rigid_port_servo_pos)) (s.(rigid_starboard_servo_pos)).
Definition set_winch_kp {D : Type} (v : option D) (s : ControllerConstants D) : ControllerConstants D := MkConstants (s.(max_rudder)) (s.(rudder_kp)) v (s.(sail_heel_k)) (s.(qf)) (s.(rudder_ki)) (s.(ballast_arm_kp)) (s.(ballast_arm_kd)) (s.(ballast_arm_kff_arm)) (s.(ballast_arm_kff_heel)) (s.(ballast_heel_kp)) (s.(ballast_heel_ki)) (s.(ballast_heel_kd)) (s.(ballast_heel_kff_goal)) (s.(nominal_heel)) (s.(rigid_port_servo_pos)) (s.(rigid_starboard_servo_pos)).
Definition set_sail_heel_k {D : Type} (v : option D) (s : ControllerConstants D) : ControllerConstants D := MkConstants (s.(max_rudder)) (s.(rudder_kp)) (s.(winch_kp)) v (s.(qf)) (s.(rudder_ki)) (s.(ballast_arm_kp)) (s.(ballast_arm_kd)) (s.(ballast_arm_kff_arm)) (s.(ballast_arm_kff_heel)) (s.(ballast_heel_kp)) (s.(ballast_heel_ki)) (s.(ballast_heel_kd)) (s.(ballast_heel_kff_goal)) (s.(nominal_heel)) (s.(rigid_port_servo_pos)) (s.(rigid_starboard_servo_pos)).
Definition set_qf {D : Type} (v : option D) (s : ControllerConstants D) : ControllerConstants D := MkConstants (s.(max_rudder)) (s.(rudder_kp)) (s.(winch_kp)) (s.(sail_heel_k)) v (s.(rudder_ki)) (s.(ballast_arm_kp)) (s.(ballast_arm_kd)) (s.(ballast_arm_kff_arm)) (s.(ballast_arm_kff_heel)) (s.(ballast_heel_kp)) (s.(ballast_heel_ki)) (s.(ballast_heel_kd)) (s.(ballast_heel_kff_goal)) (s.(nominal_heel)) (s.(rigid_port_servo_pos)) (s.(rigid_starboard_servo_pos)).
Definition set_rudder_ki {D : Type} (v : option D) (s : ControllerConstants D) : ControllerConstants D := MkConstants (s.(max_rudder)) (s.(rudder_kp)) (s.(winch_kp)) (s.(sail_heel_k)) (s.(qf)) v (s.(ballast_arm_kp)) (s.(ballast_arm_kd)) (s.(ballast_arm_kff_arm)) (s.(ballast_arm_kff_heel)) (s.(ballast_heel_kp)) (s.(ballast_heel_ki)) (s.(ballast_heel_kd)) (s.(ballast_heel_kff_goal)) (s.(nominal_heel)) (s.(rigid_port_servo_pos)) (s.(rigid_starboard_servo_pos)).
Definition set_ballast_arm_kp {D : Type} (v : option D) (s : ControllerConstants D) : ControllerConstants D := MkConstants (s.(max_rudder)) (s.(rudder_kp)) (s.(winch_kp)) (s.(sail_heel_k)) (s.(qf)) (s.(rudder_ki)) v (s.(ballast_arm_kd)) (s.(ballast_arm_kff_arm)) (s.(ballast_arm_kff_heel)) (s.(ballast_heel_kp)) (s.(ballast_heel_ki)) (s.(ballast_heel_kd)) (s.(ballast_heel_kff_goal)) (s.(nominal_heel)) (s.(rigid_port_servo_pos)) (s.(rigid_starboard_servo_pos)).
Definition set_ballast_arm_kd {D : Type} (v : option D) (s : ControllerConstants D) : ControllerConstants D := MkConstants (s.(max_rudder)) (s.(rudder_kp)) (s.(winch_kp)) (s.(sail_heel_k)) (s.(qf)) (s.(rudder_ki)) (s.(ballast_arm_kp)) v (s.(ballast_arm_kff_arm)) (s.(ballast_arm_kff_heel)) (s.(ballast_heel_kp)) (s.(ballast_heel_ki)) (s.(ballast_heel_kd)) (s.(ballast_heel_kff_goal)) (s.(nominal_heel)) (s.(rigid_port_servo_pos)) (s.(rigid_starboard_servo_pos)).
Definition set_ballast_arm_kff_arm {D : Type} (v : option D) (s : ControllerConstants D) : ControllerConstants D := MkConstants (s.(max_rudder)) (s.(rudder_kp)) (s.(winch_kp)) (s.(sail_heel_k)) (s.(qf)) (s.(rudder_ki)) (s.(ballast_arm_kp)) (s.(ballast_arm_kd)) v (s.(ballast_arm_kff_heel)) (s.(ballast_heel_kp)) (s.(ballast_heel_ki)) (s.(ballast_heel_kd)) (s.(ballast_heel_kff_goal)) (s.(nominal_heel)) (s.(rigid_port_servo_pos)) (s.(rigid_starboard_servo_pos)).
Definition set_ballast_arm_kff_heel {D : Type} (v : option D) (s : ControllerConstants D) : ControllerConstants D := MkConstants (s.(max_rudder)) (s.(rudder_kp)) (s.(winch_kp)) (s.(sail_heel_k)) (s.(qf)) (s.(rudder_ki)) (s.(ballast_arm_kp)) (s.(ballast_arm_kd)) (s.(ballast_arm_kff_arm)) v (s.(ballast_heel_kp)) (s.(ballast_heel_ki)) (s.(ballast_heel_kd)) (s.(ballast_heel_kff_goal)) (s.(nominal_heel)) (s.(rigid_port_servo_pos)) (s.(rigid_starboard_servo_pos)).
Definition set_ballast_heel_kp {D : Type} (v : option D) (s : ControllerConstants D) : ControllerConstants D := MkConstants (s.(max_rudder)) (s.(rudder_kp)) (s.(winch_kp)) (s.(sail_heel_k)) (s.(qf)) (s.(rudder_ki)) (s.(ballast_arm_kp)) (s.(ballast_arm_kd)) (s.(ballast_arm_kff_arm)) (s.(ballast_arm_kff_heel)) v (s.(ballast_heel_ki)) (s.(ballast_heel_kd)) (s.(ballast_heel_kff_goal)) (s.(nominal_heel)) (s.(rigid_port_servo_pos)) (s.(rigid_starboard_servo_pos)).
Definition set_ballast_heel_ki {D : Type} (v : option D) (s : ControllerConstants D) : ControllerConstants D := MkConstants (s.(max_rudder)) (s.(rudder_kp)) (s.(winch_kp)) (s.(sail_heel_k)) (s.(qf)) (s.(rudder_ki)) (s.(ballast_arm_kp)) (s.(ballast_arm_kd)) (s.(ballast_arm_kff_arm)) (s.(ballast_arm_kff_heel)) (s.(ballast_heel_kp)) v (s.(ballast_heel_kd)) (s.(ballast_heel_kff_goal)) (s.(nominal_heel)) (s.(rigid_port_servo_pos)) (s.(rigid_starboard_servo_pos)).
Definition set_ballast_heel_kd {D : Type} (v : option D) (s : ControllerConstants D) : ControllerConstants D := MkConstants (s.(max_rudder)) (s.(rudder_kp)) (s.(winch_kp)) (s.(sail_heel_k)) (s.(qf)) (s.(rudder_ki)) (s.(ballast_arm_kp)) (s.(ballast_arm_kd)) (s.(ballast_arm_kff_arm)) (s.(ballast_arm_kff_heel)) (s.(ballast_heel_kp)) (s.(ballast_heel_ki)) v (s.(ballast_heel_kff_goal)) (s.(nominal_heel)) (s.(rigid_port_servo_pos)) (s.(rigid_starboard_servo_pos)).
Definition set_ballast_heel_kff_goal {D : Type} (v : option D) (s : ControllerConstants D) : ControllerConstants D := MkConstants (s.(max_rudder)) (s.(rudder_kp)) (s.(winch_kp)) (s.(sail_heel_k)) (s.(qf)) (s.(rudder_ki)) (s.(ballast_arm_kp)) (s.(ballast_arm_kd)) (s.(ballast_arm_kff_arm)) (s.(ballast_arm_kff_heel)) (s.(ballast_heel_kp)) (s.(ballast_heel_ki)) (s.(ballast_heel_kd)) v (s.(nominal_heel)) (s.(rigid_port_servo_pos)) (s.(rigid_starboard_servo_pos)).
Definition set_nominal_heel {D : Type} (v : option D) (s : ControllerConstants D) : ControllerConstants D := MkConstants (s.(max_rudder)) (s.(rudder_kp)) (s.(winch_kp)) (s.(sail_heel_k)) (s.(qf)) (s.(rudder_ki)) (s.(ballast_arm_kp)) (s.(ballast_arm_kd)) (s.(ballast_arm_kff_arm)) (s.(ballast_arm_kff_heel)) (s.(ballast_heel_kp)) (s.(ballast_heel_ki)) (s.(ballast_heel_kd)) (s.(ballast_heel_kff_goal)) v (s.(rigid_port_servo_pos)) (s.(rigid_starboard_servo_pos)).
Definition set_rigid_port_servo_pos {D : Type} (v : option D) (s : ControllerConstants D) : ControllerConstants D := MkConstants (s.(max_rudder)) (s.(rudder_kp)) (s.(winch_kp)) (s.(sail_heel_k)) (s.(qf)) (s.(rudder_ki)) (s.(ballast_arm_kp)) (s.(ballast_arm_kd)) (s.(ballast_arm_kff_arm)) (s.(ballast_arm_kff_heel)) (s.(ballast_heel_kp)) (s.(ballast_heel_ki)) (s.(ballast_heel_kd)) (s.(ballast_heel_kff_goal)) (s.(nominal_heel)) v (s.(rigid_starboard_servo_pos)).
Definition set_rigid_starboard_servo_pos {D : Type} (v : option D) (s : ControllerConstants D) : ControllerConstants D := MkConstants (s.(max_rudder)) (s.(rudder_kp)) (s.(winch_kp)) (s.(sail_heel_k)) (s.(qf)) (s.(rudder_ki)) (s.(ballast_arm_kp)) (s.(ballast_arm_kd)) (s.(ballast_arm_kff_arm)) (s.(ballast_arm_kff_heel)) (s.(ballast_heel_kp)) (s.(ballast_heel_ki)) (s.(ballast_heel_kd)) (s.(ballast_heel_kff_goal)) (s.(nominal_heel)) (s.(rigid_port_servo_pos)) v.
Definition Constants_clear {D : Type} : ControllerConstants D :=
  MkConstants None None None None None None None None None None None None None None None None None.

Record ZeroingConstants (D : Type) := MkZeroing {
  rudder_zero : option Z;
  winch_0_pot : option Z;
  winch_90_pot : option Z;
  ballast_zero : option D;
  write_constants : option bool;
  winch_out_angle : option D;
}.
Arguments MkZeroing {D}.
Arguments rudder_zero {D} _.
Arguments winch_0_pot {D} _.
Arguments winch_90_pot {D} _.
Arguments ballast_zero {D} _.
Arguments write_constants {D} _.
Arguments winch_out_angle {D} _.
Definition set_rudder_zero {D : Type} (v : option Z) (s : ZeroingConstants D) : ZeroingConstants D := MkZeroing v (s.(winch_0_pot)) (s.(winch_90_pot)) (s.(ballast_zero)) (s.(write_constants)) (s.(winch_out_angle)).
Definition set_winch_0_pot {D : Type} (v : option Z) (s : ZeroingConstants D) : ZeroingConstants D := MkZeroing (s.(rudder_zero)) v (s.(winch_90_pot)) (s.(ballast_zero)) (s.(write_constants)) (s.(winch_out_angle)).
Definition set_winch_90_pot {D : Type} (v : option Z) (s : ZeroingConstants D) : ZeroingConstants D := MkZeroing (s.(rudder_zero)) (s.(winch_0_pot)) v (s.(ballast_zero)) (s.(write_constants)) (s.(winch_out_angle)).
Definition set_ballast_zero {D : Type} (v : option D) (s : ZeroingConstants D) : ZeroingConstants D := MkZeroing (s.(rudder_zero)) (s.(winch_0_pot)) (s.(winch_90_pot)) v (s.(write_constants)) (s.(winch_out_angle)).
Definition set_write_constants {D : Type} (v : option bool) (s : ZeroingConstants D) : ZeroingConstants D := MkZeroing (s.(rudder_zero)) (s.(winch_0_pot)) (s.(winch_90_pot)) (s.(ballast_zero)) v (s.(winch_out_angle)).
Definition set_winch_out_angle {D : Type} (v : option D) (s : ZeroingConstants D) : ZeroingConstants D := MkZeroing (s.(rudder_zero)) (s.(winch_0_pot)) (s.(winch_90_pot)) (s.(ballast_zero)) (s.(write_constants)) v.
Definition Zeroing_clear {D : Type} : ZeroingConstants D := MkZeroing None None None None None None.

Definition has {A : Type} (o : option A) : bool := match o with Some _ => true | None => false end.

Inductive WingState :=
| NO_LIFT | MAX_LIFT_STARBOARD | HEEL_LIMIT_STARBOARD | MAX_LIFT_PORT | HEEL_LIMIT_PORT
| MAX_DRAG_STARBOARD | MAX_DRAG_PORT | WING_MANUAL.

(** The enum values on the wire. *)
Definition WingState_value (w : WingState) : Z :=
  match w with
  | NO_LIFT => 0 | MAX_LIFT_STARBOARD => 1 | HEEL_LIMIT_STARBOARD => 2 | MAX_LIFT_PORT => 3
  | HEEL_LIMIT_PORT => 4 | MAX_DRAG_STARBOARD => 5 | MAX_DRAG_PORT => 6 | WING_MANUAL => 7
  end%Z.

Record RigidWingCmd (D : Type) := MkRigidWingCmd {
  wing_state : option WingState;
  wing_heel : option D;
  wing_max_heel : option D;
  wing_servo_pos : option Z;
}.
Arguments MkRigidWingCmd {D}.
Arguments wing_state {D} _.
Arguments wing_heel {D} _.
Arguments wing_max_heel {D} _.
Arguments wing_servo_pos {D} _.
Definition set_wing_state {D : Type} (v : option WingState) (s : RigidWingCmd D) : RigidWingCmd D := MkRigidWingCmd v (s.(wing_heel)) (s.(wing_max_heel)) (s.(wing_servo_pos)).
Definition set_wing_heel {D : Type} (v : option D) (s : RigidWingCmd D) : RigidWingCmd D := MkRigidWingCmd (s.(wing_state)) v (s.(wing_max_heel)) (s.(wing_servo_pos)).
Definition set_wing_max_heel {D : Type} (v : option D) (s : RigidWingCmd D) : RigidWingCmd D := MkRigidWingCmd (s.(wing_state)) (s.(wing_heel)) v (s.(wing_servo_pos)).
Definition set_wing_servo_pos {D : Type} (v : option Z) (s : RigidWingCmd D) : RigidWingCmd D := MkRigidWingCmd (s.(wing_state)) (s.(wing_heel)) (s.(wing_max_heel)) v.

Record RigidWingFeedback (D : Type) := MkFeedback {
  angle_of_attack : option D;
  fb_servo_pos : option Z;
  battery : option D;
}.
Arguments MkFeedback {D}.
Arguments angle_of_attack {D} _.
Arguments fb_servo_pos {D} _.
Arguments battery {D} _.
Definition set_angle_of_attack {D : Type} (v : option D) (s : RigidWingFeedback D) : RigidWingFeedback D := MkFeedback v (s.(fb_servo_pos)) (s.(battery)).
Definition set_fb_servo_pos {D : Type} (v : option Z) (s : RigidWingFeedback D) : RigidWingFeedback D := MkFeedback (s.(angle_of_attack)) v (s.(battery)).
Definition set_battery {D : Type} (v : option D) (s : RigidWingFeedback D) : RigidWingFeedback D := MkFeedback (s.(angle_of_attack)) (s.(fb_servo_pos)) v.
Definition Feedback_clear {D : Type} : RigidWingFeedback D := MkFeedback None None None.
