(* ===== verification/WaypointManager.v ===== *)
(** * The waypoint manager

    src/control/waypoint_manager.cc and .h: the node that turns challenge selections,
    the radio, the tacker and the vision system into control modes and heading
    commands.  Its state machines (station keeping, vision search, obstacle
    avoidance) are a step function on [WM], one event at a time; [out] is the log of
    the messages sent. *)

From Stdlib Require Import ZArith Lia Floats.
From stdpp Require Import base list.
From S2P Require Import Prelude Num NumF Vec Util Messages.

#[local] Open Scope Z_scope.

Definition kVisionConfidenceThreshold : Z := 250.
Definition kVisionFoundThreshold : Z := 700.
Definition kVisionObstacleThreshold : Z := 200.

Inductive StationStates := GOTO_START | WAIT | BACK | FORTH | LEAVE.
Inductive VisionStates := FOLLOW_WAYPOINTS | FOLLOW_VISION.
Inductive ObstacleState := OBS_WAYPOINT | AVOID.

(** A message sent on one of the node's queues. *)
Inductive Out (D : Type) :=
| OutControlMode (m : ControlMode)
| OutHeading (m : HeadingCmd D)
| OutSearch (s : SearchSTATE).
Arguments OutControlMode {D} _.
Arguments OutHeading {D} _.
Arguments OutSearch {D} _.

Record WM (D : Type) := MkWM {
  tacker_done_ : bool;
  last_waypoint_ : Z;
  last_sbus_manual_ : bool;
  near_waypoint_ : bool;
  upwind_dir_ : D;
  vision_confidence_ : Z;
  obs_cnt_ : Z;
  vision_abs_heading_ : D;
  boat_yaw_ : D;
  initial_avoid_diff_heading_ : D;
  station_keep_state_ : StationStates;
  vision_state_ : VisionStates;
  obstacle_state_ : ObstacleState;
  station_keep_end_ : Z;
  mode_ : ChallengeType;
  control_mode_msg_ : ControlMode;
  search_state_msg_ : SearchSTATE;
  heading_cmd_msg_ : HeadingCmd D;
  out : list (Out D);
}.
Arguments MkWM {D}.
Arguments tacker_done_ {D} _.
Arguments last_waypoint_ {D} _.
Arguments last_sbus_manual_ {D} _.
Arguments near_waypoint_ {D} _.
Arguments upwind_dir_ {D} _.
Arguments vision_confidence_ {D} _.
Arguments obs_cnt_ {D} _.
Arguments vision_abs_heading_ {D} _.
Arguments boat_yaw_ {D} _.
Arguments initial_avoid_diff_heading_ {D} _.
Arguments station_keep_state_ {D} _.
Arguments vision_state_ {D} _.
Arguments obstacle_state_ {D} _.
Arguments station_keep_end_ {D} _.
Arguments mode_ {D} _.
Arguments control_mode_msg_ {D} _.
Arguments search_state_msg_ {D} _.
Arguments heading_cmd_msg_ {D} _.
Arguments out {D} _.
Definition set_tacker_done_ {D : Type} (v : bool) (s : WM D) : WM D := MkWM v (s.(last_waypoint_)) (s.(last_sbus_manual_)) (s.(near_waypoint_)) (s.(upwind_dir_)) (s.(vision_confidence_)) (s.(obs_cnt_)) (s.(vision_abs_heading_)) (s.(boat_yaw_)) (s.(initial_avoid_diff_heading_)) (s.(station_keep_state_)) (s.(vision_state_)) (s.(obstacle_state_)) (s.(station_keep_end_)) (s.(mode_)) (s.(control_mode_msg_)) (s.(search_state_msg_)) (s.(heading_cmd_msg_)) (s.(out)).
Definition set_last_waypoint_ {D : Type} (v : Z) (s : WM D) : WM D := MkWM (s.(tacker_done_)) v (s.(last_sbus_manual_)) (s.(near_waypoint_)) (s.(upwind_dir_)) (s.(vision_confidence_)) (s.(obs_cnt_)) (s.(vision_abs_heading_)) (s.(boat_yaw_)) (s.(initial_avoid_diff_heading_)) (s.(station_keep_state_)) (s.(vision_state_)) (s.(obstacle_state_)) (s.(station_keep_end_)) (s.(mode_)) (s.(control_mode_msg_)) (s.(search_state_msg_)) (s.(heading_cmd_msg_)) (s.(out)).
Definition set_last_sbus_manual_ {D : Type} (v : bool) (s : WM D) : WM D := MkWM (s.(tacker_done_)) (s.(last_waypoint_)) v (s.(near_waypoint_)) (s.(upwind_dir_)) (s.(vision_confidence_)) (s.(obs_cnt_)) (s.(vision_abs_heading_)) (s.(boat_yaw_)) (s.(initial_avoid_diff_heading_)) (s.(station_keep_state_)) (s.(vision_state_)) (s.(obstacle_state_)) (s.(station_keep_end_)) (s.(mode_)) (s.(control_mode_msg_)) (s.(search_state_msg_)) (s.(heading_cmd_msg_)) (s.(out)).
Definition set_near_waypoint_ {D : Type} (v : bool) (s : WM D) : WM D := MkWM (s.(tacker_done_)) (s.(last_waypoint_)) (s.(last_sbus_manual_)) v (s.(upwind_dir_)) (s.(vision_confidence_)) (s.(obs_cnt_)) (s.(vision_abs_heading_)) (s.(boat_yaw_)) (s.(initial_avoid_diff_heading_)) (s.(station_keep_state_)) (s.(vision_state_)) (s.(obstacle_state_)) (s.(station_keep_end_)) (s.(mode_)) (s.(control_mode_msg_)) (s.(search_state_msg_)) (s.(heading_cmd_msg_)) (s.(out)).
Definition set_upwind_dir_ {D : Type} (v : D) (s : WM D) : WM D := MkWM (s.(tacker_done_)) (s.(last_waypoint_)) (s.(last_sbus_manual_)) (s.(near_waypoint_)) v (s.(vision_confidence_)) (s.(obs_cnt_)) (s.(vision_abs_heading_)) (s.(boat_yaw_)) (s.(initial_avoid_diff_heading_)) (s.(station_keep_state_)) (s.(vision_state_)) (s.(obstacle_state_)) (s.(station_keep_end_)) (s.(mode_)) (s.(control_mode_msg_)) (s.(search_state_msg_)) (s.(heading_cmd_msg_)) (s.(out)).
Definition set_vision_confidence_ {D : Type} (v : Z) (s : WM D) : WM D := MkWM (s.(tacker_done_)) (s.(last_waypoint_)) (s.(last_sbus_manual_)) (s.(near_waypoint_)) (s.(upwind_dir_)) v (s.(obs_cnt_)) (s.(vision_abs_heading_)) (s.(boat_yaw_)) (s.(initial_avoid_diff_heading_)) (s.(station_keep_state_)) (s.(vision_state_)) (s.(obstacle_state_)) (s.(station_keep_end_)) (s.(mode_)) (s.(control_mode_msg_)) (s.(search_state_msg_)) (s.(heading_cmd_msg_)) (s.(out)).
Definition set_obs_cnt_ {D : Type} (v : Z) (s : WM D) : WM D := MkWM (s.(tacker_done_)) (s.(last_waypoint_)) (s.(last_sbus_manual_)) (s.(near_waypoint_)) (s.(upwind_dir_)) (s.(vision_confidence_)) v (s.(vision_abs_heading_)) (s.(boat_yaw_)) (s.(initial_avoid_diff_heading_)) (s.(station_keep_state_)) (s.(vision_state_)) (s.(obstacle_state_)) (s.(station_keep_end_)) (s.(mode_)) (s.(control_mode_msg_)) (s.(search_state_msg_)) (s.(heading_cmd_msg_)) (s.(out)).
Definition set_vision_abs_heading_ {D : Type} (v : D) (s : WM D) : WM D := MkWM (s.(tacker_done_)) (s.(last_waypoint_)) (s.(last_sbus_manual_)) (s.(near_waypoint_)) (s.(upwind_dir_)) (s.(vision_confidence_)) (s.(obs_cnt_)) v (s.(boat_yaw_)) (s.(initial_avoid_diff_heading_)) (s.(station_keep_state_)) (s.(vision_state_)) (s.(obstacle_state_)) (s.(station_keep_end_)) (s.(mode_)) (s.(control_mode_msg_)) (s.(search_state_msg_)) (s.(heading_cmd_msg_)) (s.(out)).
Definition set_boat_yaw_ {D : Type} (v : D) (s : WM D) : WM D := MkWM (s.(tacker_done_)) (s.(last_waypoint_)) (s.(last_sbus_manual_)) (s.(near_waypoint_)) (s.(upwind_dir_)) (s.(vision_confidence_)) (s.(obs_cnt_)) (s.(vision_abs_heading_)) v (s.(initial_avoid_diff_heading_)) (s.(station_keep_state_)) (s.(vision_state_)) (s.(obstacle_state_)) (s.(station_keep_end_)) (s.(mode_)) (s.(control_mode_msg_)) (s.(search_state_msg_)) (s.(heading_cmd_msg_)) (s.(out)).
Definition set_initial_avoid_diff_heading_ {D : Type} (v : D) (s : WM D) : WM D := MkWM (s.(tacker_done_)) (s.(last_waypoint_)) (s.(last_sbus_manual_)) (s.(near_waypoint_)) (s.(upwind_dir_)) (s.(vision_confidence_)) (s.(obs_cnt_)) (s.(vision_abs_heading_)) (s.(boat_yaw_)) v (s.(station_keep_state_)) (s.(vision_state_)) (s.(obstacle_state_)) (s.(station_keep_end_)) (s.(mode_)) (s.(control_mode_msg_)) (s.(search_state_msg_)) (s.(heading_cmd_msg_)) (s.(out)).
Definition set_station_keep_state_ {D : Type} (v : StationStates) (s : WM D) : WM D := MkWM (s.(tacker_done_)) (s.(last_waypoint_)) (s.(last_sbus_manual_)) (s.(near_waypoint_)) (s.(upwind_dir_)) (s.(vision_confidence_)) (s.(obs_cnt_)) (s.(vision_abs_heading_)) (s.(boat_yaw_)) (s.(initial_avoid_diff_heading_)) v (s.(vision_state_)) (s.(obstacle_state_)) (s.(station_keep_end_)) (s.(mode_)) (s.(control_mode_msg_)) (s.(search_state_msg_)) (s.(heading_cmd_msg_)) (s.(out)).
Definition set_vision_state_ {D : Type} (v : VisionStates) (s : WM D) : WM D := MkWM (s.(tacker_done_)) (s.(last_waypoint_)) (s.(last_sbus_manual_)) (s.(near_waypoint_)) (s.(upwind_dir_)) (s.(vision_confidence_)) (s.(obs_cnt_)) (s.(vision_abs_heading_)) (s.(boat_yaw_)) (s.(initial_avoid_diff_heading_)) (s.(station_keep_state_)) v (s.(obstacle_state_)) (s.(station_keep_end_)) (s.(mode_)) (s.(control_mode_msg_)) (s.(search_state_msg_)) (s.(heading_cmd_msg_)) (s.(out)).
Definition set_obstacle_state_ {D : Type} (v : ObstacleState) (s : WM D) : WM D := MkWM (s.(tacker_done_)) (s.(last_waypoint_)) (s.(last_sbus_manual_)) (s.(near_waypoint_)) (s.(upwind_dir_)) (s.(vision_confidence_)) (s.(obs_cnt_)) (s.(vision_abs_heading_)) (s.(boat_yaw_)) (s.(initial_avoid_diff_heading_)) (s.(station_keep_state_)) (s.(vision_state_)) v (s.(station_keep_end_)) (s.(mode_)) (s.(control_mode_msg_)) (s.(search_state_msg_)) (s.(heading_cmd_msg_)) (s.(out)).
Definition set_station_keep_end_ {D : Type} (v : Z) (s : WM D) : WM D := MkWM (s.(tacker_done_)) (s.(last_waypoint_)) (s.(last_sbus_manual_)) (s.(near_waypoint_)) (s.(upwind_dir_)) (s.(vision_confidence_)) (s.(obs_cnt_)) (s.(vision_abs_heading_)) (s.(boat_yaw_)) (s.(initial_avoid_diff_heading_)) (s.(station_keep_state_)) (s.(vision_state_)) (s.(obstacle_state_)) v (s.(mode_)) (s.(control_mode_msg_)) (s.(search_state_msg_)) (s.(heading_cmd_msg_)) (s.(out)).
Definition set_mode_ {D : Type} (v : ChallengeType) (s : WM D) : WM D := MkWM (s.(tacker_done_)) (s.(last_waypoint_)) (s.(last_sbus_manual_)) (s.(near_waypoint_)) (s.(upwind_dir_)) (s.(vision_confidence_)) (s.(obs_cnt_)) (s.(vision_abs_heading_)) (s.(boat_yaw_)) (s.(initial_avoid_diff_heading_)) (s.(station_keep_state_)) (s.(vision_state_)) (s.(obstacle_state_)) (s.(station_keep_end_)) v (s.(control_mode_msg_)) (s.(search_state_msg_)) (s.(heading_cmd_msg_)) (s.(out)).
Definition set_control_mode_msg_ {D : Type} (v : ControlMode) (s : WM D) : WM D := MkWM (s.(tacker_done_)) (s.(last_waypoint_)) (s.(last_sbus_manual_)) (s.(near_waypoint_)) (s.(upwind_dir_)) (s.(vision_confidence_)) (s.(obs_cnt_)) (s.(vision_abs_heading_)) (s.(boat_yaw_)) (s.(initial_avoid_diff_heading_)) (s.(station_keep_state_)) (s.(vision_state_)) (s.(obstacle_state_)) (s.(station_keep_end_)) (s.(mode_)) v (s.(search_state_msg_)) (s.(heading_cmd_msg_)) (s.(out)).
Definition set_search_state_msg_ {D : Type} (v : SearchSTATE) (s : WM D) : WM D := MkWM (s.(tacker_done_)) (s.(last_waypoint_)) (s.(last_sbus_manual_)) (s.(near_waypoint_)) (s.(upwind_dir_)) (s.(vision_confidence_)) (s.(obs_cnt_)) (s.(vision_abs_heading_)) (s.(boat_yaw_)) (s.(initial_avoid_diff_heading_)) (s.(station_keep_state_)) (s.(vision_state_)) (s.(obstacle_state_)) (s.(station_keep_end_)) (s.(mode_)) (s.(control_mode_msg_)) v (s.(heading_cmd_msg_)) (s.(out)).
Definition set_heading_cmd_msg_ {D : Type} (v : HeadingCmd D) (s : WM D) : WM D := MkWM (s.(tacker_done_)) (s.(last_waypoint_)) (s.(last_sbus_manual_)) (s.(near_waypoint_)) (s.(upwind_dir_)) (s.(vision_confidence_)) (s.(obs_cnt_)) (s.(vision_abs_heading_)) (s.(boat_yaw_)) (s.(initial_avoid_diff_heading_)) (s.(station_keep_state_)) (s.(vision_state_)) (s.(obstacle_state_)) (s.(station_keep_end_)) (s.(mode_)) (s.(control_mode_msg_)) (s.(search_state_msg_)) v (s.(out)).
Definition set_out {D : Type} (v : list (Out D)) (s : WM D) : WM D := MkWM (s.(tacker_done_)) (s.(last_waypoint_)) (s.(last_sbus_manual_)) (s.(near_waypoint_)) (s.(upwind_dir_)) (s.(vision_confidence_)) (s.(obs_cnt_)) (s.(vision_abs_heading_)) (s.(boat_yaw_)) (s.(initial_avoid_diff_heading_)) (s.(station_keep_state_)) (s.(vision_state_)) (s.(obstacle_state_)) (s.(station_keep_end_)) (s.(mode_)) (s.(control_mode_msg_)) (s.(search_state_msg_)) (s.(heading_cmd_msg_)) v.

(** Sending appends the current contents of the message. *)
Definition send {D : Type} (o : Out D) (s : WM D) : WM D := set_out (out s ++ [o]) s.
Definition send_control_mode {D : Type} (s : WM D) : WM D := send (OutControlMode (control_mode_msg_ s)) s.
Definition send_heading {D : Type} (s : WM D) : WM D := send (OutHeading (heading_cmd_msg_ s)) s.
Definition send_search {D : Type} (s : WM D) : WM D := send (OutSearch (search_state_msg_ s)) s.

(** Updates of the messages under construction. *)
Definition on_mode {D : Type} (f : ControlMode -> ControlMode) (s : WM D) : WM D :=
  set_control_mode_msg_ (f (control_mode_msg_ s)) s.
Definition on_heading {D : Type} (f : HeadingCmd D -> HeadingCmd D) (s : WM D) : WM D :=
  set_heading_cmd_msg_ (f (heading_cmd_msg_ s)) s.

(** Nanoseconds. *)
Definition seconds (n : Z) : Z := n * 1000000000.

#[local] Notation "s |> f" := (f s) (at level 50, left associativity, only parsing).

Section Node.
Context {D : Type} {ND : Num D}.

(** The members' initial values; [t] is the time of construction. *)
Definition WM_init (t : Z) : WM D :=
  MkWM false 0 false false (nofZ 0) 0 0 (nofZ 0) (nofZ 0) (nofZ 0)
    GOTO_START FOLLOW_WAYPOINTS OBS_WAYPOINT t CHALLENGE_WAYPOINT
    ControlMode_clear NO_TARGET HeadingCmd_clear []
  |> send_search.

(** ** Message handlers *)

Definition set_rudder_winch (m : MODE) (c : ControlMode) : ControlMode :=
  set_winch_mode (Some m) (set_rudder_mode (Some m) c).

Definition handle_sbus (channel : list Z) (s : WM D) : WM D :=
  if (3 <=? length channel)%nat then
    let s := on_mode (λ _, ControlMode_clear) s in
    let ch2 := nth 2 channel 0 in
    let cur_sbus_manual := ch2 <? 1000 in
    if ((ch2 <? 800) || (1200 <? ch2)) && negb (eqb cur_sbus_manual (last_sbus_manual_ s)) then
      on_mode (set_rudder_winch (if cur_sbus_manual then FILTERED_RC else AUTO)) s
      |> send_control_mode |> set_last_sbus_manual_ cur_sbus_manual
    else s
  else s.

Definition handle_tacker_state (t : TackerState) (s : WM D) : WM D :=
  s |> set_tacker_done_ (done t) |> set_last_waypoint_ (last_waypoint t)
    |> set_near_waypoint_ (near_waypoint t).

(** The control modes of every challenge: autonomous, with the line planner. *)
Definition set_autonomous (c : ControlMode) : ControlMode :=
  set_tacker (Some LINE_PLAN) (set_rudder_winch AUTO c).

Definition handle_challenge_control (challenge : option ChallengeType) (s : WM D) : WM D :=
  let s := on_heading (set_extra_sail (Some (nofZ 0))) s |> send_heading in
  match challenge with
  | None => s
  | Some c =>
      let s := set_mode_ c s in
      match c with
      | STATION_KEEP =>
          s |> set_station_keep_state_ GOTO_START |> on_mode set_autonomous |> send_control_mode
      | CHALLENGE_WAYPOINT => s |> on_mode set_autonomous
      | VISION =>
          s |> set_vision_state_ FOLLOW_WAYPOINTS |> on_mode set_autonomous |> send_control_mode
      | OBSTACLE =>
          s |> set_obstacle_state_ OBS_WAYPOINT |> on_mode set_autonomous |> send_control_mode
      end
  end.

Definition handle_true_wind (w : vec3 D) (s : WM D) : WM D :=
  set_upwind_dir_ (nfloat (natan2 (nopp (v3y w)) (nopp (v3x w)))) s.

Definition handle_vision_data (h conf : option D) (s : WM D) : WM D :=
  match h, conf with
  | Some h, Some conf =>
      s |> set_vision_abs_heading_ (nfloat (norm_angle (nfloat (nadd h (boat_yaw_ s)))))
        |> set_vision_confidence_ (nint conf)
  | _, _ => s
  end.

Definition handle_boat_state (b : BoatState D) (s : WM D) : WM D :=
  set_boat_yaw_ (v3z (euler b)) s.

(** ** The state machines *)

Definition clear_mode : WM D -> WM D := on_mode (λ _, ControlMode_clear).
Definition clear_heading : WM D -> WM D := on_heading (λ _, HeadingCmd_clear).

(** The heading the boat holds against the wind, with the sail out. *)
Definition hold_upwind (s : WM D) : WM D :=
  s |> on_heading (set_heading (Some (nfloat (nadd (upwind_dir_ s) (ndiv (nmul (nofZ 0) npi) (nofZ 8))))))
    |> on_heading (set_extra_sail (Some (dec 15 1))) |> send_heading |> clear_heading.

(** [t1] and [t2] are what the first and the second call of [Time()] return. *)
Definition DoStationKeep (t1 t2 : Z) (s : WM D) : WM D :=
  match station_keep_state_ s with
  | GOTO_START =>
      if tacker_done_ s then
        s |> set_station_keep_end_ (t1 + seconds 280) |> set_station_keep_state_ WAIT
          |> clear_mode |> on_mode (set_tacker (Some DISABLED)) |> send_control_mode
      else s
  | WAIT =>
      let s := hold_upwind s in
      if station_keep_end_ s <? t1 then
        s |> set_station_keep_state_ LEAVE |> set_station_keep_end_ (t2 + seconds 20)
          |> on_mode (set_tacker (Some DISABLED)) |> send_control_mode
      else s
  | BACK =>
      let s := s |> on_heading (set_extra_sail (Some (nofZ 0)))
        |> on_heading (set_heading (Some (nfloat (norm_angle (nsub (upwind_dir_ s) (nmul npi (dec 5 1)))))))
        |> send_heading in
      if station_keep_end_ s <? t1 then
        s |> set_station_keep_state_ LEAVE |> set_station_keep_end_ (t2 + seconds 90)
      else s
  | FORTH =>
      let s := s |> on_heading (set_heading (Some (nfloat (nadd (upwind_dir_ s) (ndiv npi (nofZ 8))))))
        |> on_heading (set_extra_sail (Some (dec 15 1))) |> send_heading |> clear_heading in
      if station_keep_end_ s <? t1 then set_station_keep_state_ LEAVE s else s
  | LEAVE =>
      s |> on_heading (set_extra_sail (Some (nofZ 0)))
        |> on_heading (set_heading (Some (nfloat (norm_angle (nadd (upwind_dir_ s) (nmul npi (dec 75 2)))))))
        |> send_heading
  end.

Definition DoVisionSearch (s : WM D) : WM D :=
  match vision_state_ s with
  | FOLLOW_WAYPOINTS =>
      let s := set_search_state_msg_ NO_TARGET s in
      let s :=
        if (tacker_done_ s || (1 <=? last_waypoint_ s))
           && (kVisionConfidenceThreshold <? vision_confidence_ s) then
          s |> set_search_state_msg_ GOING_TO_BUOY |> clear_mode
            |> on_mode (set_tacker (Some DISABLED)) |> send_control_mode
            |> set_vision_state_ FOLLOW_VISION
        else s in
      send_search s
  | FOLLOW_VISION =>
      let s := s |> on_heading (set_heading (Some (vision_abs_heading_ s))) |> send_heading in
      let s :=
        if kVisionFoundThreshold <? vision_confidence_ s then
          s |> set_search_state_msg_ AT_BUOY |> hold_upwind
            |> on_mode (set_tacker (Some DISABLED)) |> send_control_mode
        else if vision_confidence_ s <? kVisionConfidenceThreshold then
          s |> clear_mode |> on_mode (set_tacker (Some LINE_PLAN)) |> send_control_mode
        else s in
      send_search s
  end.

Definition DoObstacleAvoid (s : WM D) : WM D :=
  match obstacle_state_ s with
  | OBS_WAYPOINT =>
      if negb (near_waypoint_ s) && (kVisionObstacleThreshold <? vision_confidence_ s) then
        let diff := norm_angle (nfloat (nsub (vision_abs_heading_ s) (boat_yaw_ s))) in
        let side := if nltb (nofZ 0) diff then nofZ 1 else nopp (nofZ 1) in
        s |> set_obs_cnt_ 0 |> clear_mode |> on_mode (set_tacker (Some DISABLED)) |> send_control_mode
          |> set_initial_avoid_diff_heading_ (nfloat (nmul (ndiv npi (nofZ 2)) side))
          |> set_obstacle_state_ AVOID
      else s
  | AVOID =>
      let s := set_obs_cnt_ (wraps 32 (obs_cnt_ s + 1)) s in
      let s := s |> on_heading (set_heading (Some (nfloat (norm_angle
                      (nfloat (nadd (initial_avoid_diff_heading_ s) (boat_yaw_ s))))))) |> send_heading in
      if (50 <? obs_cnt_ s) && (vision_confidence_ s <? kVisionObstacleThreshold) then
        s |> clear_mode |> on_mode (set_tacker (Some LINE_PLAN)) |> send_control_mode
          |> set_obstacle_state_ OBS_WAYPOINT
      else s
  end.

Definition Iterate (t1 t2 : Z) (s : WM D) : WM D :=
  match mode_ s with
  | STATION_KEEP => DoStationKeep t1 t2 s
  | CHALLENGE_WAYPOINT => s
  | VISION => DoVisionSearch s
  | OBSTACLE => DoObstacleAvoid s
  end.

(** ** Events *)

Inductive Event :=
| EvSbus (channel : list Z)
| EvTacker (t : TackerState)
| EvChallenge (c : option ChallengeType)
| EvTrueWind (w : vec3 D)
| EvVision (h conf : option D)
| EvBoatState (b : BoatState D)
| EvIterate (t1 t2 : Z).

(** Each handler runs to completion before the next event. *)
Definition step (e : Event) : WM D -> WM D :=
  match e with
  | EvSbus ch => handle_sbus ch
  | EvTacker t => handle_tacker_state t
  | EvChallenge c => handle_challenge_control c
  | EvTrueWind w => handle_true_wind w
  | EvVision h c => handle_vision_data h c
  | EvBoatState b => handle_boat_state b
  | EvIterate t1 t2 => Iterate t1 t2
  end.

Definition run (evs : list Event) (s : WM D) : WM D := fold_left (λ s e, step e s) evs s.

End Node.
Arguments Event : clear implicits.

(** ** Theory *)

Section Theory.
Context {D : Type} {ND : Num D}.
Implicit Types (s : WM D) (e : Event D).

(** Events other than a new challenge. *)
Definition no_challenge e : bool :=
  match e with EvChallenge (Some _) => false | _ => true end.

Definition is_iterate e : bool := match e with EvIterate _ _ => true | _ => false end.

(** Unfolds a step to the fields it sets, by cases on the tests it makes. *)
Ltac step_cases :=
  repeat match goal with
  | |- context [if ?b then _ else _] => destruct b eqn:?; simpl
  | |- context [match ?x with Some _ => _ | None => _ end] => destruct x; simpl
  end.

(** An event other than [Iterate] or a challenge leaves the state machines alone. *)
Lemma step_quiet e s :
  no_challenge e = true -> is_iterate e = false ->
  mode_ (step e s) = mode_ s
  ∧ station_keep_state_ (step e s) = station_keep_state_ s
  ∧ station_keep_end_ (step e s) = station_keep_end_ s
  ∧ obstacle_state_ (step e s) = obstacle_state_ s ∧ obs_cnt_ (step e s) = obs_cnt_ s.
Proof.
  intros Hc Hi. destruct e as [ch|t|[c|]|w|h c|b|t1 t2]; try done.
  - simpl. unfold handle_sbus. by step_cases.
  - simpl. unfold handle_vision_data. by destruct h, c.
Qed.

Lemma run_app evs evs' s : run (evs ++ evs') s = run evs' (run evs s).
Proof. apply fold_left_app. Qed.

(** *** Station keeping *)

(** Waiting on station until time [deadline]. *)
Definition waiting (deadline : Z) s : Prop :=
  mode_ s = STATION_KEEP ∧ station_keep_state_ s = WAIT ∧ station_keep_end_ s = deadline.

(** Events that do not end the wait. *)
Definition keeps_waiting (deadline : Z) e : bool :=
  no_challenge e && match e with EvIterate t1 _ => t1 <=? deadline | _ => true end.

Lemma waiting_step deadline e s :
  keeps_waiting deadline e = true -> waiting deadline s -> waiting deadline (step e s).
Proof.
  unfold keeps_waiting, waiting. intros [Hc Ht]%andb_true_iff (Hm & Hs & He).
  destruct (is_iterate e) eqn:Ei.
  - destruct e as [| | | | | |t1 t2]; try done. simpl. unfold Iterate, DoStationKeep.
    rewrite Hm, Hs. simpl. rewrite He. destruct (Z.ltb_spec deadline t1); [lia|done].
  - destruct (step_quiet e s Hc Ei) as (-> & -> & -> & _). done.
Qed.

Lemma waiting_run deadline evs : ∀ s,
  forallb (keeps_waiting deadline) evs = true -> waiting deadline s -> waiting deadline (run evs s).
Proof.
  induction evs as [|e evs IH]; intros s; simpl; [done|].
  intros [He Hevs]%andb_true_iff Hw. apply IH; [done|]. by apply waiting_step.
Qed.

(** C30: Once the boat reaches its station, it holds it for 280 seconds: whatever messages
    arrive and however often the node runs before the deadline, it stays in [WAIT]
    unless a new challenge is selected, and the first iteration after the deadline
    leaves. *)
Theorem station_keep_holds (s : WM D) (t t2 : Z) (evs : list (Event D)) :
  mode_ s = STATION_KEEP -> station_keep_state_ s = GOTO_START -> tacker_done_ s = true ->
  forallb (keeps_waiting (t + seconds 280)) evs = true ->
  let s' := run evs (Iterate t t2 s) in
  station_keep_state_ s' = WAIT
  ∧ ∀ t1' t2', t + seconds 280 < t1' -> station_keep_state_ (Iterate t1' t2' s') = LEAVE.
Proof.
  intros Hm Hs Hd He.
  destruct (waiting_run (t + seconds 280) evs (Iterate t t2 s) He) as (Hm' & Hs' & He').
  { unfold Iterate, DoStationKeep, waiting. rewrite Hm, Hs, Hd. done. }
  cbv zeta. revert Hm' Hs' He'. generalize (run evs (Iterate t t2 s)). intros s' Hm' Hs' He'.
  split; [done|]. intros t1' t2' Ht. unfold Iterate, DoStationKeep. rewrite Hm', Hs'. simpl.
  rewrite He'. destruct (Z.ltb_spec (t + seconds 280) t1'); [done|lia].
Qed.

(** *** Obstacle avoidance *)

Definition avoiding (n : Z) s : Prop :=
  mode_ s = OBSTACLE ∧ obstacle_state_ s = AVOID ∧ obs_cnt_ s = n.

Definition iterations (evs : list (Event D)) : Z :=
  Z.of_nat (length (List.filter is_iterate evs)).

Lemma avoiding_run evs : ∀ s n,
  forallb no_challenge evs = true -> 0 <= n -> n + iterations evs <= 50 ->
  avoiding n s -> avoiding (n + iterations evs) (run evs s).
Proof.
  induction evs as [|e evs IH]; intros s n; [unfold iterations; simpl; by rewrite Z.add_0_r|].
  simpl. intros [He Hevs]%andb_true_iff Hn Hle (Hm & Ho & Hc).
  destruct (is_iterate e) eqn:Ei.
  - assert (iterations (e :: evs) = 1 + iterations evs) as E.
    { unfold iterations. simpl. rewrite Ei. simpl length. lia. }
    assert (0 <= iterations evs) by (unfold iterations; lia).
    rewrite E, Z.add_assoc. apply IH; try lia; [done|].
    destruct e as [| | | | | |t1 t2]; try done. simpl. unfold Iterate, DoObstacleAvoid.
    rewrite Hm, Ho. cbv zeta. simpl. rewrite Hc, wraps_small by lia.
    destruct (Z.ltb_spec 50 (n + 1)); [lia|]. done.
  - assert (iterations (e :: evs) = iterations evs) as E by (unfold iterations; simpl; by rewrite Ei).
    rewrite E in *. apply IH; try done.
    destruct (step_quiet e s He Ei) as (E1 & _ & _ & E2 & E3). unfold avoiding. by rewrite E1, E2, E3.
Qed.


(** *** The radio switch *)

Definition sent_modes (l : list (Out D)) : list MODE :=
  omap (λ o, match o with OutControlMode m => rudder_mode m | _ => None end) l.

(** [FILTERED_RC], [AUTO], [FILTERED_RC], ... *)
Definition alternating (n : nat) : list MODE :=
  map (λ k, if Nat.even k then FILTERED_RC else AUTO) (seq 0 n).

Lemma handle_sbus_alternates ch s n :
  sent_modes (out s) = alternating n -> last_sbus_manual_ s = Nat.odd n ->
  ∃ m, sent_modes (out (handle_sbus ch s)) = alternating m
    ∧ last_sbus_manual_ (handle_sbus ch s) = Nat.odd m.
Proof.
  intros Ho Hl. unfold handle_sbus. destruct (3 <=? length ch)%nat; [|by exists n].
  cbv zeta. destruct (_ && negb _) eqn:E; [|by exists n].
  apply andb_true_iff in E as [_ E]. simpl in E. rewrite Hl in E.
  exists (S n). simpl. unfold sent_modes in *. rewrite omap_app, Ho. simpl.
  unfold alternating. rewrite seq_S, map_app. simpl.
  rewrite Nat.odd_succ, <- Nat.negb_odd.
  destruct (nth 2 ch 0 <? 1000), (Nat.odd n); done.
Qed.

(** The radio's mode switch is edge-triggered: whatever channel values arrive, the modes
    the node sends for them alternate between [FILTERED_RC] and [AUTO], beginning with
    [FILTERED_RC]. *)
Theorem sbus_modes_alternate (t : Z) (chs : list (list Z)) :
  ∃ n, sent_modes (out (run (map EvSbus chs) (WM_init t))) = alternating n
    ∧ last_sbus_manual_ (run (map EvSbus chs) (WM_init t)) = Nat.odd n.
Proof.
  assert (∀ s n, sent_modes (out s) = alternating n -> last_sbus_manual_ s = Nat.odd n ->
    ∃ m, sent_modes (out (run (map EvSbus chs) s)) = alternating m
      ∧ last_sbus_manual_ (run (map EvSbus chs) s) = Nat.odd m) as H.
  { induction chs as [|ch chs IH]; intros s n Ho Hl; [by exists n|].
    destruct (handle_sbus_alternates ch s n Ho Hl) as (m & Ho' & Hl').
    exact (IH (handle_sbus ch s) m Ho' Hl'). }
  by apply (H (WM_init t) 0%nat).
Qed.
End Theory.

(** ** Concrete runs *)

Section Examples.
#[local] Instance wm_num : Num PrimFloat.float := num_poly.

Definition at_station : WM PrimFloat.float :=
  run [EvChallenge (Some STATION_KEEP); EvTacker (MkTackerState true 3 true)] (WM_init 0).

Definition buoy_ahead : WM PrimFloat.float :=
  set_vision_confidence_ 300 (run [EvChallenge (Some OBSTACLE)] (WM_init 0)).

Lemma station_keep_holds_witness :
  station_keep_state_ (run [EvIterate 5 5; EvSbus [0; 0; 100]; EvIterate (seconds 280) (seconds 280)]
                         (Iterate 0 0 at_station)) = WAIT.
Proof.
  refine (proj1 (station_keep_holds at_station 0 0
    [EvIterate 5 5; EvSbus [0; 0; 100]; EvIterate (seconds 280) (seconds 280)] _ _ _ _)); reflexivity.
Defined.

End Examples.
