(* ===== verification/Ballast.v ===== *)
(** * Ballast control

    src/control/ballast.cc and ballast.h: the cascaded controller from the heel error to
    the voltage of the ballast motor.  [ballast_out] is the log of sent messages.  The handlers
    share single atomic members with the iteration, without a lock: they are here functions on the
    state, and bodies of threads that interleave at each access. *)

From Stdlib Require Import ZArith Lia Reals Lra Psatz.
From stdpp Require Import base list relations.
From S2P Require Import Prelude Threads Num NumR Vec Util Messages.

#[local] Open Scope Z_scope.

Inductive BallastOut (D : Type) :=
| OutBallast (m : BallastCmd D)
| OutBallastConsts (c : ControllerConstants D).
Arguments OutBallast {D} _.
Arguments OutBallastConsts {D} _.

Record BallastControl (D : Type) := MkBallast {
  ballast_consts_msg_ : ControllerConstants D;
  heel_goal_ : D;
  heel_ : D;
  heel_dot_ : D;
  ballast_ : D;
  ballast_dot_ : D;
  heel_error_integrator_ : D;
  last_voltage_ : D;
  ballast_counter_ : Z;
  ballast_out : list (BallastOut D);
}.
Arguments MkBallast {D}.
Arguments ballast_consts_msg_ {D} _.
Arguments heel_goal_ {D} _.
Arguments heel_ {D} _.
Arguments heel_dot_ {D} _.
Arguments ballast_ {D} _.
Arguments ballast_dot_ {D} _.
Arguments heel_error_integrator_ {D} _.
Arguments last_voltage_ {D} _.
Arguments ballast_counter_ {D} _.
Arguments ballast_out {D} _.
Definition set_ballast_consts_msg_ {D : Type} (v : ControllerConstants D) (s : BallastControl D) : BallastControl D := MkBallast v (s.(heel_goal_)) (s.(heel_)) (s.(heel_dot_)) (s.(ballast_)) (s.(ballast_dot_)) (s.(heel_error_integrator_)) (s.(last_voltage_)) (s.(ballast_counter_)) (s.(ballast_out)).
Definition set_heel_goal_ {D : Type} (v : D) (s : BallastControl D) : BallastControl D := MkBallast (s.(ballast_consts_msg_)) v (s.(heel_)) (s.(heel_dot_)) (s.(ballast_)) (s.(ballast_dot_)) (s.(heel_error_integrator_)) (s.(last_voltage_)) (s.(ballast_counter_)) (s.(ballast_out)).
Definition set_heel_ {D : Type} (v : D) (s : BallastControl D) : BallastControl D := MkBallast (s.(ballast_consts_msg_)) (s.(heel_goal_)) v (s.(heel_dot_)) (s.(ballast_)) (s.(ballast_dot_)) (s.(heel_error_integrator_)) (s.(last_voltage_)) (s.(ballast_counter_)) (s.(ballast_out)).
Definition set_heel_dot_ {D : Type} (v : D) (s : BallastControl D) : BallastControl D := MkBallast (s.(ballast_consts_msg_)) (s.(heel_goal_)) (s.(heel_)) v (s.(ballast_)) (s.(ballast_dot_)) (s.(heel_error_integrator_)) (s.(last_voltage_)) (s.(ballast_counter_)) (s.(ballast_out)).
Definition set_ballast_ {D : Type} (v : D) (s : BallastControl D) : BallastControl D := MkBallast (s.(ballast_consts_msg_)) (s.(heel_goal_)) (s.(heel_)) (s.(heel_dot_)) v (s.(ballast_dot_)) (s.(heel_error_integrator_)) (s.(last_voltage_)) (s.(ballast_counter_)) (s.(ballast_out)).
Definition set_ballast_dot_ {D : Type} (v : D) (s : BallastControl D) : BallastControl D := MkBallast (s.(ballast_consts_msg_)) (s.(heel_goal_)) (s.(heel_)) (s.(heel_dot_)) (s.(ballast_)) v (s.(heel_error_integrator_)) (s.(last_voltage_)) (s.(ballast_counter_)) (s.(ballast_out)).
Definition set_heel_error_integrator_ {D : Type} (v : D) (s : BallastControl D) : BallastControl D := MkBallast (s.(ballast_consts_msg_)) (s.(heel_goal_)) (s.(heel_)) (s.(heel_dot_)) (s.(ballast_)) (s.(ballast_dot_)) v (s.(last_voltage_)) (s.(ballast_counter_)) (s.(ballast_out)).
Definition set_last_voltage_ {D : Type} (v : D) (s : BallastControl D) : BallastControl D := MkBallast (s.(ballast_consts_msg_)) (s.(heel_goal_)) (s.(heel_)) (s.(heel_dot_)) (s.(ballast_)) (s.(ballast_dot_)) (s.(heel_error_integrator_)) v (s.(ballast_counter_)) (s.(ballast_out)).
Definition set_ballast_counter_ {D : Type} (v : Z) (s : BallastControl D) : BallastControl D := MkBallast (s.(ballast_consts_msg_)) (s.(heel_goal_)) (s.(heel_)) (s.(heel_dot_)) (s.(ballast_)) (s.(ballast_dot_)) (s.(heel_error_integrator_)) (s.(last_voltage_)) v (s.(ballast_out)).
Definition set_ballast_out {D : Type} (v : list (BallastOut D)) (s : BallastControl D) : BallastControl D := MkBallast (s.(ballast_consts_msg_)) (s.(heel_goal_)) (s.(heel_)) (s.(heel_dot_)) (s.(ballast_)) (s.(ballast_dot_)) (s.(heel_error_integrator_)) (s.(last_voltage_)) (s.(ballast_counter_)) v.

Section Node.
Context {D : Type} {ND : Num D}.
#[local] Open Scope num_scope.

(** [float] constants are rounded once. *)
Definition ballast_dt : D := nfloat (dec 1 2).

Definition ballast_send (o : BallastOut D) (s : BallastControl D) : BallastControl D :=
  set_ballast_out (ballast_out s ++ [o]) s.

Definition default_ballast_consts : ControllerConstants D :=
  set_ballast_heel_kp (Some (nfloat (dec 25 2)))
  (set_ballast_heel_ki (Some (nfloat (dec 5 2)))
  (set_ballast_heel_kd (Some #0)
  (set_ballast_heel_kff_goal (Some (nfloat (dec 1 1)))
  (set_ballast_arm_kp (Some #40)
  (set_ballast_arm_kd (Some #0)
  (set_ballast_arm_kff_arm (Some #0)
  (set_ballast_arm_kff_heel (Some #0) Constants_clear))))))).

Definition Ballast_init : BallastControl D :=
  ballast_send (OutBallastConsts default_ballast_consts)
    (MkBallast default_ballast_consts #0 #0 #0 #0 #0 #0 #0 0 []).

Definition ballast_consts_complete (c : ControllerConstants D) : bool :=
  has (ballast_heel_kp c) && has (ballast_heel_ki c) && has (ballast_heel_kd c)
  && has (ballast_arm_kp c) && has (ballast_arm_kd c) && has (ballast_arm_kff_arm c)
  && has (ballast_arm_kff_heel c) && has (ballast_heel_kff_goal c).

Definition ballast_handle_consts (c : ControllerConstants D) (s : BallastControl D) : BallastControl D :=
  if ballast_consts_complete c then
    let diff := nabs (nfloat (get (ballast_heel_ki c) - get (ballast_heel_ki (ballast_consts_msg_ s)))) in
    let s := if dec 1 3 <? diff then set_heel_error_integrator_ #0 s else s in
    set_ballast_consts_msg_ c s
  else s.

Definition ballast_handle_control_mode (m : ControlMode) (s : BallastControl D) : BallastControl D :=
  if has (ballast_mode m) then set_heel_error_integrator_ #0 s else s.

Definition ballast_handle_heading_cmd (m : HeadingCmd D) (s : BallastControl D) : BallastControl D :=
  match heading m with
  | None => s
  | Some cmd =>
      let s :=
        if cmd =? #0 then set_heel_error_integrator_ #0 s
        else if negb (Sign cmd =? Sign (heel_goal_ s))%Z
        then set_heel_error_integrator_ (- heel_error_integrator_ s) s
        else s in
      set_heel_goal_ cmd s
  end.

Definition ballast_handle_boat_state (b : BoatState D) (s : BallastControl D) : BallastControl D :=
  set_heel_ (v3z (euler b)) (set_heel_dot_ (v3z (omega b))
    (set_ballast_ (get (ballast (internal b)))
      (set_ballast_dot_ (get (ballastdot (internal b))) s))).

(** The voltage for a position error, before the deadband. *)
Definition arm_voltage (s : BallastControl D) (ballast_error : D) : D :=
  let c := ballast_consts_msg_ s in
  Clip (get (ballast_arm_kp c) * ballast_error + get (ballast_arm_kd c) * (- ballast_dot_ s)
        - get (ballast_arm_kff_arm c) * ballast_ s
        - get (ballast_arm_kff_heel c) * heel_ s) (- #12) #12.

Definition Ballast_Iterate (s : BallastControl D) : BallastControl D :=
  let c := ballast_consts_msg_ s in
  let heel_error := norm_angle (heel_goal_ s - heel_ s) in
  let dheel_error := - heel_dot_ s in
  let s := set_heel_error_integrator_ (heel_error_integrator_ s + heel_error * ballast_dt) s in
  let s := set_heel_error_integrator_ (Clip (heel_error_integrator_ s) (- #5) #5) s in
  let ballast_goal :=
    get (ballast_heel_kp c) * heel_error + get (ballast_heel_ki c) * heel_error_integrator_ s
    + get (ballast_heel_kd c) * dheel_error + get (ballast_heel_kff_goal c) * heel_goal_ s in
  let ballast_goal := Clip ballast_goal (- dec 12 1) (dec 12 1) in
  let ballast_error := ballast_goal - ballast_ s in
  let deadband := #0 in
  let ballast_error :=
    if #0 <? ballast_error then nmax #0 (ballast_error - deadband)
    else nmin #0 (ballast_error + deadband) in
  let ballast_voltage := arm_voltage s ballast_error in
  let voltage_deadband := if last_voltage_ s =? #0 then dec 35 1 else dec 15 1 in
  let ballast_voltage :=
    if (nabs ballast_error <? dec 1 3) || (dec 15 1 <? nabs (ballast_ s))
       || (nabs ballast_voltage <? voltage_deadband)
    then #0 else ballast_voltage in
  let s := set_last_voltage_ ballast_voltage s in
  let s := ballast_send (OutBallast (MkBallastCmd None (Some (nfloat ballast_voltage)))) s in
  let s := set_ballast_counter_ (wraps 32 (ballast_counter_ s + 1)) s in
  if (Z.rem (ballast_counter_ s) 110 =? 0)%Z
  then ballast_send (OutBallastConsts (ballast_consts_msg_ s)) s else s.

Inductive BallastEvent :=
| BEvConsts (c : ControllerConstants D)
| BEvControlMode (m : ControlMode)
| BEvHeading (m : HeadingCmd D)
| BEvBoatState (b : BoatState D)
| BEvIterate.

(** The handlers and the iteration one after the other. *)
Definition ballast_step (s : BallastControl D) (e : BallastEvent) : BallastControl D :=
  match e with
  | BEvConsts c => ballast_handle_consts c s
  | BEvControlMode m => ballast_handle_control_mode m s
  | BEvHeading m => ballast_handle_heading_cmd m s
  | BEvBoatState b => ballast_handle_boat_state b s
  | BEvIterate => Ballast_Iterate s
  end.

(** ** Bodies *)

Abbreviation body := (thread (BallastControl D) Empty_set).

Definition store_integrator (x : D) (k : body) : body := store (set_heel_error_integrator_ x) k.
Definition load_gain (get_ : ControllerConstants D -> option D) (k : D -> body) : body :=
  load (λ s, get (get_ (ballast_consts_msg_ s))) k.

Definition ballast_consts_body (c : ControllerConstants D) : body :=
  if ballast_consts_complete c then
    let next : body := store (set_ballast_consts_msg_ c) Done in
    load_gain ballast_heel_ki (λ ki,
    if dec 1 3 <? nabs (nfloat (get (ballast_heel_ki c) - ki)) then store_integrator #0 next else next)
  else Done.

Definition ballast_control_mode_body (m : ControlMode) : body :=
  if has (ballast_mode m) then store_integrator #0 Done else Done.

Definition ballast_heading_cmd_body (m : HeadingCmd D) : body :=
  match heading m with
  | None => Done
  | Some cmd =>
      let next : body := store (set_heel_goal_ cmd) Done in
      if cmd =? #0 then store_integrator #0 next
      else load heel_goal_ (λ g,
        if negb (Sign cmd =? Sign g)%Z then load heel_error_integrator_ (λ x, store_integrator (- x) next) else next)
  end.

Definition ballast_boat_state_body (b : BoatState D) : body :=
  store (set_heel_ (v3z (euler b))) (store (set_heel_dot_ (v3z (omega b)))
  (store (set_ballast_ (get (ballast (internal b)))) (store (set_ballast_dot_ (get (ballastdot (internal b)))) Done))).

Definition send_voltage_body (v : D) : body :=
  store (set_last_voltage_ v)
  (store (ballast_send (OutBallast (MkBallastCmd None (Some (nfloat v)))))
  (store (λ s, set_ballast_counter_ (wraps 32 (ballast_counter_ s + 1)) s)
  (load ballast_counter_ (λ n,
  if (Z.rem n 110 =? 0)%Z then store (λ s, ballast_send (OutBallastConsts (ballast_consts_msg_ s)) s) Done else Done)))).

(** From the clipped goal on: the voltage, its deadband and the check of the measured angle. *)
Definition voltage_body (ballast_goal : D) : body :=
  load ballast_ (λ b,
  let ballast_error := ballast_goal - b in
  load ballast_dot_ (λ bd,
  let ballast_error :=
    if #0 <? ballast_error then nmax #0 (ballast_error - #0) else nmin #0 (ballast_error + #0) in
  load_gain ballast_arm_kp (λ kp, load_gain ballast_arm_kd (λ kd, load_gain ballast_arm_kff_arm (λ karm,
  load ballast_ (λ b, load_gain ballast_arm_kff_heel (λ kheel, load heel_ (λ h,
  let ballast_voltage := Clip (kp * ballast_error + kd * (- bd) - karm * b - kheel * h) (- #12) #12 in
  load last_voltage_ (λ last,
  let voltage_deadband := if last =? #0 then dec 35 1 else dec 15 1 in
  if nabs ballast_error <? dec 1 3 then send_voltage_body #0
  else load ballast_ (λ b,
    send_voltage_body (if (dec 15 1 <? nabs b) || (nabs ballast_voltage <? voltage_deadband) then #0
                       else ballast_voltage))))))))))).

Definition Ballast_Iterate_body : body :=
  load heel_goal_ (λ g, load heel_ (λ h,
  let heel_error := norm_angle (g - h) in
  load heel_dot_ (λ hd,
  let dheel_error := - hd in
  load heel_error_integrator_ (λ x, store_integrator (x + heel_error * ballast_dt)
  (load heel_error_integrator_ (λ x, store_integrator (Clip x (- #5) #5)
  (load_gain ballast_heel_kp (λ kp, load_gain ballast_heel_ki (λ ki, load heel_error_integrator_ (λ x,
  load_gain ballast_heel_kd (λ kd, load_gain ballast_heel_kff_goal (λ kff, load heel_goal_ (λ g,
  voltage_body (Clip (kp * heel_error + ki * x + kd * dheel_error + kff * g) (- dec 12 1) (dec 12 1))))))))))))))).

Definition ballast_body (e : BallastEvent) : body :=
  match e with
  | BEvConsts c => ballast_consts_body c
  | BEvControlMode m => ballast_control_mode_body m
  | BEvHeading m => ballast_heading_cmd_body m
  | BEvBoatState b => ballast_boat_state_body b
  | BEvIterate => Ballast_Iterate_body
  end.

Lemma alone_send_voltage v (s : BallastControl D) :
  run_alone (send_voltage_body v) s
  = Ok (let s := set_last_voltage_ v s in
        let s := ballast_send (OutBallast (MkBallastCmd None (Some (nfloat v)))) s in
        let s := set_ballast_counter_ (wraps 32 (ballast_counter_ s + 1)) s in
        if (Z.rem (ballast_counter_ s) 110 =? 0)%Z then ballast_send (OutBallastConsts (ballast_consts_msg_ s)) s else s).
Proof. unfold send_voltage_body. rewrite !alone_store, alone_load. cbv zeta. by destruct (Z.eqb _ _). Qed.

(** Without interference they are the steps above. *)
Lemma alone_ballast_body e (s : BallastControl D) : run_alone (ballast_body e) s = Ok (ballast_step s e).
Proof.
  destruct e as [c|m|m|b|]; cbn [ballast_body ballast_step].
  - unfold ballast_consts_body, ballast_handle_consts. destruct (ballast_consts_complete c); [|done].
    cbv zeta. unfold load_gain. rewrite alone_load. by destruct (nltb _ _).
  - unfold ballast_control_mode_body, ballast_handle_control_mode. by destruct (has _).
  - unfold ballast_heading_cmd_body, ballast_handle_heading_cmd. destruct (heading m) as [cmd|]; [|done].
    destruct (neqb cmd _); [done|]. rewrite alone_load. by destruct (negb _).
  - reflexivity.
  - unfold Ballast_Iterate_body, voltage_body, load_gain, store_integrator, Ballast_Iterate, arm_voltage. cbv zeta.
    rewrite !alone_load, alone_store, alone_load, alone_store, !alone_load.
    cbn [ballast_consts_msg_ heel_goal_ heel_ heel_dot_ ballast_ ballast_dot_ heel_error_integrator_ last_voltage_ set_heel_error_integrator_].
    destruct (nltb (nabs _) (dec 1 3)); cbn [orb]; rewrite ?alone_load; apply alone_send_voltage.
Qed.
End Node.
Arguments BallastEvent : clear implicits.

(** ** Bounds, in exact arithmetic *)

#[local] Open Scope R_scope.

(** The integrator is limited, and the motor is either off or driven with between
    1.5 V and 12 V. *)
Definition ballast_inv (s : BallastControl R) : Prop :=
  -5 <= heel_error_integrator_ s <= 5
  ∧ (last_voltage_ s = 0 ∨ 1.5 <= Rabs (last_voltage_ s) <= 12).

Lemma Iterate_integrator (s : BallastControl R) :
  heel_error_integrator_ (Ballast_Iterate s)
  = Clip (heel_error_integrator_ s + norm_angle (heel_goal_ s - heel_ s) * ballast_dt)%num (-5) 5.
Proof. unfold Ballast_Iterate. cbv zeta. by destruct (Z.rem _ _ =? 0)%Z. Qed.

(** The voltage of an iteration is zero or outside the deadband, and zero when the
    measured position is absurd. *)
Lemma Iterate_voltage (s : BallastControl R) :
  let v := last_voltage_ (Ballast_Iterate s) in
  (v = 0 ∨ 1.5 <= Rabs v <= 12) ∧ (1.5 < Rabs (ballast_ s) -> v = 0).
Proof.
  unfold Ballast_Iterate. cbv zeta. destruct (Z.rem _ _ =? 0)%Z; simpl.
  all: match goal with |- context [arm_voltage ?s ?e] =>
    assert (-12 <= arm_voltage s e <= 12) as Hv by (unfold arm_voltage; apply Clip_R; simpl; lra);
    revert Hv; generalize (arm_voltage s e); intros v Hv; generalize e; intros err end.
  all: dec_R.
  all: assert (Rabs v <= 12) by (apply Rabs_le; lra).
  all: destruct (Reqb (last_voltage_ s) 0).
  all: repeat (case_R; simpl); split; first [by left | right; lra | intros; lra].
Qed.

Lemma ballast_step_inv s e : ballast_inv s -> ballast_inv (ballast_step s e).
Proof.
  intros [Hi Hv]. destruct e as [c|m|m|b|]; simpl.
  - unfold ballast_handle_consts. destruct (ballast_consts_complete c); [|done].
    destruct (nltb _ _); split; simpl; (done || lra).
  - unfold ballast_handle_control_mode. destruct (has _); split; simpl; (done || lra).
  - unfold ballast_handle_heading_cmd. destruct (heading m) as [cmd|]; [|done].
    destruct (neqb cmd _); [|destruct (negb _)]; split; simpl; (done || lra).
  - done.
  - split; [|apply Iterate_voltage]. rewrite Iterate_integrator. apply Clip_R. lra.
Qed.

(** One message after the other, the integrator stays within [-5, 5] and the last voltage is
    zero or between 1.5 V and 12 V.  When the heading handler takes the negative of the integrator
    between the two stores of an iteration this is not so: the handler stores the negative
    of a value that the iteration has not clipped yet. *)
Lemma ballast_run_inv (evs : list (BallastEvent R)) : ballast_inv (fold_left ballast_step evs Ballast_init).
Proof.
  assert (∀ s, ballast_inv s -> ballast_inv (fold_left ballast_step evs s)) as H.
  { induction evs as [|e evs IH]; [done|]. intros s Hs. by apply IH, ballast_step_inv. }
  apply H. split; [simpl; lra|by left].
Qed.

(** ** All interleavings *)

Inductive BallastThread := ThConsts | ThControlMode | ThHeading | ThBoatState | ThIterate.
#[export] Instance BallastThread_eq_dec : EqDecision BallastThread.
Proof. solve_decision. Defined.

Definition thread_of {D : Type} (e : BallastEvent D) : BallastThread :=
  match e with
  | BEvConsts _ => ThConsts
  | BEvControlMode _ => ThControlMode
  | BEvHeading _ => ThHeading
  | BEvBoatState _ => ThBoatState
  | BEvIterate => ThIterate
  end.

(** [measured]: the angles of the ballast that the state estimate may carry. *)
Definition ballast_bodies (measured : R -> Prop) (i : BallastThread) (t : thread (BallastControl R) Empty_set) : Prop :=
  ∃ e, thread_of e = i ∧ t = ballast_body e
       ∧ match e with BEvBoatState b => measured (get (ballast (internal b))) | _ => True end.

Section Interleaved.
Variable measured : R -> Prop.

(** A commanded voltage. *)
Definition voltage_ok (v : R) : Prop :=
  (v = 0 ∨ 1.5 <= Rabs v <= 12) ∧ ((∀ a, measured a -> 1.5 < Rabs a) -> v = 0).

Definition sends_ok (s s' : BallastControl R) : Prop :=
  ∀ m, ballast_out s' = ballast_out s ++ [OutBallast m] -> ∃ v, m = MkBallastCmd None (Some v) ∧ voltage_ok v.

Definition ballast_meas (s : BallastControl R) : Prop := measured (ballast_ s).
Abbreviation brg := (rg (E := Empty_set) ballast_meas (λ _ _, True) sends_ok (λ _, True) (λ _, True)).

Lemma sends_same (s s' : BallastControl R) : ballast_out s' = ballast_out s -> sends_ok s s'.
Proof. intros E m. rewrite E. intros H%(f_equal length). rewrite length_app in H. simpl in H. lia. Qed.

Lemma ballast_load {A} (get : BallastControl R -> A) k :
  (∀ s, ballast_meas s -> brg (k (get s))) -> brg (load get k).
Proof. intros Hk. apply (rg_load _ (λ _ _, True)); [|done|auto]. intros s _ _. split; [by apply sends_same|done]. Qed.
Lemma ballast_load_any {A} (get : BallastControl R -> A) k : (∀ a, brg (k a)) -> brg (load get k).
Proof. intros Hk. by apply ballast_load. Qed.
Lemma ballast_store set k :
  (∀ s, ballast_meas s -> ballast_meas (set s) ∧ sends_ok s (set s)) -> brg k -> brg (store set k).
Proof. intros Hs Hk. apply (rg_store _ (λ _, True)); [|done|done]. intros s HI _. by destruct (Hs s HI). Qed.
Lemma ballast_done : brg Done.
Proof. by constructor. Qed.

Local Ltac ballast_steps :=
  repeat first
    [ apply ballast_done
    | apply ballast_load_any; intros ?
    | apply ballast_store; [intros ? ?; split; [done|by apply sends_same]|] ].

Lemma send_voltage_rg v : voltage_ok v -> brg (send_voltage_body v).
Proof.
  intros Hv. apply ballast_store; [intros s Hs; split; [done|by apply sends_same]|]. apply ballast_store.
  { intros s Hs. split; [done|]. intros m H%app_inj_2; [|done]. destruct H as [_ [= <-]]. by exists v. }
  ballast_steps. destruct (Z.eqb _ _); [|ballast_steps]. apply ballast_store; [|ballast_steps].
  intros s Hs. split; [done|]. by intros m [_ [=]]%app_inj_2.
Qed.

(** The voltage after its deadbands. *)
Lemma voltage_rg goal : brg (voltage_body goal).
Proof.
  unfold voltage_body, load_gain. do 9 (apply ballast_load_any; intros ?). cbv zeta. destruct (nltb _ _).
  { apply send_voltage_rg. split; [by left|done]. }
  match goal with |- context [Clip ?x ?lo ?hi] =>
    assert (-12 <= Clip x lo hi <= 12) as Hv by (apply Clip_R; simpl; lra);
    revert Hv; generalize (Clip x lo hi); intros v Hv end.
  apply ballast_load. intros s Hs. apply send_voltage_rg.
  assert (Rabs v <= 12) by (apply Rabs_le; lra). dec_R. unfold voltage_ok.
  destruct (Reqb _ 0); repeat (case_R; simpl); (split; [first [by left | right; lra]|]);
    intros Hm; specialize (Hm _ Hs); (done || lra).
Qed.

Lemma ballast_body_rg i t : ballast_bodies measured i t -> brg t.
Proof.
  intros (e & _ & -> & He). destruct e as [c|m|m|b|]; cbn [ballast_body].
  - unfold ballast_consts_body, load_gain, store_integrator. destruct (ballast_consts_complete c); [|ballast_steps].
    ballast_steps. destruct (nltb _ _); ballast_steps.
  - unfold ballast_control_mode_body, store_integrator. destruct (has _); ballast_steps.
  - unfold ballast_heading_cmd_body, store_integrator. destruct (heading m); [|ballast_steps].
    destruct (neqb _ _); ballast_steps. destruct (negb _); ballast_steps.
  - unfold ballast_boat_state_body. ballast_steps.
  - unfold Ballast_Iterate_body, load_gain, store_integrator.
    repeat first [ apply voltage_rg | apply ballast_load_any; intros ? | apply ballast_store; [intros ? ?; split; [done|by apply sends_same]|] ].
Qed.

Lemma ballast_compatible :
  compatible (ballast_bodies measured) no_excl ballast_meas (λ _ _ _, True) (λ _, sends_ok) (λ _ _, True).
Proof.
  constructor; try done. intros i t Ht. by eapply ballast_body_rg.
Qed.
End Interleaved.

(** C32: In every interleaving of the accesses of the controller's handlers and iterations, in
    exact arithmetic, every message it sends to the ballast motor carries a voltage that is
    zero or between 1.5 V and 12 V in magnitude, and zero if the measured ballast angle was
    beyond 1.5 rad throughout: from any state whose angle, and for any messages whose angles,
    are among [measured].  An iteration sends one such message. *)
Theorem ballast_voltage_safe (measured : R -> Prop) (s : BallastControl R) (c : conf BallastThread (BallastControl R) Empty_set) :
  measured (ballast_ s) -> rtc (conf_step (ballast_bodies measured) no_excl) (idle s) c ->
  (∀ c' m, conf_step (ballast_bodies measured) no_excl c c' ->
    ballast_out (c_state c') = ballast_out (c_state c) ++ [OutBallast m] ->
    ∃ v, m = MkBallastCmd None (Some v) ∧ (v = 0 ∨ 1.5 <= Rabs v <= 12)
         ∧ ((∀ a, measured a -> 1.5 < Rabs a) -> v = 0))
  ∧ ∃ s' m l, run_alone Ballast_Iterate_body (c_state c) = Ok s' ∧ (l = [] ∨ ∃ k, l = [OutBallastConsts k])
      ∧ ballast_out s' = ballast_out (c_state c) ++ [OutBallast m] ++ l.
Proof.
  intros Hs Hc. split.
  - intros c' m Hst E. destruct (rg_sound _ _ _ _ _ _ s c (ballast_compatible measured)) as [Hok _]; [done..|].
    destruct (rg_step _ _ _ _ _ _ c c' (ballast_compatible measured) Hok Hst) as [Ec|[i Hi]].
    + rewrite Ec in E. apply (f_equal length) in E. rewrite length_app in E. simpl in E. lia.
    + by apply Hi.
  - change Ballast_Iterate_body with (ballast_body (D := R) BEvIterate). rewrite alone_ballast_body. unfold ballast_step, Ballast_Iterate. cbv zeta.
    destruct (Z.eqb _ _); eexists _, _, _; (split; [done|]).
    + split; [right; by eexists|]. cbn. by rewrite <- app_assoc.
    + split; [by left|done].
Qed.

Definition absurd_state : BallastControl R := set_ballast_ 2 Ballast_init.

Lemma ballast_voltage_witness :
  ∃ s' m l, run_alone Ballast_Iterate_body absurd_state = Ok s' ∧ (l = [] ∨ ∃ k, l = [OutBallastConsts k])
    ∧ ballast_out s' = ballast_out absurd_state ++ [OutBallast m] ++ l.
Proof.
  destruct (ballast_voltage_safe (λ a, 1.5 < Rabs a) absurd_state (idle absurd_state)) as [_ H].
  - simpl. rewrite Rabs_right; lra.
  - apply rtc_refl.
  - exact H.
Defined.
