(* ===== verification/Scamp.v ===== *)
(** * The SCAMP actuator node

    src/control/scamp.cc and scamp.h: the node between the control loops and the
    actuator board.  It keeps a raw servo value per actuator, decides by the control
    mode which commands may change it, and sends the values over CAN.

    [scamp_out] is the log of what is sent.  The file of zeroing constants is read at
    construction: its contents are an argument. *)

From Stdlib Require Import ZArith Lia Reals Lra Floats Zfloor.
From stdpp Require Import base list.
From S2P Require Import Prelude Num NumR NumF Vec Util Messages.

#[local] Open Scope Z_scope.

Inductive Actuator := RUDDER | WINCH | BALLAST.

(** [can65282]: winch, rudder and ballast; [internal_state]; [zeroing_consts]; and the
    constants written to their file. *)
Inductive ScampOut (D : Type) :=
| OutPwm (winch rudder ballast : Z)
| OutInternal (m : InternalBoatState D)
| OutZeroing (m : ZeroingConstants D)
| OutFile (m : ZeroingConstants D).
Arguments OutPwm {D} _ _ _.
Arguments OutInternal {D} _.
Arguments OutZeroing {D} _.
Arguments OutFile {D} _.

Record SCAMP (D : Type) := MkScamp {
  zero_consts_ : ZeroingConstants D;
  scamp_state_msg_ : InternalBoatState D;
  sail_pos_ : D;
  ballast_pos_ : D;
  raw_winch_ : Z;
  volts_winch_ : Z;
  raw_rudder_ : Z;
  raw_ballast_ : Z;
  rudder_mode_ : MODE;
  winch_mode_ : MODE;
  ballast_mode_ : MODE;
  is_connected_ : bool;
  scamp_out : list (ScampOut D);
}.
Arguments MkScamp {D}.
Arguments zero_consts_ {D} _.
Arguments scamp_state_msg_ {D} _.
Arguments sail_pos_ {D} _.
Arguments ballast_pos_ {D} _.
Arguments raw_winch_ {D} _.
Arguments volts_winch_ {D} _.
Arguments raw_rudder_ {D} _.
Arguments raw_ballast_ {D} _.
Arguments rudder_mode_ {D} _.
Arguments winch_mode_ {D} _.
Arguments ballast_mode_ {D} _.
Arguments is_connected_ {D} _.
Arguments scamp_out {D} _.
Definition set_zero_consts_ {D : Type} (v : ZeroingConstants D) (s : SCAMP D) : SCAMP D := MkScamp v (s.(scamp_state_msg_)) (s.(sail_pos_)) (s.(ballast_pos_)) (s.(raw_winch_)) (s.(volts_winch_)) (s.(raw_rudder_)) (s.(raw_ballast_)) (s.(rudder_mode_)) (s.(winch_mode_)) (s.(ballast_mode_)) (s.(is_connected_)) (s.(scamp_out)).
Definition set_scamp_state_msg_ {D : Type} (v : InternalBoatState D) (s : SCAMP D) : SCAMP D := MkScamp (s.(zero_consts_)) v (s.(sail_pos_)) (s.(ballast_pos_)) (s.(raw_winch_)) (s.(volts_winch_)) (s.(raw_rudder_)) (s.(raw_ballast_)) (s.(rudder_mode_)) (s.(winch_mode_)) (s.(ballast_mode_)) (s.(is_connected_)) (s.(scamp_out)).
Definition set_sail_pos_ {D : Type} (v : D) (s : SCAMP D) : SCAMP D := MkScamp (s.(zero_consts_)) (s.(scamp_state_msg_)) v (s.(ballast_pos_)) (s.(raw_winch_)) (s.(volts_winch_)) (s.(raw_rudder_)) (s.(raw_ballast_)) (s.(rudder_mode_)) (s.(winch_mode_)) (s.(ballast_mode_)) (s.(is_connected_)) (s.(scamp_out)).
Definition set_ballast_pos_ {D : Type} (v : D) (s : SCAMP D) : SCAMP D := MkScamp (s.(zero_consts_)) (s.(scamp_state_msg_)) (s.(sail_pos_)) v (s.(raw_winch_)) (s.(volts_winch_)) (s.(raw_rudder_)) (s.(raw_ballast_)) (s.(rudder_mode_)) (s.(winch_mode_)) (s.(ballast_mode_)) (s.(is_connected_)) (s.(scamp_out)).
Definition set_raw_winch_ {D : Type} (v : Z) (s : SCAMP D) : SCAMP D := MkScamp (s.(zero_consts_)) (s.(scamp_state_msg_)) (s.(sail_pos_)) (s.(ballast_pos_)) v (s.(volts_winch_)) (s.(raw_rudder_)) (s.(raw_ballast_)) (s.(rudder_mode_)) (s.(winch_mode_)) (s.(ballast_mode_)) (s.(is_connected_)) (s.(scamp_out)).
Definition set_volts_winch_ {D : Type} (v : Z) (s : SCAMP D) : SCAMP D := MkScamp (s.(zero_consts_)) (s.(scamp_state_msg_)) (s.(sail_pos_)) (s.(ballast_pos_)) (s.(raw_winch_)) v (s.(raw_rudder_)) (s.(raw_ballast_)) (s.(rudder_mode_)) (s.(winch_mode_)) (s.(ballast_mode_)) (s.(is_connected_)) (s.(scamp_out)).
Definition set_raw_rudder_ {D : Type} (v : Z) (s : SCAMP D) : SCAMP D := MkScamp (s.(zero_consts_)) (s.(scamp_state_msg_)) (s.(sail_pos_)) (s.(ballast_pos_)) (s.(raw_winch_)) (s.(volts_winch_)) v (s.(raw_ballast_)) (s.(rudder_mode_)) (s.(winch_mode_)) (s.(ballast_mode_)) (s.(is_connected_)) (s.(scamp_out)).
Definition set_raw_ballast_ {D : Type} (v : Z) (s : SCAMP D) : SCAMP D := MkScamp (s.(zero_consts_)) (s.(scamp_state_msg_)) (s.(sail_pos_)) (s.(ballast_pos_)) (s.(raw_winch_)) (s.(volts_winch_)) (s.(raw_rudder_)) v (s.(rudder_mode_)) (s.(winch_mode_)) (s.(ballast_mode_)) (s.(is_connected_)) (s.(scamp_out)).
Definition set_rudder_mode_ {D : Type} (v : MODE) (s : SCAMP D) : SCAMP D := MkScamp (s.(zero_consts_)) (s.(scamp_state_msg_)) (s.(sail_pos_)) (s.(ballast_pos_)) (s.(raw_winch_)) (s.(volts_winch_)) (s.(raw_rudder_)) (s.(raw_ballast_)) v (s.(winch_mode_)) (s.(ballast_mode_)) (s.(is_connected_)) (s.(scamp_out)).
Definition set_winch_mode_ {D : Type} (v : MODE) (s : SCAMP D) : SCAMP D := MkScamp (s.(zero_consts_)) (s.(scamp_state_msg_)) (s.(sail_pos_)) (s.(ballast_pos_)) (s.(raw_winch_)) (s.(volts_winch_)) (s.(raw_rudder_)) (s.(raw_ballast_)) (s.(rudder_mode_)) v (s.(ballast_mode_)) (s.(is_connected_)) (s.(scamp_out)).
Definition set_ballast_mode_ {D : Type} (v : MODE) (s : SCAMP D) : SCAMP D := MkScamp (s.(zero_consts_)) (s.(scamp_state_msg_)) (s.(sail_pos_)) (s.(ballast_pos_)) (s.(raw_winch_)) (s.(volts_winch_)) (s.(raw_rudder_)) (s.(raw_ballast_)) (s.(rudder_mode_)) (s.(winch_mode_)) v (s.(is_connected_)) (s.(scamp_out)).
Definition set_is_connected_ {D : Type} (v : bool) (s : SCAMP D) : SCAMP D := MkScamp (s.(zero_consts_)) (s.(scamp_state_msg_)) (s.(sail_pos_)) (s.(ballast_pos_)) (s.(raw_winch_)) (s.(volts_winch_)) (s.(raw_rudder_)) (s.(raw_ballast_)) (s.(rudder_mode_)) (s.(winch_mode_)) (s.(ballast_mode_)) v (s.(scamp_out)).
Definition set_scamp_out {D : Type} (v : list (ScampOut D)) (s : SCAMP D) : SCAMP D := MkScamp (s.(zero_consts_)) (s.(scamp_state_msg_)) (s.(sail_pos_)) (s.(ballast_pos_)) (s.(raw_winch_)) (s.(volts_winch_)) (s.(raw_rudder_)) (s.(raw_ballast_)) (s.(rudder_mode_)) (s.(winch_mode_)) (s.(ballast_mode_)) (s.(is_connected_)) v.

(** A [msg.channel(i)] beyond the end of the repeated field. *)
Inductive ScampErr := BadChannel.

Section Node.
Context {D : Type} {ND : Num D}.
#[local] Open Scope num_scope.

Definition scamp_send (o : ScampOut D) (s : SCAMP D) : SCAMP D := set_scamp_out (scamp_out s ++ [o]) s.

Definition default_zeroing : ZeroingConstants D :=
  MkZeroing (Some 90%Z) (Some 392%Z) (Some 750%Z) (Some (- dec 1775 3)) None (Some (npi / #2)).

(** [file]: the constants read, or [None] when they cannot be. *)
Definition SCAMP_init (file : option (ZeroingConstants D)) : SCAMP D :=
  MkScamp (default default_zeroing file) Internal_clear #0 #0 90 90 90 90 DISABLE DISABLE DISABLE true [].

Definition getZ (o : option Z) : Z := default 0%Z o.

(** The argument's binary operation rounded to [float]. *)
Definition fsub (a b : D) : D := nfloat (a - b).

Definition GetMode (a : Actuator) (s : SCAMP D) : MODE :=
  match a with RUDDER => rudder_mode_ s | WINCH => winch_mode_ s | BALLAST => ballast_mode_ s end.
Definition IsDisabled (a : Actuator) (s : SCAMP D) : bool := mode_eqb (GetMode a s) DISABLE.
Definition IsAuto (a : Actuator) (s : SCAMP D) : bool := mode_eqb (GetMode a s) AUTO.
Definition IsManualRC (a : Actuator) (s : SCAMP D) : bool := mode_eqb (GetMode a s) MANUAL_RC.
Definition IsManualWiFi (a : Actuator) (s : SCAMP D) : bool := mode_eqb (GetMode a s) MANUAL_WIFI.
Definition IsFilteredRC (a : Actuator) (s : SCAMP D) : bool := mode_eqb (GetMode a s) FILTERED_RC.

Definition SBUSToRaw (sbus : Z) : Z := nint ((nofZ sbus - #1023) * #90 / #1000 + #90).

(** [float] arithmetic: the difference and the quotient are [float], the last product
    is [double] and returned as [float]. *)
Definition WinchPotToAngle (s : SCAMP D) (pot_val : D) : D :=
  let c := zero_consts_ s in
  let kPotRange := wraps 32 (getZ (winch_90_pot c) - getZ (winch_0_pot c)) in
  nfloat (nfloat (fsub pot_val (nfloat (nofZ (getZ (winch_0_pot c)))) / nfloat (nofZ kPotRange))
          * get (winch_out_angle c)).

Definition SetRawFromSailCmd (volts : D) (s : SCAMP D) : SCAMP D :=
  let c := zero_consts_ s in
  let volts :=
    if get (winch_out_angle c) <=? sail_pos_ s then nmin volts #0
    else if sail_pos_ s <=? #0 then nmax volts #0 else volts in
  let volts := if nabs volts <? #1 then #0 else volts in
  let volts := nmin (nmax volts (- #12)) #12 in
  let volts := nfloat (volts * (if (getZ (winch_0_pot c) <? getZ (winch_90_pot c))%Z then - #1 else #1)) in
  set_raw_winch_ (nint (volts / #12 * #90 + #90)) s.

Definition SetRawFromRudderCmd (cmd : RudderCmd D) (s : SCAMP D) : SCAMP D :=
  set_raw_rudder_
    (nint (get (rudder_pos cmd) / npi * #180 + nofZ (getZ (rudder_zero (zero_consts_ s))))) s.

Definition SetRawFromBallastCmd (cmd : BallastCmd D) (s : SCAMP D) : SCAMP D :=
  if has (ballast_vel cmd) then set_raw_ballast_ (nint (nfloat (get (ballast_vel cmd) + #90))) s
  else if has (ballast_voltage cmd) then
    let volts := Clip (get (ballast_voltage cmd)) (- #12) #12 in
    let volts :=
      if dec 11 1 <=? ballast_pos_ s then nmin volts #0
      else if ballast_pos_ s <=? - dec 11 1 then nmax volts #0 else volts in
    set_raw_ballast_ (nint (volts * #90 / #12 + #90)) s
  else s.

(** ** Handlers *)

(** A field of [m] replaces the stored one when present. *)
Definition override {A : Type} (new old : option A) : option A :=
  match new with Some x => Some x | None => old end.

Definition handle_zeroing (m : ZeroingConstants D) (s : SCAMP D) : SCAMP D :=
  let c := zero_consts_ s in
  let both := has (winch_0_pot m) && has (winch_90_pot m) in
  let c := MkZeroing (override (rudder_zero m) (rudder_zero c))
             (if both then winch_0_pot m else winch_0_pot c)
             (if both then winch_90_pot m else winch_90_pot c)
             (override (ballast_zero m) (ballast_zero c)) (write_constants c)
             (override (winch_out_angle m) (winch_out_angle c)) in
  let s := set_zero_consts_ c s in
  if default false (write_constants m) then scamp_send (OutFile c) s else s.

(** [val] is the reading of the message, zero when unset. *)
Definition handle_analog_pot (val : Z) (s : SCAMP D) : SCAMP D :=
  let s := set_sail_pos_ (WinchPotToAngle s (nfloat (nofZ val))) s in
  let r := nfloat (nofZ (wraps 32 (raw_rudder_ s - getZ (rudder_zero (zero_consts_ s)))) * npi / #180) in
  let s := set_scamp_state_msg_ (set_rudder (Some r) (set_sail (Some (nfloat (sail_pos_ s))) Internal_clear)) s in
  scamp_send (OutInternal (scamp_state_msg_ s)) s.

Definition handle_ballast_state (b : option D) (s : SCAMP D) : SCAMP D :=
  match b with
  | None => s
  | Some b =>
      let x := nfloat (b - get (ballast_zero (zero_consts_ s))) in
      let s := set_scamp_state_msg_ (set_ballast (Some x) Internal_clear) s in
      let s := set_ballast_pos_ x s in
      scamp_send (OutInternal (scamp_state_msg_ s)) s
  end.

Definition handle_sail_cmd (cmd : SailCmd D) (s : SCAMP D) : SCAMP D :=
  if IsAuto WINCH s then set_volts_winch_ (nint (get (sail_voltage cmd))) s else s.
Definition handle_manual_sail_cmd (cmd : SailCmd D) (s : SCAMP D) : SCAMP D :=
  if IsManualWiFi WINCH s then set_volts_winch_ (nint (get (sail_voltage cmd))) s else s.
Definition handle_rudder_cmd (cmd : RudderCmd D) (s : SCAMP D) : SCAMP D :=
  if IsAuto RUDDER s then SetRawFromRudderCmd cmd s else s.
Definition handle_manual_rudder_cmd (cmd : RudderCmd D) (s : SCAMP D) : SCAMP D :=
  if IsManualWiFi RUDDER s then SetRawFromRudderCmd cmd s else s.
Definition handle_ballast_cmd (cmd : BallastCmd D) (s : SCAMP D) : SCAMP D :=
  if IsAuto BALLAST s then SetRawFromBallastCmd cmd s else s.
Definition handle_manual_ballast_cmd (cmd : BallastCmd D) (s : SCAMP D) : SCAMP D :=
  if IsManualWiFi BALLAST s then SetRawFromBallastCmd cmd s else s.

#[local] Open Scope result_scope.

Definition channel (ch : list Z) (i : nat) : result ScampErr Z := of_option BadChannel (ch !! i).

Definition handle_sbus_value (ch : list Z) (s : SCAMP D) : result ScampErr (SCAMP D) :=
  if (2 <=? length ch)%nat then
    let* s :=
      if IsManualRC RUDDER s then
        let* c := channel ch 3 in
        Ok (set_raw_rudder_ (nint ((nofZ (SBUSToRaw c) - #90) * dec 5 1 + #90)) s)
      else if IsFilteredRC RUDDER s then
        let* c := channel ch 3 in
        Ok (set_raw_rudder_ (nint (- (nofZ (SBUSToRaw c) - #90) * dec 6 1
                                   + nofZ (getZ (rudder_zero (zero_consts_ s))))) s)
      else Ok s in
    if IsManualRC WINCH s then
      let* c := channel ch 1 in Ok (set_raw_winch_ (SBUSToRaw c) s)
    else if IsFilteredRC WINCH s then
      let* c := channel ch 1 in
      Ok (set_volts_winch_ (nint (- (nofZ (SBUSToRaw c) - #90) * #6 / #90)) s)
    else Ok s
  else Ok s.

Definition handle_connection (connected : bool) (s : SCAMP D) : SCAMP D := set_is_connected_ connected s.

Definition handle_control_mode (m : ControlMode) (s : SCAMP D) : SCAMP D :=
  let s := match winch_mode m with Some x => set_winch_mode_ x s | None => s end in
  let s := match rudder_mode m with Some x => set_rudder_mode_ x s | None => s end in
  let s := match ballast_mode m with Some x => set_ballast_mode_ x s | None => s end in
  let s := if IsDisabled RUDDER s then set_raw_rudder_ 90 s else s in
  let s := if IsDisabled WINCH s then set_raw_winch_ 90 s else s in
  if IsDisabled BALLAST s then set_raw_ballast_ 90 s else s.

(** The CAN fields are [uint32]. *)
Definition Scamp_Iterate (s : SCAMP D) : SCAMP D :=
  let s := if IsAuto WINCH s || IsManualWiFi WINCH s || IsFilteredRC WINCH s
           then SetRawFromSailCmd (nfloat (nofZ (volts_winch_ s))) s else s in
  let s := scamp_send (OutPwm (wrapu 32 (raw_winch_ s)) (wrapu 32 (raw_rudder_ s)) (wrapu 32 (raw_ballast_ s))) s in
  scamp_send (OutZeroing (zero_consts_ s)) s.

Inductive ScampEvent :=
| SEvZeroing (m : ZeroingConstants D)
| SEvAnalogPot (val : Z)
| SEvBallastState (b : option D)
| SEvSail (manual : bool) (c : SailCmd D)
| SEvRudder (manual : bool) (c : RudderCmd D)
| SEvBallast (manual : bool) (c : BallastCmd D)
| SEvSbus (ch : list Z)
| SEvConnection (b : bool)
| SEvControlMode (m : ControlMode)
| SEvIterate.

(** The handlers and the iteration one after the other; ScampThreads has their interleavings. *)
Definition scamp_step (e : ScampEvent) (s : SCAMP D) : result ScampErr (SCAMP D) :=
  match e with
  | SEvZeroing m => Ok (handle_zeroing m s)
  | SEvAnalogPot v => Ok (handle_analog_pot v s)
  | SEvBallastState b => Ok (handle_ballast_state b s)
  | SEvSail manual c => Ok (if manual then handle_manual_sail_cmd c s else handle_sail_cmd c s)
  | SEvRudder manual c => Ok (if manual then handle_manual_rudder_cmd c s else handle_rudder_cmd c s)
  | SEvBallast manual c => Ok (if manual then handle_manual_ballast_cmd c s else handle_ballast_cmd c s)
  | SEvSbus ch => handle_sbus_value ch s
  | SEvConnection b => Ok (handle_connection b s)
  | SEvControlMode m => Ok (handle_control_mode m s)
  | SEvIterate => Ok (Scamp_Iterate s)
  end.

Fixpoint scamp_run (evs : list ScampEvent) (s : SCAMP D) : result ScampErr (SCAMP D) :=
  match evs with
  | [] => Ok s
  | e :: evs => let* s := scamp_step e s in scamp_run evs s
  end.
End Node.
Arguments ScampEvent : clear implicits.

(** ** Disabled actuators *)

Section Disabled.
Context {D : Type} {ND : Num D}.

(** A disabled actuator is at its neutral raw value. *)
Definition neutral (s : SCAMP D) : Prop :=
  (rudder_mode_ s = DISABLE -> raw_rudder_ s = 90)
  ∧ (winch_mode_ s = DISABLE -> raw_winch_ s = 90)
  ∧ (ballast_mode_ s = DISABLE -> raw_ballast_ s = 90).

(** Enough channels for the ones the handler reads. *)
Definition sbus_ok (e : ScampEvent D) : bool :=
  match e with SEvSbus ch => (4 <=? length ch)%nat | _ => true end.

Lemma mode_eqb_eq a b : mode_eqb a b = true <-> a = b.
Proof. apply bool_decide_eq_true. Qed.

(** A value changed only while the actuator's mode is not [DISABLE]. *)
Lemma enabled_rudder s x m :
  mode_eqb (rudder_mode_ s) m = true -> m ≠ DISABLE -> neutral s -> neutral (set_raw_rudder_ x s).
Proof. intros E%mode_eqb_eq Hm (H1 & H2 & H3). split_and!; simpl; intros; (congruence || auto). Qed.

Lemma enabled_ballast s x m :
  mode_eqb (ballast_mode_ s) m = true -> m ≠ DISABLE -> neutral s -> neutral (set_raw_ballast_ x s).
Proof. intros E%mode_eqb_eq Hm (H1 & H2 & H3). split_and!; simpl; intros; (congruence || auto). Qed.

Lemma enabled_winch s x m :
  mode_eqb (winch_mode_ s) m = true -> m ≠ DISABLE -> neutral s -> neutral (set_raw_winch_ x s).
Proof. intros E%mode_eqb_eq Hm (H1 & H2 & H3). split_and!; simpl; intros; (congruence || auto). Qed.

Lemma SetRawFromBallastCmd_neutral c s m :
  mode_eqb (ballast_mode_ s) m = true -> m ≠ DISABLE -> neutral s -> neutral (SetRawFromBallastCmd c s).
Proof.
  intros. unfold SetRawFromBallastCmd. destruct (has _); [|destruct (has _); [|done]]; by eapply enabled_ballast.
Qed.

Lemma handle_control_mode_neutral m s : neutral (handle_control_mode m s).
Proof.
  unfold handle_control_mode. cbv zeta.
  destruct (winch_mode m), (rudder_mode m), (ballast_mode m).
  all: repeat match goal with |- context [if ?b then _ else _] => destruct b eqn:? end.
  all: unfold neutral, IsDisabled in *; simpl in *.
  all: split_and!; intros HD; try done; rewrite HD in *; done.
Qed.

Lemma handle_sbus_neutral ch s :
  (4 <=? length ch)%nat = true -> neutral s -> ∃ s', handle_sbus_value ch s = Ok s' ∧ neutral s'.
Proof.
  destruct ch as [|c0 [|c1 [|c2 [|c3 ch]]]]; try done. intros _ Hn. unfold handle_sbus_value. simpl.
  assert (∃ s1, (if IsManualRC RUDDER s then
      Ok (set_raw_rudder_ (nint (nadd (nmul (nsub (nofZ (SBUSToRaw c3)) (nofZ 90)) (dec 5 1)) (nofZ 90))) s)
    else if IsFilteredRC RUDDER s then
      Ok (set_raw_rudder_ (nint (nadd (nmul (nopp (nsub (nofZ (SBUSToRaw c3)) (nofZ 90))) (dec 6 1))
            (nofZ (getZ (rudder_zero (zero_consts_ s)))))) s)
    else Ok s) = Ok (E := ScampErr) s1 ∧ neutral s1) as (s1 & E & H1).
  { destruct (IsManualRC RUDDER s) eqn:E1; [|destruct (IsFilteredRC RUDDER s) eqn:E2]; eexists;
      (split; [done|]); [by eapply enabled_rudder.. |done]. }
  rewrite E. simpl. clear E.
  destruct (IsManualRC WINCH s1) eqn:E1; [|destruct (IsFilteredRC WINCH s1) eqn:E2]; eexists;
    (split; [done|]); [by eapply enabled_winch|done..].
Qed.

Lemma scamp_step_neutral e s :
  sbus_ok e = true -> neutral s -> ∃ s', scamp_step e s = Ok s' ∧ neutral s'.
Proof.
  intros Hb Hn. destruct e as [m|v|b|[] c|[] c|[] c|ch|b|m|]; simpl.
  10: by apply handle_sbus_neutral.
  all: eexists; split; [reflexivity|].
  - unfold handle_zeroing. by destruct (default false _).
  - done.
  - by destruct b.
  - unfold handle_manual_sail_cmd. by destruct (IsManualWiFi _ _).
  - unfold handle_sail_cmd. by destruct (IsAuto _ _).
  - unfold handle_manual_rudder_cmd. destruct (IsManualWiFi RUDDER s) eqn:E; [by eapply enabled_rudder|done].
  - unfold handle_rudder_cmd. destruct (IsAuto RUDDER s) eqn:E; [by eapply enabled_rudder|done].
  - unfold handle_manual_ballast_cmd. destruct (IsManualWiFi BALLAST s) eqn:E; [by eapply SetRawFromBallastCmd_neutral|done].
  - unfold handle_ballast_cmd. destruct (IsAuto BALLAST s) eqn:E; [by eapply SetRawFromBallastCmd_neutral|done].
  - done.
  - apply handle_control_mode_neutral.
  - unfold Scamp_Iterate. cbv zeta. destruct (IsAuto WINCH s || _ || _) eqn:E; [|done].
    rewrite !orb_true_iff in E. destruct E as [[E|E]|E];
      (change (neutral (SetRawFromSailCmd (nfloat (nofZ (volts_winch_ s))) s)); by eapply enabled_winch).
Qed.

Lemma scamp_run_neutral (evs : list (ScampEvent D)) (s : SCAMP D) :
  neutral s -> forallb sbus_ok evs = true -> ∃ s', scamp_run evs s = Ok s' ∧ neutral s'.
Proof.
  revert s. induction evs as [|e evs IH]; intros s Hs; [by exists s|]. simpl. intros [He Hevs]%andb_true_iff.
  destruct (scamp_step_neutral e s He Hs) as (s' & -> & Hs'). simpl. by apply IH.
Qed.

(** An actuator in mode [DISABLE] is always commanded its neutral raw value 90,
    whatever commands, radio values, sensor readings and mode changes arrive; and the
    node handles every sequence of messages without reading past the radio's
    channels, when radio messages carry at least four. *)
Theorem disabled_actuators_neutral (file : option (ZeroingConstants D)) (evs : list (ScampEvent D)) :
  forallb sbus_ok evs = true ->
  ∃ s, scamp_run evs (SCAMP_init file) = Ok s ∧ neutral s.
Proof. by apply scamp_run_neutral. Qed.

(** The radio handler checks for two channels but reads the fourth: a message with two or
    three channels is an out-of-range access as soon as the rudder is under radio
    control. *)
Theorem sbus_short_message_fails (ch : list Z) (s : SCAMP D) :
  (2 <= length ch < 4)%nat -> rudder_mode_ s = MANUAL_RC ∨ rudder_mode_ s = FILTERED_RC ->
  handle_sbus_value ch s = Err BadChannel.
Proof.
  intros Hl Hm. unfold handle_sbus_value, channel.
  destruct (Nat.leb_spec 2 (length ch)); [|lia].
  rewrite (proj2 (lookup_ge_None ch 3)) by lia. simpl.
  unfold IsManualRC, IsFilteredRC. simpl. destruct Hm as [-> | ->]; done.
Qed.
End Disabled.

(** ** Bounds of the raw values, in exact arithmetic *)

Section Bounds.
#[local] Open Scope R_scope.

Lemma Rtrunc_range x n m : IZR n <= x <= IZR m -> (0 <= n)%Z -> (n <= Rtrunc x <= m)%Z.
Proof.
  intros H Hn. pose proof (IZR_le _ _ Hn). pose proof (Zfloor_bound x).
  unfold Rtrunc. destruct (Rlt_dec x 0); [lra|]. split.
  - apply Zfloor_lub. lra.
  - apply le_IZR. lra.
Qed.

Lemma nint_range (x : R) n m :
  IZR n <= x <= IZR m -> (0 <= n)%Z -> (m < 2 ^ 31)%Z -> (n <= nint x <= m)%Z.
Proof.
  intros H Hn Hm. pose proof (Rtrunc_range x n m H Hn). unfold nint, nto. simpl. unfold in_s.
  destruct (Z.leb_spec (- 2 ^ (32 - 1)) (Rtrunc x)); [|lia].
  destruct (Z.ltb_spec (Rtrunc x) (2 ^ (32 - 1))); simpl; lia.
Qed.

(** Truncation towards zero, on both sides of it. *)
Lemma nint_trunc (x : R) n m :
  IZR n - 1 < x < IZR m + 1 -> (n <= 0 <= m)%Z -> (- 2 ^ 31 <= n)%Z -> (m < 2 ^ 31)%Z -> (n <= nint x <= m)%Z.
Proof.
  intros H Hnm Hn Hm. assert (n <= Rtrunc x <= m)%Z as Ht.
  { unfold Rtrunc. destruct (Rlt_dec x 0).
    - pose proof (Zfloor_bound (- x)). assert (0 <= Zfloor (- x))%Z by (apply Zfloor_lub; lra).
      assert (Zfloor (- x) < 1 - n)%Z by (apply lt_IZR; rewrite minus_IZR; lra). lia.
    - pose proof (Zfloor_bound x). assert (0 <= Zfloor x)%Z by (apply Zfloor_lub; lra).
      assert (Zfloor x < m + 1)%Z by (apply lt_IZR; rewrite plus_IZR; lra). lia. }
  unfold nint, nto. simpl. unfold in_s.
  destruct (Z.leb_spec (- 2 ^ (32 - 1)) (Rtrunc x)); [|lia].
  destruct (Z.ltb_spec (Rtrunc x) (2 ^ (32 - 1))); simpl; lia.
Qed.

(** The winch command is always a servo value from 0 to 180, and it never drives the
    sheet beyond its limits: with the sail fully out the value is on the neutral
    value's sheeting-in side, with the sail fully in on its easing side, for either
    orientation of the potentiometer. *)
Theorem winch_command_bounds (volts : R) (s : SCAMP R) :
  let raw := raw_winch_ (SetRawFromSailCmd volts s) in
  let c := zero_consts_ s in
  let reversed := (getZ (winch_0_pot c) <? getZ (winch_90_pot c))%Z in
  (0 <= raw <= 180)%Z
  ∧ (get (winch_out_angle c) <= sail_pos_ s -> if reversed then (90 <= raw)%Z else (raw <= 90)%Z)
  ∧ (sail_pos_ s <= 0 < get (winch_out_angle c) -> if reversed then (raw <= 90)%Z else (90 <= raw)%Z).
Proof.
  cbv zeta. unfold SetRawFromSailCmd. cbv zeta. simpl raw_winch_.
  match goal with |- context [if Rleb ?a ?b then nmin ?x ?y else ?z] =>
    set (v1 := if Rleb a b then nmin x y else z) end.
  assert ((get (winch_out_angle (zero_consts_ s)) <= sail_pos_ s -> v1 <= 0)
    ∧ (sail_pos_ s <= 0 < get (winch_out_angle (zero_consts_ s)) -> 0 <= v1)) as [Hout Hin].
  { unfold v1, nmin, nmax. simpl. repeat case_R; split; intros; lra. }
  clearbody v1. match goal with |- context [if Rltb ?a ?b then ?x else v1] =>
    set (w := if Rltb a b then x else v1) end.
  assert ((v1 <= 0 -> w <= 0) ∧ (0 <= v1 -> 0 <= w)) as [Hw1 Hw2]
    by (unfold w; case_R; split; intros; lra).
  clearbody w. match goal with |- context [nmin ?x ?y] => set (v2 := nmin x y) end.
  assert (-12 <= v2 <= 12 ∧ (v1 <= 0 -> v2 <= 0) ∧ (0 <= v1 -> 0 <= v2)) as (Hv & Hneg & Hpos).
  { unfold v2, nmin, nmax. simpl. destruct (Rltb_spec w (- (12))); case_R; split_and!; try lra;
      intros H0; try specialize (Hw1 H0); try specialize (Hw2 H0); lra. }
  clearbody v2. destruct (_ <? _)%Z.
  - replace (v2 * - (1) / 12 * 90 + 90) with (90 - v2 * 7.5) by lra. split; [apply nint_range; lra || lia|]. split.
    + intros H. apply (nint_range _ 90 180); (lia || (specialize (Hneg (Hout H)); lra)).
    + intros H. apply (nint_range _ 0 90); (lia || (specialize (Hpos (Hin H)); lra)).
  - replace (v2 * 1 / 12 * 90 + 90) with (90 + v2 * 7.5) by lra. split; [apply nint_range; lra || lia|]. split.
    + intros H. apply (nint_range _ 0 90); (lia || (specialize (Hneg (Hout H)); lra)).
    + intros H. apply (nint_range _ 90 180); (lia || (specialize (Hpos (Hin H)); lra)).
Qed.
End Bounds.

(** The winch voltage starts at 90, so the first iteration after switching the winch to
    [AUTO], before any sail command, drives the winch at full voltage. *)
Theorem winch_auto_starts_full (L : Libm) :
  scamp_out <$> match scamp_run (D := float) (ND := num_float L)
      [SEvControlMode (MkControlMode (Some AUTO) None None None None); SEvIterate]
      (SCAMP_init (ND := num_float L) None) with Ok s => Some s | Err _ => None end
  = Some [OutPwm 0 90 90; OutZeroing (default_zeroing (ND := num_float L))].
Proof. vm_compute. reflexivity. Qed.

Lemma disabled_actuators_witness : ∃ s,
  scamp_run (ND := num_poly) [SEvSbus [0; 0; 0; 2000]; SEvRudder false (MkRudderCmd None (Some 1%float)); SEvIterate]
    (SCAMP_init (ND := num_poly) None) = Ok s ∧ neutral s.
Proof. apply (disabled_actuators_neutral (ND := num_poly)). reflexivity. Defined.

Lemma sbus_short_message_witness :
  handle_sbus_value (ND := num_poly) [1000; 1000]
    (set_rudder_mode_ MANUAL_RC (SCAMP_init (ND := num_poly) None)) = Err BadChannel.
Proof. apply (sbus_short_message_fails (ND := num_poly)); [simpl; lia | left; reflexivity]. Defined.
