(* ===== verification/ScampThreads.v ===== *)
(** * The threads of the actuator node

    src/control/scamp.cc: the handlers run in threads of their own beside [Iterate], and the modes
    and raw values they share are single atomic members, without a lock over a test of a mode
    and the store it guards.  The bodies of Scamp are here sequences of single accesses.
    The mutex of [state_msg_] is left out, which only adds interleavings. *)

From Stdlib Require Import ZArith Lia Reals.
From stdpp Require Import base list relations.
From S2P Require Import Prelude Threads Num NumR NumF Vec Util Messages Scamp.

#[local] Open Scope Z_scope.

Section Bodies.
Context {D : Type} {ND : Num D}.
#[local] Open Scope num_scope.
Abbreviation body := (thread (SCAMP D) ScampErr).

(** ** Accesses *)

Definition load_mode (a : Actuator) (m : MODE) (k : bool -> body) : body := load (GetMode a) (λ x, k (mode_eqb x m)).
Definition load_const {A : Type} (get : ZeroingConstants D -> A) (k : A -> body) : body := load (λ s, get (zero_consts_ s)) k.
Definition store_const (upd : ZeroingConstants D -> ZeroingConstants D) (k : body) : body :=
  store (λ s, set_zero_consts_ (upd (zero_consts_ s)) s) k.
Definition store_state (upd : InternalBoatState D -> InternalBoatState D) (k : body) : body :=
  store (λ s, set_scamp_state_msg_ (upd (scamp_state_msg_ s)) s) k.
(** A store when the message has the field. *)
Definition store_opt {A : Type} (o : option A) (set : A -> SCAMP D -> SCAMP D) (k : body) : body :=
  match o with Some x => store (set x) k | None => k end.

Definition zc_rudder (x : Z) (c : ZeroingConstants D) := MkZeroing (Some x) (winch_0_pot c) (winch_90_pot c) (ballast_zero c) (write_constants c) (winch_out_angle c).
Definition zc_winch_0 (x : Z) (c : ZeroingConstants D) := MkZeroing (rudder_zero c) (Some x) (winch_90_pot c) (ballast_zero c) (write_constants c) (winch_out_angle c).
Definition zc_winch_90 (x : Z) (c : ZeroingConstants D) := MkZeroing (rudder_zero c) (winch_0_pot c) (Some x) (ballast_zero c) (write_constants c) (winch_out_angle c).
Definition zc_ballast (x : D) (c : ZeroingConstants D) := MkZeroing (rudder_zero c) (winch_0_pot c) (winch_90_pot c) (Some x) (write_constants c) (winch_out_angle c).
Definition zc_out_angle (x : D) (c : ZeroingConstants D) := MkZeroing (rudder_zero c) (winch_0_pot c) (winch_90_pot c) (ballast_zero c) (write_constants c) (Some x).

(** ** The handlers of constants and sensors *)

Definition zeroing_body (m : ZeroingConstants D) : body :=
  let rest :=
    store_opt (rudder_zero m) (λ x s, set_zero_consts_ (zc_rudder x (zero_consts_ s)) s)
    (store_opt (ballast_zero m) (λ x s, set_zero_consts_ (zc_ballast x (zero_consts_ s)) s)
    (store_opt (winch_out_angle m) (λ x s, set_zero_consts_ (zc_out_angle x (zero_consts_ s)) s)
    (if default false (write_constants m) then store (λ s, scamp_send (OutFile (zero_consts_ s)) s) Done else Done))) in
  match winch_0_pot m, winch_90_pot m with
  | Some x0, Some x90 => store_const (zc_winch_0 x0) (store_const (zc_winch_90 x90) rest)
  | _, _ => rest
  end.

Definition analog_pot_body (val : Z) : body :=
  store (set_scamp_state_msg_ Internal_clear)
  (load_const winch_90_pot (λ w90, load_const winch_0_pot (λ w0,
  let kPotRange := wraps 32 (getZ w90 - getZ w0) in
  load_const winch_0_pot (λ w0, load_const winch_out_angle (λ out,
  store (set_sail_pos_
    (nfloat (nfloat (fsub (nfloat (nofZ val)) (nfloat (nofZ (getZ w0))) / nfloat (nofZ kPotRange)) * get out)))
  (load sail_pos_ (λ p, store_state (set_sail (Some (nfloat p)))
  (load raw_rudder_ (λ r, load_const rudder_zero (λ z,
  store_state (set_rudder (Some (nfloat (nofZ (wraps 32 (r - getZ z)) * npi / #180))))
  (store (λ s, scamp_send (OutInternal (scamp_state_msg_ s)) s) Done))))))))))).

Definition ballast_state_body (b : option D) : body :=
  match b with
  | None => Done
  | Some b =>
      store (set_scamp_state_msg_ Internal_clear)
      (load_const ballast_zero (λ z, store_state (set_ballast (Some (nfloat (b - get z))))
      (load scamp_state_msg_ (λ m, store (set_ballast_pos_ (get (ballast m)))
      (store (λ s, scamp_send (OutInternal (scamp_state_msg_ s)) s) Done)))))
  end.

Definition connection_body (connected : bool) : body := store (handle_connection connected) Done.

(** ** The handlers of commands *)

Definition SetRawFromSailCmd_body (volts : D) (k : body) : body :=
  let next (volts : D) : body :=
    let volts := if nabs volts <? #1 then #0 else volts in
    let volts := nmin (nmax volts (- #12)) #12 in
    load_const winch_90_pot (λ w90, load_const winch_0_pot (λ w0,
    let volts := nfloat (volts * (if (getZ w0 <? getZ w90)%Z then - #1 else #1)) in
    store (set_raw_winch_ (nint (volts / #12 * #90 + #90))) k)) in
  load sail_pos_ (λ p, load_const winch_out_angle (λ out,
  if get out <=? p then next (nmin volts #0)
  else load sail_pos_ (λ p, next (if p <=? #0 then nmax volts #0 else volts)))).

Definition SetRawFromRudderCmd_body (cmd : RudderCmd D) (k : body) : body :=
  load_const rudder_zero (λ z, store (set_raw_rudder_ (nint (get (rudder_pos cmd) / npi * #180 + nofZ (getZ z)))) k).

Definition SetRawFromBallastCmd_body (cmd : BallastCmd D) (k : body) : body :=
  if has (ballast_vel cmd) then store (set_raw_ballast_ (nint (nfloat (get (ballast_vel cmd) + #90)))) k
  else if has (ballast_voltage cmd) then
    let volts := Clip (get (ballast_voltage cmd)) (- #12) #12 in
    let next (volts : D) : body := store (set_raw_ballast_ (nint (volts * #90 / #12 + #90))) k in
    load ballast_pos_ (λ p, if dec 11 1 <=? p then next (nmin volts #0)
    else load ballast_pos_ (λ p, next (if p <=? - dec 11 1 then nmax volts #0 else volts)))
  else k.

Definition cmd_mode (manual : bool) : MODE := if manual then MANUAL_WIFI else AUTO.

Definition sail_cmd_body (manual : bool) (cmd : SailCmd D) : body :=
  load_mode WINCH (cmd_mode manual) (λ b,
  if b then store (set_volts_winch_ (nint (get (sail_voltage cmd)))) Done else Done).
Definition rudder_cmd_body (manual : bool) (cmd : RudderCmd D) : body :=
  load_mode RUDDER (cmd_mode manual) (λ b, if b then SetRawFromRudderCmd_body cmd Done else Done).
Definition ballast_cmd_body (manual : bool) (cmd : BallastCmd D) : body :=
  load_mode BALLAST (cmd_mode manual) (λ b, if b then SetRawFromBallastCmd_body cmd Done else Done).

Definition sbus_rudder_body (ch : list Z) (k : body) : body :=
  load_mode RUDDER MANUAL_RC (λ b,
  if b then attempt (λ _, channel ch 3) (λ c,
    store (set_raw_rudder_ (nint ((nofZ (SBUSToRaw (D := D) c) - #90) * dec 5 1 + #90))) k)
  else load_mode RUDDER FILTERED_RC (λ b,
    if b then attempt (λ _, channel ch 3) (λ c, load_const rudder_zero (λ z,
      store (set_raw_rudder_ (nint (- (nofZ (SBUSToRaw (D := D) c) - #90) * dec 6 1 + nofZ (getZ z)))) k))
    else k)).
Definition sbus_winch_body (ch : list Z) (k : body) : body :=
  load_mode WINCH MANUAL_RC (λ b,
  if b then attempt (λ _, channel ch 1) (λ c, store (set_raw_winch_ (SBUSToRaw (D := D) c)) k)
  else load_mode WINCH FILTERED_RC (λ b,
    if b then attempt (λ _, channel ch 1) (λ c,
      store (set_volts_winch_ (nint (- (nofZ (SBUSToRaw (D := D) c) - #90) * #6 / #90))) k)
    else k)).
Definition sbus_value_body (ch : list Z) : body :=
  if (2 <=? length ch)%nat then sbus_rudder_body ch (sbus_winch_body ch Done) else Done.

(** ** The mode and the iteration *)

Definition control_mode_body (m : ControlMode) : body :=
  store_opt (winch_mode m) set_winch_mode_
  (store_opt (rudder_mode m) set_rudder_mode_
  (store_opt (ballast_mode m) set_ballast_mode_
  (let balls := load_mode BALLAST DISABLE (λ b, if b then store (set_raw_ballast_ 90) Done else Done) in
   let winch := load_mode WINCH DISABLE (λ b, if b then store (set_raw_winch_ 90) balls else balls) in
   load_mode RUDDER DISABLE (λ b, if b then store (set_raw_rudder_ 90) winch else winch)))).

Definition Scamp_send_body : body :=
  load raw_winch_ (λ w, load raw_rudder_ (λ r, load raw_ballast_ (λ b,
  store (scamp_send (OutPwm (wrapu 32 w) (wrapu 32 r) (wrapu 32 b)))
  (store (λ s, scamp_send (OutZeroing (zero_consts_ s)) s) Done)))).

Definition Scamp_Iterate_body : body :=
  let sail := load volts_winch_ (λ v, SetRawFromSailCmd_body (nfloat (nofZ v)) Scamp_send_body) in
  load_mode WINCH AUTO (λ b, if b then sail else
  load_mode WINCH MANUAL_WIFI (λ b, if b then sail else
  load_mode WINCH FILTERED_RC (λ b, if b then sail else Scamp_send_body))).

Definition scamp_body (e : ScampEvent D) : body :=
  match e with
  | SEvZeroing m => zeroing_body m
  | SEvAnalogPot v => analog_pot_body v
  | SEvBallastState b => ballast_state_body b
  | SEvSail manual c => sail_cmd_body manual c
  | SEvRudder manual c => rudder_cmd_body manual c
  | SEvBallast manual c => ballast_cmd_body manual c
  | SEvSbus ch => sbus_value_body ch
  | SEvConnection b => connection_body b
  | SEvControlMode m => control_mode_body m
  | SEvIterate => Scamp_Iterate_body
  end.

(** ** Without interference they are the steps of Scamp *)

Lemma alone_sail_cmd volts k (s : SCAMP D) :
  run_alone (SetRawFromSailCmd_body volts k) s = run_alone k (SetRawFromSailCmd volts s).
Proof.
  unfold SetRawFromSailCmd_body, SetRawFromSailCmd. cbn -[nleb nltb nmin nmax]. by destruct (nleb _ (sail_pos_ s)).
Qed.

Lemma alone_ballast_cmd c (s : SCAMP D) :
  run_alone (SetRawFromBallastCmd_body c Done) s = Ok (SetRawFromBallastCmd c s).
Proof.
  unfold SetRawFromBallastCmd_body, SetRawFromBallastCmd. destruct (has _); [done|]. destruct (has _); [|done].
  cbn -[nleb nltb nmin nmax Clip dec]. by destruct (nleb _ (ballast_pos_ s)).
Qed.

Lemma alone_sbus ch (s : SCAMP D) : run_alone (sbus_value_body ch) s = handle_sbus_value ch s.
Proof.
  unfold sbus_value_body, handle_sbus_value. destruct (Nat.leb _ _); [|done].
  unfold sbus_rudder_body, sbus_winch_body, load_mode, load_const, IsManualRC, IsFilteredRC.
  rewrite alone_load. destruct (mode_eqb (GetMode RUDDER s) MANUAL_RC);
    [|rewrite alone_load; destruct (mode_eqb (GetMode RUDDER s) FILTERED_RC)];
    rewrite ?alone_attempt; (destruct (channel ch 3) as [c3|]; [|try done]); cbn [rbind]; rewrite ?alone_load, ?alone_store, ?alone_load;
  match goal with |- context [mode_eqb ?m MANUAL_RC] => destruct (mode_eqb m MANUAL_RC) end;
  rewrite ?alone_load;
  try match goal with |- context [mode_eqb ?m FILTERED_RC] => destruct (mode_eqb m FILTERED_RC) end;
  rewrite ?alone_attempt; destruct (channel ch 1); try done.
Qed.

Lemma alone_scamp_body e (s : SCAMP D) : run_alone (scamp_body e) s = scamp_step e s.
Proof.
  destruct e as [m|v|b|[] c|[] c|[] c|ch|b|m|]; cbn [scamp_body scamp_step].
  - destruct m as [[] [] [] [] [[]|] []], s as [[]]; reflexivity.
  - reflexivity.
  - by destruct b.
  - unfold handle_manual_sail_cmd. cbn. unfold IsManualWiFi, GetMode. by destruct (mode_eqb _ _).
  - unfold handle_sail_cmd. cbn. unfold IsAuto, GetMode. by destruct (mode_eqb _ _).
  - unfold handle_manual_rudder_cmd. cbn. unfold IsManualWiFi, GetMode. by destruct (mode_eqb _ _).
  - unfold handle_rudder_cmd. cbn. unfold IsAuto, GetMode. by destruct (mode_eqb _ _).
  - unfold handle_manual_ballast_cmd, ballast_cmd_body, load_mode. rewrite alone_load. unfold IsManualWiFi. cbn [cmd_mode].
    destruct (mode_eqb _ _); [apply alone_ballast_cmd|done].
  - unfold handle_ballast_cmd, ballast_cmd_body, load_mode. rewrite alone_load. unfold IsAuto. cbn [cmd_mode].
    destruct (mode_eqb _ _); [apply alone_ballast_cmd|done].
  - apply alone_sbus.
  - reflexivity.
  - unfold control_mode_body, handle_control_mode, IsDisabled, GetMode, load_mode.
    destruct (winch_mode m), (rudder_mode m), (ballast_mode m); cbn;
      repeat match goal with |- context [mode_eqb ?a DISABLE] => destruct (mode_eqb a DISABLE) eqn:?; cbn end; done.
  - unfold Scamp_Iterate_body, Scamp_Iterate, load_mode, IsAuto, IsManualWiFi, IsFilteredRC. rewrite !alone_load.
    destruct (mode_eqb _ AUTO); cbn [orb]; [by rewrite alone_load, alone_sail_cmd|].
    rewrite alone_load. destruct (mode_eqb _ MANUAL_WIFI); cbn [orb]; [by rewrite alone_load, alone_sail_cmd|].
    rewrite alone_load. destruct (mode_eqb _ FILTERED_RC); [by rewrite alone_load, alone_sail_cmd|done].
Qed.
End Bodies.

(** ** All interleavings *)

Inductive ScampThread :=
| ThZeroing | ThPot | ThBallastState | ThSail (manual : bool) | ThRudder (manual : bool) | ThBallast (manual : bool)
| ThSbus | ThConnection | ThControlMode | ThIterate.
#[export] Instance ScampThread_eq_dec : EqDecision ScampThread.
Proof. solve_decision. Defined.

Definition thread_of {D : Type} (e : ScampEvent D) : ScampThread :=
  match e with
  | SEvZeroing _ => ThZeroing
  | SEvAnalogPot _ => ThPot
  | SEvBallastState _ => ThBallastState
  | SEvSail manual _ => ThSail manual
  | SEvRudder manual _ => ThRudder manual
  | SEvBallast manual _ => ThBallast manual
  | SEvSbus _ => ThSbus
  | SEvConnection _ => ThConnection
  | SEvControlMode _ => ThControlMode
  | SEvIterate => ThIterate
  end.

(** The threads that store a raw value after a test of its mode. *)
Definition sets_raw (i : ScampThread) : bool :=
  match i with ThRudder _ | ThBallast _ | ThSbus | ThIterate => true | _ => false end.

(** A change of the modes does not overlap with them. *)
Definition mode_alone (i j : ScampThread) : Prop :=
  i = ThControlMode ∧ sets_raw j = true ∨ sets_raw i = true ∧ j = ThControlMode.
#[export] Instance mode_alone_dec : RelDecision mode_alone.
Proof. intros i j. unfold mode_alone. apply _. Defined.

Section Interleaved.
Context {D : Type} {ND : Num D}.

Definition scamp_bodies (i : ScampThread) (t : thread (SCAMP D) ScampErr) : Prop :=
  ∃ e, thread_of e = i ∧ sbus_ok e = true ∧ t = scamp_body e.

Definition modes (s : SCAMP D) : MODE * MODE * MODE := (rudder_mode_ s, winch_mode_ s, ballast_mode_ s).
Definition raws (s : SCAMP D) : Z * Z * Z := (raw_rudder_ s, raw_winch_ s, raw_ballast_ s).

(** A message to the actuator board has the neutral value for the actuators that are disabled
    when it is sent. *)
Definition pwm_neutral (s : SCAMP D) (w r b : Z) : Prop :=
  (winch_mode_ s = DISABLE -> w = 90) ∧ (rudder_mode_ s = DISABLE -> r = 90) ∧ (ballast_mode_ s = DISABLE -> b = 90).
Definition pwm_ok (s s' : SCAMP D) : Prop :=
  ∀ w r b, scamp_out s' = scamp_out s ++ [OutPwm w r b] ->
    pwm_neutral s w r b ∧ 0 <= w < 2 ^ 32 ∧ 0 <= r < 2 ^ 32 ∧ 0 <= b < 2 ^ 32.

Definition scamp_guar (i : ScampThread) (s s' : SCAMP D) : Prop :=
  pwm_ok s s' ∧
  (if sets_raw i then modes s' = modes s ∧ (neutral s -> neutral s')
   else match i with ThControlMode => True | _ => modes s' = modes s ∧ raws s' = raws s end).
Definition scamp_rely (i : ScampThread) (s s' : SCAMP D) : Prop :=
  if sets_raw i then modes s' = modes s ∧ (neutral s -> neutral s')
  else match i with ThControlMode => modes s' = modes s ∧ raws s' = raws s | _ => True end.
Definition scamp_idle (i : ScampThread) (s : SCAMP D) : Prop :=
  if sets_raw i then neutral s else match i with ThControlMode => neutral s | _ => True end.

Abbreviation srg i := (rg (E := ScampErr) (λ _, True) (scamp_rely i) (scamp_guar i) (scamp_idle i)).

Lemma same_neutral (s s' : SCAMP D) : modes s' = modes s -> raws s' = raws s -> neutral s -> neutral s'.
Proof. unfold modes, raws, neutral. intros [= -> -> ->] [= -> -> ->]. done. Qed.

Lemma pwm_ok_same (s s' : SCAMP D) : scamp_out s' = scamp_out s -> pwm_ok s s'.
Proof. intros E w r b. rewrite E. intros H%(f_equal length). rewrite length_app in H. simpl in H. lia. Qed.
Lemma pwm_ok_other (s s' : SCAMP D) o :
  scamp_out s' = scamp_out s ++ [o] -> (∀ w r b, o ≠ OutPwm w r b) -> pwm_ok s s'.
Proof. intros E Ho w r b. rewrite E. intros H%app_inj_2; [|done]. destruct H as [_ [= ->]]. by destruct (Ho w r b). Qed.

(** *** Threads that set a raw value *)

(** What they know: every disabled actuator is at its neutral value, and something of the modes. *)
Definition held (Q : MODE * MODE * MODE -> Prop) (s : SCAMP D) : Prop := neutral s ∧ Q (modes s).

Lemma held_stable i Q : sets_raw i = true -> stable (λ _, True) (scamp_rely i) (held Q).
Proof. unfold scamp_rely. intros -> s s' _ _ [Em Hn] [H1 H2]. split; [auto|by rewrite Em]. Qed.

Section Sets.
Variables (i : ScampThread) (Hi : sets_raw i = true).

Lemma sets_refl (s : SCAMP D) : scamp_guar i s s.
Proof. split; [by apply pwm_ok_same|by rewrite Hi]. Qed.

Lemma sets_load {A} (Q : MODE * MODE * MODE -> Prop) (Q' : A -> MODE * MODE * MODE -> Prop) (get : SCAMP D -> A) k :
  (∀ s, neutral s -> Q (modes s) -> Q' (get s) (modes s)) -> (∀ a, srg i (held (Q' a)) (k a)) ->
  srg i (held Q) (load get k).
Proof.
  intros H Hk. apply (rg_load _ (λ a, held (Q' a))).
  - intros s _ [Hn HQ]. split; [apply sets_refl|]. split; auto.
  - intros a. by apply held_stable.
  - auto.
Qed.
Lemma sets_load_any {A} (Q : MODE * MODE * MODE -> Prop) (get : SCAMP D -> A) k :
  (∀ a, srg i (held Q) (k a)) -> srg i (held Q) (load get k).
Proof. intros Hk. by apply (sets_load Q (λ _, Q)). Qed.

Definition mode_in (a : Actuator) (t : MODE * MODE * MODE) : MODE :=
  match a with RUDDER => t.1.1 | WINCH => t.1.2 | BALLAST => t.2 end.

Lemma sets_mode Q a m k :
  srg i (held (λ t, Q t ∧ mode_in a t = m)) (k true) -> srg i (held Q) (k false) -> srg i (held Q) (load_mode a m k).
Proof.
  intros Ht Hf. apply (sets_load _ (λ x t, Q t ∧ (mode_eqb x m = true -> mode_in a t = m))).
  - intros s _ HQ. split; [done|]. intros E%mode_eqb_eq. by destruct a.
  - intros x. destruct (mode_eqb x m).
    + eapply rg_weaken; [|exact Ht]. intros s _ (Hn & HQ & Hm). split; auto.
    + eapply rg_weaken; [|exact Hf]. intros s _ (Hn & HQ & _). by split.
Qed.

Lemma sets_store (Q : MODE * MODE * MODE -> Prop) set k :
  (∀ s, held Q s -> modes (set s) = modes s ∧ neutral (set s) ∧ pwm_ok s (set s)) ->
  srg i (held Q) k -> srg i (held Q) (store set k).
Proof.
  intros Hs Hk. apply (rg_store _ (held Q)); [|by apply held_stable|done].
  intros s _ [Hn HQ]. destruct (Hs s) as (Em & Hn' & Hp); [done|]. split; [done|]. split; [|split; [done|by rewrite Em]].
  split; [done|]. by rewrite Hi.
Qed.

(** The raw value of an actuator that is not disabled. *)
Lemma sets_raw_value (Q : MODE * MODE * MODE -> Prop) (a : Actuator) x k :
  (∀ t, Q t -> mode_in a t ≠ DISABLE) -> srg i (held Q) k ->
  srg i (held Q) (store (match a with RUDDER => set_raw_rudder_ x | WINCH => set_raw_winch_ x | BALLAST => set_raw_ballast_ x end) k).
Proof.
  intros HQ Hk. apply sets_store; [|done]. intros s [(H1 & H2 & H3) Hq]. specialize (HQ _ Hq).
  split; [by destruct a|]. split; [|apply pwm_ok_same; by destruct a].
  destruct a; cbn in HQ; unfold neutral; cbn; auto; split_and!; auto; intros; done.
Qed.

Lemma sets_attempt {A} Q (r : result ScampErr A) k :
  (∃ a, r = Ok a) -> (∀ a, srg i (held Q) (k a)) -> srg i (held Q) (attempt (λ _, r) k).
Proof.
  intros [a ->] Hk. apply (rg_attempt _ (λ _, held Q)); [|intros ?; by apply held_stable|auto].
  intros s _ Hs. split; [apply sets_refl|]. by exists a.
Qed.

Lemma sets_done Q : srg i (held Q) Done.
Proof. constructor. intros s _ [Hn _]. unfold scamp_idle. by rewrite Hi. Qed.

Lemma sail_cmd_rg Q volts k :
  (∀ t, Q t -> mode_in WINCH t ≠ DISABLE) -> srg i (held Q) k -> srg i (held Q) (SetRawFromSailCmd_body volts k).
Proof.
  intros HQ Hk. unfold SetRawFromSailCmd_body. do 2 (apply sets_load_any; intros ?).
  destruct (nleb _ _); [|apply sets_load_any; intros ?]; do 2 (apply sets_load_any; intros ?);
    by apply (sets_raw_value Q WINCH).
Qed.
End Sets.

Lemma rudder_cmd_rg manual c : srg (ThRudder manual) (held (λ _, True)) (rudder_cmd_body manual c).
Proof.
  apply sets_mode; [done| |by apply sets_done]. apply sets_load_any; [done|]. intros z.
  apply (sets_raw_value (ThRudder manual) eq_refl _ RUDDER); [|by apply sets_done]. intros t [_ ->]. by destruct manual.
Qed.

Lemma ballast_cmd_rg manual c : srg (ThBallast manual) (held (λ _, True)) (ballast_cmd_body manual c).
Proof.
  apply sets_mode; [done| |by apply sets_done].
  set (Q := λ t : MODE * MODE * MODE, True ∧ mode_in BALLAST t = cmd_mode manual).
  assert (∀ x, srg (ThBallast manual) (held Q) (store (set_raw_ballast_ x) Done)) as Hs.
  { intros x. apply (sets_raw_value (ThBallast manual) eq_refl _ BALLAST); [|by apply sets_done]. intros t [_ ->]. by destruct manual. }
  unfold SetRawFromBallastCmd_body. destruct (has _); [apply Hs|]. destruct (has _); [|by apply sets_done].
  apply sets_load_any; [done|]. intros p. destruct (nleb _ _); [apply Hs|]. apply sets_load_any; [done|]. intros p'. apply Hs.
Qed.

Lemma sbus_rg ch : (4 <=? length ch)%nat = true -> srg ThSbus (held (λ _, True)) (sbus_value_body ch).
Proof.
  intros Hl. unfold sbus_value_body. destruct (Nat.leb_spec 2 (length ch)); [|by apply sets_done].
  destruct ch as [|c0 [|c1 [|c2 [|c3 ch]]]]; try done.
  assert (srg ThSbus (held (λ _, True)) (sbus_winch_body (c0 :: c1 :: c2 :: c3 :: ch) Done)) as Hw.
  { apply sets_mode; [done| |apply sets_mode; [done| |by apply sets_done]]; (apply sets_attempt; [done|by exists c1|]; intros c).
    - apply (sets_raw_value ThSbus eq_refl _ WINCH); [by intros t [_ ->]|by apply sets_done].
    - apply sets_store; [done| |by apply sets_done]. intros s [Hn _]. split_and!; [done|done|by apply pwm_ok_same]. }
  assert (∀ Q, srg ThSbus (held Q) (sbus_winch_body (c0 :: c1 :: c2 :: c3 :: ch) Done)) as Hw'.
  { intros Q. eapply rg_weaken; [|exact Hw]. by intros s _ [? _]. }
  apply sets_mode; [done| |apply sets_mode; [done| |done]]; (apply sets_attempt; [done|by exists c3|]; intros c).
  - apply (sets_raw_value ThSbus eq_refl _ RUDDER); [by intros t [_ ->]|done].
  - apply sets_load_any; [done|]. intros z. apply (sets_raw_value ThSbus eq_refl _ RUDDER); [by intros t [_ ->]|done].
Qed.

(** The values that an iteration sends are those of the disabled actuators since its loads. *)
Lemma send_rg : srg ThIterate (held (λ _, True)) Scamp_send_body.
Proof.
  unfold Scamp_send_body.
  apply (sets_load ThIterate eq_refl _ (λ w t, t.1.2 = DISABLE -> w = 90)); [by intros s (_ & H & _) _|]. intros w.
  apply (sets_load ThIterate eq_refl _ (λ r t, (t.1.2 = DISABLE -> w = 90) ∧ (t.1.1 = DISABLE -> r = 90)));
    [intros s (H & _ & _) ?; by split|]. intros r.
  apply (sets_load ThIterate eq_refl _ (λ b t, ((t.1.2 = DISABLE -> w = 90) ∧ (t.1.1 = DISABLE -> r = 90)) ∧ (t.2 = DISABLE -> b = 90)));
    [intros s (_ & _ & H) ?; by split|]. intros b.
  apply sets_store; [done| |].
  - intros s [Hn [[Hw Hr] Hb]]. split_and!; [done|done|]. intros w' r' b' E%app_inj_2; [|done].
    destruct E as [_ [= <- <- <-]]. cbn in *. split_and!; try (apply wrapu_range; lia).
    split_and!; intros Hm; [by rewrite Hw|by rewrite Hr|by rewrite Hb].
  - apply sets_store; [done| |by apply sets_done]. intros s [Hn _]. split_and!; [done|done|by eapply pwm_ok_other].
Qed.

Lemma scamp_iterate_rg : srg ThIterate (held (λ _, True)) Scamp_Iterate_body.
Proof.
  assert (∀ m v, m ≠ DISABLE -> srg ThIterate (held (λ t, True ∧ mode_in WINCH t = m))
    (SetRawFromSailCmd_body v Scamp_send_body)) as Hs.
  { intros m v Hm. apply sail_cmd_rg; [done|by intros t [_ ->]|]. eapply rg_weaken; [|exact send_rg].
    by intros s _ [? _]. }
  unfold Scamp_Iterate_body. do 3 (apply sets_mode; [done|apply sets_load_any; [done|]; intros v; by apply Hs|]).
  apply send_rg.
Qed.

(** *** Threads that leave the modes and the raw values *)

Definition quiet_thread (i : ScampThread) : bool :=
  match i with ThZeroing | ThPot | ThBallastState | ThSail _ | ThConnection => true | _ => false end.

Section Quiet.
Variables (i : ScampThread) (Hi : quiet_thread i = true).

Lemma quiet_guar (s s' : SCAMP D) : modes s' = modes s -> raws s' = raws s -> pwm_ok s s' -> scamp_guar i s s'.
Proof. intros. split; [done|]. by destruct i. Qed.

Lemma quiet_load {A} (get : SCAMP D -> A) k : (∀ a, srg i (λ _, True) (k a)) -> srg i (λ _, True) (load get k).
Proof.
  intros Hk. apply (rg_load _ (λ _ _, True)); [|done|auto]. intros s _ _. split; [|done].
  apply quiet_guar; [done|done|by apply pwm_ok_same].
Qed.

Lemma quiet_store set k :
  (∀ s, modes (set s) = modes s ∧ raws (set s) = raws s ∧ pwm_ok s (set s)) ->
  srg i (λ _, True) k -> srg i (λ _, True) (store set k).
Proof.
  intros Hs Hk. apply (rg_store _ (λ _, True)); [|done|done]. intros s _ _. destruct (Hs s) as (? & ? & ?).
  split; [done|]. split; [by apply quiet_guar|done].
Qed.

Lemma quiet_done : srg i (λ _, True) Done.
Proof. constructor. by destruct i. Qed.

Lemma quiet_store_opt {A} (o : option A) set k :
  (∀ x s, modes (set x s) = modes s ∧ raws (set x s) = raws s ∧ pwm_ok s (set x s)) ->
  srg i (λ _, True) k -> srg i (λ _, True) (store_opt o set k).
Proof. intros Hs Hk. destruct o as [x|]; [by apply quiet_store|done]. Qed.
End Quiet.

(** The side conditions of a store to a member of its own, and of the sending of a message. *)
Local Ltac keeps := intros; split; [done|]; split; [done|]; first [by apply pwm_ok_same | by eapply pwm_ok_other].
Local Ltac quiet_steps :=
  repeat first
    [ apply quiet_done; reflexivity
    | apply quiet_load; [reflexivity|intros ?]
    | apply quiet_store; [reflexivity|keeps|]
    | apply quiet_store_opt; [reflexivity|keeps|] ].

Lemma quiet_bodies (e : ScampEvent D) :
  quiet_thread (thread_of e) = true -> srg (thread_of e) (λ _, True) (scamp_body e).
Proof.
  destruct e as [m|v|b|manual c|manual c|manual c|ch|b|m|]; cbn [thread_of scamp_body]; try done; intros _.
  - unfold zeroing_body, store_const. destruct (winch_0_pot m), (winch_90_pot m), (default false _); quiet_steps.
  - unfold analog_pot_body, load_const, store_state. quiet_steps.
  - destruct b; unfold ballast_state_body, load_const, store_state; quiet_steps.
  - unfold sail_cmd_body, load_mode. apply quiet_load; [done|]. intros x. destruct (mode_eqb _ _); quiet_steps.
  - unfold connection_body. quiet_steps.
Qed.

(** *** The change of modes *)

Abbreviation mrg := (srg ThControlMode).

(** Knowledge of the modes and raw values, which nobody else changes meanwhile. *)
Definition fixed (Q : MODE * MODE * MODE -> Z * Z * Z -> Prop) (s : SCAMP D) : Prop := Q (modes s) (raws s).

Lemma fixed_stable Q : stable (λ _, True) (scamp_rely ThControlMode) (fixed Q).
Proof. intros s s' _ _ [Em Er] H. unfold fixed. by rewrite Em, Er. Qed.

Lemma mode_store Q Q' set k :
  (∀ s, scamp_out (set s) = scamp_out s) -> (∀ s, fixed Q s -> fixed Q' (set s)) -> mrg (fixed Q') k -> mrg (fixed Q) (store set k).
Proof.
  intros Ho Hs Hk. apply (rg_store _ (fixed Q')); [|apply fixed_stable|done]. intros s _ HQ.
  split; [done|]. split; [|by apply Hs]. split; [by apply pwm_ok_same|done].
Qed.

Lemma mode_store_opt {A} (o : option A) set k :
  (∀ x s, scamp_out (set x s) = scamp_out s) -> mrg (fixed (λ _ _, True)) k -> mrg (fixed (λ _ _, True)) (store_opt o set k).
Proof. intros Ho Hk. destruct o as [x|]; [|done]. cbn. apply (mode_store _ (λ _ _, True)); [apply Ho|done|done]. Qed.

(** The test of a mode, and the neutral value that follows. *)
Lemma mode_disable (Q Q' : MODE * MODE * MODE -> Z * Z * Z -> Prop) a set k :
  (∀ s, scamp_out (set s) = scamp_out s) ->
  (∀ s, fixed Q s -> fixed Q' (set s)) ->
  (∀ s, fixed Q s -> GetMode a s ≠ DISABLE -> fixed Q' s) ->
  mrg (fixed Q') k ->
  mrg (fixed Q) (load_mode a DISABLE (λ b, if b then store set k else k)).
Proof.
  intros Ho Ht Hf Hk. apply (rg_load _ (λ x s, fixed Q s ∧ GetMode a s = x)).
  - intros s _ HQ. split; [|done]. split; [by apply pwm_ok_same|done].
  - intros x s s' _ _ HR [HQ E]. split; [by apply (fixed_stable Q s s')|].
    destruct HR as [Em _]. unfold modes in Em. injection Em as E1 E2 E3. destruct a; cbn in *; congruence.
  - intros s _ _. destruct (mode_eqb (GetMode a s) DISABLE) eqn:E.
    + apply (rg_weaken _ _ _ _ (fixed Q)); [by intros t _ [? _]|]. by apply (mode_store Q Q').
    + eapply rg_weaken; [|exact Hk]. intros t _ [HQ Et]. apply Hf; [done|]. rewrite Et. intros Ed.
      rewrite Ed in E. done.
Qed.

Lemma control_mode_rg m : mrg (scamp_idle ThControlMode) (control_mode_body m).
Proof.
  apply (rg_weaken _ _ _ _ (fixed (λ _ _, True))); [done|]. unfold control_mode_body.
  do 3 (apply mode_store_opt; [done|]). cbv zeta.
  apply (mode_disable _ (λ t r, t.1.1 = DISABLE -> r.1.1 = 90)); [done|done|intros s _ Hm Hd; by destruct (Hm Hd)|].
  apply (mode_disable _ (λ t r, (t.1.1 = DISABLE -> r.1.1 = 90) ∧ (t.1.2 = DISABLE -> r.1.2 = 90)));
    [done|intros s H; split; [exact H|done]|intros s H Hm; split; [exact H|intros Hd; by destruct (Hm Hd)]|].
  apply (mode_disable _ (λ t r, ((t.1.1 = DISABLE -> r.1.1 = 90) ∧ (t.1.2 = DISABLE -> r.1.2 = 90)) ∧ (t.2 = DISABLE -> r.2 = 90)));
    [done|intros s H; split; [exact H|done]|intros s H Hm; split; [exact H|intros Hd; by destruct (Hm Hd)]|].
  constructor. intros s _ [[H1 H2] H3]. by split_and!.
Qed.

(** *** Together *)

Lemma scamp_compatible :
  compatible scamp_bodies mode_alone (λ _, True) scamp_rely scamp_guar scamp_idle.
Proof.
  constructor.
  - intros i t (e & <- & He & ->).
    assert (∀ j (b : thread (SCAMP D) ScampErr), sets_raw j = true -> srg j (held (λ _, True)) b -> srg j (scamp_idle j) b) as Hh.
    { intros j b Hj. apply rg_weaken. intros s _. unfold scamp_idle. rewrite Hj. by split. }
    destruct (quiet_thread (thread_of e)) eqn:Hq.
    + eapply rg_weaken; [|by apply quiet_bodies]. done.
    + destruct e as [m|v|b|manual c|manual c|manual c|ch|b|m|]; try done.
      * apply Hh; [done|apply rudder_cmd_rg].
      * apply Hh; [done|apply ballast_cmd_rg].
      * apply Hh; [done|by apply sbus_rg].
      * apply control_mode_rg.
      * apply Hh; [done|apply scamp_iterate_rg].
  - intros i j s s' Hij Hx _ _ [_ HG]. unfold scamp_rely, mode_alone in *.
    destruct j; try done; destruct i; try done; cbn in *; try (by destruct Hx; auto);
      destruct HG as [E1 E2]; (split; [done|]); [..]; try done; by apply same_neutral.
  - intros i s s' _ _ HR Hs. unfold scamp_idle, scamp_rely in *.
    destruct i; cbn in *; try done; destruct HR as [E1 E2]; auto. by eapply same_neutral.
  - intros i j Hij Hx s s' _ _ [_ HG] Hs. unfold scamp_idle, mode_alone in *.
    destruct j; try done; destruct i; try done; cbn in *; try (by destruct Hx; auto); destruct HG as [E1 E2]; auto;
      by apply (same_neutral s).
  - intros i j s Hx _ Hs. unfold scamp_idle, mode_alone in *.
    destruct Hx as [[-> Hj]|[Hi ->]]; cbn in *; [by rewrite Hj|by rewrite Hi in Hs].
  - intros i j [[-> Hj]|[Hi ->]]; (split; [unfold mode_alone; auto|]); [intros <-|intros ->]; done.
Qed.

(** In every interleaving in which a change of modes overlaps none of the threads that set raw
    values, no access fails and every message to the actuator board is as it should be. *)
Lemma scamp_interleaved file c c' :
  rtc (conf_step scamp_bodies mode_alone) (idle (SCAMP_init file)) c ->
  ¬ conf_fails c ∧ (conf_step scamp_bodies mode_alone c c' -> pwm_ok (c_state c) (c_state c')).
Proof.
  intros Hc. destruct (rg_sound _ _ _ _ _ _ (SCAMP_init file) c scamp_compatible) as [Hok Hf]; [done| |done|].
  { intros i. unfold scamp_idle. by destruct (sets_raw i), i. }
  split; [done|]. intros Hs. destruct (rg_step _ _ _ _ _ _ c c' scamp_compatible Hok Hs) as [E|[i [Hp _]]]; [|done].
  apply pwm_ok_same. by rewrite E.
Qed.
End Interleaved.
