(* ===== verification/Sbus.v ===== *)
(** * The radio receiver

    src/sensor/read-sbus.cc: one S.BUS frame is a start byte, 22 bytes that hold 16
    channels of 11 bits each, a byte of flags and an end byte. *)

From Stdlib Require Import ZArith Lia.
From stdpp Require Import base list.
From S2P Require Import Prelude Num Pgn Can.

#[local] Open Scope Z_scope.

Record SBUS := MkSBUS {
  sbus_channel : list Z;
  ch17 : bool;
  ch18 : bool;
  frame_lost : bool;
  failsafe : bool;
}.

(** The message set up by [Init]. *)
Definition SBUS_init : SBUS := MkSBUS (repeat 0 16) false false false false.

Definition byte_at (data : list Z) (i : Z) : Z := nth (Z.to_nat i) data 0.

(** The body of the channel loop, at bit [cur_bit]. *)
Definition sbus_bits (data : list Z) (cur_bit : Z) : Z :=
  let cur_byte := cur_bit / 8 in
  let start_bit := cur_bit mod 8 in
  let end_bit := (cur_bit + 11) mod 8 in
  let bits := Z.land (Z.shiftr (byte_at data cur_byte) start_bit) 0xFF in
  let cur_byte := cur_byte + 1 in
  let '(bits, cur_byte) :=
    if end_bit <? 3 then (bits + Z.shiftl (byte_at data cur_byte) (8 - start_bit), cur_byte + 1)
    else (bits, cur_byte) in
  if end_bit =? 0 then bits
  else bits + Z.shiftl (Z.land (Z.shiftl (byte_at data cur_byte) (8 - end_bit)) 0xFF) 3.

Fixpoint sbus_channels (data : list Z) (cur_bit : Z) (n : nat) : list Z :=
  match n with
  | O => []
  | S n => sbus_bits data cur_bit :: sbus_channels data (cur_bit + 11) n
  end.

Definition sbus_flags (flags : Z) (channels : list Z) : SBUS :=
  MkSBUS channels (negb (Z.land 0x80 flags =? 0)) (negb (Z.land 0x40 flags =? 0))
    (negb (Z.land 0x20 flags =? 0)) (negb (Z.land 0x10 flags =? 0)).

(** The search for the start byte: one [read] per element, [None] when it reads no
    byte (end of file), which leaves [start_byte] as it was; [shutdown] is the test
    after it.  [None] when the loop is left by the shutdown or is still waiting. *)
Fixpoint find_start (reads : list (option Z * bool)) : bool :=
  match reads with
  | [] => false
  | (b, shutdown) :: reads =>
      if shutdown then false
      else match b with
           | Some 0x0F => true
           | _ => find_start reads
           end
  end.

(** [frame]: what [read] of 24 bytes returns.  The new message, and whether it is
    sent. *)
Definition Sbus_Iterate (reads : list (option Z * bool)) (frame : list Z) (msg : SBUS) : SBUS * bool :=
  if negb (find_start reads) then (msg, false)
  else if (length frame <? 24)%nat then (msg, false)
  else (sbus_flags (byte_at frame 22) (sbus_channels frame 0 16), true).

(** ** The channels *)

Lemma byte_shiftr b s : byte b -> 0 <= s < 8 -> Z.land (Z.shiftr b s) 0xFF = bits b s (8 - s).
Proof.
  intros Hb Hs. unfold byte in Hb. rewrite bits_div_mod by lia.
  change 0xFF with (Z.ones 8). rewrite Z.land_ones, Z.shiftr_div_pow2 by lia.
  assert (2 ^ 8 = 2 ^ s * 2 ^ (8 - s)) as E by (rewrite <- Z.pow_add_r by lia; f_equal; lia).
  pose proof (pow2_pos s ltac:(lia)). pose proof (pow2_pos (8 - s) ltac:(lia)).
  assert (0 <= b / 2 ^ s < 2 ^ (8 - s)).
  { split; [apply Z.div_pos; lia|]. apply Z.div_lt_upper_bound; lia. }
  rewrite !Z.mod_small; [done|done|]. nia.
Qed.

(** The low [e] bits of a byte, moved to bit [11 - e]. *)
Lemma byte_high b e :
  0 < e < 8 -> Z.shiftl (Z.land (Z.shiftl b (8 - e)) 0xFF) 3 = 2 ^ (11 - e) * bits b 0 e.
Proof.
  intros He. rewrite bits_div_mod, Z.div_1_r by lia.
  change 0xFF with (Z.ones 8). rewrite Z.land_ones, !Z.shiftl_mul_pow2 by lia.
  assert (2 ^ 8 = 2 ^ (8 - e) * 2 ^ e) as -> by (rewrite <- Z.pow_add_r by lia; f_equal; lia).
  rewrite (Z.mul_comm b), Z.mul_mod_distr_l by (try apply Z.pow_nonzero; lia).
  replace (11 - e) with (8 - e + 3) by lia. rewrite Z.pow_add_r by lia. ring.
Qed.

Lemma bits_byte b : byte b -> bits b 0 8 = b.
Proof. intros Hb. rewrite bits_div_mod, Z.div_1_r by lia. by apply Z.mod_small. Qed.

Lemma bits_zero x s : bits x s 0 = 0.
Proof. unfold bits. apply Z.land_0_r. Qed.

(** Three consecutive bytes, or two when the field ends with the second. *)
Lemma sbus_bits_slice s b0 b1 b2 rest :
  0 <= s < 8 -> byte b0 -> byte b1 -> byte b2 ->
  bits (le_value (b0 :: b1 :: b2 :: rest)) s 11 =
  let e := (s + 11) mod 8 in
  Z.land (Z.shiftr b0 s) 0xFF
  + (if e <? 3 then Z.shiftl b1 (8 - s) else 0)
  + (if e =? 0 then 0
     else Z.shiftl (Z.land (Z.shiftl (if e <? 3 then b2 else b1) (8 - e)) 0xFF) 3).
Proof.
  intros Hs H0 H1 H2. cbv zeta. rewrite byte_shiftr by done. simpl le_value.
  set (x := b2 + 2 ^ 8 * le_value rest).
  rewrite (bits_split b0 _ s 11) by (done || lia). rewrite (Z.min_l (8 - s) 11) by lia.
  rewrite (bits_split b1 x 0 (11 - (8 - s))) by (done || lia).
  destruct (Z.le_gt_cases s 4) as [Hs5|Hs5].
  - assert ((s + 11) mod 8 = s + 3) as -> by (symmetry; apply Z.mod_unique with 1; lia).
    destruct (Z.ltb_spec (s + 3) 3); [lia|]. destruct (Z.eqb_spec (s + 3) 0); [lia|].
    rewrite byte_high by lia. rewrite Z.min_r by lia.
    replace (11 - (8 - s) - (11 - (8 - s))) with 0 by lia. rewrite bits_zero.
    replace (11 - (s + 3)) with (8 - s) by lia. replace (11 - (8 - s)) with (s + 3) by lia. lia.
  - assert ((s + 11) mod 8 = s - 5) as -> by (symmetry; apply Z.mod_unique with 2; lia).
    destruct (Z.ltb_spec (s - 5) 3); [|lia]. rewrite Z.min_l by lia. change (8 - 0) with 8.
    rewrite Z.shiftl_mul_pow2, bits_byte by (done || lia).
    replace (11 - (8 - s) - 8) with (s - 5) by lia.
    destruct (Z.eqb_spec (s - 5) 0) as [E5|Hne]; [rewrite E5, bits_zero; lia|].
    rewrite byte_high by lia. unfold x. rewrite bits_head by (done || lia).
    replace (11 - (s - 5)) with (8 - s + 8) by lia. rewrite Z.pow_add_r by lia. lia.
Qed.

Lemma drop_three (data : list Z) k :
  (k + 3 <= length data)%nat ->
  drop k data = nth k data 0 :: nth (k + 1) data 0 :: nth (k + 2) data 0 :: drop (k + 3) data.
Proof.
  intros H. rewrite (drop_S data (nth k data 0) k), (drop_S data (nth (k + 1) data 0) (S k)),
    (drop_S data (nth (k + 2) data 0) (S (S k))).
  - do 3 f_equal. f_equal. lia.
  - replace (S (S k)) with (k + 2)%nat by lia. destruct (nth_lookup_or_length data (k + 2) 0); [done|lia].
  - replace (S k) with (k + 1)%nat by lia. destruct (nth_lookup_or_length data (k + 1) 0); [done|lia].
  - destruct (nth_lookup_or_length data k 0); [done|lia].
Qed.

Lemma byte_nth data k : Forall byte data -> (k < length data)%nat -> byte (nth k data 0).
Proof.
  intros H Hk. destruct (nth_lookup_or_length data k 0) as [E|]; [|lia].
  by apply (Forall_lookup_1 _ _ _ _ H E).
Qed.

Lemma sbus_bits_spec data cur_bit :
  Forall byte data -> 0 <= cur_bit -> (Z.to_nat (cur_bit / 8) + 3 <= length data)%nat ->
  sbus_bits data cur_bit = bits (le_value data) cur_bit 11.
Proof.
  intros Hd Hc Hl. pose proof (Z.mod_pos_bound cur_bit 8 ltac:(lia)) as Hm.
  pose proof (Z.div_mod cur_bit 8 ltac:(lia)) as Hdm. pose proof (Z.div_pos cur_bit 8 Hc ltac:(lia)).
  set (k := Z.to_nat (cur_bit / 8)) in *.
  assert (bits (le_value data) cur_bit 11 = bits (le_value (drop k data)) (cur_bit mod 8) 11) as ->.
  { rewrite bits_drop by (done || lia). f_equal. unfold k. lia. }
  rewrite (drop_three data k Hl), sbus_bits_slice by (try apply byte_nth; (done || lia)).
  cbv zeta. unfold sbus_bits. rewrite <- (Zplus_mod_idemp_l cur_bit 11 8).
  assert (byte_at data (cur_bit / 8) = nth k data 0) as -> by done.
  assert (byte_at data (cur_bit / 8 + 1) = nth (k + 1) data 0) as E1
    by (unfold byte_at; f_equal; unfold k; lia).
  assert (byte_at data (cur_bit / 8 + 1 + 1) = nth (k + 2) data 0) as E2
    by (unfold byte_at; f_equal; unfold k; lia).
  destruct (_ <? 3); destruct (_ =? 0); rewrite ?E1, ?E2; lia.
Qed.

Lemma sbus_channels_lookup data n : ∀ cur_bit i,
  (i < n)%nat -> sbus_channels data cur_bit n !! i = Some (sbus_bits data (cur_bit + 11 * Z.of_nat i)).
Proof.
  induction n as [|n IH]; intros cur_bit [|i] Hi; try lia; simpl.
  - do 2 f_equal. lia.
  - rewrite IH by lia. do 2 f_equal. lia.
Qed.

Lemma sbus_channel_bits (frame : list Z) (i : nat) :
  length frame = 24%nat -> Forall byte frame -> (i < 16)%nat ->
  sbus_channels frame 0 16 !! i = Some (bits (le_value frame) (11 * Z.of_nat i) 11).
Proof.
  intros Hl Hb Hi. rewrite sbus_channels_lookup, Z.add_0_l by done. rewrite sbus_bits_spec; try (done || lia).
  rewrite Hl. assert (11 * Z.of_nat i / 8 <= 20) by (Z.div_mod_to_equations; lia). lia.
Qed.

(** A full frame that follows a start byte is sent with channel [i] equal to bits
    [11 i] to [11 i + 10] of the 22 data bytes, whichever way the field crosses byte
    boundaries, and every channel is between 0 and 2047. *)
Theorem sbus_channels_correct (reads : list (option Z * bool)) (frame : list Z) (msg : SBUS) (i : nat) :
  find_start reads = true -> length frame = 24%nat -> Forall byte frame -> (i < 16)%nat ->
  let '(msg', sent) := Sbus_Iterate reads frame msg in
  sent = true ∧ sbus_channel msg' !! i = Some (bits (le_value frame) (11 * Z.of_nat i) 11)
  ∧ 0 <= bits (le_value frame) (11 * Z.of_nat i) 11 < 2048.
Proof.
  intros Hs Hl Hb Hi. unfold Sbus_Iterate. rewrite Hs, Hl. cbn -[sbus_channels bits le_value Z.mul].
  split_and!; [done|by apply sbus_channel_bits|apply bits_range; lia..].
Qed.

Lemma sbus_channels_witness :
  sbus_channel (fst (Sbus_Iterate [(Some 3, false); (Some 15, false)] (repeat 0xA5 24) SBUS_init)) !! 1%nat
  = Some (bits (le_value (repeat 0xA5 24)) 11 11).
Proof.
  pose proof (sbus_channels_correct [(Some 3, false); (Some 15, false)] (repeat 0xA5 24) SBUS_init 1) as H.
  apply H.
  - reflexivity.
  - reflexivity.
  - simpl. repeat constructor; unfold byte; lia.
  - lia.
Defined.
