(* ===== verification/Simple.v ===== *)
(** * Heading and sail control

    src/control/simple.cc and simple.h: the controller that turns the heading command,
    the wind and the state estimate into sail, rudder, wing and heel commands.
    [simple_out] is the log of sent messages. *)

From Stdlib Require Import ZArith Lia Reals Lra Floats.
From stdpp Require Import base list.
From S2P Require Import Prelude Num NumR NumF Vec Util Messages.

#[local] Open Scope Z_scope.

Inductive SimpleOut (D : Type) :=
| OutSail (m : SailCmd D)
| OutRudder (m : RudderCmd D)
| OutHeel (heel : D)
| OutRigid (m : RigidWingCmd D)
| OutConsts (c : ControllerConstants D).
Arguments OutSail {D} _.
Arguments OutRudder {D} _.
Arguments OutHeel {D} _.
Arguments OutRigid {D} _.
Arguments OutConsts {D} _.

Record SimpleControl (D : Type) := MkSimple {
  do_rudder_ : bool;
  sail_msg_ : SailCmd D;
  rudder_msg_ : RudderCmd D;
  rigid_msg_ : RigidWingCmd D;
  boat_state_ : BoatState D;
  consts_msg_ : ControllerConstants D;
  counter_ : Z;
  heading_ : D;
  extra_sail_ : D;
  wind_x_ : D;
  wind_y_ : D;
  auto_rigid_wing_ : bool;
  rudder_integrator_ : D;
  simple_out : list (SimpleOut D);
}.
Arguments MkSimple {D}.
Arguments do_rudder_ {D} _.
Arguments sail_msg_ {D} _.
Arguments rudder_msg_ {D} _.
Arguments rigid_msg_ {D} _.
Arguments boat_state_ {D} _.
Arguments consts_msg_ {D} _.
Arguments counter_ {D} _.
Arguments heading_ {D} _.
Arguments extra_sail_ {D} _.
Arguments wind_x_ {D} _.
Arguments wind_y_ {D} _.
Arguments auto_rigid_wing_ {D} _.
Arguments rudder_integrator_ {D} _.
Arguments simple_out {D} _.
Definition set_do_rudder_ {D : Type} (v : bool) (s : SimpleControl D) : SimpleControl D := MkSimple v (s.(sail_msg_)) (s.(rudder_msg_)) (s.(rigid_msg_)) (s.(boat_state_)) (s.(consts_msg_)) (s.(counter_)) (s.(heading_)) (s.(extra_sail_)) (s.(wind_x_)) (s.(wind_y_)) (s.(auto_rigid_wing_)) (s.(rudder_integrator_)) (s.(simple_out)).
Definition set_sail_msg_ {D : Type} (v : SailCmd D) (s : SimpleControl D) : SimpleControl D := MkSimple (s.(do_rudder_)) v (s.(rudder_msg_)) (s.(rigid_msg_)) (s.(boat_state_)) (s.(consts_msg_)) (s.(counter_)) (s.(heading_)) (s.(extra_sail_)) (s.(wind_x_)) (s.(wind_y_)) (s.(auto_rigid_wing_)) (s.(rudder_integrator_)) (s.(simple_out)).
Definition set_rudder_msg_ {D : Type} (v : RudderCmd D) (s : SimpleControl D) : SimpleControl D := MkSimple (s.(do_rudder_)) (s.(sail_msg_)) v (s.(rigid_msg_)) (s.(boat_state_)) (s.(consts_msg_)) (s.(counter_)) (s.(heading_)) (s.(extra_sail_)) (s.(wind_x_)) (s.(wind_y_)) (s.(auto_rigid_wing_)) (s.(rudder_integrator_)) (s.(simple_out)).
Definition set_rigid_msg_ {D : Type} (v : RigidWingCmd D) (s : SimpleControl D) : SimpleControl D := MkSimple (s.(do_rudder_)) (s.(sail_msg_)) (s.(rudder_msg_)) v (s.(boat_state_)) (s.(consts_msg_)) (s.(counter_)) (s.(heading_)) (s.(extra_sail_)) (s.(wind_x_)) (s.(wind_y_)) (s.(auto_rigid_wing_)) (s.(rudder_integrator_)) (s.(simple_out)).
Definition set_boat_state_ {D : Type} (v : BoatState D) (s : SimpleControl D) : SimpleControl D := MkSimple (s.(do_rudder_)) (s.(sail_msg_)) (s.(rudder_msg_)) (s.(rigid_msg_)) v (s.(consts_msg_)) (s.(counter_)) (s.(heading_)) (s.(extra_sail_)) (s.(wind_x_)) (s.(wind_y_)) (s.(auto_rigid_wing_)) (s.(rudder_integrator_)) (s.(simple_out)).
Definition set_consts_msg_ {D : Type} (v : ControllerConstants D) (s : SimpleControl D) : SimpleControl D := MkSimple (s.(do_rudder_)) (s.(sail_msg_)) (s.(rudder_msg_)) (s.(rigid_msg_)) (s.(boat_state_)) v (s.(counter_)) (s.(heading_)) (s.(extra_sail_)) (s.(wind_x_)) (s.(wind_y_)) (s.(auto_rigid_wing_)) (s.(rudder_integrator_)) (s.(simple_out)).
Definition set_counter_ {D : Type} (v : Z) (s : SimpleControl D) : SimpleControl D := MkSimple (s.(do_rudder_)) (s.(sail_msg_)) (s.(rudder_msg_)) (s.(rigid_msg_)) (s.(boat_state_)) (s.(consts_msg_)) v (s.(heading_)) (s.(extra_sail_)) (s.(wind_x_)) (s.(wind_y_)) (s.(auto_rigid_wing_)) (s.(rudder_integrator_)) (s.(simple_out)).
Definition set_heading_ {D : Type} (v : D) (s : SimpleControl D) : SimpleControl D := MkSimple (s.(do_rudder_)) (s.(sail_msg_)) (s.(rudder_msg_)) (s.(rigid_msg_)) (s.(boat_state_)) (s.(consts_msg_)) (s.(counter_)) v (s.(extra_sail_)) (s.(wind_x_)) (s.(wind_y_)) (s.(auto_rigid_wing_)) (s.(rudder_integrator_)) (s.(simple_out)).
Definition set_extra_sail_ {D : Type} (v : D) (s : SimpleControl D) : SimpleControl D := MkSimple (s.(do_rudder_)) (s.(sail_msg_)) (s.(rudder_msg_)) (s.(rigid_msg_)) (s.(boat_state_)) (s.(consts_msg_)) (s.(counter_)) (s.(heading_)) v (s.(wind_x_)) (s.(wind_y_)) (s.(auto_rigid_wing_)) (s.(rudder_integrator_)) (s.(simple_out)).
Definition set_wind_x_ {D : Type} (v : D) (s : SimpleControl D) : SimpleControl D := MkSimple (s.(do_rudder_)) (s.(sail_msg_)) (s.(rudder_msg_)) (s.(rigid_msg_)) (s.(boat_state_)) (s.(consts_msg_)) (s.(counter_)) (s.(heading_)) (s.(extra_sail_)) v (s.(wind_y_)) (s.(auto_rigid_wing_)) (s.(rudder_integrator_)) (s.(simple_out)).
Definition set_wind_y_ {D : Type} (v : D) (s : SimpleControl D) : SimpleControl D := MkSimple (s.(do_rudder_)) (s.(sail_msg_)) (s.(rudder_msg_)) (s.(rigid_msg_)) (s.(boat_state_)) (s.(consts_msg_)) (s.(counter_)) (s.(heading_)) (s.(extra_sail_)) (s.(wind_x_)) v (s.(auto_rigid_wing_)) (s.(rudder_integrator_)) (s.(simple_out)).
Definition set_auto_rigid_wing_ {D : Type} (v : bool) (s : SimpleControl D) : SimpleControl D := MkSimple (s.(do_rudder_)) (s.(sail_msg_)) (s.(rudder_msg_)) (s.(rigid_msg_)) (s.(boat_state_)) (s.(consts_msg_)) (s.(counter_)) (s.(heading_)) (s.(extra_sail_)) (s.(wind_x_)) (s.(wind_y_)) v (s.(rudder_integrator_)) (s.(simple_out)).
Definition set_rudder_integrator_ {D : Type} (v : D) (s : SimpleControl D) : SimpleControl D := MkSimple (s.(do_rudder_)) (s.(sail_msg_)) (s.(rudder_msg_)) (s.(rigid_msg_)) (s.(boat_state_)) (s.(consts_msg_)) (s.(counter_)) (s.(heading_)) (s.(extra_sail_)) (s.(wind_x_)) (s.(wind_y_)) (s.(auto_rigid_wing_)) v (s.(simple_out)).
Definition set_simple_out {D : Type} (v : list (SimpleOut D)) (s : SimpleControl D) : SimpleControl D := MkSimple (s.(do_rudder_)) (s.(sail_msg_)) (s.(rudder_msg_)) (s.(rigid_msg_)) (s.(boat_state_)) (s.(consts_msg_)) (s.(counter_)) (s.(heading_)) (s.(extra_sail_)) (s.(wind_x_)) (s.(wind_y_)) (s.(auto_rigid_wing_)) (s.(rudder_integrator_)) v.

(** A radio message without the channel the handler reads. *)
Inductive SimpleErr := MissingChannel.

Section Node.
Context {D : Type} {ND : Num D}.
#[local] Open Scope num_scope.

Definition simple_dt : D := nfloat (dec 1 2).

Definition in_bounds (alpha min max : D) : bool :=
  let diff := nfloat (norm_angle (fsubf alpha min)) in
  (#0 <? diff) && (diff <? norm_angle (fsubf max min)).

Definition simple_send (o : SimpleOut D) (s : SimpleControl D) : SimpleControl D :=
  set_simple_out (simple_out s ++ [o]) s.

Definition default_simple_consts : ControllerConstants D :=
  set_max_rudder (Some (dec 5 1))
  (set_rudder_kp (Some (dec 5 1))
  (set_rudder_ki (Some (nfloat (dec 2 2)))
  (set_winch_kp (Some #13)
  (set_sail_heel_k (Some #0)
  (set_nominal_heel (Some #0)
  (set_rigid_port_servo_pos (Some #15)
  (set_rigid_starboard_servo_pos (Some #85) Constants_clear))))))).

Definition zero_boat_state : BoatState D :=
  MkBoatState (V3 #0 #0 #0) (V3 #0 #0 #0) (V3 #0 #0 #0) (V3 #0 #0 #0) Internal_clear.

Definition Simple_init (do_rudder : bool) : SimpleControl D :=
  simple_send (OutConsts default_simple_consts)
    (MkSimple do_rudder SailCmd_clear RudderCmd_clear
       (MkRigidWingCmd (Some WING_MANUAL) (Some #0) (Some #1) None)
       zero_boat_state default_simple_consts 0 #0 #0 #0 #0 true #0 []).

(** ** Handlers *)

Definition simple_consts_complete (c : ControllerConstants D) : bool :=
  has (max_rudder c) && has (rudder_kp c) && has (winch_kp c) && has (sail_heel_k c)
  && has (rigid_port_servo_pos c) && has (rigid_starboard_servo_pos c) && has (nominal_heel c).

Definition simple_handle_consts (c : ControllerConstants D) (s : SimpleControl D) : SimpleControl D :=
  if simple_consts_complete c then set_consts_msg_ c s else s.

Definition simple_handle_wind (w : vec3 D) (s : SimpleControl D) : SimpleControl D :=
  set_wind_y_ (v3y w) (set_wind_x_ (v3x w) s).

Definition simple_handle_heading (m : HeadingCmd D) (s : SimpleControl D) : SimpleControl D :=
  let s := match heading m with Some h => set_heading_ h s | None => s end in
  let s := match extra_sail m with Some x => set_extra_sail_ x s | None => s end in
  set_rudder_integrator_ #0 s.

Definition simple_handle_control_mode (m : ControlMode) (s : SimpleControl D) : SimpleControl D :=
  match rigid_mode m with
  | None => s
  | Some AUTO => set_auto_rigid_wing_ true s
  | Some _ => set_auto_rigid_wing_ false s
  end.

(** The servo field is an [int32]. *)
Definition simple_handle_sbus (ch : list Z) (s : SimpleControl D) : result SimpleErr (SimpleControl D) :=
  match ch !! 1%nat with
  | None => Err MissingChannel
  | Some c =>
      let p := nint (nofZ c * #100 / #2050) in
      Ok (set_rigid_msg_ (set_wing_servo_pos (Some p) (rigid_msg_ s)) s)
  end.

(** ** The control loop *)

Definition heading_error (s : SimpleControl D) : D :=
  norm_angle (fsubf (heading_ s) (v3z (euler (boat_state_ s)))).

(** The direction the wind comes from, relative to the boat, and its mirror image. *)
Definition alphaw (s : SimpleControl D) : D :=
  nfloat (norm_angle (nfloat (natan2 (wind_y_ s) (- wind_x_ s)))).
Definition wind_source_dir (s : SimpleControl D) : D :=
  nfloat (natan2 (- wind_y_ s) (- wind_x_ s)).

Definition sail_goal (s : SimpleControl D) : D :=
  let turning_sail :=
    (if #0 <? alphaw s then #1 else - #1) * dec 9 1 * Clip (heading_error s) (- dec 5 1) (dec 5 1) in
  let heel := v3x (euler (boat_state_ s)) in
  nfloat (nmin (nmax (nabs (alphaw s) - dec 8 1) #0) (dec 15 1)
          + fmulf (get (sail_heel_k (consts_msg_ s))) (nabs heel)
          + extra_sail_ s + turning_sail).

(** The winch voltage for a sail error. *)
Definition winch_voltage (kp sail_err : D) : D :=
  fdivf (fmulf kp sail_err) (nfloat (nsqrt (nabs sail_err))).

Definition max_rudder_of (s : SimpleControl D) : D :=
  let vx := v3x (vel (boat_state_ s)) in
  let vy := v3y (vel (boat_state_ s)) in
  let v := nfloat (nsqrt (faddf (fmulf vx vx) (fmulf vy vy))) in
  let m := get (max_rudder (consts_msg_ s)) in
  if v <? #0 then dec 3 1 else if v <? #1 then m else dec 8 1 * m.

(** [rudder_integrator_] has been updated. *)
Definition rudder_goal (s : SimpleControl D) : D :=
  let m := max_rudder_of s in
  - Clip (get (rudder_kp (consts_msg_ s)) * heading_error s
          + get (rudder_ki (consts_msg_ s)) * rudder_integrator_ s) (- m) m.

(** The parts of [Iterate], in its order: the sail, the wing, the rudder, then the
    messages. *)
Definition update_sail (s : SimpleControl D) : SimpleControl D :=
  let goal := sail_goal s in
  let sail_err := nfloat (norm_angle (fsubf goal (get (sail (internal (boat_state_ s)))))) in
  set_sail_msg_ (set_sail_pos (Some goal)
    (set_sail_voltage (Some (winch_voltage (get (winch_kp (consts_msg_ s))) sail_err)) (sail_msg_ s))) s.

Definition update_wing (s : SimpleControl D) : SimpleControl D :=
  if auto_rigid_wing_ s then
    let p := if #0 <? wind_source_dir s then get (rigid_port_servo_pos (consts_msg_ s))
             else get (rigid_starboard_servo_pos (consts_msg_ s)) in
    set_rigid_msg_ (set_wing_servo_pos (Some (nint p)) (rigid_msg_ s)) s
  else s.

Definition update_rudder (s : SimpleControl D) : SimpleControl D :=
  let s := set_rudder_integrator_
             (Clip (rudder_integrator_ s + heading_error s * simple_dt) (- dec 15 1) (dec 15 1)) s in
  let goal_rudder := rudder_goal s in
  set_rudder_msg_
    (set_rudder_vel (Some (nfloat (#1 * (goal_rudder - get (rudder (internal (boat_state_ s)))))))
      (set_rudder_pos (Some (nfloat goal_rudder)) (rudder_msg_ s))) s.

Definition heel_command (s : SimpleControl D) : D :=
  nfloat (get (nominal_heel (consts_msg_ s)) * nofZ (Sign (wind_source_dir s))
          + #0 * Clip (#1 * heading_error s) (- dec 25 2) (dec 25 2)).

Definition send_if (b : bool) (o : SimpleOut D) (s : SimpleControl D) : SimpleControl D :=
  if b then simple_send o s else s.

Definition send_commands (s : SimpleControl D) : SimpleControl D :=
  let s := simple_send (OutSail (sail_msg_ s)) s in
  let s := send_if (auto_rigid_wing_ s && (Z.rem (counter_ s) (nint (ndiv (dec 1 1) simple_dt)) =? 0)%Z)
             (OutRigid (rigid_msg_ s)) s in
  let s := send_if (do_rudder_ s) (OutRudder (rudder_msg_ s)) s in
  let s := send_if (dec 14 1 <? nabs (alphaw s)) (OutHeel (heel_command s)) s in
  send_if (Z.rem (counter_ s) 100 =? 0)%Z (OutConsts (consts_msg_ s)) s.

Definition Simple_Iterate (s : SimpleControl D) : SimpleControl D :=
  let s := set_counter_ (wraps 32 (counter_ s + 1)) s in
  send_commands (update_rudder (update_wing (update_sail s))).

Inductive SimpleEvent :=
| CEvBoatState (b : BoatState D)
| CEvConsts (c : ControllerConstants D)
| CEvWind (w : vec3 D)
| CEvHeading (m : HeadingCmd D)
| CEvControlMode (m : ControlMode)
| CEvSbus (ch : list Z)
| CEvIterate.

Definition simple_step (s : SimpleControl D) (e : SimpleEvent) : result SimpleErr (SimpleControl D) :=
  match e with
  | CEvBoatState b => Ok (set_boat_state_ b s)
  | CEvConsts c => Ok (simple_handle_consts c s)
  | CEvWind w => Ok (simple_handle_wind w s)
  | CEvHeading m => Ok (simple_handle_heading m s)
  | CEvControlMode m => Ok (simple_handle_control_mode m s)
  | CEvSbus ch => simple_handle_sbus ch s
  | CEvIterate => Ok (Simple_Iterate s)
  end.
End Node.
Arguments SimpleEvent : clear implicits.

(** ** Rudder commands, in exact arithmetic *)

Section Rudder.
#[local] Open Scope R_scope.

(** The rudder limit in force: the configured one, reduced at speed. *)
Lemma max_rudder_of_bounds (s : SimpleControl R) :
  0 <= get (max_rudder (consts_msg_ s)) ->
  0 <= max_rudder_of s <= get (max_rudder (consts_msg_ s)).
Proof.
  intros H. unfold max_rudder_of. cbv zeta.
  assert (0 <= nfloat (nsqrt (faddf (fmulf (v3x (vel (boat_state_ s))) (v3x (vel (boat_state_ s))))
                                    (fmulf (v3y (vel (boat_state_ s))) (v3y (vel (boat_state_ s)))))))
    as Hv by (simpl; apply sqrt_pos).
  revert Hv. generalize (nfloat (nsqrt (faddf (fmulf (v3x (vel (boat_state_ s))) (v3x (vel (boat_state_ s))))
                                    (fmulf (v3y (vel (boat_state_ s))) (v3y (vel (boat_state_ s))))))).
  intros v Hv. unfold dec. simpl. repeat case_R; lra.
Qed.

(** Sending changes the log only. *)
Definition same_rudder (s s' : SimpleControl R) : Prop :=
  rudder_integrator_ s' = rudder_integrator_ s ∧ rudder_msg_ s' = rudder_msg_ s.

Lemma send_if_fields b o (s0 s : SimpleControl R) : same_rudder s0 s -> same_rudder s0 (send_if b o s).
Proof. by destruct b. Qed.

Lemma send_commands_fields (s : SimpleControl R) : same_rudder s (send_commands s).
Proof. unfold send_commands. cbv zeta. do 4 apply send_if_fields. done. Qed.

(** The sail and the wing leave alone what the rudder depends on. *)
Lemma update_rudder_eq (s s' : SimpleControl R) :
  rudder_integrator_ s' = rudder_integrator_ s -> heading_ s' = heading_ s ->
  boat_state_ s' = boat_state_ s -> consts_msg_ s' = consts_msg_ s ->
  rudder_integrator_ (update_rudder s') = Clip (rudder_integrator_ s + heading_error s * simple_dt)%num (-1.5) 1.5
  ∧ rudder_pos (rudder_msg_ (update_rudder s'))
    = Some (rudder_goal (set_rudder_integrator_ (rudder_integrator_ (update_rudder s')) s)).
Proof.
  intros H1 H2 H3 H4. unfold update_rudder. cbn [rudder_integrator_ set_rudder_integrator_ set_rudder_msg_].
  assert (heading_error s' = heading_error s) as E by (unfold heading_error; by rewrite H2, H3).
  rewrite H1, E. split.
  - f_equal; dec_R; lra.
  - unfold rudder_goal, max_rudder_of, heading_error. cbn -[Clip norm_angle dec fsubf]. by rewrite H2, H3, H4.
Qed.

Lemma Simple_Iterate_rudder (s : SimpleControl R) :
  rudder_integrator_ (Simple_Iterate s)
    = Clip (rudder_integrator_ s + heading_error s * simple_dt)%num (-1.5) 1.5
  ∧ rudder_pos (rudder_msg_ (Simple_Iterate s))
    = Some (rudder_goal (set_rudder_integrator_ (rudder_integrator_ (Simple_Iterate s)) s)).
Proof.
  unfold Simple_Iterate. cbv zeta.
  rewrite (proj1 (send_commands_fields _)), (proj2 (send_commands_fields _)).
  apply update_rudder_eq; unfold update_wing; by destruct (auto_rigid_wing_ _).
Qed.

(** The rudder command of an iteration. *)
Lemma Simple_Iterate_rudder_bound (s : SimpleControl R) :
  0 <= get (max_rudder (consts_msg_ s)) ->
  ∃ p, rudder_pos (rudder_msg_ (Simple_Iterate s)) = Some p ∧ Rabs p <= get (max_rudder (consts_msg_ s)).
Proof.
  intros H. destruct (Simple_Iterate_rudder s) as (_ & Ep). eexists. split; [exact Ep|]. unfold rudder_goal.
  set (s1 := set_rudder_integrator_ _ s).
  pose proof (max_rudder_of_bounds s1 H) as Hm. change (consts_msg_ s1) with (consts_msg_ s) in Hm.
  revert Hm. generalize (max_rudder_of s1). intros m Hm. cbv zeta.
  unfold Clip, nmax, nmin. simpl. apply Rabs_le. repeat case_R; lra.
Qed.

(** What an iteration sends as a rudder command or as constants. *)
Definition sent_from (s s' : SimpleControl R) (o : SimpleOut R) : Prop :=
  match o with OutRudder m => m = rudder_msg_ s' | OutConsts c => c = consts_msg_ s | _ => True end.

Lemma send_if_out (P : SimpleOut R -> Prop) b o (s0 s : SimpleControl R) :
  P o -> (∃ l, simple_out s = simple_out s0 ++ l ∧ Forall P l) ->
  ∃ l, simple_out (send_if b o s) = simple_out s0 ++ l ∧ Forall P l.
Proof.
  intros Ho (l & E & Hl). destruct b; [|by exists l]. exists (l ++ [o]). cbn. rewrite E, <- app_assoc. split; [done|].
  apply Forall_app. split; [done|]. by constructor.
Qed.

Lemma Simple_Iterate_out (s : SimpleControl R) :
  consts_msg_ (Simple_Iterate s) = consts_msg_ s
  ∧ ∃ l, simple_out (Simple_Iterate s) = simple_out s ++ l ∧ Forall (sent_from s (Simple_Iterate s)) l.
Proof.
  unfold Simple_Iterate. cbv zeta. set (s1 := update_rudder _).
  assert (consts_msg_ s1 = consts_msg_ s ∧ simple_out s1 = simple_out s) as [Ec Eo]
    by (unfold s1, update_wing; by destruct (auto_rigid_wing_ _)).
  clearbody s1.
  assert (∀ b o (s' : SimpleControl R), consts_msg_ (send_if b o s') = consts_msg_ s') as Ei by by intros [].
  assert (∀ b o (s' : SimpleControl R), rudder_msg_ (send_if b o s') = rudder_msg_ s') as Er by by intros [].
  unfold send_commands. cbv zeta. rewrite !Ei. split; [done|].
  do 4 (apply send_if_out; [unfold sent_from; rewrite ?Er, ?Ei; done|]).
  eexists [_]. split; [cbn; by rewrite Eo|]. by repeat constructor.
Qed.

(** In exact arithmetic every rudder command stays within the configured maximum, and
    the rudder's integrator within 1.5, whatever the heading error and the gains. *)
Theorem rudder_command_bounds (s : SimpleControl R) :
  0 <= get (max_rudder (consts_msg_ s)) ->
  -1.5 <= rudder_integrator_ (Simple_Iterate s) <= 1.5
  ∧ ∃ p, rudder_pos (rudder_msg_ (Simple_Iterate s)) = Some p
      ∧ Rabs p <= get (max_rudder (consts_msg_ s)).
Proof.
  intros H. split; [|by apply Simple_Iterate_rudder_bound]. rewrite (proj1 (Simple_Iterate_rudder s)).
  unfold Clip, nmax, nmin; simpl; repeat case_R; lra.
Qed.
End Rudder.

Lemma rudder_command_bounds_witness :
  (-1.5 <= rudder_integrator_ (Simple_Iterate (Simple_init (D := R) true)) <= 1.5)%R.
Proof.
  apply (rudder_command_bounds (Simple_init (D := R) true)).
  unfold dec. simpl. unfold dec. simpl. lra.
Defined.

(** In binary64, a sail already at its goal gives the winch a NaN voltage: the square
    root law divides zero by zero. *)
Theorem winch_voltage_nan_at_goal (L : Libm) :
  nisnan (ND := num_float L) (winch_voltage (ND := num_float L) 13%float 0%float) = true.
Proof. vm_compute. reflexivity. Qed.
