(* ===== verification/StateEstimator.v ===== *)
(** * State estimation

    src/sensor/state_estimator.cc and .h: the node that turns CAN sensor messages into
    the boat's state, in a frame with x east and y north.  [Time()] is called once or
    twice by a handler; its results are arguments.  The quaternion of the orientation
    is computed by the linear algebra library: it is a parameter. *)

From Stdlib Require Import ZArith Lia Reals Lra Floats.
From stdpp Require Import base list.
From S2P Require Import Prelude Num NumR NumF Vec Util Messages.

#[local] Open Scope Z_scope.

Inductive EstOut (D : Type) :=
| OutState (b : BoatState D) (orientation : D * D * D * D)
| OutWind (w : vec3 D)
| OutTrueWind (w : vec3 D).
Arguments OutState {D} _ _.
Arguments OutWind {D} _.
Arguments OutTrueWind {D} _.

Record StateEstimator (D : Type) := MkEst {
  euler_angles_ : vec3 D;
  omega_ : vec3 D;
  pos_ : vec3 D;
  vel_ : vec3 D;
  internal_ : InternalBoatState D;
  wind_msg_ : vec3 D;
  last_inclinometer_ : D;
  last_ballast_ : D;
  last_ballast_time_ : Z;
  last_inclinometer_time_ : Z;
  est_out : list (EstOut D);
}.
Arguments MkEst {D}.
Arguments euler_angles_ {D} _.
Arguments omega_ {D} _.
Arguments pos_ {D} _.
Arguments vel_ {D} _.
Arguments internal_ {D} _.
Arguments wind_msg_ {D} _.
Arguments last_inclinometer_ {D} _.
Arguments last_ballast_ {D} _.
Arguments last_ballast_time_ {D} _.
Arguments last_inclinometer_time_ {D} _.
Arguments est_out {D} _.
Definition set_euler_angles_ {D : Type} (v : vec3 D) (s : StateEstimator D) : StateEstimator D := MkEst v (s.(omega_)) (s.(pos_)) (s.(vel_)) (s.(internal_)) (s.(wind_msg_)) (s.(last_inclinometer_)) (s.(last_ballast_)) (s.(last_ballast_time_)) (s.(last_inclinometer_time_)) (s.(est_out)).
Definition set_omega_ {D : Type} (v : vec3 D) (s : StateEstimator D) : StateEstimator D := MkEst (s.(euler_angles_)) v (s.(pos_)) (s.(vel_)) (s.(internal_)) (s.(wind_msg_)) (s.(last_inclinometer_)) (s.(last_ballast_)) (s.(last_ballast_time_)) (s.(last_inclinometer_time_)) (s.(est_out)).
Definition set_pos_ {D : Type} (v : vec3 D) (s : StateEstimator D) : StateEstimator D := MkEst (s.(euler_angles_)) (s.(omega_)) v (s.(vel_)) (s.(internal_)) (s.(wind_msg_)) (s.(last_inclinometer_)) (s.(last_ballast_)) (s.(last_ballast_time_)) (s.(last_inclinometer_time_)) (s.(est_out)).
Definition set_vel_ {D : Type} (v : vec3 D) (s : StateEstimator D) : StateEstimator D := MkEst (s.(euler_angles_)) (s.(omega_)) (s.(pos_)) v (s.(internal_)) (s.(wind_msg_)) (s.(last_inclinometer_)) (s.(last_ballast_)) (s.(last_ballast_time_)) (s.(last_inclinometer_time_)) (s.(est_out)).
Definition set_internal_ {D : Type} (v : InternalBoatState D) (s : StateEstimator D) : StateEstimator D := MkEst (s.(euler_angles_)) (s.(omega_)) (s.(pos_)) (s.(vel_)) v (s.(wind_msg_)) (s.(last_inclinometer_)) (s.(last_ballast_)) (s.(last_ballast_time_)) (s.(last_inclinometer_time_)) (s.(est_out)).
Definition set_wind_msg_ {D : Type} (v : vec3 D) (s : StateEstimator D) : StateEstimator D := MkEst (s.(euler_angles_)) (s.(omega_)) (s.(pos_)) (s.(vel_)) (s.(internal_)) v (s.(last_inclinometer_)) (s.(last_ballast_)) (s.(last_ballast_time_)) (s.(last_inclinometer_time_)) (s.(est_out)).
Definition set_last_inclinometer_ {D : Type} (v : D) (s : StateEstimator D) : StateEstimator D := MkEst (s.(euler_angles_)) (s.(omega_)) (s.(pos_)) (s.(vel_)) (s.(internal_)) (s.(wind_msg_)) v (s.(last_ballast_)) (s.(last_ballast_time_)) (s.(last_inclinometer_time_)) (s.(est_out)).
Definition set_last_ballast_ {D : Type} (v : D) (s : StateEstimator D) : StateEstimator D := MkEst (s.(euler_angles_)) (s.(omega_)) (s.(pos_)) (s.(vel_)) (s.(internal_)) (s.(wind_msg_)) (s.(last_inclinometer_)) v (s.(last_ballast_time_)) (s.(last_inclinometer_time_)) (s.(est_out)).
Definition set_last_ballast_time_ {D : Type} (v : Z) (s : StateEstimator D) : StateEstimator D := MkEst (s.(euler_angles_)) (s.(omega_)) (s.(pos_)) (s.(vel_)) (s.(internal_)) (s.(wind_msg_)) (s.(last_inclinometer_)) (s.(last_ballast_)) v (s.(last_inclinometer_time_)) (s.(est_out)).
Definition set_last_inclinometer_time_ {D : Type} (v : Z) (s : StateEstimator D) : StateEstimator D := MkEst (s.(euler_angles_)) (s.(omega_)) (s.(pos_)) (s.(vel_)) (s.(internal_)) (s.(wind_msg_)) (s.(last_inclinometer_)) (s.(last_ballast_)) (s.(last_ballast_time_)) v (s.(est_out)).
Definition set_est_out {D : Type} (v : list (EstOut D)) (s : StateEstimator D) : StateEstimator D := MkEst (s.(euler_angles_)) (s.(omega_)) (s.(pos_)) (s.(vel_)) (s.(internal_)) (s.(wind_msg_)) (s.(last_inclinometer_)) (s.(last_ballast_)) (s.(last_ballast_time_)) (s.(last_inclinometer_time_)) v.

Inductive WIND_REFERENCE := TRUE_NORTH_REF | MAGNETIC_NORTH_REF | APPARENT | TRUE_BOAT_REF | TRUE_WATER_REF.

Section Node.
Context {D : Type} {ND : Num D}.
Variable RollPitchYawToQuat : vec3 D -> D * D * D * D.
#[local] Open Scope num_scope.

Definition set_x (v : D) (a : vec3 D) : vec3 D := V3 v (v3y a) (v3z a).
Definition set_y (v : D) (a : vec3 D) : vec3 D := V3 (v3x a) v (v3z a).
Definition set_z (v : D) (a : vec3 D) : vec3 D := V3 (v3x a) (v3y a) v.

Definition est_send (o : EstOut D) (s : StateEstimator D) : StateEstimator D :=
  set_est_out (est_out s ++ [o]) s.

(** The vectors start at zero; the last readings are not initialised. *)
Definition Est_init (incl0 ballast0 : D) : StateEstimator D :=
  let z := V3 #0 #0 #0 in
  MkEst z z z z Internal_clear z incl0 ballast0 0 0 [].

(** Vessel heading, rate of turn, attitude, position. *)
Definition handle_heading (h : option D) (s : StateEstimator D) : StateEstimator D :=
  match h with
  | Some h => set_euler_angles_ (set_z (- h + npi / #2) (euler_angles_ s)) s
  | None => s
  end.
Definition handle_rate (r : option D) (s : StateEstimator D) : StateEstimator D :=
  match r with Some r => set_omega_ (set_z (- r) (omega_ s)) s | None => s end.
Definition handle_attitude (pitch : option D) (s : StateEstimator D) : StateEstimator D :=
  match pitch with Some p => set_euler_angles_ (set_y p (euler_angles_ s)) s | None => s end.
Definition handle_position (lat lon : option D) (s : StateEstimator D) : StateEstimator D :=
  match lat, lon with
  | Some lat, Some lon => set_pos_ (set_y lat (set_x lon (pos_ s))) s
  | _, _ => s
  end.

(** Course and speed over ground: compass course to the mathematical angle. *)
Definition handle_cog_sog (cog sog : option D) (s : StateEstimator D) : StateEstimator D :=
  match cog, sog with
  | Some cog, Some speed =>
      let heading := nfloat (npi / #2 - cog) in
      set_vel_ (set_y (nfloat (speed * nfloat (nsin heading)))
                 (set_x (nfloat (speed * nfloat (ncos heading))) (vel_ s))) s
  | _, _ => s
  end.

Definition is_apparent (r : WIND_REFERENCE) : bool := match r with APPARENT => true | _ => false end.

Definition handle_wind (ws wa : option D) (ref : option WIND_REFERENCE) (s : StateEstimator D) : StateEstimator D :=
  match ws, wa, ref with
  | Some ws, Some wa, Some r =>
      let true_wind := negb (is_apparent r) in
      let speed := - ws in
      let dir := - wa in
      let dir := if true_wind then nfloat (dir + npi / #2) else dir in
      let s := set_wind_msg_ (V3 (nfloat (speed * nfloat (ncos dir))) (nfloat (speed * nfloat (nsin dir))) #0) s in
      if negb true_wind then est_send (OutWind (wind_msg_ s)) s else est_send (OutTrueWind (wind_msg_ s)) s
  | _, _, _ => s
  end.

(** Seconds since the last reading, at least a millisecond. *)
Definition elapsed (now last : Z) : D := nmax (nofZ (now - last)%Z / #1000000000) (dec 1 3).

Definition handle_internal_ballast (b : D) (t1 t2 : Z) (s : StateEstimator D) : StateEstimator D :=
  let dt := elapsed t1 (last_ballast_time_ s) in
  let dot := (b - last_ballast_ s) / dt in
  let dot := get (ballastdot (internal_ s)) * dec 5 1 + dec 5 1 * dot in
  let s := set_internal_ (set_ballastdot (Some (nfloat dot)) (set_ballast (Some b) (internal_ s))) s in
  set_last_ballast_time_ t2 (set_last_ballast_ b s).

Definition handle_internal (m : InternalBoatState D) (t1 t2 : Z) (s : StateEstimator D) : StateEstimator D :=
  let s := match sail m with Some x => set_internal_ (set_sail (Some x) (internal_ s)) s | None => s end in
  let s := match rudder m with Some x => set_internal_ (set_rudder (Some x) (internal_ s)) s | None => s end in
  match ballast m with Some b => handle_internal_ballast b t1 t2 s | None => s end.

Definition handle_inclinometer (heel : option D) (t1 t2 : Z) (s : StateEstimator D) : StateEstimator D :=
  match heel with
  | None => s
  | Some heel =>
      let dt := elapsed t1 (last_inclinometer_time_ s) in
      let s := set_euler_angles_ (set_x heel (euler_angles_ s)) s in
      let w := v3x (omega_ s) in
      let s := set_omega_ (set_x (w + dec 5 1 * ((heel - last_inclinometer_ s) / dt - w)) (omega_ s)) s in
      set_last_inclinometer_time_ t2 (set_last_inclinometer_ heel s)
  end.

Definition Est_Iterate (s : StateEstimator D) : StateEstimator D :=
  let e := euler_angles_ s in
  let b := MkBoatState (EigenToProtod (pos_ s)) (EigenToProto (vel_ s)) (EigenToProto (omega_ s))
             (V3 (nfloat (v3x e)) (nfloat (v3y e)) (nfloat (v3z e))) (internal_ s) in
  let '(w, x, y, z) := RollPitchYawToQuat e in
  est_send (OutState b (nfloat w, nfloat x, nfloat y, nfloat z)) s.
End Node.

(** ** Frames, in exact arithmetic *)

Section Frames.
#[local] Open Scope R_scope.

Lemma sin_compass a : sin (PI / 2 - a) = cos a.
Proof. apply sin_shift. Qed.

Lemma cos_compass a : cos (PI / 2 - a) = sin a.
Proof. apply cos_shift. Qed.

(** In exact arithmetic the sensor conversions agree on one frame, x east and y north: a
    compass course [cog] and speed [sog] become the velocity (sog sin cog, sog cos cog),
    a compass heading [h] becomes the yaw whose direction is (sin h, cos h), and a true
    wind of speed [ws] from compass direction [wa] becomes the vector that points the
    opposite way. *)
Theorem sensor_frames_agree (s : StateEstimator R) (cog sog h ws wa : R) :
  vel_ (handle_cog_sog (Some cog) (Some sog) s) = V3 (sog * sin cog) (sog * cos cog) (v3z (vel_ s))
  ∧ (let yaw := v3z (euler_angles_ (handle_heading (Some h) s)) in cos yaw = sin h ∧ sin yaw = cos h)
  ∧ last (est_out (handle_wind (Some ws) (Some wa) (Some TRUE_NORTH_REF) s))
    = Some (OutTrueWind (V3 (- ws * sin wa) (- ws * cos wa) 0)).
Proof.
  split; [|split; [split|]].
  - simpl. unfold set_x, set_y. simpl. by rewrite cos_compass, sin_compass.
  - simpl. rewrite Rplus_comm. apply cos_compass.
  - simpl. rewrite Rplus_comm. apply sin_compass.
  - simpl. rewrite last_snoc. rewrite Rplus_comm.
    change (PI / 2 + - wa) with (PI / 2 - wa). by rewrite cos_compass, sin_compass.
Qed.
End Frames.
