(* ===== verification/Monitor.v ===== *)
(** * The monitor

    src/management/monitor.cc and monitor.h: reports the control modes and the state of
    the connections over CAN, once a second. *)

From Stdlib Require Import ZArith Lia.
From stdpp Require Import base list.
From S2P Require Import Prelude Messages.

#[local] Open Scope Z_scope.

Inductive ConnectionState := GOOD | BAD | UNKNOWN.

Record SailbotStateMsg := MkSailbotState {
  st_rigid : MODE;
  st_ballast : MODE;
  st_winch : MODE;
  st_rudder : MODE;
  st_tacker : TACKER;
}.
Definition set_st_rigid (v : MODE) (s : SailbotStateMsg) : SailbotStateMsg := MkSailbotState v (s.(st_ballast)) (s.(st_winch)) (s.(st_rudder)) (s.(st_tacker)).
Definition set_st_ballast (v : MODE) (s : SailbotStateMsg) : SailbotStateMsg := MkSailbotState (s.(st_rigid)) v (s.(st_winch)) (s.(st_rudder)) (s.(st_tacker)).
Definition set_st_winch (v : MODE) (s : SailbotStateMsg) : SailbotStateMsg := MkSailbotState (s.(st_rigid)) (s.(st_ballast)) v (s.(st_rudder)) (s.(st_tacker)).
Definition set_st_rudder (v : MODE) (s : SailbotStateMsg) : SailbotStateMsg := MkSailbotState (s.(st_rigid)) (s.(st_ballast)) (s.(st_winch)) v (s.(st_tacker)).
Definition set_st_tacker (v : TACKER) (s : SailbotStateMsg) : SailbotStateMsg := MkSailbotState (s.(st_rigid)) (s.(st_ballast)) (s.(st_winch)) (s.(st_rudder)) v.

Record SailbotConnMsg := MkSailbotConn {
  rigid_conn : ConnectionState;
  radio_conn : ConnectionState;
  wifi_conn : ConnectionState;
  jetson_conn : ConnectionState;
  ui_conn : ConnectionState;
}.

Record Monitor := MkMonitor {
  mon_state_msg_ : SailbotStateMsg;
  ui_connection_ : bool;
  rigid_connection_ : bool;
  last_rigid_conn_ : Z;
  mon_out : list (SailbotStateMsg * SailbotConnMsg);
}.
Definition set_mon_state_msg_ (v : SailbotStateMsg) (s : Monitor) : Monitor := MkMonitor v (s.(ui_connection_)) (s.(rigid_connection_)) (s.(last_rigid_conn_)) (s.(mon_out)).
Definition set_ui_connection_ (v : bool) (s : Monitor) : Monitor := MkMonitor (s.(mon_state_msg_)) v (s.(rigid_connection_)) (s.(last_rigid_conn_)) (s.(mon_out)).
Definition set_rigid_connection_ (v : bool) (s : Monitor) : Monitor := MkMonitor (s.(mon_state_msg_)) (s.(ui_connection_)) v (s.(last_rigid_conn_)) (s.(mon_out)).
Definition set_last_rigid_conn_ (v : Z) (s : Monitor) : Monitor := MkMonitor (s.(mon_state_msg_)) (s.(ui_connection_)) (s.(rigid_connection_)) v (s.(mon_out)).
Definition set_mon_out (v : list (SailbotStateMsg * SailbotConnMsg)) (s : Monitor) : Monitor := MkMonitor (s.(mon_state_msg_)) (s.(ui_connection_)) (s.(rigid_connection_)) (s.(last_rigid_conn_)) v.

(** Seconds; times are nanoseconds. *)
Definition kRigidTimeout : Z := 5.

(** The time point starts at the clock's epoch. *)
Definition Monitor_init : Monitor :=
  MkMonitor (MkSailbotState DISABLE DISABLE DISABLE DISABLE TACKER_NONE) false false 0 [].

Definition mon_handle_connection (connected : bool) (s : Monitor) : Monitor := set_ui_connection_ connected s.

Definition mon_handle_control_mode (m : ControlMode) (s : Monitor) : Monitor :=
  let st := mon_state_msg_ s in
  set_mon_state_msg_
    (MkSailbotState (default (st_rigid st) (rigid_mode m)) (default (st_ballast st) (ballast_mode m))
       (default (st_winch st) (winch_mode m)) (default (st_rudder st) (rudder_mode m))
       (default (st_tacker st) (tacker m))) s.

Definition mon_handle_feedback (now : Z) (s : Monitor) : Monitor :=
  set_rigid_connection_ true (set_last_rigid_conn_ now s).

Definition conn_state (b : bool) : ConnectionState := if b then GOOD else BAD.

Definition Monitor_Iterate (now : Z) (s : Monitor) : Monitor :=
  let s := if last_rigid_conn_ s + kRigidTimeout * 1000000000 <? now then set_rigid_connection_ false s else s in
  let conn := MkSailbotConn (conn_state (rigid_connection_ s)) UNKNOWN UNKNOWN UNKNOWN
                (conn_state (ui_connection_ s)) in
  set_mon_out (mon_out s ++ [(mon_state_msg_ s, conn)]) s.

Inductive MonEvent :=
| MEvConnection (b : bool)
| MEvControlMode (m : ControlMode)
| MEvFeedback (now : Z)
| MEvIterate (now : Z).

Definition mon_step (s : Monitor) (e : MonEvent) : Monitor :=
  match e with
  | MEvConnection b => mon_handle_connection b s
  | MEvControlMode m => mon_handle_control_mode m s
  | MEvFeedback t => mon_handle_feedback t s
  | MEvIterate t => Monitor_Iterate t s
  end.

Definition mon_run (evs : list MonEvent) : Monitor := fold_left mon_step evs Monitor_init.

(** ** What is reported *)

Definition event_time (e : MonEvent) : option Z :=
  match e with MEvFeedback t | MEvIterate t => Some t | _ => None end.

(** The readings of the clock do not decrease along the events. *)
Definition timely (evs : list MonEvent) (now : Z) : Prop :=
  ∀ i e t, evs !! i = Some e -> event_time e = Some t ->
    t <= now ∧ ∀ j e' t', (j <= i)%nat -> evs !! j = Some e' -> event_time e' = Some t' -> t' <= t.

(** A feedback message within the timeout before [now]. *)
Definition recent_feedback (evs : list MonEvent) (now : Z) : Prop :=
  ∃ t, MEvFeedback t ∈ evs ∧ now <= t + kRigidTimeout * 1000000000.

(** The state after a run: a connection implies the last feedback, a lost one that
    every feedback is too old for the latest time. *)
Definition mon_inv (evs : list MonEvent) (s : Monitor) : Prop :=
  (∀ t, MEvFeedback t ∈ evs -> t <= last_rigid_conn_ s)
  ∧ (rigid_connection_ s = true -> MEvFeedback (last_rigid_conn_ s) ∈ evs)
  ∧ (rigid_connection_ s = false -> ∀ now, timely evs now -> ¬ recent_feedback evs now).

Lemma timely_snoc evs e now : timely (evs ++ [e]) now -> timely evs now.
Proof.
  intros H i e' t Hi Ht. destruct (H i e' t) as [H1 H2]; [by apply lookup_app_l_Some|done|].
  split; [done|]. intros j e'' t' Hj Hl Ht'. apply (H2 j e'' t'); [done|by apply lookup_app_l_Some|done].
Qed.

Lemma timely_last evs e t now : timely (evs ++ [e]) now -> event_time e = Some t -> t <= now ∧ timely evs t.
Proof.
  intros H Ht. assert ((evs ++ [e]) !! length evs = Some e) as Hl by (by rewrite lookup_app_r, Nat.sub_diag by lia).
  destruct (H _ _ _ Hl Ht) as [H1 H2]. split; [done|]. intros i e' t' Hi Ht'.
  pose proof (lookup_lt_Some _ _ _ Hi).
  split; [apply (H2 i e' t'); [lia|by apply lookup_app_l_Some|done]|].
  intros j e'' t'' Hj Hl' Ht''.
  apply (proj2 (H i e' t' (lookup_app_l_Some _ _ _ _ Hi) Ht') j e'' t''); [done|by apply lookup_app_l_Some|done].
Qed.

Lemma feedback_snoc_inv evs e t :
  MEvFeedback t ∈ evs ++ [e] -> MEvFeedback t ∈ evs ∨ e = MEvFeedback t.
Proof. intros [H|H]%elem_of_app; [by left|right]. by apply list_elem_of_singleton in H. Qed.

Lemma mon_run_snoc evs e : mon_run (evs ++ [e]) = mon_step (mon_run evs) e.
Proof. unfold mon_run. by rewrite fold_left_app. Qed.

Lemma feedback_snoc evs e t : MEvFeedback t ∈ evs -> MEvFeedback t ∈ evs ++ [e].
Proof. intros. apply elem_of_app. by left. Qed.

(** An event that is not a feedback adds no feedback. *)
Lemma recent_snoc evs e now :
  (∀ t, e ≠ MEvFeedback t) -> recent_feedback (evs ++ [e]) now -> recent_feedback evs now.
Proof. intros He (t & [H|H]%feedback_snoc_inv & Ht); [by exists t|by destruct (He t)]. Qed.

Lemma mon_inv_same evs e s s' :
  (∀ t, e ≠ MEvFeedback t) -> last_rigid_conn_ s' = last_rigid_conn_ s ->
  rigid_connection_ s' = rigid_connection_ s -> mon_inv evs s -> mon_inv (evs ++ [e]) s'.
Proof.
  intros He Hl Hr (H1 & H2 & H3). unfold mon_inv. rewrite Hl, Hr. split_and!.
  - intros t [H|H]%feedback_snoc_inv; [by apply H1|by destruct (He t)].
  - intros. by apply feedback_snoc, H2.
  - intros Hf now Ht Hrec. apply (H3 Hf now); [by apply timely_snoc in Ht|by eapply recent_snoc].
Qed.

Lemma mon_run_inv evs : ∀ now, timely evs now -> mon_inv evs (mon_run evs).
Proof.
  induction evs as [|e evs IH] using rev_ind; intros now Ht.
  { split_and!; try done.
    - intros t H. by apply not_elem_of_nil in H.
    - intros _ now' _ (t & H & _). by apply not_elem_of_nil in H. }
  pose proof (IH _ (timely_snoc _ _ _ Ht)) as Hinv. rewrite mon_run_snoc.
  destruct e as [b|m|t|t]; [by apply (mon_inv_same evs _ (mon_run evs))..| |].
  - destruct (timely_last _ _ _ _ Ht eq_refl) as [_ Hte]. split_and!; simpl; try done.
    + intros t' [H|[= ->]]%feedback_snoc_inv; [|lia].
      apply list_elem_of_lookup in H as [i Hi]. by destruct (Hte i _ t' Hi eq_refl).
    + intros _. apply elem_of_app. right. by apply list_elem_of_singleton.
  - simpl. unfold Monitor_Iterate. destruct (Z.ltb_spec (last_rigid_conn_ (mon_run evs) + kRigidTimeout * 1000000000) t)
      as [Hlt|Hge]; [|by apply (mon_inv_same evs _ (mon_run evs))].
    destruct Hinv as (H1 & _). split_and!; simpl; try done.
    + intros t' [H|]%feedback_snoc_inv; [by apply H1|done].
    + intros _ now' Ht' (t' & [H|]%feedback_snoc_inv & Hr); [|done].
      destruct (timely_last _ _ _ _ Ht' eq_refl) as [Hle _]. specialize (H1 _ H). lia.
Qed.

(** After any messages, with a clock that does not go back, the monitor reports the rigid
    wing connected exactly when a feedback message arrived within the last five seconds
    (and reports the user interface as last announced). *)
Theorem monitor_reports_rigid (evs : list MonEvent) (now : Z) :
  timely (evs ++ [MEvIterate now]) now ->
  ∃ st c, last (mon_out (mon_run (evs ++ [MEvIterate now]))) = Some (st, c)
    ∧ (rigid_conn c = GOOD <-> recent_feedback evs now)
    ∧ (rigid_conn c = BAD <-> ¬ recent_feedback evs now)
    ∧ ui_conn c = conn_state (ui_connection_ (mon_run evs)).
Proof.
  intros Ht. destruct (timely_last _ _ _ _ Ht eq_refl) as [_ Hte].
  destruct (mon_run_inv evs now Hte) as (H1 & H2 & H3). rewrite mon_run_snoc. simpl. unfold Monitor_Iterate.
  destruct (Z.ltb_spec (last_rigid_conn_ (mon_run evs) + kRigidTimeout * 1000000000) now) as [Hlt|Hge].
  - assert (¬ recent_feedback evs now) by (intros (t & H%H1 & Hr); lia).
    eexists _, _. split; [simpl; apply last_snoc|]. simpl. split_and!; (done || naive_solver).
  - eexists _, _. split; [simpl; apply last_snoc|]. simpl.
    destruct (rigid_connection_ (mon_run evs)) eqn:E; simpl.
    + assert (recent_feedback evs now) by (eexists; split; [by apply H2|lia]). naive_solver.
    + specialize (H3 eq_refl now Hte). naive_solver.
Qed.

Lemma monitor_reports_rigid_witness : ∃ st c,
  last (mon_out (mon_run ([MEvFeedback 7; MEvIterate 8] ++ [MEvIterate 9]))) = Some (st, c)
  ∧ (rigid_conn c = GOOD <-> recent_feedback [MEvFeedback 7; MEvIterate 8] 9).
Proof.
  destruct (monitor_reports_rigid [MEvFeedback 7; MEvIterate 8] 9) as (st & c & H1 & H2 & _).
  - intros i e t Hi Ht. destruct i as [|[|[|i]]]; simpl in Hi; simplify_eq; simpl in Ht; simplify_eq;
      (split; [lia|]); intros j e' t' Hj Hl Ht'; destruct j as [|[|[|j]]]; simpl in Hl; simplify_eq;
      simpl in Ht'; simplify_eq; lia.
  - exists st, c. split; [exact H1|exact H2].
Defined.
