(* ===== verification/RigidWing.v ===== *)
(** * The rigid wing link

    src/rigid_wing/rigid_wing.cc and .h: the text protocol with the wing over TCP.
    Commands are printed as "[s hhh mm ppp]", feedback is parsed from 13 bytes
    "[aaa sss bbb]".  Characters are their codes.  The socket calls are events with
    their results. *)

From Stdlib Require Import ZArith Lia.
From stdpp Require Import base list.
From S2P Require Import Prelude Num NumF Vec Util Messages.

#[local] Open Scope Z_scope.

Definition kBufLen : Z := 13.

(** ** Printing, as [snprintf] does *)

(** The decimal digits of a non-negative [int], most significant first. *)
Fixpoint digits (fuel : nat) (z : Z) : list Z :=
  match fuel with
  | O => []
  | S fuel => if z <? 10 then [0x30 + z] else digits fuel (z / 10) ++ [0x30 + z mod 10]
  end.

(** [%0wd]: at least [w] characters, padded with zeros after the sign. *)
Definition fmt_d (w : nat) (z : Z) : list Z :=
  if z <? 0 then
    let d := digits 11 (- z) in [0x2D] ++ repeat 0x30 (w - 1 - length d) ++ d
  else
    let d := digits 11 z in repeat 0x30 (w - length d) ++ d.

(** [snprintf] stores at most [n - 1] characters and a terminator, and returns the
    length of the whole text; the rest of the buffer keeps its contents. *)
Definition snprintf (buf : list Z) (n : nat) (text : list Z) : list Z * Z :=
  let stored := take (n - 1) text ++ [0] in
  (stored ++ drop (length stored) buf, Z.of_nat (length text)).

Section Node.
Context {D : Type} {ND : Num D}.

Definition wing_text (cmd : RigidWingCmd D) : list Z :=
  let heel := nint (nfloat (ToDeg (get (wing_heel cmd)))) in
  let max_heel := nint (nfloat (ToDeg (get (wing_max_heel cmd)))) in
  let aoa := default 0 (wing_servo_pos cmd) in
  [0x5B] ++ fmt_d 1 (WingState_value (default NO_LIFT (wing_state cmd))) ++ [0x20] ++ fmt_d 3 heel
  ++ [0x20] ++ fmt_d 2 max_heel ++ [0x20] ++ fmt_d 3 aoa ++ [0x5D].

Definition Wing_ConstructMessage (cmd : RigidWingCmd D) (buf : list Z) (buf_len : nat) : list Z * Z :=
  snprintf buf buf_len (wing_text cmd).

(** A [write] of more bytes than the buffer has. *)
Inductive WingErr := OverRead.

(** The bytes written to the connection, if there is one; [buf0] is the uninitialised
    16-byte buffer. *)
Definition ConstructAndSend (conn_fd : Z) (cmd : RigidWingCmd D) (buf0 : list Z)
  : result WingErr (option (list Z)) :=
  let '(buf, n) := Wing_ConstructMessage cmd buf0 16 in
  if conn_fd =? -1 then Ok None
  else if 16 <? n then Err OverRead else Ok (Some (take (Z.to_nat n) buf)).

(** ** Parsing *)

(** [int] arithmetic; three characters do not overflow it. *)
Definition atoi (a : list Z) : Z := fold_left (λ r c, r * 10 + (c - 0x30)) a 0.

Definition slice (buf : list Z) (off n : nat) : list Z := take n (drop off buf).

Definition ParseMessage (buf : list Z) (buf_len : Z) (feedback : RigidWingFeedback D) : RigidWingFeedback D :=
  let feedback := Feedback_clear in
  if negb (buf_len =? kBufLen) then feedback
  else if negb (nth 0 buf 0 =? 0x5B) then feedback
  else
    MkFeedback (Some (nfloat (norm_angle (nfloat (ToRad (nfloat (nofZ (atoi (slice buf 1 3)))))))))
      (Some (atoi (slice buf 5 3)))
      (Some (nfloat (ndiv (nfloat (nofZ (atoi (slice buf 9 3)))) (nofZ 1000)))).

(** ** Receiving *)

(** One attempt of the reading loop: [read]'s result, and [util::IsShutdown()] after
    waiting. *)
Inductive ReadResult := ReadBytes (bs : list Z) | ReadEof | ReadFailed (shutdown : bool).

(** What [accept4] returned after a wait that did not time out, or [None] for a
    time-out, with [util::IsShutdown()]. *)
Definition AcceptConnection (r : option Z) : option Z := r.

Fixpoint accept_loop (rs : list (option Z * bool)) : option Z :=
  match rs with
  | [] => None
  | (r, shutdown) :: rs =>
      match AcceptConnection r with
      | Some fd => Some fd
      | None => if shutdown then None else accept_loop rs
      end
  end.

Record Wing := MkWing { conn_fd_ : Z; feedback_msg_ : RigidWingFeedback D; wing_out : list (RigidWingFeedback D) }.

Fixpoint read_loop (rs : list ReadResult) (s : Wing) : Wing :=
  match rs with
  | [] => s
  | ReadBytes bs :: _ =>
      let buf := bs ++ repeat 0 (16 - length bs) in
      let buf := <[Z.to_nat kBufLen := 0]> buf in
      let f := ParseMessage buf (Z.of_nat (length bs)) (feedback_msg_ s) in
      MkWing (conn_fd_ s) f (wing_out s ++ [f])
  | ReadEof :: _ => MkWing (-1) (feedback_msg_ s) (wing_out s)
  | ReadFailed shutdown :: rs => if shutdown then s else read_loop rs s
  end.

Definition Wing_Iterate (accepts : list (option Z * bool)) (rs : list ReadResult) (s : Wing) : Wing :=
  if conn_fd_ s =? -1 then
    match accept_loop accepts with
    | None => s
    | Some fd => read_loop rs (MkWing fd (feedback_msg_ s) (wing_out s))
    end
  else read_loop rs s.
End Node.
Arguments Wing : clear implicits.

(** ** Round trip *)

(** Every three-digit field is printed with three characters and read back. *)
Lemma fmt_d3_check :
  forallb (λ k, let z := Z.of_nat k in
    (length (fmt_d 3 z) =? 3)%nat && (atoi (fmt_d 3 z) =? z)) (seq 0 1000) = true.
Proof. vm_compute. reflexivity. Qed.

Lemma fmt_d3 z : 0 <= z < 1000 -> length (fmt_d 3 z) = 3%nat ∧ atoi (fmt_d 3 z) = z.
Proof.
  intros Hz. pose proof fmt_d3_check as H. rewrite forallb_forall in H.
  specialize (H (Z.to_nat z)). rewrite Z2Nat.id in H by lia.
  assert (In (Z.to_nat z) (seq 0 1000)) as Hin by (apply in_seq; lia). specialize (H Hin).
  apply andb_true_iff in H as [H1 H2]. by apply Nat.eqb_eq in H1; apply Z.eqb_eq in H2.
Qed.

(** The message the wing sends. *)
Definition feedback_text (a s b : Z) : list Z :=
  [0x5B] ++ fmt_d 3 a ++ [0x20] ++ fmt_d 3 s ++ [0x20] ++ fmt_d 3 b ++ [0x5D].

Lemma slice_at (pre l post : list Z) : slice (pre ++ l ++ post) (length pre) (length l) = l.
Proof. unfold slice. by rewrite drop_app_length, take_app_length. Qed.

Section Properties.
Context {D : Type} {ND : Num D}.

End Properties.


(** [ConstructAndSend] writes as many bytes as [snprintf] reports, which can exceed the
    16-byte buffer: a command with a large servo value reads past it. *)
Theorem wing_send_over_reads (L : Libm) (buf0 : list Z) :
  ConstructAndSend (ND := num_float L) 4
    (MkRigidWingCmd (Some WING_MANUAL) None None (Some 1000000)) buf0 = Err OverRead.
Proof. reflexivity. Qed.
