(* ===== verification/ProtoFile.v ===== *)
(** * Protocol buffers in files

    [ReadProtoFromFile] and [WriteProtoToFile] of src/util/proto_util.cc, and what they do for
    the actuator node of src/control/scamp.cc, which keeps its zeroing constants in a file
    between runs.  The text format of the protocol buffer library is an argument.  A file is
    opened for writing without being truncated, so the text replaces only as much of the old
    contents as it is long. *)

From Stdlib Require Import ZArith Lia String Floats.
From stdpp Require Import base list gmap strings.
From S2P Require Import Prelude Num NumF Messages Scamp RigidWing.

#[local] Open Scope Z_scope.

(** [google::protobuf::TextFormat]: [Print], and [Parse] when it succeeds. *)
Class TextFormat (T : Type) := {
  tf_print : T -> list Z;
  tf_parse : list Z -> option T;
}.

(** The files by name. *)
Abbreviation files := (gmap string (list Z)).

(** Writing from the start of a file that is not truncated. *)
Definition overwrite (new old : list Z) : list Z := new ++ drop (length new) old.

Section Files.
Context {T : Type} {TF : TextFormat T}.

(** [fname] is [None] for a null pointer, and [may_open] is whether the system grants the
    access to a file that exists.  [None] is the result [false]. *)
Definition ReadProtoFromFile (fname : option string) (may_open : bool) (fs : files) : option T :=
  match fname with
  | None => None
  | Some f => if may_open then fs !! f ≫= tf_parse else None
  end.

Definition WriteProtoToFile (fname : option string) (may_open : bool) (proto : T) (fs : files) : bool * files :=
  match fname with
  | None => (false, fs)
  | Some f =>
      if may_open then (true, <[f := overwrite (tf_print proto) (default [] (fs !! f))]> fs) else (false, fs)
  end.

Lemma overwrite_whole new old : (length old <= length new)%nat -> overwrite new old = new.
Proof. intros. unfold overwrite. rewrite drop_ge by done. apply app_nil_r. Qed.

Lemma overwrite_length new old : length (overwrite new old) = Nat.max (length new) (length old).
Proof. unfold overwrite. rewrite length_app, length_drop. lia. Qed.

(** A message that was written is read back if its text is not shorter than what was in the
    file; in any case the contents are the text followed by the end of the old contents. *)
Theorem write_read_proto (f : string) (m : T) (fs fs' : files) :
  WriteProtoToFile (Some f) true m fs = (true, fs') ->
  (∀ g, g ≠ f -> fs' !! g = fs !! g)
  ∧ ReadProtoFromFile (Some f) true fs'
    = tf_parse (tf_print m ++ drop (length (tf_print m)) (default [] (fs !! f)))
  ∧ ((length (default [] (fs !! f)) <= length (tf_print m))%nat -> tf_parse (tf_print m) = Some m ->
     ReadProtoFromFile (Some f) true fs' = Some m).
Proof.
  intros [= <-]. unfold ReadProtoFromFile. rewrite lookup_insert_eq. split_and!; [|done|].
  - intros g Hg. by rewrite lookup_insert_ne.
  - intros Hl Hp. cbn [mbind option_bind]. by rewrite overwrite_whole.
Qed.
End Files.

(** ** The constants of the actuator node *)

Section Zeroing.
Context {D : Type} {ND : Num D} {TF : TextFormat (ZeroingConstants D)}.

(** The files after the messages and writes of the node. *)
Definition scamp_files (f : string) (outs : list (ScampOut D)) (fs : files) : files :=
  fold_left (λ fs o, match o with OutFile c => snd (WriteProtoToFile (Some f) true c fs) | _ => fs end) outs fs.

Definition file_text (f : string) (fs : files) : list Z := default [] (fs !! f).

(** The length of a text that the node writes. *)
Definition out_length (o : ScampOut D) : nat :=
  match o with OutFile c => length (tf_print c) | _ => 0%nat end.

Lemma scamp_files_length f outs n : ∀ fs,
  (length (file_text f fs) <= n)%nat -> Forall (λ o, (out_length o <= n)%nat) outs ->
  (length (file_text f (scamp_files f outs fs)) <= n)%nat.
Proof.
  induction outs as [|o outs IH]; intros fs Hl; [done|]. intros [Ho Houts]%Forall_cons.
  apply IH; [|done]. destruct o; try done. unfold file_text in *. simpl. rewrite lookup_insert_eq. simpl.
  rewrite overwrite_length. simpl in Ho. lia.
Qed.

Lemma scamp_out_app f outs o fs :
  scamp_files f (outs ++ [o]) fs
  = match o with OutFile c => snd (WriteProtoToFile (Some f) true c (scamp_files f outs fs)) | _ => scamp_files f outs fs end.
Proof. unfold scamp_files. by rewrite fold_left_app. Qed.

(** In any state of a run that started with the files [fs], the constants that are set with the
    request to write them are those of the next run of the node, as long as no text before them
    was longer. *)
Theorem zeroing_persists (f : string) (fs : files) (m : ZeroingConstants D) (s : SCAMP D) :
  write_constants m = Some true ->
  let s' := handle_zeroing m s in
  let c := zero_consts_ s' in
  tf_parse (tf_print c) = Some c ->
  (length (file_text f fs) <= length (tf_print c))%nat ->
  Forall (λ o, (out_length o <= length (tf_print c))%nat) (scamp_out s) ->
  zero_consts_ (SCAMP_init (ReadProtoFromFile (Some f) true (scamp_files f (scamp_out s') fs))) = c.
Proof.
  intros Hm s' c Hp Hl Ho.
  assert (scamp_out s' = scamp_out s ++ [OutFile c]) as ->.
  { unfold c, s', handle_zeroing. rewrite Hm. done. }
  rewrite scamp_out_app.
  destruct (WriteProtoToFile (Some f) true c (scamp_files f (scamp_out s) fs)) as [b fs'] eqn:E.
  assert (b = true) as -> by (simpl in E; by injection E as <- _).
  destruct (write_read_proto f c _ _ E) as (_ & _ & Hr). unfold SCAMP_init. cbn [snd zero_consts_].
  rewrite Hr; [done| |done]. apply scamp_files_length; done.
Qed.
End Zeroing.

(** ** A concrete text format *)

Section Text.
#[local] Instance text_num : Num float := num_poly.

(** [rudder_zero: ] and the digits of a number. *)
Definition rudder_zero_name : list Z := [114; 117; 100; 100; 101; 114; 95; 122; 101; 114; 111; 58; 32].
Definition is_digit (c : Z) : bool := (48 <=? c) && (c <=? 57).

Fixpoint strip (prefix l : list Z) : option (list Z) :=
  match prefix, l with
  | [], l => Some l
  | p :: prefix, c :: l => if p =? c then strip prefix l else None
  | _, [] => None
  end.

Fixpoint span_digits (l : list Z) : list Z * list Z :=
  match l with
  | c :: l' => if is_digit c then let '(ds, rest) := span_digits l' in (c :: ds, rest) else ([], l)
  | [] => ([], [])
  end.

(** Messages with only this field set; nothing but line breaks may follow it. *)
#[local] Instance rudder_zero_text : TextFormat (ZeroingConstants float) := {|
  tf_print c := match rudder_zero c with Some z => rudder_zero_name ++ digits 10 z ++ [10] | None => [] end;
  tf_parse l :=
    match span_digits <$> strip rudder_zero_name l with
    | Some (c :: ds, rest) =>
        if forallb (Z.eqb 10) rest then Some (MkZeroing (Some (atoi (c :: ds))) None None None None None) else None
    | _ => None
    end;
|}.

Definition zeroing_file (z : Z) : files :=
  {[ "consts.pb"%string := tf_print (MkZeroing (D := float) (Some z) None None None None None) ]}.
Definition set_zero (z : Z) : ZeroingConstants float := MkZeroing (Some z) None None None (Some true) None.

(** The rudder's neutral position, changed from 90 to 100, is kept ... *)
Lemma zeroing_persists_witness :
  let s := SCAMP_init (ReadProtoFromFile (Some "consts.pb"%string) true (zeroing_file 90)) in
  zero_consts_ (SCAMP_init (ReadProtoFromFile (Some "consts.pb"%string) true
    (scamp_files "consts.pb"%string (scamp_out (handle_zeroing (set_zero 100) s)) (zeroing_file 90))))
  = MkZeroing (Some 100) None None None None None.
Proof.
  intros s. rewrite (zeroing_persists "consts.pb"%string (zeroing_file 90) (set_zero 100) s).
  - reflexivity.
  - reflexivity.
  - vm_compute. reflexivity.
  - vm_compute. lia.
  - constructor.
Defined.

(** ... and changed to 5 it is lost: the end of the old number makes the file unreadable, and the
    next run uses the defaults. *)
Lemma shorter_constants_lost :
  let s := SCAMP_init (ReadProtoFromFile (Some "consts.pb"%string) true (zeroing_file 100)) in
  let fs := scamp_files "consts.pb"%string (scamp_out (handle_zeroing (set_zero 5) s)) (zeroing_file 100) in
  rudder_zero (zero_consts_ (handle_zeroing (set_zero 5) s)) = Some 5
  ∧ ReadProtoFromFile (T := ZeroingConstants float) (Some "consts.pb"%string) true fs = None
  ∧ rudder_zero (zero_consts_ (SCAMP_init (ReadProtoFromFile (T := ZeroingConstants float) (Some "consts.pb"%string) true fs))) = Some 90.
Proof. vm_compute. done. Qed.
End Text.
