(* ===== verification/LineCost.v ===== *)
(** * Costs and optimisation of the line planner

    The static functions of src/control/line_plan.cc: the costs of legs, turns and
    obstacles with their derivatives, the seeding of tack points, and the gradient
    descent over them.  An output parameter of the source is a component of the
    result.  [uninit] is the contents of the uninitialised local vectors the source
    multiplies by zero. *)

From Stdlib Require Import ZArith Lia Reals Lra Psatz Floats.
From stdpp Require Import base list.
From S2P Require Import Prelude Num NumR NumF Vec Util Polygon.

#[local] Open Scope Z_scope.

Section Costs.
Context {D : Type} {ND : Num D} {EG : Eigen D}.
Abbreviation Point := (vec2 D).
Abbreviation Gate := (vec2 D * vec2 D)%type.
Variable uninit : Point.
#[local] Open Scope num_scope.

(** ** Constants *)

Definition kTackCost : D := #5.
Definition kTurnCost : D := nfloat (dec 3 1).
Definition kUpwindCost : D := #300.
Definition kUpwindApproxCost : D := nfloat (#0 * #2).
Definition kSailableReach : D := nfloat (npi / #6).
Definition kObstacleCost : D := #100.
Definition kLengthCost : D := #1.
Definition kGateWidth : D := #20.
Definition kPreTurnScale : D := #200.
Definition kAlphaCrossCost : D := #5.
Definition kMaxTotalpts : Z := 6.
Definition kMaxLegs : Z := 1.

(** ** Legs and turns *)

(** [(cost, dcostdlen, dcostdheading, viable)] *)
Definition StraightLineCost (len heading winddir : D) (is_real : bool) : D * D * D * bool :=
  let headingnorm := norm_angle (winddir + npi - heading) in
  let upwindness := nabs headingnorm in
  let kUp := if is_real then kUpwindCost else kUpwindApproxCost in
  let viable := kSailableReach <? upwindness in
  let kMaxUpwindness := dec 9 1 in
  let upwindness := Clip upwindness #0 kMaxUpwindness in
  let upwindexp := nexp (#10 * (upwindness - npi / #6)) in
  let dupwindexpdheading := - #10 * upwindexp * nofZ (Sign headingnorm) in
  let upwindscalar := kUp / (#1 + upwindexp) in
  let dupwindscalardheading := - upwindscalar / (#1 + upwindexp) * dupwindexpdheading in
  let dcostdheading :=
    if (upwindness =? kMaxUpwindness) || (upwindness =? #0) then #0
    else kLengthCost * len * dupwindscalardheading in
  (upwindscalar * kLengthCost * len, upwindscalar * kLengthCost, dcostdheading, viable).

(** [(cost, dcostdstart, dcostdend)] *)
Definition TurnCost (startheading endheading winddir : D) : D * D * D :=
  let nogosize := npi / #4 in
  let plusnogoabs := norm_angle (npi + winddir + nogosize) in
  let negnogoabs := norm_angle (npi + winddir - nogosize) in
  let endnorm := norm_angle (endheading - startheading) in
  let plusnogonorm := norm_angle (plusnogoabs - startheading) in
  let negnogonorm := norm_angle (negnogoabs - startheading) in
  let '(endnorm, plusnogonorm, negnogonorm, sign) :=
    if endnorm <? #0 then (endnorm * - #1, negnogonorm * - #1, plusnogonorm * - #1, - #1)
    else (endnorm, plusnogonorm, negnogonorm, #1) in
  if ((plusnogonorm <? #0) && (negnogonorm <? #0)) || (endnorm <? negnogonorm) then
    (kTurnCost * endnorm * endnorm, - #2 * kTurnCost * sign * endnorm, #2 * kTurnCost * sign * endnorm)
  else
    let clipstart := negnogonorm <? #0 in
    let startnogo := if clipstart then #0 else negnogonorm in
    let clipend := (endnorm <? plusnogonorm) || (plusnogonorm <? #0) in
    let endnogo := if clipend then endnorm else plusnogonorm in
    let nogodist := endnogo - startnogo in
    let costbase := endnorm + (kTackCost - #1) * nogodist in
    (kTurnCost * costbase * costbase,
     - #2 * kTurnCost * sign * (if clipstart then kTackCost else #1) * costbase,
     #2 * kTurnCost * sign * (if clipend then kTackCost else #1) * costbase).

(** [(cost, dcostdalpha)] *)
Definition CrossFinishCost (alpha : D) : D * D :=
  let alpha := nmax (dec 1 1) alpha in
  let base_cost := kAlphaCrossCost * nexp alpha / nsqrt alpha in
  (base_cost, base_cost * (#1 - dec 5 1 / alpha)).

Definition datan (x dxda : Point) : D := dot2 (div2 (V2 (- vy x) (vx x)) (squaredNorm2 x)) dxda.
Definition dnorm (x dxda : Point) : D := dot2 (normalized2 x) dxda.

(** [(cost, dcostdalpha, viable)], without obstacles. *)
Definition SingleLineCost (startline endline startpt : Point) (alpha preheading : D)
    (nextpt : Point) (winddir : D) : D * D * bool :=
  let endpt := add2 startline (scale2 alpha (sub2 endline startline)) in
  let dendda := sub2 endline startline in
  let firstleg := sub2 endpt startpt in
  let nextleg := sub2 nextpt endpt in
  let dnextlegda := opp2 dendda in
  let startheading := natan2 (vy firstleg) (vx firstleg) in
  let nextheading := natan2 (vy nextleg) (vx nextleg) in
  let dstarthda := datan firstleg dendda in
  let dnexthda := datan nextleg dnextlegda in
  let '(nextheading, dnexthda) :=
    if squaredNorm2 nextleg <? dec 1 8 then (startheading, dstarthda) else (nextheading, dnexthda) in
  let firstlen := norm2 firstleg in
  let dfirstlenda := dnorm firstleg dendda in
  let nextlen := norm2 nextleg in
  let dnextlenda := dnorm nextleg dnextlegda in
  let '(firstlencost, dflencostdlen, dflencostdheading, viable) :=
    StraightLineCost firstlen startheading winddir true in
  let '(nextlencost, dnlencostdlen, dnlencostdheading, _) :=
    StraightLineCost nextlen nextheading winddir false in
  let lencost := firstlencost + nextlencost in
  let dlencostda := dflencostdlen * dfirstlenda + dflencostdheading * dstarthda
                    + dnlencostdlen * dnextlenda + dnlencostdheading * dnexthda in
  let '(preturncost, _, dpreturndend) := TurnCost preheading startheading winddir in
  let dpreturncostda := dpreturndend * dstarthda in
  let '(turncost, dturndstart, dturndend) := TurnCost startheading nextheading winddir in
  let dturncostda := dturndstart * dstarthda + dturndend * dnexthda in
  let turncost := turncost + preturncost in
  let dturncostda := dturncostda + dpreturncostda in
  let '(crosscost, dcrossda) := CrossFinishCost alpha in
  let cost := lencost + turncost + crosscost in
  let dcostdalpha := dlencostda + dturncostda + dcrossda in
  (cost, if nisnan dcostdalpha then #0 else dcostdalpha, viable).

(** [(cost, dcostdturnpt, viable)], without obstacles; the gradient starts as the
    uninitialised vector times zero. *)
Definition LinePairCost (startpt endpt turnpt : Point) (preheading postheading winddir scale_pre_cost : D)
  : D * Point * bool :=
  let g := scale2 #0 uninit in
  let sega := sub2 turnpt startpt in
  let segb := sub2 endpt turnpt in
  let lena := norm2 sega in
  let dlenadturnpt := div2 sega (norm2 sega) in
  let lenb := norm2 segb in
  let dlenbdturnpt := div2 (opp2 segb) (norm2 segb) in
  let headinga := natan2 (vy sega) (vx sega) in
  let dhadturnpt := div2 (V2 (- vy sega) (vx sega)) (squaredNorm2 sega) in
  let headingb := natan2 (vy segb) (vx segb) in
  let dhbdturnpt := div2 (opp2 (V2 (- vy segb) (vx segb))) (squaredNorm2 segb) in
  let '(turncost, _, dcostdend) := TurnCost preheading headinga winddir in
  let cost := #0 + turncost * scale_pre_cost in
  let g := add2 g (scale2 scale_pre_cost (scale2 dcostdend dhadturnpt)) in
  let '(turncost, dcostdstart, dcostdend) := TurnCost headinga headingb winddir in
  let cost := cost + turncost in
  let g := add2 (add2 g (scale2 dcostdstart dhadturnpt)) (scale2 dcostdend dhbdturnpt) in
  let '(turncost, dcostdstart, _) := TurnCost headingb postheading winddir in
  let cost := cost + turncost in
  let g := add2 g (scale2 dcostdstart dhbdturnpt) in
  let '(linecost, dcostdlen, dcostdheading, viablea) := StraightLineCost lena headinga winddir true in
  let cost := cost + linecost in
  let g := add2 g (add2 (scale2 dcostdlen dlenadturnpt) (scale2 dcostdheading dhadturnpt)) in
  let '(linecost, dcostdlen, dcostdheading, viableb) := StraightLineCost lenb headingb winddir true in
  let cost := cost + linecost in
  let g := add2 g (add2 (scale2 dcostdlen dlenbdturnpt) (scale2 dcostdheading dhbdturnpt)) in
  (cost, g, viableb && viablea).

(** ** Obstacles *)

(** A failed [CHECK], or an access past the end of a vector. *)
Inductive PlanErr := PlanCheckFailed | PlanOutOfRange.

(** [at(i)], and [operator[]] with an index in range, to read and to store. *)
Definition vec_at {A : Type} (l : list A) (i : nat) : result PlanErr A :=
  match l !! i with Some a => Ok a | None => Err PlanOutOfRange end.
Definition vec_set {A : Type} (l : list A) (i : nat) (a : A) : result PlanErr (list A) :=
  if (i <? length l)%nat then Ok (<[i := a]> l) else Err PlanOutOfRange.

#[local] Open Scope result_scope.

(** A polygon without vertices fails the remainder by their number. *)
Definition obstacle_dist (p : Polygon D) (pt : Point) : result PlanErr (option D) :=
  match DistToPoint p pt with Ok d => Ok d | Err _ => Err PlanOutOfRange end.

(** [std::max(0.0, 10.0 - dist) / 10.0], infinity being [None]. *)
Definition obstacle_diff (dist : option D) : D :=
  match dist with
  | Some d => nmax #0 (#10 - d) / #10
  | None => #0 / #10
  end.

(** The sum over ten points of the segment. *)
Definition ObstacleCostValue (start end_ : Point) (obstacles : list (Polygon D)) : result PlanErr D :=
  let dx := norm2 (sub2 start end_) / #10 in
  rfold (λ cost ii,
    let alpha := (nofZ (Z.of_nat ii) + dec 5 1) / #10 in
    let evalpt := add2 start (scale2 alpha (sub2 end_ start)) in
    rfold (λ cost p,
      let* dist := obstacle_dist p evalpt in
      let diff := obstacle_diff dist in
      Ok (cost + kObstacleCost * diff * diff * dx)) obstacles cost) (seq 0 10) #0.

(** [(cost, dcostdstart)] *)
Definition ObstacleCost (start end_ : Point) (obstacles : list (Polygon D)) : result PlanErr (D * Point) :=
  let* cost := ObstacleCostValue start end_ obstacles in
  let eps := dec 1 5 in
  let* dcostx := ObstacleCostValue (V2 (vx start + eps) (vy start)) end_ obstacles in
  let* dcosty := ObstacleCostValue (V2 (vx start) (vy start + eps)) end_ obstacles in
  Ok (cost, V2 ((dcostx - cost) / eps) ((dcosty - cost) / eps)).

Definition SingleLineCostObs (startline endline startpt : Point) (alpha preheading : D)
    (nextpt : Point) (winddir : D) (obstacles : list (Polygon D)) : result PlanErr (D * D * bool) :=
  let '(basecost, basedalpha, viable) :=
    SingleLineCost startline endline startpt alpha preheading nextpt winddir in
  let crosspt := add2 startline (scale2 alpha (sub2 endline startline)) in
  let dcrossptdalpha := sub2 endline startline in
  let* (obstaclecost, obstacledend) := ObstacleCost crosspt startpt obstacles in
  Ok (basecost + obstaclecost, basedalpha + dot2 obstacledend dcrossptdalpha, viable).

Definition LinePairCostObs (startpt endpt turnpt : Point)
    (preheading postheading winddir scale_pre_cost : D) (obstacles : list (Polygon D))
  : result PlanErr (D * Point * bool) :=
  let '(basecost, basedturnpt, viable) :=
    LinePairCost startpt endpt turnpt preheading postheading winddir scale_pre_cost in
  let cost := #0 + basecost in
  let g := add2 (scale2 #0 uninit) basedturnpt in
  let* (c1, g1) := ObstacleCost turnpt startpt obstacles in
  let cost := cost + c1 in
  let g := add2 g g1 in
  let* (c2, g2) := ObstacleCost turnpt endpt obstacles in
  Ok (cost + c2, add2 g g2, viable).

(** ** Gradient descent *)

(** The loop of [BackPass] from point [ii] down to 1.  [postheading] and [postpt] are
    taken from the point after it has been moved: [curpt] is a reference. *)
Fixpoint back_points (ii : nat) (winddir cur_yaw step : D) (prescale : bool) (obstacles : list (Polygon D))
    (tackpts : list Point) (postpt : Point) (postheading cost : D) (viable : bool)
  : result PlanErr (list Point * D * bool) :=
  match ii with
  | O => Ok (tackpts, cost, viable)
  | S jj =>
      let* prept := vec_at tackpts jj in
      let* curpt := vec_at tackpts ii in
      let* preheading :=
        match jj with O => Ok cur_yaw | S kk => let* p := vec_at tackpts kk in Ok (atan2v (sub2 prept p)) end in
      let scale_pre := if (jj =? 0)%nat && prescale then kPreTurnScale else #1 in
      let* (c, g, lineviable) :=
        LinePairCostObs prept postpt curpt preheading postheading winddir scale_pre obstacles in
      let curpt := sub2 curpt (scale2 step g) in
      let* tackpts := vec_set tackpts ii curpt in
      back_points jj winddir cur_yaw step prescale obstacles tackpts curpt
        (atan2v (sub2 postpt curpt)) (cost + c) (viable && lineviable)
  end.

(** [(tackpts, alpha, finalcost, viable)] *)
Definition BackPass (gate : Gate) (nextpt : Point) (winddir : D) (obstacles : list (Polygon D))
    (cur_yaw step : D) (prescale : bool) (tackpts : list Point) (alpha : D)
  : result PlanErr (list Point * D * D * bool) :=
  if (length tackpts <? 1)%nat then Err PlanCheckFailed else
  let Npts := length tackpts in
  let* penultimate_heading :=
    if (1 <? Npts)%nat
    then let* a := vec_at tackpts (Npts - 1) in
         let* b := vec_at tackpts (Npts - 2) in
         Ok (atan2v (sub2 a b))
    else Ok cur_yaw in
  let* lastpt := vec_at tackpts (Npts - 1) in
  let* (cost, dcostdalpha, lineviable) :=
    SingleLineCostObs gate.1 gate.2 lastpt alpha penultimate_heading nextpt winddir obstacles in
  let alpha := alpha - step * dcostdalpha in
  let alpha := Clip alpha (dec 1 1) #1 in
  let finalcost := #0 + cost in
  let postpt := add2 gate.1 (scale2 alpha (sub2 gate.2 gate.1)) in
  let postheading := atan2v (sub2 postpt lastpt) in
  let* (tackpts, finalcost, viable) :=
    back_points (Npts - 1) winddir cur_yaw step prescale obstacles tackpts postpt postheading
      finalcost lineviable in
  Ok (tackpts, alpha, finalcost, viable).

(** The path of leg [jj] before its backward pass, and the heading into it: after the first leg it
    starts on the gate. *)
Definition leg_start (jj : nat) (gate : Gate) (cur_yaw : D) (tacks : list (list Point)) (alphas : list D) (leg : list Point)
  : result PlanErr (list Point * D) :=
  match jj with
  | O => Ok (leg, cur_yaw)
  | S kk =>
      let* a := vec_at alphas kk in
      let first := add2 gate.1 (scale2 a (sub2 gate.2 gate.1)) in
      let* leg := vec_set leg 0 first in
      let* prev := vec_at tacks kk in
      let* back := vec_at prev (length prev - 1) in
      Ok (leg, atan2v (sub2 first back))
  end.

(** The loop over the legs of one iteration, from leg [jj] on; a leg's viability counts
    when [jj == -1]. *)
Fixpoint optimize_legs (n jj Nlegs : nat) (gates : list Gate) (nextpt : Point) (winddir : D)
    (obstacles : list (Polygon D)) (cur_yaw step : D) (tacks : list (list Point)) (alphas : list D)
    (finalcost : D) (viable : bool) : result PlanErr (list (list Point) * list D * D * bool) :=
  match n with
  | O => Ok (tacks, alphas, finalcost, viable)
  | S n =>
      let* gate := vec_at gates jj in
      let* npt := if (jj =? Nlegs - 1)%nat then Ok nextpt else let* next := vec_at tacks (jj + 1) in vec_at next 0 in
      let* leg := vec_at tacks jj in
      let* (leg, cyaw) := leg_start jj gate cur_yaw tacks alphas leg in
      let* alpha := vec_at alphas jj in
      let* (leg, alpha, segmentcost, segmentviable) :=
        BackPass gate npt winddir obstacles cyaw step (jj =? 0)%nat leg alpha in
      let* tacks := vec_set tacks jj leg in
      let* alphas := vec_set alphas jj alpha in
      optimize_legs n (jj + 1) Nlegs gates nextpt winddir obstacles cur_yaw step
        tacks alphas (finalcost + segmentcost)
        (if (Z.of_nat jj =? -1)%Z then viable && segmentviable else viable)
  end.

(** The fifty iterations, from number [ii] on. *)
Fixpoint optimize_iters (n : nat) (ii : Z) (gates : list Gate) (nextpt : Point) (winddir : D)
    (obstacles : list (Polygon D)) (cur_yaw : D) (tacks : list (list Point)) (alphas : list D)
    (finalcost : D) (viable : bool) : result PlanErr (list (list Point) * list D * D * bool) :=
  match n with
  | O => Ok (tacks, alphas, finalcost, viable)
  | S n =>
      let step := if (20 <? ii)%Z then dec 3 3 else dec 1 2 in
      let Nlegs := length tacks in
      let* (tacks, alphas, finalcost, viable) :=
        optimize_legs Nlegs 0 Nlegs gates nextpt winddir obstacles cur_yaw step tacks alphas #0 true in
      optimize_iters n (ii + 1)%Z gates nextpt winddir obstacles cur_yaw tacks alphas finalcost viable
  end.

(** [(tacks, alphas, finalcost, viable)]; [finalcost] and [viable] are those of the last
    iteration. *)
Definition OptimizeMultipleTacks (gates : list Gate) (nextpt : Point) (winddir : D)
    (obstacles : list (Polygon D)) (cur_yaw : D) (tacks : list (list Point)) (alphas : list D)
  : result PlanErr (list (list Point) * list D * D * bool) :=
  if (length tacks =? length alphas)%nat && (length tacks =? length gates)%nat
     && forallb (λ l, negb (length l =? 0)%nat) tacks
  then optimize_iters 50 0 gates nextpt winddir obstacles cur_yaw tacks alphas #0 true
  else Err PlanCheckFailed.

(** [(tackpts, alpha, finalcost, viable)] *)
Definition OptimizeTacks (gate : Gate) (nextpt : Point) (winddir : D) (obstacles : list (Polygon D))
    (cur_yaw : D) (tackpts : list Point) (alpha : D) : result PlanErr (list Point * D * D * bool) :=
  let* (tacks, alphas, finalcost, viable) :=
    OptimizeMultipleTacks [gate] nextpt winddir obstacles cur_yaw [tackpts] [alpha] in
  let* tackpts := vec_at tacks 0 in
  let* alpha := vec_at alphas 0 in
  Ok (tackpts, alpha, finalcost, viable).

(** ** Hypotheses *)

(** The straight path with [Npts] points between. *)
Definition straight_path (startpt diff : Point) (Npts : nat) : list Point :=
  startpt :: map (λ ii, let alpha := (nofZ (Z.of_nat ii) + dec 5 1) / nofZ (Z.of_nat Npts) in
                        add2 startpt (scale2 alpha diff)) (seq 0 Npts).

(** One of the two tacking paths: [lona] and [lonb] are the lengths along the line of
    its dominant and recessive legs, [side] the side of its first leg. *)
Definition tacking_path (startpt diff : Point) (Npts : nat) (lona lonb latdist : D) (first : bool) : list Point :=
  startpt :: map (λ ii,
    let i := nofZ (Z.of_nat ii) in
    let dominantmult := dec 5 1 + nfloor (i / #2) in
    let recessivemult := nfloor ((i + #1) / #2) in
    let lon := lona * dominantmult + lonb * recessivemult in
    let latoffset1 := latdist * (if Nat.even ii then #1 else - #1) / #2 in
    let latoffset := if first then latoffset1 else - latoffset1 in
    let perp := V2 (- vy diff) (vx diff) in
    add2 (add2 startpt (scale2 lon diff)) (scale2 latoffset perp)) (seq 0 Npts).

(** The paths added to [paths]; [Npts] is non-negative. *)
Definition GenerateHypotheses (startpt endpt : Point) (winddir : D) (Npts : nat)
    (paths : list (list Point)) (clear_paths : bool) : list (list Point) :=
  let paths := if clear_paths then [] else paths in
  match Npts with
  | O => paths ++ [[startpt]]
  | _ =>
      let kMinWind := #1 in
      let diff := sub2 endpt startpt in
      let relwind := norm_angle (npi - winddir + atan2v diff) in
      let paths := paths ++ [straight_path startpt diff Npts] in
      if nabs relwind <? #1 then
        let alpha := kMinWind * #2 in
        let theta := kMinWind - relwind in
        let l := #2 / nofZ (Z.of_nat Npts) in
        let legdist := l * nsin (alpha - theta) / nsin alpha in
        let latdist := legdist * nsin theta in
        let londist1 := legdist * ncos theta in
        let londist2 := l - londist1 in
        paths ++ [tacking_path startpt diff Npts londist1 londist2 latdist true;
                  tacking_path startpt diff Npts londist2 londist1 latdist false]
      else paths
  end.

(** ** The search *)

Abbreviation Hypothesis_ := (list (list (vec2 D))).

(** The inner loop body: hypothesis [prevhyp] extended by the new leg, in place for
    the first new leg and as a copy without the leg just added for the others. *)
Definition extend_hyp (limit : Z) (newhyp : nat) (leg : list Point) (old_lengths : list Z)
    (st : list Hypothesis_ * list Z) (prevhyp : nat) : result PlanErr (list Hypothesis_ * list Z) :=
  let '(hyps, lens) := st in
  let pts := Z.of_nat (length leg) in
  let* old := vec_at old_lengths prevhyp in
  if (limit <? old + pts)%Z then Ok st
  else
    let* h := vec_at hyps prevhyp in
    match newhyp with
    | O =>
        let* hyps := vec_set hyps prevhyp (h ++ [leg]) in
        let* len := vec_at lens prevhyp in
        let* lens := vec_set lens prevhyp (len + pts)%Z in
        Ok (hyps, lens)
    | S _ =>
        (* [hypotheses[prevhyp].end() - 1] *)
        if (length h <? 1)%nat then Err PlanOutOfRange
        else Ok (hyps ++ [take (length h - 1) h ++ [leg]], lens ++ [(old + pts)%Z])
    end.

Definition add_new_hyp (limit : Z) (nprev : nat) (old_lengths : list Z)
    (st : list Hypothesis_ * list Z) (nl : nat * list Point) : result PlanErr (list Hypothesis_ * list Z) :=
  let '(newhyp, leg) := nl in
  let* (hyps, lens) := rfold (extend_hyp limit newhyp leg old_lengths) (seq 0 nprev) st in
  Ok (if (nprev =? 0)%nat then (hyps ++ [[leg]], lens ++ [Z.of_nat (length leg)]) else (hyps, lens)).

(** Leg [ii], to the nominal end of its gate. *)
Definition add_leg (startpt : Point) (nominal_endpts : list Point) (winddir : D) (MaxPtsPerLeg : Z)
    (st : list Hypothesis_ * list Z) (ii : nat) : result PlanErr (list Hypothesis_ * list Z) :=
  let* legstart := match ii with O => Ok startpt | S kk => vec_at nominal_endpts kk end in
  let* legend := vec_at nominal_endpts ii in
  let hypos := fold_left (λ hs jj, GenerateHypotheses legstart legend winddir jj hs false)
                 (seq 0 (Z.to_nat MaxPtsPerLeg)) [] in
  rfold (add_new_hyp (MaxPtsPerLeg + Z.of_nat ii) (length st.1) st.2)
    (zip (seq 0 (length hypos)) hypos) st.

(** [itercost < lowest_cost], infinity being [None]. *)
Definition cheaper (cost : D) (lowest : option D) : bool :=
  match lowest with None => nlt_inf cost | Some m => cost <? m end.

Fixpoint search (gates : list Gate) (nextpt : Point) (winddir : D) (obstacles : list (Polygon D))
    (cur_yaw : D) (hyps : list Hypothesis_) (lowest : option D) (best : Hypothesis_ * list D)
  : result PlanErr (Hypothesis_ * list D) :=
  match hyps with
  | [] => Ok best
  | h :: hyps =>
      let* (h', iter_alphas, itercost, viable) :=
        OptimizeMultipleTacks gates nextpt winddir obstacles cur_yaw h (repeat (dec 5 1) (length gates)) in
      if viable && cheaper itercost lowest
      then search gates nextpt winddir obstacles cur_yaw hyps (Some itercost) (h', iter_alphas)
      else search gates nextpt winddir obstacles cur_yaw hyps lowest best
  end.

Definition midpoint (g : Gate) : Point := scale2 (dec 5 1) (add2 g.1 g.2).

(** [(tacks, alphas)] *)
Definition FindMultiplePath (startpt : Point) (gates : list Gate) (nextpt : Point) (winddir : D)
    (obstacles : list (Polygon D)) (cur_yaw : D) : result PlanErr (Hypothesis_ * list D) :=
  let Nlegs := Z.of_nat (length gates) in
  let MaxPtsPerLeg := Z.max 1 (kMaxTotalpts + 1 - Nlegs)%Z in
  let ends := map midpoint gates in
  let* (hyps, _) := rfold (add_leg startpt ends winddir MaxPtsPerLeg) (seq 0 (length gates)) ([], []) in
  let* h := vec_at hyps 0 in
  search gates nextpt winddir obstacles cur_yaw hyps None (h, repeat (dec 5 1) (length gates)).

(** [(tackpts, alpha)] *)
Definition FindPath (startpt : Point) (gate : Gate) (nextpt : Point) (winddir : D)
    (obstacles : list (Polygon D)) (cur_yaw : D) : result PlanErr (list Point * D) :=
  let* (tacks, alphas) := FindMultiplePath startpt [gate] nextpt winddir obstacles cur_yaw in
  let* alpha := vec_at alphas 0 in
  let* tackpts := vec_at tacks 0 in
  Ok (tackpts, alpha).

(** ** Gates *)

Definition MakeGateFromWaypoints (gatept prevpt nextpt : Point) : Gate :=
  let preleg := sub2 gatept prevpt in
  let postleg := sub2 nextpt gatept in
  let prev2gatedist := norm2 preleg in
  let next2gatedist := norm2 postleg in
  let mindist := dec 1 6 in
  let left (v : Point) := V2 (- vy v) (vx v) in
  if (prev2gatedist <? mindist) && (next2gatedist <? mindist) then
    let offset := V2 (kGateWidth / #2) #0 in
    (sub2 gatept offset, add2 gatept offset)
  else
    let '(gateseg, centered) :=
      if prev2gatedist <? mindist then (left (div2 postleg next2gatedist), true)
      else if next2gatedist <? mindist then (left (div2 preleg prev2gatedist), true)
      else
        let preleg := div2 preleg prev2gatedist in
        let postleg := div2 postleg next2gatedist in
        let gateseg := sub2 preleg postleg in
        let gatenorm := norm2 gateseg in
        if gatenorm <? mindist then (left preleg, true) else (div2 gateseg gatenorm, false) in
    let gateseg := scale2 kGateWidth gateseg in
    let gateend := add2 gatept gateseg in
    if centered then (sub2 gatept (div2 gateseg #2), sub2 gateend (div2 gateseg #2))
    else (gatept, gateend).
End Costs.

(** ** Turns, in exact arithmetic *)

#[local] Open Scope R_scope.

(** Two angles in [-pi, pi] that differ by a quarter turn modulo whole turns. *)
Lemma quarter_turn a b k :
  - PI <= a <= PI -> - PI <= b <= PI -> a - b = PI / 2 + IZR k * (2 * PI) ->
  0 <= a -> 0 <= b -> a - b = PI / 2.
Proof.
  intros Ha Hb E Ha0 Hb0. pose proof PI2_3_2 as Hpi.
  assert (k = 0%Z) as ->; [|lra].
  destruct (Z.lt_trichotomy k 0) as [H|[H|H]]; [|done|]; exfalso.
  - assert (IZR k <= -1) by (apply (IZR_le k (-1)); lia). nra.
  - assert (1 <= IZR k) by (apply (IZR_le 1 k); lia). nra.
Qed.

(** The share of the turn spent in the no-go zone. *)
Definition nogo_dist (e p n : R) : R :=
  (if Rltb e p || Rltb p 0 then e else p) - (if Rltb n 0 then 0 else n).

Lemma nogo_dist_bounds e p n :
  0 <= e -> (0 <= p -> 0 <= n -> p - n = PI / 2) ->
  (Rltb p 0 && Rltb n 0) || Rltb e n = false -> 0 <= nogo_dist e p n <= e.
Proof.
  intros He Hpn. pose proof PI2_3_2. unfold nogo_dist.
  destruct (Rltb_spec p 0), (Rltb_spec n 0), (Rltb_spec e n), (Rltb_spec e p); simpl; try done; intros _;
    try specialize (Hpn ltac:(lra) ltac:(lra)); lra.
Qed.

(** The turn after mirroring, with the zone's ends: what [TurnCost] computes. *)
Lemma TurnCost_eq start end_ wind :
  Rabs start <= 1000 -> Rabs end_ <= 1000 -> Rabs wind <= 1000 ->
  ∃ p n, let e := Rabs (norm_angle (end_ - start)) in
    (0 <= p -> 0 <= n -> p - n = PI / 2)
    ∧ (TurnCost start end_ wind).1.1 =
      if (Rltb p 0 && Rltb n 0) || Rltb e n then kTurnCost * e * e
      else kTurnCost * (e + (kTackCost - 1) * nogo_dist e p n) * (e + (kTackCost - 1) * nogo_dist e p n).
Proof.
  intros Hs He Hw. pose proof PI2_3_2 as Hpi. pose proof PI_4 as Hpi4.
  apply Rabs_bounds in Hs, He, Hw.
  unfold TurnCost. simpl.
  set (pa := norm_angle (PI + wind + PI / 4)). set (na := norm_angle (PI + wind - PI / 4)).
  destruct (norm_angle_spec (PI + wind + PI / 4)) as (Hpa & k1 & E1); [apply Rabs_le; lra|].
  destruct (norm_angle_spec (PI + wind - PI / 4)) as (Hna & k2 & E2); [apply Rabs_le; lra|].
  fold pa in Hpa, E1. fold na in Hna, E2.
  destruct (norm_angle_spec (pa - start)) as (Hp & k3 & E3); [apply Rabs_le; lra|].
  destruct (norm_angle_spec (na - start)) as (Hn & k4 & E4); [apply Rabs_le; lra|].
  destruct (norm_angle_spec (end_ - start)) as (Hd & _); [apply Rabs_le; lra|].
  assert (norm_angle (pa - start) - norm_angle (na - start)
          = PI / 2 + IZR (k2 - k1 + k4 - k3) * (2 * PI)) as Ediff.
  { rewrite E3, E4, E1, E2. rewrite minus_IZR, plus_IZR, minus_IZR. lra. }
  revert Hp Hn Hd Ediff. clear E3 E4.
  generalize (norm_angle (pa - start)) as p, (norm_angle (na - start)) as n, (norm_angle (end_ - start)) as d.
  intros p n d Hp Hn Hd Ediff.
  destruct (Rltb_spec d 0) as [Hlt|Hge].
  - exists (n * - (1)), (p * - (1)). simpl. rewrite (Rabs_left d) by lra.
    replace (d * - (1)) with (- d) by lra. split.
    + intros. apply (quarter_turn _ _ (k2 - k1 + k4 - k3)); lra.
    + destruct (_ || _); [done|]. unfold nogo_dist. simpl. done.
  - exists p, n. simpl. rewrite (Rabs_right d) by lra. split.
    + intros. apply (quarter_turn _ _ (k2 - k1 + k4 - k3)); lra.
    + destruct (_ || _); [done|]. unfold nogo_dist. simpl. done.
Qed.

(** In exact arithmetic, the cost of a turn of [d] radians lies between
    [kTurnCost * d^2], its cost outside the no-go zone, and [kTurnCost * (kTackCost * d)^2],
    its cost when all of it is in the zone, for any wind; so a turn never pays for more
    of the zone than it crosses. *)
Theorem turn_cost_bounds (start end_ wind : R) :
  Rabs start <= 1000 -> Rabs end_ <= 1000 -> Rabs wind <= 1000 ->
  let d := Rabs (norm_angle (end_ - start)) in
  kTurnCost * (d * d) <= (TurnCost start end_ wind).1.1 <= kTurnCost * ((kTackCost * d) * (kTackCost * d)).
Proof.
  intros Hs He Hw. destruct (TurnCost_eq start end_ wind Hs He Hw) as (p & n & Hpn & ->).
  set (d := Rabs (norm_angle (end_ - start))) in *. cbv zeta.
  assert (0 <= d) by apply Rabs_pos.
  assert (0 < kTurnCost) as Hk by (unfold kTurnCost, dec; simpl; lra).
  assert (kTackCost = 5) as -> by done.
  destruct (_ || _) eqn:E; [nra|].
  pose proof (nogo_dist_bounds d p n H Hpn E) as Hng. revert Hng. generalize (nogo_dist d p n). intros g Hg.
  rewrite !Rmult_assoc. split; apply Rmult_le_compat_l; nra.
Qed.

Lemma turn_cost_bounds_witness :
  kTurnCost * (Rabs (norm_angle (1 - 0)) * Rabs (norm_angle (1 - 0))) <= (TurnCost 0 1 3).1.1.
Proof.
  apply (turn_cost_bounds 0 1 3); rewrite Rabs_right; lra.
Defined.

(** ** Gates, in exact arithmetic *)

Section Gates.
Context {EG : Eigen R} {EL : EigenLaws R}.

Lemma norm2_scale k (v : vec2 R) : 0 <= k -> norm2 (scale2 k v) = k * norm2 v.
Proof.
  intros Hk. apply norm2_unique.
  - apply Rmult_le_pos; [done|apply norm2_nonneg].
  - replace (k * norm2 v * (k * norm2 v)) with (k * k * (norm2 v * norm2 v)) by ring.
    rewrite norm2_sqr. simpl. ring.
Qed.

Lemma norm2_unit (v : vec2 R) : 0 < norm2 v -> norm2 (div2 v (norm2 v)) = 1.
Proof.
  intros H. apply norm2_unique; [lra|]. simpl.
  replace (vx v / norm2 v * (vx v / norm2 v) + vy v / norm2 v * (vy v / norm2 v))
    with ((vx v * vx v + vy v * vy v) / (norm2 v * norm2 v)) by (field; lra).
  rewrite <- norm2_sqr. field. lra.
Qed.

Lemma norm2_left (v : vec2 R) : norm2 (V2 (- vy v)%num (vx v)) = norm2 v.
Proof. apply norm2_unique; [apply norm2_nonneg|]. rewrite norm2_sqr. simpl. lra. Qed.

(** A gate built from a unit direction. *)
Definition gate_from (gatept seg : vec2 R) (centered : bool) : vec2 R * vec2 R :=
  let gateseg := scale2 kGateWidth seg in
  let gateend := add2 gatept gateseg in
  if centered then (sub2 gatept (div2 gateseg 2), sub2 gateend (div2 gateseg 2)) else (gatept, gateend).

Lemma gate_from_spec gatept seg centered :
  norm2 seg = 1 ->
  let g := gate_from gatept seg centered in
  dist g.1 g.2 = 20 ∧ (g.1 = gatept ∨ midpoint g = gatept).
Proof.
  intros H. assert (norm2 (scale2 kGateWidth seg) = 20) as Hn.
  { rewrite norm2_scale by (unfold kGateWidth; simpl; lra). rewrite H. unfold kGateWidth. simpl. lra. }
  pose proof (norm2_sqr (scale2 kGateWidth seg)) as Hs. rewrite Hn in Hs.
  unfold gate_from. destruct centered; cbv zeta; split; simpl.
  - apply norm2_unique; [lra|]. simpl in *. rewrite Hs. field.
  - right. unfold midpoint, dec. simpl. change (IZR (10 ^ 1)) with 10. destruct gatept.
    unfold scale2, add2. simpl. f_equal; field.
  - apply norm2_unique; [lra|]. simpl in *. rewrite Hs. ring.
  - by left.
Qed.

(** In exact arithmetic every gate built from waypoints is [kGateWidth] = 20 m long, and
    starts at its waypoint or is centred on it, also when waypoints coincide or lie on
    a line. *)
Theorem make_gate_correct (gatept prevpt nextpt : vec2 R) :
  let g := MakeGateFromWaypoints gatept prevpt nextpt in
  dist g.1 g.2 = 20 ∧ (g.1 = gatept ∨ midpoint g = gatept).
Proof.
  assert (0 < dec (D := R) 1 6) as Hd.
  { unfold dec. simpl. apply Rmult_lt_0_compat; [lra|]. apply Rinv_0_lt_compat. apply (IZR_lt 0). lia. }
  unfold MakeGateFromWaypoints. cbv zeta.
  set (pre := sub2 gatept prevpt). set (post := sub2 nextpt gatept).
  destruct ((norm2 pre <? dec 1 6)%num && (norm2 post <? dec 1 6)%num) eqn:E0.
  - unfold kGateWidth. simpl. split.
    + apply norm2_unique; [lra|]. simpl. field.
    + right. unfold midpoint, dec. simpl. change (IZR (10 ^ 1)) with 10. destruct gatept.
      unfold scale2, add2. simpl. f_equal; field.
  - assert (∀ v : vec2 R, (norm2 v <? dec 1 6)%num = false -> 0 < norm2 v) as Hpos.
    { intros v. simpl. case_R; [done|]. intros _. lra. }
    destruct (norm2 pre <? dec 1 6)%num eqn:E1; [|destruct (norm2 post <? dec 1 6)%num eqn:E2].
    + apply (gate_from_spec gatept (V2 (- vy (div2 post (norm2 post)))%num (vx (div2 post (norm2 post)))) true).
      rewrite norm2_left. by apply norm2_unit, Hpos.
    + apply (gate_from_spec gatept (V2 (- vy (div2 pre (norm2 pre)))%num (vx (div2 pre (norm2 pre)))) true).
      rewrite norm2_left. by apply norm2_unit, Hpos.
    + destruct (norm2 (sub2 (div2 pre (norm2 pre)) (div2 post (norm2 post))) <? dec 1 6)%num eqn:E3.
      * apply (gate_from_spec gatept (V2 (- vy (div2 pre (norm2 pre)))%num (vx (div2 pre (norm2 pre)))) true).
        rewrite norm2_left. by apply norm2_unit, Hpos.
      * apply (gate_from_spec gatept (div2 (sub2 (div2 pre (norm2 pre)) (div2 post (norm2 post)))
          (norm2 (sub2 (div2 pre (norm2 pre)) (div2 post (norm2 post))))) false).
        by apply norm2_unit, Hpos.
Qed.
End Gates.

Lemma make_gate_witness :
  let g := @MakeGateFromWaypoints R num_R eigen_plain (V2 0 0) (V2 (-1) 0) (V2 0 1) in
  @dist eigen_plain g.1 g.2 = 20.
Proof. apply (@make_gate_correct eigen_plain eigen_plain_laws). Defined.

(** ** Derivatives, in exact arithmetic *)

#[local] Open Scope R_scope.

Lemma derivable_affine a b x : derivable_pt_lim (λ y, a * y + b) x a.
Proof.
  enough (derivable_pt_lim (λ y, a * y + b) x (a * 1 + 0)) as H by (by replace (a * 1 + 0) with a in H by ring).
  apply (derivable_pt_lim_plus (mult_real_fct a id) (fct_cte b)).
  - apply derivable_pt_lim_scal, derivable_pt_lim_id.
  - apply derivable_pt_lim_const.
Qed.

Lemma derivable_exp_affine a b x : derivable_pt_lim (λ y, exp (a * y + b)) x (exp (a * x + b) * a).
Proof. apply (derivable_pt_lim_comp (λ y, a * y + b) exp); [apply derivable_affine|apply derivable_pt_lim_exp]. Qed.

Lemma derivable_logistic C a b x :
  derivable_pt_lim (λ y, C / (1 + exp (a * y + b))) x
    (- (C * (exp (a * x + b) * a)) / ((1 + exp (a * x + b)) * (1 + exp (a * x + b)))).
Proof.
  pose proof (exp_pos (a * x + b)).
  replace (- (C * (exp (a * x + b) * a)) / ((1 + exp (a * x + b)) * (1 + exp (a * x + b))))
    with ((0 * (1 + exp (a * x + b)) - (0 + exp (a * x + b) * a) * C) / Rsqr (1 + exp (a * x + b)))
    by (unfold Rsqr; field; lra).
  apply (derivable_pt_lim_div (fct_cte C) (fct_cte 1 + (λ y, exp (a * y + b)))%F).
  - apply derivable_pt_lim_const.
  - apply derivable_pt_lim_plus; [apply derivable_pt_lim_const|apply derivable_exp_affine].
  - unfold plus_fct, fct_cte. lra.
Qed.

(** Near an angle inside (-pi, pi) normalisation is a translation. *)
Lemma norm_angle_near a d :
  Rabs a <= 5000 -> Rabs d <= 1 -> - PI < norm_angle a + d < PI -> norm_angle (a + d) = norm_angle a + d.
Proof.
  intros Ha Hd Hin. pose proof PI2_3_2. apply Rabs_bounds in Ha, Hd.
  destruct (norm_angle_spec a) as (_ & k & E); [apply Rabs_le; lra|].
  destruct (norm_angle_spec (a + d)) as (Hr & m & Em); [apply Rabs_le; lra|].
  assert (k = m) as ->; [|lra].
  destruct (Z.lt_trichotomy k m) as [Hlt|[|Hlt]]; [|done|]; exfalso.
  - assert (IZR k + 1 <= IZR m) by (rewrite <- plus_IZR; apply IZR_le; lia). nra.
  - assert (IZR m + 1 <= IZR k) by (rewrite <- plus_IZR; apply IZR_le; lia). nra.
Qed.

Lemma Clip_in u lo hi : lo <= u <= hi -> Clip u lo hi = u.
Proof. intros H. unfold Clip, nmax, nmin. simpl. destruct (Rltb_spec hi u); case_R; lra. Qed.

Lemma Clip_above u lo hi : lo <= hi <= u -> Clip u lo hi = hi.
Proof. intros H. unfold Clip, nmax, nmin. simpl. destruct (Rltb_spec hi u); case_R; lra. Qed.

(** The cost of a leg as a function of the clipped angle to the wind. *)
Definition leg_cost (K len u : R) : R := K / (1 + exp (10 * (u - PI / 6))) * len.

Definition leg_weight (is_real : bool) : R := if is_real then kUpwindCost else kUpwindApproxCost.

Lemma StraightLineCost_cost len x wind is_real :
  Rabs (norm_angle (wind + PI - x)) <= 9 / 10 ->
  (StraightLineCost len x wind is_real).1.1.1
  = leg_cost (leg_weight is_real) len (Rabs (norm_angle (wind + PI - x))).
Proof.
  intros Hu. pose proof (Rabs_pos (norm_angle (wind + PI - x))).
  unfold StraightLineCost. cbv zeta. cbn [fst snd nadd nsub nmul ndiv nabs num_R npi].
  rewrite Clip_in by (dec_R; lra).
  unfold leg_cost, leg_weight, kLengthCost. simpl. unfold Rdiv. ring.
Qed.

(** The code's derivative, on the two sides of the clip. *)
Lemma StraightLineCost_grad len x wind is_real :
  let h := norm_angle (wind + PI - x) in
  let e := exp (10 * (Rabs h - PI / 6)) in
  0 < Rabs h < 9 / 10 ->
  (StraightLineCost len x wind is_real).1.2
  = leg_weight is_real * len * (10 * e * IZR (Sign h)) / ((1 + e) * (1 + e)).
Proof.
  intros h e Hh. unfold StraightLineCost. cbv zeta. cbn [fst snd nadd nsub nmul ndiv nabs num_R npi].
  fold h. rewrite Clip_in by (dec_R; lra).
  dec_R. do 2 (case_R; [lra|]). simpl.
  fold e. assert (0 < e) by apply exp_pos.
  unfold leg_weight, kLengthCost. simpl. field. lra.
Qed.

Lemma StraightLineCost_flat len x wind is_real :
  9 / 10 < Rabs (norm_angle (wind + PI - x)) ->
  (StraightLineCost len x wind is_real).1.1.1 = leg_cost (leg_weight is_real) len (9 / 10)
  ∧ (StraightLineCost len x wind is_real).1.2 = 0.
Proof.
  intros Hh. unfold StraightLineCost. cbv zeta. cbn [fst snd nadd nsub nmul ndiv nabs num_R npi].
  rewrite Clip_above by (dec_R; lra).
  dec_R. split.
  - unfold leg_cost, leg_weight, kLengthCost. simpl. unfold Rdiv. ring.
  - case_R; [done|lra].
Qed.

Lemma norm_angle_far a d :
  Rabs a <= 5000 -> Rabs d <= 1 -> Rabs d < Rabs (norm_angle a) - 9 / 10 -> 9 / 10 < Rabs (norm_angle (a + d)).
Proof.
  intros Ha Hd Hf. pose proof PI2_3_2. apply Rabs_bounds in Ha, Hd.
  destruct (norm_angle_spec a) as (Hh & k & E); [apply Rabs_le; lra|].
  destruct (norm_angle_spec (a + d)) as (Hr & m & Em); [apply Rabs_le; lra|].
  destruct (Z.lt_trichotomy k m) as [Hlt|[->|Hlt]].
  - assert (IZR k + 1 <= IZR m) by (rewrite <- plus_IZR; apply IZR_le; lia).
    assert (IZR k * PI + PI <= IZR m * PI) by nra. rewrite Rabs_left; lra.
  - replace (norm_angle (a + d)) with (norm_angle a + d) by lra.
    pose proof (Rabs_triang (norm_angle a + d) (- d)) as Ht. rewrite Rabs_Ropp in Ht.
    replace (norm_angle a + d + - d) with (norm_angle a) in Ht by ring. lra.
  - assert (IZR m + 1 <= IZR k) by (rewrite <- plus_IZR; apply IZR_le; lia).
    assert (IZR m * PI + PI <= IZR k * PI) by nra. rewrite Rabs_right; lra.
Qed.

Lemma Sign_abs (h : R) : h ≠ 0 -> Rabs h = IZR (Sign h) * h ∧ IZR (Sign h) * IZR (Sign h) = 1.
Proof.
  intros Hh. unfold Sign. simpl. destruct (Rltb_spec 0 h), (Rltb_spec h 0); try lra; simpl.
  - rewrite Rabs_right by lra. change (IZR (1 - 0)) with 1. split; lra.
  - rewrite Rabs_left by lra. change (IZR (0 - 1)) with (-1). split; lra.
Qed.

Lemma leg_gradient_steep len x wind is_real :
  Rabs x <= 1000 -> Rabs wind <= 1000 -> 0 < Rabs (norm_angle (wind + PI - x)) < 9 / 10 ->
  derivable_pt_lim (λ y, (StraightLineCost len y wind is_real).1.1.1) x (StraightLineCost len x wind is_real).1.2.
Proof.
  intros Hx Hw Hh. rewrite StraightLineCost_grad by done. set (h := norm_angle (wind + PI - x)) in *.
  destruct (Sign_abs h) as [Ha Hs]; [intros ->; rewrite Rabs_R0 in Hh; lra|].
  set (s := IZR (Sign h)) in *. set (K := leg_weight is_real).
  set (r := Rmin (Rabs h) (9 / 10 - Rabs h)).
  assert (0 < r ∧ r <= Rabs h ∧ r <= 9 / 10 - Rabs h) as (Hr & Hr1 & Hr2).
  { unfold r. split_and!; [apply Rmin_pos; lra|apply Rmin_l|apply Rmin_r]. }
  pose proof PI2_3_2 as Hpi. pose proof PI_4. apply Rabs_bounds in Hx, Hw.
  apply (derivable_pt_lim_locally_ext (λ y, K * len / (1 + exp (- 10 * s * y + 10 * (s * (h + x) - PI / 6))))
           _ x (x - r) (x + r)); [lra|..].
  - intros y Hy.
    assert (norm_angle (wind + PI - y) = h + (x - y)) as En.
    { replace (wind + PI - y) with (wind + PI - x + (x - y)) by ring.
      apply norm_angle_near; [apply Rabs_le; lra|apply Rabs_le; lra|].
      fold h. pose proof (Rabs_bounds h (Rabs h) (Rle_refl _)). lra. }
    assert (Rabs (h + (x - y)) = s * (h + (x - y)) ∧ Rabs (h + (x - y)) < 9 / 10) as [Ey Hy'].
    { assert (s = 1 ∨ s = -1) as [Es|Es] by nra; rewrite Es in *.
      - rewrite Rabs_right by lra. split; lra.
      - rewrite Rabs_left by lra. split; lra. }
    rewrite StraightLineCost_cost by (rewrite En; lra). rewrite En, Ey. unfold leg_cost. fold K.
    replace (10 * (s * (h + (x - y)) - PI / 6)) with (- 10 * s * y + 10 * (s * (h + x) - PI / 6)) by ring.
    unfold Rdiv. ring.
  - pose proof (derivable_logistic (K * len) (- 10 * s) (10 * (s * (h + x) - PI / 6)) x) as Hd.
    replace (- 10 * s * x + 10 * (s * (h + x) - PI / 6)) with (10 * (Rabs h - PI / 6)) in Hd by (rewrite Ha; ring).
    pose proof (exp_pos (10 * (Rabs h - PI / 6))).
    match type of Hd with derivable_pt_lim _ _ ?l => match goal with |- derivable_pt_lim _ _ ?l' =>
      replace l' with l by (field; lra) end end.
    exact Hd.
Qed.

Lemma leg_gradient_flat len x wind is_real :
  Rabs x <= 1000 -> Rabs wind <= 1000 -> 9 / 10 < Rabs (norm_angle (wind + PI - x)) ->
  derivable_pt_lim (λ y, (StraightLineCost len y wind is_real).1.1.1) x (StraightLineCost len x wind is_real).1.2.
Proof.
  intros Hx Hw Hh. destruct (StraightLineCost_flat len x wind is_real Hh) as [_ ->].
  set (r := Rmin 1 (Rabs (norm_angle (wind + PI - x)) - 9 / 10)).
  assert (0 < r ∧ r <= 1 ∧ r <= Rabs (norm_angle (wind + PI - x)) - 9 / 10) as (Hr & Hr1 & Hr2).
  { unfold r. split_and!; [apply Rmin_pos; lra|apply Rmin_l|apply Rmin_r]. }
  pose proof PI2_3_2 as Hpi. pose proof PI_4. apply Rabs_bounds in Hx, Hw.
  apply (derivable_pt_lim_locally_ext (fct_cte (leg_cost (leg_weight is_real) len (9 / 10)))
           _ x (x - r) (x + r)); [lra|..|apply derivable_pt_lim_const].
  intros y Hy. unfold fct_cte. symmetry. apply StraightLineCost_flat.
  replace (wind + PI - y) with (wind + PI - x + (x - y)) by ring.
  assert (Rabs (x - y) < r) by (apply Rabs_def1; lra).
  apply norm_angle_far; [apply Rabs_le; lra|lra|lra].
Qed.

(** C26: In exact arithmetic the derivative that [StraightLineCost] returns for the gradient
    descent is the derivative of its cost in the heading, for both kinds of leg,
    wherever the cost has one: away from dead upwind and from the edge of the clip. *)
Theorem straight_line_gradient (len heading winddir : R) (is_real : bool) :
  Rabs heading <= 1000 -> Rabs winddir <= 1000 ->
  let h := norm_angle (winddir + PI - heading) in
  h ≠ 0 -> Rabs h ≠ 9 / 10 ->
  derivable_pt_lim (λ y, (StraightLineCost len y winddir is_real).1.1.1) heading
    (StraightLineCost len heading winddir is_real).1.2.
Proof.
  intros Hx Hw h H0 H9. pose proof (Rabs_pos_lt h H0).
  destruct (Rlt_dec (Rabs h) (9 / 10)).
  - apply leg_gradient_steep; [done..|]. by split.
  - apply leg_gradient_flat; [done..|]. fold h. lra.
Qed.

Lemma straight_line_gradient_witness :
  derivable_pt_lim (λ y, (StraightLineCost 7 y (- PI) true).1.1.1) (1 / 2) (StraightLineCost 7 (1 / 2) (- PI) true).1.2.
Proof.
  pose proof PI2_3_2. pose proof PI_4.
  assert (norm_angle (- PI + PI - 1 / 2) = - (1 / 2)) as E.
  { unfold norm_angle. simpl. do 2 (case_R; [lra|]). lra. }
  apply (straight_line_gradient 7 (1 / 2) (- PI) true); rewrite ?E.
  - rewrite Rabs_right; lra.
  - rewrite Rabs_left; lra.
  - lra.
  - rewrite Rabs_left; lra.
Defined.
