(* ===== verification/LineSearch.v ===== *)
(** * The line planner's search is total

    The paths that LineCost.v seeds, combines and optimises keep their shape: every
    hypothesis has a non-empty path per leg and stays within the limit on points, so
    the checks of src/control/line_plan.cc never fail. *)

From Stdlib Require Import ZArith Lia Reals.
From stdpp Require Import base list.
From S2P Require Import Prelude Num NumR Vec Util Polygon LineCost.

(** ** The shape of hypotheses and paths, for any arithmetic *)

#[local] Open Scope Z_scope.

Section Shape.
Context {D : Type} {ND : Num D} {EG : Eigen D}.
Variable uninit : vec2 D.

(** *** Accesses *)

Lemma vec_at_ok {A} (l : list A) i : (i < length l)%nat -> ∃ a, l !! i = Some a ∧ vec_at l i = Ok a.
Proof. intros H. destruct (lookup_lt_is_Some_2 l i H) as [a E]. exists a. unfold vec_at. by rewrite E. Qed.

Lemma vec_at_Some {A} (l : list A) i a : l !! i = Some a -> vec_at l i = Ok a.
Proof. unfold vec_at. by intros ->. Qed.

Lemma vec_set_ok {A} (l : list A) i a : (i < length l)%nat -> vec_set l i a = Ok (<[i := a]> l).
Proof. intros H. unfold vec_set. by destruct (Nat.ltb_spec i (length l)); [|lia]. Qed.

(** *** Costs of obstacles that have vertices *)

Section Obstacles.
Variables (obs : list (Polygon D)) (Hobs : Forall (λ p, pts p ≠ []) obs).

Lemma ObstacleCostValue_ok a b : ∃ c, ObstacleCostValue a b obs = Ok c.
Proof.
  unfold ObstacleCostValue. match goal with |- ∃ c, ?m = _ => assert (∃ c, m = Ok c ∧ True) as (c & E & _); [|by exists c] end.
  apply rfold_ok; [done|]. intros c ii _ _. apply rfold_ok; [done|]. intros c' p Hp%list_elem_of_In _. rewrite Forall_forall in Hobs.
  destruct (DistToPoint_ok p (add2 a (scale2 ((nofZ (Z.of_nat ii) + dec 5 1) / nofZ 10)%num (sub2 b a))) (Hobs p Hp)) as [d Ed].
  unfold obstacle_dist. rewrite Ed. cbn [rbind]. by eexists.
Qed.

Lemma ObstacleCost_ok a b : ∃ r, ObstacleCost a b obs = Ok r.
Proof.
  unfold ObstacleCost. do 3 (match goal with |- context [ObstacleCostValue ?a ?b obs] =>
    destruct (ObstacleCostValue_ok a b) as [? ->] end; cbn [rbind]). by eexists.
Qed.

Lemma SingleLineCostObs_ok sl el sp a ph np w : ∃ r, SingleLineCostObs sl el sp a ph np w obs = Ok r.
Proof.
  unfold SingleLineCostObs. destruct (SingleLineCost _ _ _ _ _ _ _) as [[c dc] v].
  match goal with |- context [ObstacleCost ?a ?b obs] => destruct (ObstacleCost_ok a b) as [[? ?] ->] end. by eexists.
Qed.

Lemma LinePairCostObs_ok sp ep tp prh poh w sc : ∃ r, LinePairCostObs uninit sp ep tp prh poh w sc obs = Ok r.
Proof.
  unfold LinePairCostObs. destruct (LinePairCost _ _ _ _ _ _ _ _) as [[c g] v].
  do 2 (match goal with |- context [ObstacleCost ?a ?b obs] => destruct (ObstacleCost_ok a b) as [[? ?] ->] end; cbn [rbind]).
  by eexists.
Qed.

(** *** The gradient descent *)

Lemma back_points_ok ii w cy st ps pts post ph c v :
  (ii < length pts)%nat ->
  ∃ r c' v', back_points uninit ii w cy st ps obs pts post ph c v = Ok (r, c', v')
    ∧ length r = length pts ∧ head r = head pts.
Proof.
  revert pts post ph c v. induction ii as [|jj IH]; intros pts post ph c v Hi; [by eexists _, _, _|].
  cbn [back_points]. destruct (vec_at_ok pts jj ltac:(lia)) as (pre & _ & ->). destruct (vec_at_ok pts (S jj) Hi) as (cur & _ & ->).
  cbn [rbind]. match goal with |- context [rbind ?m _] => assert (∃ h, m = Ok h) as [h ->] end.
  { destruct jj as [|kk]; [by eexists|]. destruct (vec_at_ok pts kk ltac:(lia)) as (q & _ & ->). by eexists. }
  cbn [rbind]. match goal with |- context [LinePairCostObs uninit ?a ?b ?c ?d ?e ?f ?g obs] =>
    destruct (LinePairCostObs_ok a b c d e f g) as [[[c' gr] lv] ->] end.
  cbn [rbind]. rewrite vec_set_ok by done. cbn [rbind].
  edestruct IH as (r & c1 & v1 & E & Hl & Hh); [|exists r, c1, v1; split; [exact E|]].
  - rewrite length_insert. lia.
  - rewrite length_insert in Hl. split; [done|]. rewrite Hh. by destruct pts.
Qed.

Lemma BackPass_ok gate npt w cy st ps pts a :
  pts ≠ [] ->
  ∃ r a' c v, BackPass uninit gate npt w obs cy st ps pts a = Ok (r, a', c, v) ∧ length r = length pts ∧ head r = head pts.
Proof.
  intros Hne. assert (0 < length pts)%nat as Hlen by (destruct pts; [done|simpl; lia]).
  unfold BackPass. destruct (Nat.ltb_spec (length pts) 1); [lia|].
  destruct (vec_at_ok pts (length pts - 1) ltac:(lia)) as (last & _ & ->). cbn [rbind].
  match goal with |- context [rbind ?m _] => assert (∃ h, m = Ok h) as [h ->] end.
  { destruct (Nat.ltb_spec 1 (length pts)); [|by eexists].
    destruct (vec_at_ok pts (length pts - 2) ltac:(lia)) as (q & _ & ->). by eexists. }
  cbn [rbind]. match goal with |- context [SingleLineCostObs ?a ?b ?c ?d ?e ?f ?g obs] =>
    destruct (SingleLineCostObs_ok a b c d e f g) as [[[c' da] lv] ->] end. cbn [rbind].
  edestruct back_points_ok as (r & c1 & v1 & -> & Hl & Hh); [|by eexists _, _, _, _]. lia.
Qed.

(** What the optimisation keeps of a path: the number of points of each leg, and its
    first point. *)
Definition same_shape (t t' : list (list (vec2 D))) : Prop :=
  map length t' = map length t ∧ head (nth 0 t' []) = head (nth 0 t []).

Lemma same_shape_insert t jj leg old :
  t !! jj = Some old -> length leg = length old -> (jj = 0%nat -> head leg = head old) ->
  same_shape t (<[jj := leg]> t).
Proof.
  intros Ho Hl Hh. split.
  - rewrite list_fmap_insert. apply list_insert_id'. intros _. by rewrite list_lookup_fmap, Ho, Hl.
  - destruct t as [|x t]; [done|]. destruct jj; simpl in *; [injection Ho as ->; by apply Hh|done].
Qed.

Lemma same_shape_nonempty t t' : same_shape t t' -> Forall (λ leg, leg ≠ []) t -> Forall (λ leg, leg ≠ []) t'.
Proof.
  intros [Hm _] Hf. revert t' Hm. induction Hf as [|x t Hx Hf IH]; intros [|x' t'] [=]; [constructor|].
  constructor; [by destruct x, x'|by apply IH].
Qed.

Lemma same_shape_length t t' : same_shape t t' -> length t' = length t.
Proof. intros [Hm _]. by rewrite <- (length_map length t'), Hm, length_map. Qed.

Lemma same_shape_trans t t' t'' : same_shape t t' -> same_shape t' t'' -> same_shape t t''.
Proof. intros [? ?] [? ?]. split; congruence. Qed.

(** The path of leg [jj] before its backward pass. *)
Lemma leg_start_ok jj t (leg : list (vec2 D)) al (gate : vec2 D * vec2 D) cy :
  t !! jj = Some leg -> Forall (λ leg, leg ≠ []) t -> length al = length t ->
  ∃ leg' cyaw, leg_start jj gate cy t al leg = Ok (leg', cyaw)
    ∧ length leg' = length leg ∧ (jj = 0%nat -> head leg' = head leg).
Proof.
  intros Hleg Hne Hal. unfold leg_start. destruct jj as [|kk]; [by eexists _, _|]. pose proof (lookup_lt_Some _ _ _ Hleg).
  rewrite Forall_lookup in Hne. assert (∀ l : list (vec2 D), l ≠ [] -> (0 < length l)%nat) as Hpos by (intros []; simpl; [done|lia]).
  destruct (vec_at_ok al kk ltac:(lia)) as (a & _ & ->). cbn [rbind]. rewrite vec_set_ok by (by eapply Hpos, Hne). cbn [rbind].
  destruct (vec_at_ok t kk ltac:(lia)) as (prev & Hprev & ->). cbn [rbind]. pose proof (Hpos _ (Hne _ _ Hprev)).
  destruct (vec_at_ok prev (length prev - 1) ltac:(lia)) as (back & _ & ->). cbn [rbind].
  eexists _, _. split; [done|]. by rewrite length_insert.
Qed.

Lemma optimize_legs_ok n jj gs np w cy st t al fc v :
  (jj + n = length t)%nat -> length gs = length t -> length al = length t -> Forall (λ leg, leg ≠ []) t ->
  ∃ t' al' fc', optimize_legs uninit n jj (length t) gs np w obs cy st t al fc v = Ok (t', al', fc', v)
    ∧ same_shape t t' ∧ length al' = length t.
Proof.
  revert jj t al fc v. induction n as [|n IH]; intros jj t al fc v Hn Hg Hal Hne; [by eexists _, _, _|].
  cbn [optimize_legs]. destruct (vec_at_ok gs jj ltac:(lia)) as (gate & _ & ->). cbn [rbind].
  match goal with |- context [rbind (if ?b then ?x else ?y) _] => assert (∃ p, (if b then x else y) = Ok p) as [npt ->] end.
  { destruct (Nat.eqb_spec jj (length t - 1)); [by eexists|].
    destruct (vec_at_ok t (jj + 1) ltac:(lia)) as (next & Hnext & ->). cbn [rbind]. rewrite Forall_lookup in Hne.
    specialize (Hne _ _ Hnext). destruct next as [|p next]; [done|by exists p]. }
  destruct (vec_at_ok t jj ltac:(lia)) as (leg & Hleg & ->). cbn [rbind].
  destruct (leg_start_ok jj t leg al gate cy Hleg Hne Hal) as (leg1 & cyaw & -> & Hl1 & Hh1). cbn [rbind].
  destruct (vec_at_ok al jj ltac:(lia)) as (a & _ & ->). cbn [rbind].
  assert (leg1 ≠ []) as Hne1. { rewrite Forall_lookup in Hne. specialize (Hne _ _ Hleg). by destruct leg, leg1. }
  destruct (BackPass_ok gate npt w cyaw st (jj =? 0)%nat leg1 a Hne1) as (leg2 & a' & c & lv & -> & Hl2 & Hh2). cbn [rbind].
  rewrite !vec_set_ok by lia. cbn [rbind].
  assert (same_shape t (<[jj := leg2]> t)) as Hsh.
  { eapply same_shape_insert; [done|congruence|]. intros E. by rewrite Hh2, Hh1. }
  assert ((if (Z.of_nat jj =? -1)%Z then v && lv else v) = v) as -> by (by destruct (Z.eqb_spec (Z.of_nat jj) (-1)); [lia|]).
  pose proof (same_shape_length _ _ Hsh) as El. rewrite <- El.
  destruct (IH (jj + 1)%nat (<[jj := leg2]> t) (<[jj := a']> al) (fc + c)%num v) as (t' & al' & fc' & E & Hs & Ha).
  - lia.
  - lia.
  - rewrite length_insert. lia.
  - by eapply same_shape_nonempty.
  - exists t', al', fc'. split; [exact E|]. split; [by eapply same_shape_trans|lia].
Qed.

Lemma optimize_iters_ok n ii gs np w cy t al fc :
  length gs = length t -> length al = length t -> Forall (λ leg, leg ≠ []) t ->
  ∃ t' al' fc', optimize_iters uninit n ii gs np w obs cy t al fc true = Ok (t', al', fc', true)
    ∧ same_shape t t' ∧ length al' = length t.
Proof.
  revert ii t al fc. induction n as [|n IH]; intros ii t al fc Hg Hal Hne; [by eexists _, _, _|]. cbn [optimize_iters].
  edestruct (optimize_legs_ok (length t) 0 gs np w cy) as (t1 & al1 & fc1 & -> & Hs & Ha); [done..|]. cbn [rbind].
  pose proof (same_shape_length _ _ Hs).
  destruct (IH (ii + 1)%Z t1 al1 fc1) as (t2 & al2 & fc2 & E & Hs2 & Ha2); [congruence|congruence|by eapply same_shape_nonempty|].
  exists t2, al2, fc2. split; [exact E|]. split; [by eapply same_shape_trans|congruence].
Qed.
End Obstacles.

(** The result of the viability test, whenever the iterations succeed. *)
Lemma optimize_legs_viable n jj N gs np w obs cy st t al fc v r :
  optimize_legs uninit n jj N gs np w obs cy st t al fc v = Ok r -> r.2 = v.
Proof.
  revert jj t al fc v. induction n as [|n IH]; intros jj t al fc v H; [by injection H as <-|]. cbn [optimize_legs] in H.
  inv_binds H. apply IH in H. rewrite H. by destruct (Z.eqb_spec (Z.of_nat jj) (-1)); [lia|].
Qed.

Lemma optimize_iters_viable n ii gs np w obs cy t al fc r :
  optimize_iters uninit n ii gs np w obs cy t al fc true = Ok r -> r.2 = true.
Proof.
  revert ii t al fc. induction n as [|n IH]; intros ii t al fc H; [by injection H as <-|]. cbn [optimize_iters] in H.
  inv_binds H. match goal with E : optimize_legs _ _ _ _ _ _ _ _ _ _ _ _ _ _ = Ok _ |- _ => apply optimize_legs_viable in E; cbn in E; subst end.
  by eapply IH.
Qed.

(** *** Seeding *)

Lemma fold_left_preserve {A B} (P : A -> Prop) (f : A -> B -> A) l a :
  P a -> (∀ a b, b ∈ l -> P a -> P (f a b)) -> P (fold_left f l a).
Proof.
  revert a. induction l as [|b l IH]; intros a Ha Hf; [done|]. simpl.
  apply IH; [apply Hf; [left|done]|]. intros. apply Hf; [by right|done].
Qed.

(** A path for one leg: it starts at [start], with at most [M] points. *)
Definition leg_ok (start : vec2 D) (M : Z) (leg : list (vec2 D)) : Prop :=
  head leg = Some start ∧ Z.of_nat (length leg) <= M.

Lemma GenerateHypotheses_ok start end_ w n paths M :
  Z.of_nat n < M -> Forall (leg_ok start M) paths ->
  ∃ new, GenerateHypotheses start end_ w n paths false = paths ++ new ∧ Forall (leg_ok start M) new.
Proof.
  intros Hn Hp. unfold GenerateHypotheses. destruct n as [|n]; cbv zeta.
  - exists [[start]]. split; [done|]. repeat constructor. simpl. lia.
  - assert (∀ f, leg_ok start M (start :: map f (seq 0 (S n)))) as Hleg.
    { intros f. split; [done|]. cbn [length]. rewrite length_map, length_seq. lia. }
    destruct (nltb _ _).
    + rewrite <- app_assoc. eexists. split; [done|]. repeat constructor; apply Hleg.
    + eexists. split; [done|]. repeat constructor; apply Hleg.
Qed.

Lemma seeds_ok start end_ w (M : nat) :
  (0 < M)%nat ->
  ∃ rest, fold_left (λ hs jj, GenerateHypotheses start end_ w jj hs false) (seq 0 M) [] = [start] :: rest
          ∧ Forall (leg_ok start (Z.of_nat M)) ([start] :: rest).
Proof.
  intros HM. destruct M as [|M]; [lia|]. cbn [seq fold_left].
  apply (fold_left_preserve (λ hs, ∃ rest, hs = [start] :: rest ∧ Forall _ ([start] :: rest))).
  - exists []. split; [done|]. repeat constructor. simpl. lia.
  - intros hs jj Hjj (rest & -> & Hf). apply elem_of_seq in Hjj.
    destruct (GenerateHypotheses_ok start end_ w jj _ (Z.of_nat (S M)) ltac:(lia) Hf) as (new & -> & Hnew).
    exists (rest ++ new). split; [done|]. rewrite app_comm_cons. by apply Forall_app.
Qed.

(** *** Combining the legs *)

(** A hypothesis of [n] legs within the limit on points, and its recorded length. *)
Definition hyp_ok (start : vec2 D) (M : Z) (n : nat) (h : list (list (vec2 D))) (l : Z) : Prop :=
  length h = n ∧ Forall (λ leg, leg ≠ []) h ∧ l = Z.of_nat (length (concat h))
  ∧ l <= M + Z.of_nat n - 1 ∧ head (nth 0 h []) = Some start.

Lemma hyp_ok_snoc start M n h l leg :
  hyp_ok start M n h l -> (0 < n)%nat -> leg ≠ [] -> l + Z.of_nat (length leg) <= M + Z.of_nat n ->
  hyp_ok start M (S n) (h ++ [leg]) (l + Z.of_nat (length leg)).
Proof.
  intros (Hn & Hf & -> & Hl & Hh) Hpos Hleg Hle. split_and!.
  - rewrite length_app. simpl. lia.
  - apply Forall_app. by repeat constructor.
  - rewrite concat_app, length_app. simpl. rewrite app_nil_r. lia.
  - lia.
  - destruct h; [simpl in *; lia|done].
Qed.

(** The first seed of a leg is a single point: it extends every hypothesis in place. *)
Lemma extend_first limit leg old doneh donel hs ls :
  Forall2 (λ (h : list (list (vec2 D))) l, l + Z.of_nat (length leg) <= limit) hs ls ->
  length doneh = length donel ->
  (∀ k, (k < length hs)%nat -> old !! (length doneh + k)%nat = ls !! k) ->
  rfold (extend_hyp limit 0 leg old) (seq (length doneh) (length hs)) (doneh ++ hs, donel ++ ls)
  = Ok (doneh ++ map (λ h, h ++ [leg]) hs, donel ++ map (λ l, l + Z.of_nat (length leg)) ls).
Proof.
  intros Hf. revert doneh donel. induction Hf as [|h l hs ls Hl Hf IH]; intros doneh donel Hlen Hold; [done|].
  cbn [length seq rfold]. unfold extend_hyp at 1.
  rewrite (vec_at_Some old (length doneh) l).
  2:{ specialize (Hold 0%nat). rewrite Nat.add_0_r in Hold. apply Hold. simpl. lia. }
  cbn [rbind]. destruct (Z.ltb_spec limit (l + Z.of_nat (length leg))); [lia|].
  rewrite (vec_at_Some _ _ h) by (by rewrite lookup_app_r, Nat.sub_diag). cbn [rbind].
  rewrite vec_set_ok by (rewrite length_app; simpl; lia). cbn [rbind].
  rewrite (vec_at_Some _ _ l) by (by rewrite Hlen, lookup_app_r, Nat.sub_diag). cbn [rbind].
  rewrite vec_set_ok by (rewrite length_app, Hlen; simpl; lia). cbn [rbind].
  rewrite (insert_app_r_alt doneh), Hlen, (insert_app_r_alt donel) by lia.
  rewrite Nat.sub_diag, <- Hlen. cbn [list_insert insert].
  specialize (IH (doneh ++ [h ++ [leg]]) (donel ++ [l + Z.of_nat (length leg)])).
  rewrite !length_app in IH. simpl in IH. rewrite <- !app_assoc in IH. rewrite Nat.add_1_r in IH.
  simpl app in IH. etransitivity; [apply IH; [lia|]|done]. intros k Hk. specialize (Hold (S k)). simpl in Hold.
  rewrite Nat.add_succ_r in Hold. simpl. apply Hold. lia.
Qed.

(** The others extend copies of the hypotheses as they were before the leg. *)
Definition extended (start : vec2 D) (M : Z) (n : nat) (first : vec2 D) (hs : list (list (list (vec2 D))))
    (ls : list Z) (st : list (list (list (vec2 D))) * list Z) : Prop :=
  ∃ eh el, st = (map (λ h, h ++ [[first]]) hs ++ eh, map (λ l, l + 1) ls ++ el)
           ∧ Forall2 (hyp_ok start M (S n)) eh el.

Lemma extend_copy start M n first hs ls st k leg p :
  Forall2 (hyp_ok start M n) hs ls -> (0 < n)%nat -> leg ≠ [] -> (p < length hs)%nat ->
  extended start M n first hs ls st ->
  ∃ st', extend_hyp (M + Z.of_nat n) (S k) leg ls st p = Ok st' ∧ extended start M n first hs ls st'.
Proof.
  intros Hok Hn Hleg Hp (eh & el & -> & Hext). unfold extend_hyp.
  destruct (lookup_lt_is_Some_2 hs p Hp) as [h Eh].
  destruct (Forall2_lookup_l _ _ _ _ _ Hok Eh) as (l & El & Hhl).
  rewrite (vec_at_Some ls p l El). cbn [rbind].
  destruct (Z.ltb_spec (M + Z.of_nat n) (l + Z.of_nat (length leg))); [eexists; split; [done|by exists eh, el]|].
  rewrite (vec_at_Some _ p (h ++ [[first]])).
  2:{ rewrite lookup_app_l by (by rewrite length_map). change (map ?f hs) with (f <$> hs).
      by rewrite list_lookup_fmap, Eh. }
  cbn [rbind]. rewrite length_app. cbn [length]. destruct (Nat.ltb_spec (length h + 1) 1); [lia|].
  rewrite Nat.add_sub, take_app_length. eexists. split; [done|].
  exists (eh ++ [h ++ [leg]]), (el ++ [l + Z.of_nat (length leg)]). split; [by rewrite <- !app_assoc|].
  apply Forall2_app; [done|]. constructor; [by apply hyp_ok_snoc|done].
Qed.

Lemma add_leg_next start ends M n hs ls w :
  Forall2 (hyp_ok start M n) hs ls -> (0 < n)%nat -> hs ≠ [] -> 0 < M -> (n < length ends)%nat ->
  ∃ st, add_leg start ends w M (hs, ls) n = Ok st ∧ Forall2 (hyp_ok start M (S n)) st.1 st.2 ∧ st.1 ≠ [].
Proof.
  intros Hok Hn Hne HM Hends. unfold add_leg. destruct n as [|n']; [lia|]. set (n := S n') in *.
  destruct (vec_at_ok ends n' ltac:(lia)) as (legstart & _ & ->). destruct (vec_at_ok ends n Hends) as (legend & _ & ->).
  cbn [rbind fst snd].
  destruct (seeds_ok legstart legend w (Z.to_nat M) ltac:(lia)) as (rest & -> & Hseeds).
  apply Forall_cons in Hseeds as [_ Hrest]. cbn [length seq zip zip_with rfold].
  assert ((length hs =? 0)%nat = false) as Hlen by (destruct hs; done).
  assert (∃ st, add_new_hyp (M + Z.of_nat n) (length hs) ls (hs, ls) (0%nat, [legstart]) = Ok st
            ∧ extended start M n legstart hs ls st) as (st1 & -> & Hfirst).
  { unfold add_new_hyp. rewrite (extend_first _ [legstart] ls [] [] hs ls); [|..|done|done].
    - cbn [rbind app]. rewrite Hlen. eexists. split; [done|]. exists [], []. rewrite !app_nil_r. split; [done|constructor].
    - eapply Forall2_impl; [exact Hok|]. intros h l (_ & _ & _ & H & _). simpl. lia. }
  cbn [rbind].
  match goal with |- context [rfold ?f ?l st1] =>
    destruct (rfold_ok (extended start M n legstart hs ls) f l st1 Hfirst) as (st & -> & eh & el & -> & Hext) end.
  { intros st [k leg] Hin%list_elem_of_In Hst.
    apply elem_of_zip_l in Hin as Hk. apply elem_of_zip_r in Hin. apply elem_of_seq in Hk.
    destruct k as [|k]; [lia|]. unfold add_new_hyp.
    assert (leg ≠ []) as Hleg.
    { rewrite Forall_forall in Hrest. destruct (Hrest leg Hin) as [Hh _]. by destruct leg. }
    match goal with |- context [rfold ?f ?l st] =>
      destruct (rfold_ok (extended start M n legstart hs ls) f l st Hst) as ([hs' ls'] & -> & He) end.
    { intros st' p Hp%list_elem_of_In. apply elem_of_seq in Hp. apply extend_copy; [done..|lia]. }
    cbn [rbind]. rewrite Hlen. by eexists. }
  eexists. split; [done|]. simpl. split; [|by destruct hs].
  apply Forall2_app; [|done]. apply Forall2_fmap_2. eapply Forall2_impl; [exact Hok|].
  intros h l Hhl. apply (hyp_ok_snoc start M n h l [legstart]); [done..|].
  destruct Hhl as (_ & _ & _ & H & _). simpl. lia.
Qed.

Lemma add_leg_first start ends M w :
  0 < M -> (0 < length ends)%nat ->
  ∃ st, add_leg start ends w M ([], []) 0 = Ok st ∧ Forall2 (hyp_ok start M 1) st.1 st.2 ∧ st.1 ≠ [].
Proof.
  intros HM Hends. unfold add_leg. destruct (vec_at_ok ends 0 Hends) as (legend & _ & ->). cbn [rbind fst snd].
  destruct (seeds_ok start legend w (Z.to_nat M) ltac:(lia)) as (rest & -> & Hseeds).
  rewrite Z2Nat.id in Hseeds by lia.
  assert (∀ st k leg, leg_ok start M leg -> Forall2 (hyp_ok start M 1) st.1 st.2 ->
            ∃ st', add_new_hyp (M + Z.of_nat 0) 0 [] st (k, leg) = Ok st'
            ∧ Forall2 (hyp_ok start M 1) st'.1 st'.2 ∧ st'.1 ≠ []) as Hstep.
  { intros [hs ls] k leg [Hh Hl] Hst. eexists. split; [done|]. simpl in *. split; [|by destruct hs].
    apply Forall2_app; [done|]. constructor; [|done]. split_and!; simpl.
    - done.
    - constructor; [by destruct leg|done].
    - by rewrite app_nil_r.
    - lia.
    - done. }
  cbn [length seq zip zip_with rfold].
  apply Forall_cons in Hseeds as [H1 Hrest]. destruct (Hstep ([], []) 0%nat [start] H1 ltac:(constructor)) as (st1 & -> & Hst1).
  cbn [rbind]. apply (rfold_ok (λ st, Forall2 (hyp_ok start M 1) st.1 st.2 ∧ st.1 ≠ [])); [done|].
  intros st [k leg] Hin%list_elem_of_In [Hst _]. apply elem_of_zip_r in Hin. apply Hstep; [|done].
  rewrite Forall_forall in Hrest. by apply Hrest.
Qed.

Lemma add_legs_ok start ends M w k n hs ls :
  0 < M -> Forall2 (hyp_ok start M n) hs ls -> (0 < n)%nat -> hs ≠ [] -> (n + k = length ends)%nat ->
  ∃ st, rfold (add_leg start ends w M) (seq n k) (hs, ls) = Ok st
    ∧ Forall2 (hyp_ok start M (n + k)) st.1 st.2 ∧ st.1 ≠ [].
Proof.
  intros HM. revert n hs ls. induction k as [|k IH]; intros n hs ls Hok Hn Hne Hk.
  - eexists. split; [done|]. by rewrite Nat.add_0_r.
  - cbn [seq rfold]. destruct (add_leg_next start ends M n hs ls w Hok Hn Hne HM) as ([hs' ls'] & -> & Hok' & Hne'); [lia|].
    cbn [rbind]. rewrite Nat.add_succ_r. apply (IH (S n) hs' ls'); [done|lia|done|lia].
Qed.

(** *** The search *)

Lemma concat_length_map {A} (t t' : list (list A)) :
  map length t' = map length t -> length (concat t') = length (concat t).
Proof.
  revert t'. induction t as [|x t IH]; intros [|x' t'] [=]; [done|]. simpl. rewrite !length_app.
  f_equal; [done|by apply IH].
Qed.

Lemma hyp_ok_shape start M n t t' l : same_shape t t' -> hyp_ok start M n t l -> hyp_ok start M n t' l.
Proof.
  intros Hs (Hn & Hf & Hl & Hle & Hst). split_and!.
  - by rewrite (same_shape_length _ _ Hs).
  - by eapply same_shape_nonempty.
  - destruct Hs as [Hm _]. by rewrite (concat_length_map t t').
  - done.
  - by destruct Hs as [_ ->].
Qed.

Section Search.
Variables (obs : list (Polygon D)) (Hobs : Forall (λ p, pts p ≠ []) obs).

Lemma optimize_ok start M gs np w cy t l :
  hyp_ok start M (length gs) t l ->
  ∃ t' al' c, OptimizeMultipleTacks uninit gs np w obs cy t (repeat (dec 5 1) (length gs)) = Ok (t', al', c, true)
              ∧ hyp_ok start M (length gs) t' l ∧ length al' = length gs.
Proof.
  intros Hok. unfold OptimizeMultipleTacks. pose proof Hok as (Hn & Hf & _).
  rewrite repeat_length, Hn, Nat.eqb_refl. cbn [andb].
  assert (forallb (λ l, negb (length l =? 0)%nat) t = true) as ->.
  { apply forallb_forall. intros x Hx. rewrite Forall_forall in Hf. apply list_elem_of_In in Hx.
    specialize (Hf x Hx). by destruct x. }
  edestruct (optimize_iters_ok obs Hobs 50 0 gs np w cy t) as (t' & al' & c & -> & Hs & Ha); [done|by rewrite repeat_length|done|].
  exists t', al', c. split_and!; [done|by eapply hyp_ok_shape|congruence].
Qed.

Lemma search_ok start M gs np w cy hs ls low best :
  Forall2 (hyp_ok start M (length gs)) hs ls ->
  (∃ l, hyp_ok start M (length gs) best.1 l) -> length best.2 = length gs ->
  ∃ t al, search uninit gs np w obs cy hs low best = Ok (t, al)
          ∧ (∃ l, hyp_ok start M (length gs) t l) ∧ length al = length gs.
Proof.
  intros Hf. revert low best. induction Hf as [|h l hs ls Hh Hf IH]; intros low [bt ba] Hb Hl.
  - exists bt, ba. done.
  - cbn [search]. destruct (optimize_ok start M gs np w cy h l Hh) as (t' & al' & c & -> & Ht & Ha).
    simpl. destruct (cheaper c low); apply IH; eauto.
Qed.

Lemma FindMultiplePath_ok start gs np w cy :
  gs ≠ [] ->
  ∃ t al, FindMultiplePath uninit start gs np w obs cy = Ok (t, al)
          ∧ (∃ l, hyp_ok start (Z.max 1 (7 - Z.of_nat (length gs))) (length gs) t l) ∧ length al = length gs.
Proof.
  intros Hne. unfold FindMultiplePath. cbv zeta.
  change (kMaxTotalpts + 1)%Z with 7%Z. set (M := Z.max 1 (7 - Z.of_nat (length gs))).
  destruct gs as [|g gs]; [done|]. set (all := g :: gs) in *.
  change (seq 0 (length all)) with (0%nat :: seq 1 (length gs)). cbn [rfold].
  assert (length (map midpoint all) = S (length gs)) as Hends by (by rewrite length_map).
  destruct (add_leg_first start (map midpoint all) M w) as ([hs ls] & -> & Hok1 & Hne1); [lia|lia|]. cbn [rbind].
  destruct (add_legs_ok start (map midpoint all) M w (length gs) 1 hs ls) as ([hs' ls'] & -> & Hok2 & Hne2); [lia|done|lia|done|lia|].
  cbn [rbind fst snd] in *. destruct hs' as [|h hs']; [done|]. cbn [vec_at lookup list_lookup rbind].
  apply (search_ok start M all _ _ _ _ ls'); [done| |apply repeat_length].
  inversion Hok2 as [|? l ? ? Hh ?]; subst. by exists l.
Qed.

(** C13: The planner is total on any non-empty list of gates and any obstacles that have
    vertices: none of the [CHECK]s of [OptimizeMultipleTacks] and [BackPass] fails, and every
    access to a vector, with [at] or [operator[]], is in range.  The plan has one non-empty path
    per gate, starts at the boat's position, and has at most six points or one per gate.  It
    holds in any arithmetic, so whatever the rounding. *)
Theorem find_multiple_path_total (startpt : vec2 D) (gates : list (vec2 D * vec2 D)) (nextpt : vec2 D)
    (winddir cur_yaw : D) :
  gates ≠ [] ->
  ∃ tacks alphas,
    FindMultiplePath uninit startpt gates nextpt winddir obs cur_yaw = Ok (tacks, alphas)
    ∧ length tacks = length gates ∧ length alphas = length gates
    ∧ Forall (λ leg, leg ≠ []) tacks ∧ head (concat tacks) = Some startpt
    ∧ Z.of_nat (length (concat tacks)) <= Z.max kMaxTotalpts (Z.of_nat (length gates)).
Proof.
  intros Hne. destruct (FindMultiplePath_ok startpt gates nextpt winddir cur_yaw Hne)
    as (t & al & E & (l & Hn & Hf & Hl & Hle & Hh) & Ha).
  exists t, al. split_and!; [done..| |].
  - destruct t as [|[|x leg] t]; [by destruct gates|done|done].
  - change kMaxTotalpts with 6. lia.
Qed.

(** A single gate gives a single path. *)
Lemma FindPath_ok start g np w cy :
  ∃ t a, FindPath uninit start g np w obs cy = Ok (t, a)
         ∧ head t = Some start ∧ Z.of_nat (length t) <= 6.
Proof.
  unfold FindPath.
  destruct (FindMultiplePath_ok start [g] np w cy ltac:(done)) as (t & al & -> & (l & Hn & _ & Hl & Hle & Hh) & Ha).
  destruct t as [|t [|]]; [done| |done]. destruct al as [|a [|]]; [done| |done]. simpl in *.
  rewrite app_nil_r in Hl. exists t, a. split_and!; [done|done|lia].
Qed.
End Search.

(** No path is ever rejected as not viable: the optimiser reports viability for every
    input, since the result of a leg counts only when its index is -1. *)
Theorem viability_never_enforced (gates : list (vec2 D * vec2 D)) (nextpt : vec2 D) (winddir : D)
    (obstacles : list (Polygon D)) (cur_yaw : D) (tacks : list (list (vec2 D))) (alphas : list D) r :
  OptimizeMultipleTacks uninit gates nextpt winddir obstacles cur_yaw tacks alphas = Ok r -> r.2 = true.
Proof.
  unfold OptimizeMultipleTacks. destruct (_ && _); [|done]. apply optimize_iters_viable.
Qed.
End Shape.

(** One gate, and an obstacle. *)
Lemma find_multiple_path_witness :
  ∃ tacks alphas,
    @FindMultiplePath R num_R eigen_plain zero2 (V2 0 0)%R [(V2 50 0, V2 50 20)]%R (V2 99 0)%R 3%R
      [MkPolygon [V2 9 0; V2 9 5]%R zero2] 0%R
    = Ok (tacks, alphas) ∧ length tacks = 1%nat ∧ head (concat tacks) = Some (V2 0 0)%R.
Proof.
  destruct (@find_multiple_path_total R num_R eigen_plain zero2 [MkPolygon [V2 9 0; V2 9 5]%R zero2] ltac:(by repeat constructor)
              (V2 0 0)%R [(V2 50 0, V2 50 20)]%R (V2 99 0)%R 3%R 0%R ltac:(done)) as (t & a & E & Hn & _ & _ & Hh & _).
  exists t, a. auto.
Defined.
