(* ===== verification/LinePlan.v ===== *)
(** * The line planner

    The node of src/control/line_plan.cc: waypoints and obstacles in longitude and
    latitude, their image in metres around a reference point, progress along the
    waypoints, and the heading of the planned path.  Events are atomic: the handlers and
    [GetGoalHeading] hold the node's mutex.  The planner itself is in LineCost.v. *)

From Stdlib Require Import ZArith Lia Reals Lra Floats.
From stdpp Require Import base list.
From S2P Require Import Prelude Num NumR NumF Vec Util Polygon Messages LineCost LineSearch.

#[local] Open Scope Z_scope.

Inductive PlanOut (D : Type) :=
| OutPathPoints (pts : list (vec2 D))
| OutHeadingCmd (m : HeadingCmd D)
| OutTackerState (m : TackerState)
| OutWaypoints (m : WaypointList D)
| OutObstacles (m : list (WaypointList D)).
Arguments OutPathPoints {D} _.
Arguments OutHeadingCmd {D} _.
Arguments OutTackerState {D} _.
Arguments OutWaypoints {D} _.
Arguments OutObstacles {D} _.

Record LinePlan (D : Type) := MkLinePlan {
  yaw_ : D;
  wind_dir_ : D;
  crossed_cnt_ : Z;
  boat_pos_ : vec2 D;
  boat_pos_lonlat_ : vec2 D;
  prev_boat_pos_ : vec2 D;
  prev_boat_pos_lonlat_ : vec2 D;
  lonlat_ref_ : vec2 D;
  lonlat_scale_ : vec2 D;
  obstacles_lonlat_ : list (Polygon D);
  obstacles_ : list (Polygon D);
  waypoints_lonlat_ : list (vec2 D);
  pathpoints_lonlat_msg_ : list (vec2 D);
  waypoints_ : list (vec2 D * vec2 D);
  are_gates_ : list bool;
  next_waypoint_ : Z;
  repeat_waypoints_ : bool;
  heading_msg_ : HeadingCmd D;
  state_msg_ : TackerState;
  tack_mode_ : TACKER;
  plan_out : list (PlanOut D);
}.
Arguments MkLinePlan {D}.
Arguments yaw_ {D} _.
Arguments wind_dir_ {D} _.
Arguments crossed_cnt_ {D} _.
Arguments boat_pos_ {D} _.
Arguments boat_pos_lonlat_ {D} _.
Arguments prev_boat_pos_ {D} _.
Arguments prev_boat_pos_lonlat_ {D} _.
Arguments lonlat_ref_ {D} _.
Arguments lonlat_scale_ {D} _.
Arguments obstacles_lonlat_ {D} _.
Arguments obstacles_ {D} _.
Arguments waypoints_lonlat_ {D} _.
Arguments pathpoints_lonlat_msg_ {D} _.
Arguments waypoints_ {D} _.
Arguments are_gates_ {D} _.
Arguments next_waypoint_ {D} _.
Arguments repeat_waypoints_ {D} _.
Arguments heading_msg_ {D} _.
Arguments state_msg_ {D} _.
Arguments tack_mode_ {D} _.
Arguments plan_out {D} _.
Definition set_yaw_ {D : Type} (v : D) (s : LinePlan D) : LinePlan D := MkLinePlan v (s.(wind_dir_)) (s.(crossed_cnt_)) (s.(boat_pos_)) (s.(boat_pos_lonlat_)) (s.(prev_boat_pos_)) (s.(prev_boat_pos_lonlat_)) (s.(lonlat_ref_)) (s.(lonlat_scale_)) (s.(obstacles_lonlat_)) (s.(obstacles_)) (s.(waypoints_lonlat_)) (s.(pathpoints_lonlat_msg_)) (s.(waypoints_)) (s.(are_gates_)) (s.(next_waypoint_)) (s.(repeat_waypoints_)) (s.(heading_msg_)) (s.(state_msg_)) (s.(tack_mode_)) (s.(plan_out)).
Definition set_wind_dir_ {D : Type} (v : D) (s : LinePlan D) : LinePlan D := MkLinePlan (s.(yaw_)) v (s.(crossed_cnt_)) (s.(boat_pos_)) (s.(boat_pos_lonlat_)) (s.(prev_boat_pos_)) (s.(prev_boat_pos_lonlat_)) (s.(lonlat_ref_)) (s.(lonlat_scale_)) (s.(obstacles_lonlat_)) (s.(obstacles_)) (s.(waypoints_lonlat_)) (s.(pathpoints_lonlat_msg_)) (s.(waypoints_)) (s.(are_gates_)) (s.(next_waypoint_)) (s.(repeat_waypoints_)) (s.(heading_msg_)) (s.(state_msg_)) (s.(tack_mode_)) (s.(plan_out)).
Definition set_crossed_cnt_ {D : Type} (v : Z) (s : LinePlan D) : LinePlan D := MkLinePlan (s.(yaw_)) (s.(wind_dir_)) v (s.(boat_pos_)) (s.(boat_pos_lonlat_)) (s.(prev_boat_pos_)) (s.(prev_boat_pos_lonlat_)) (s.(lonlat_ref_)) (s.(lonlat_scale_)) (s.(obstacles_lonlat_)) (s.(obstacles_)) (s.(waypoints_lonlat_)) (s.(pathpoints_lonlat_msg_)) (s.(waypoints_)) (s.(are_gates_)) (s.(next_waypoint_)) (s.(repeat_waypoints_)) (s.(heading_msg_)) (s.(state_msg_)) (s.(tack_mode_)) (s.(plan_out)).
Definition set_boat_pos_ {D : Type} (v : vec2 D) (s : LinePlan D) : LinePlan D := MkLinePlan (s.(yaw_)) (s.(wind_dir_)) (s.(crossed_cnt_)) v (s.(boat_pos_lonlat_)) (s.(prev_boat_pos_)) (s.(prev_boat_pos_lonlat_)) (s.(lonlat_ref_)) (s.(lonlat_scale_)) (s.(obstacles_lonlat_)) (s.(obstacles_)) (s.(waypoints_lonlat_)) (s.(pathpoints_lonlat_msg_)) (s.(waypoints_)) (s.(are_gates_)) (s.(next_waypoint_)) (s.(repeat_waypoints_)) (s.(heading_msg_)) (s.(state_msg_)) (s.(tack_mode_)) (s.(plan_out)).
Definition set_boat_pos_lonlat_ {D : Type} (v : vec2 D) (s : LinePlan D) : LinePlan D := MkLinePlan (s.(yaw_)) (s.(wind_dir_)) (s.(crossed_cnt_)) (s.(boat_pos_)) v (s.(prev_boat_pos_)) (s.(prev_boat_pos_lonlat_)) (s.(lonlat_ref_)) (s.(lonlat_scale_)) (s.(obstacles_lonlat_)) (s.(obstacles_)) (s.(waypoints_lonlat_)) (s.(pathpoints_lonlat_msg_)) (s.(waypoints_)) (s.(are_gates_)) (s.(next_waypoint_)) (s.(repeat_waypoints_)) (s.(heading_msg_)) (s.(state_msg_)) (s.(tack_mode_)) (s.(plan_out)).
Definition set_prev_boat_pos_ {D : Type} (v : vec2 D) (s : LinePlan D) : LinePlan D := MkLinePlan (s.(yaw_)) (s.(wind_dir_)) (s.(crossed_cnt_)) (s.(boat_pos_)) (s.(boat_pos_lonlat_)) v (s.(prev_boat_pos_lonlat_)) (s.(lonlat_ref_)) (s.(lonlat_scale_)) (s.(obstacles_lonlat_)) (s.(obstacles_)) (s.(waypoints_lonlat_)) (s.(pathpoints_lonlat_msg_)) (s.(waypoints_)) (s.(are_gates_)) (s.(next_waypoint_)) (s.(repeat_waypoints_)) (s.(heading_msg_)) (s.(state_msg_)) (s.(tack_mode_)) (s.(plan_out)).
Definition set_prev_boat_pos_lonlat_ {D : Type} (v : vec2 D) (s : LinePlan D) : LinePlan D := MkLinePlan (s.(yaw_)) (s.(wind_dir_)) (s.(crossed_cnt_)) (s.(boat_pos_)) (s.(boat_pos_lonlat_)) (s.(prev_boat_pos_)) v (s.(lonlat_ref_)) (s.(lonlat_scale_)) (s.(obstacles_lonlat_)) (s.(obstacles_)) (s.(waypoints_lonlat_)) (s.(pathpoints_lonlat_msg_)) (s.(waypoints_)) (s.(are_gates_)) (s.(next_waypoint_)) (s.(repeat_waypoints_)) (s.(heading_msg_)) (s.(state_msg_)) (s.(tack_mode_)) (s.(plan_out)).
Definition set_lonlat_ref_ {D : Type} (v : vec2 D) (s : LinePlan D) : LinePlan D := MkLinePlan (s.(yaw_)) (s.(wind_dir_)) (s.(crossed_cnt_)) (s.(boat_pos_)) (s.(boat_pos_lonlat_)) (s.(prev_boat_pos_)) (s.(prev_boat_pos_lonlat_)) v (s.(lonlat_scale_)) (s.(obstacles_lonlat_)) (s.(obstacles_)) (s.(waypoints_lonlat_)) (s.(pathpoints_lonlat_msg_)) (s.(waypoints_)) (s.(are_gates_)) (s.(next_waypoint_)) (s.(repeat_waypoints_)) (s.(heading_msg_)) (s.(state_msg_)) (s.(tack_mode_)) (s.(plan_out)).
Definition set_lonlat_scale_ {D : Type} (v : vec2 D) (s : LinePlan D) : LinePlan D := MkLinePlan (s.(yaw_)) (s.(wind_dir_)) (s.(crossed_cnt_)) (s.(boat_pos_)) (s.(boat_pos_lonlat_)) (s.(prev_boat_pos_)) (s.(prev_boat_pos_lonlat_)) (s.(lonlat_ref_)) v (s.(obstacles_lonlat_)) (s.(obstacles_)) (s.(waypoints_lonlat_)) (s.(pathpoints_lonlat_msg_)) (s.(waypoints_)) (s.(are_gates_)) (s.(next_waypoint_)) (s.(repeat_waypoints_)) (s.(heading_msg_)) (s.(state_msg_)) (s.(tack_mode_)) (s.(plan_out)).
Definition set_obstacles_lonlat_ {D : Type} (v : list (Polygon D)) (s : LinePlan D) : LinePlan D := MkLinePlan (s.(yaw_)) (s.(wind_dir_)) (s.(crossed_cnt_)) (s.(boat_pos_)) (s.(boat_pos_lonlat_)) (s.(prev_boat_pos_)) (s.(prev_boat_pos_lonlat_)) (s.(lonlat_ref_)) (s.(lonlat_scale_)) v (s.(obstacles_)) (s.(waypoints_lonlat_)) (s.(pathpoints_lonlat_msg_)) (s.(waypoints_)) (s.(are_gates_)) (s.(next_waypoint_)) (s.(repeat_waypoints_)) (s.(heading_msg_)) (s.(state_msg_)) (s.(tack_mode_)) (s.(plan_out)).
Definition set_obstacles_ {D : Type} (v : list (Polygon D)) (s : LinePlan D) : LinePlan D := MkLinePlan (s.(yaw_)) (s.(wind_dir_)) (s.(crossed_cnt_)) (s.(boat_pos_)) (s.(boat_pos_lonlat_)) (s.(prev_boat_pos_)) (s.(prev_boat_pos_lonlat_)) (s.(lonlat_ref_)) (s.(lonlat_scale_)) (s.(obstacles_lonlat_)) v (s.(waypoints_lonlat_)) (s.(pathpoints_lonlat_msg_)) (s.(waypoints_)) (s.(are_gates_)) (s.(next_waypoint_)) (s.(repeat_waypoints_)) (s.(heading_msg_)) (s.(state_msg_)) (s.(tack_mode_)) (s.(plan_out)).
Definition set_waypoints_lonlat_ {D : Type} (v : list (vec2 D)) (s : LinePlan D) : LinePlan D := MkLinePlan (s.(yaw_)) (s.(wind_dir_)) (s.(crossed_cnt_)) (s.(boat_pos_)) (s.(boat_pos_lonlat_)) (s.(prev_boat_pos_)) (s.(prev_boat_pos_lonlat_)) (s.(lonlat_ref_)) (s.(lonlat_scale_)) (s.(obstacles_lonlat_)) (s.(obstacles_)) v (s.(pathpoints_lonlat_msg_)) (s.(waypoints_)) (s.(are_gates_)) (s.(next_waypoint_)) (s.(repeat_waypoints_)) (s.(heading_msg_)) (s.(state_msg_)) (s.(tack_mode_)) (s.(plan_out)).
Definition set_pathpoints_lonlat_msg_ {D : Type} (v : list (vec2 D)) (s : LinePlan D) : LinePlan D := MkLinePlan (s.(yaw_)) (s.(wind_dir_)) (s.(crossed_cnt_)) (s.(boat_pos_)) (s.(boat_pos_lonlat_)) (s.(prev_boat_pos_)) (s.(prev_boat_pos_lonlat_)) (s.(lonlat_ref_)) (s.(lonlat_scale_)) (s.(obstacles_lonlat_)) (s.(obstacles_)) (s.(waypoints_lonlat_)) v (s.(waypoints_)) (s.(are_gates_)) (s.(next_waypoint_)) (s.(repeat_waypoints_)) (s.(heading_msg_)) (s.(state_msg_)) (s.(tack_mode_)) (s.(plan_out)).
Definition set_waypoints_ {D : Type} (v : list (vec2 D * vec2 D)) (s : LinePlan D) : LinePlan D := MkLinePlan (s.(yaw_)) (s.(wind_dir_)) (s.(crossed_cnt_)) (s.(boat_pos_)) (s.(boat_pos_lonlat_)) (s.(prev_boat_pos_)) (s.(prev_boat_pos_lonlat_)) (s.(lonlat_ref_)) (s.(lonlat_scale_)) (s.(obstacles_lonlat_)) (s.(obstacles_)) (s.(waypoints_lonlat_)) (s.(pathpoints_lonlat_msg_)) v (s.(are_gates_)) (s.(next_waypoint_)) (s.(repeat_waypoints_)) (s.(heading_msg_)) (s.(state_msg_)) (s.(tack_mode_)) (s.(plan_out)).
Definition set_are_gates_ {D : Type} (v : list bool) (s : LinePlan D) : LinePlan D := MkLinePlan (s.(yaw_)) (s.(wind_dir_)) (s.(crossed_cnt_)) (s.(boat_pos_)) (s.(boat_pos_lonlat_)) (s.(prev_boat_pos_)) (s.(prev_boat_pos_lonlat_)) (s.(lonlat_ref_)) (s.(lonlat_scale_)) (s.(obstacles_lonlat_)) (s.(obstacles_)) (s.(waypoints_lonlat_)) (s.(pathpoints_lonlat_msg_)) (s.(waypoints_)) v (s.(next_waypoint_)) (s.(repeat_waypoints_)) (s.(heading_msg_)) (s.(state_msg_)) (s.(tack_mode_)) (s.(plan_out)).
Definition set_next_waypoint_ {D : Type} (v : Z) (s : LinePlan D) : LinePlan D := MkLinePlan (s.(yaw_)) (s.(wind_dir_)) (s.(crossed_cnt_)) (s.(boat_pos_)) (s.(boat_pos_lonlat_)) (s.(prev_boat_pos_)) (s.(prev_boat_pos_lonlat_)) (s.(lonlat_ref_)) (s.(lonlat_scale_)) (s.(obstacles_lonlat_)) (s.(obstacles_)) (s.(waypoints_lonlat_)) (s.(pathpoints_lonlat_msg_)) (s.(waypoints_)) (s.(are_gates_)) v (s.(repeat_waypoints_)) (s.(heading_msg_)) (s.(state_msg_)) (s.(tack_mode_)) (s.(plan_out)).
Definition set_repeat_waypoints_ {D : Type} (v : bool) (s : LinePlan D) : LinePlan D := MkLinePlan (s.(yaw_)) (s.(wind_dir_)) (s.(crossed_cnt_)) (s.(boat_pos_)) (s.(boat_pos_lonlat_)) (s.(prev_boat_pos_)) (s.(prev_boat_pos_lonlat_)) (s.(lonlat_ref_)) (s.(lonlat_scale_)) (s.(obstacles_lonlat_)) (s.(obstacles_)) (s.(waypoints_lonlat_)) (s.(pathpoints_lonlat_msg_)) (s.(waypoints_)) (s.(are_gates_)) (s.(next_waypoint_)) v (s.(heading_msg_)) (s.(state_msg_)) (s.(tack_mode_)) (s.(plan_out)).
Definition set_heading_msg_ {D : Type} (v : HeadingCmd D) (s : LinePlan D) : LinePlan D := MkLinePlan (s.(yaw_)) (s.(wind_dir_)) (s.(crossed_cnt_)) (s.(boat_pos_)) (s.(boat_pos_lonlat_)) (s.(prev_boat_pos_)) (s.(prev_boat_pos_lonlat_)) (s.(lonlat_ref_)) (s.(lonlat_scale_)) (s.(obstacles_lonlat_)) (s.(obstacles_)) (s.(waypoints_lonlat_)) (s.(pathpoints_lonlat_msg_)) (s.(waypoints_)) (s.(are_gates_)) (s.(next_waypoint_)) (s.(repeat_waypoints_)) v (s.(state_msg_)) (s.(tack_mode_)) (s.(plan_out)).
Definition set_state_msg_ {D : Type} (v : TackerState) (s : LinePlan D) : LinePlan D := MkLinePlan (s.(yaw_)) (s.(wind_dir_)) (s.(crossed_cnt_)) (s.(boat_pos_)) (s.(boat_pos_lonlat_)) (s.(prev_boat_pos_)) (s.(prev_boat_pos_lonlat_)) (s.(lonlat_ref_)) (s.(lonlat_scale_)) (s.(obstacles_lonlat_)) (s.(obstacles_)) (s.(waypoints_lonlat_)) (s.(pathpoints_lonlat_msg_)) (s.(waypoints_)) (s.(are_gates_)) (s.(next_waypoint_)) (s.(repeat_waypoints_)) (s.(heading_msg_)) v (s.(tack_mode_)) (s.(plan_out)).
Definition set_tack_mode_ {D : Type} (v : TACKER) (s : LinePlan D) : LinePlan D := MkLinePlan (s.(yaw_)) (s.(wind_dir_)) (s.(crossed_cnt_)) (s.(boat_pos_)) (s.(boat_pos_lonlat_)) (s.(prev_boat_pos_)) (s.(prev_boat_pos_lonlat_)) (s.(lonlat_ref_)) (s.(lonlat_scale_)) (s.(obstacles_lonlat_)) (s.(obstacles_)) (s.(waypoints_lonlat_)) (s.(pathpoints_lonlat_msg_)) (s.(waypoints_)) (s.(are_gates_)) (s.(next_waypoint_)) (s.(repeat_waypoints_)) (s.(heading_msg_)) (s.(state_msg_)) v (s.(plan_out)).
Definition set_plan_out {D : Type} (v : list (PlanOut D)) (s : LinePlan D) : LinePlan D := MkLinePlan (s.(yaw_)) (s.(wind_dir_)) (s.(crossed_cnt_)) (s.(boat_pos_)) (s.(boat_pos_lonlat_)) (s.(prev_boat_pos_)) (s.(prev_boat_pos_lonlat_)) (s.(lonlat_ref_)) (s.(lonlat_scale_)) (s.(obstacles_lonlat_)) (s.(obstacles_)) (s.(waypoints_lonlat_)) (s.(pathpoints_lonlat_msg_)) (s.(waypoints_)) (s.(are_gates_)) (s.(next_waypoint_)) (s.(repeat_waypoints_)) (s.(heading_msg_)) (s.(state_msg_)) (s.(tack_mode_)) v.

Definition plan_send {D : Type} (o : PlanOut D) (s : LinePlan D) : LinePlan D := set_plan_out (plan_out s ++ [o]) s.

(** An element of a vector at an [int] index. *)
Definition at_ {A : Type} (l : list A) (i : Z) : result PlanErr A :=
  if i <? 0 then Err PlanOutOfRange else of_option PlanOutOfRange (l !! Z.to_nat i).

#[local] Notation "s |> f" := (f s) (at level 50, left associativity, only parsing).

Section Node.
Context {D : Type} {ND : Num D} {EG : Eigen D}.
Abbreviation Point := (vec2 D).
(** The contents of uninitialised vectors, and the verbosity flag. *)
Variable uninit : Point.
Variable FLAGS_v : bool.
#[local] Open Scope num_scope.

Definition plan_dt : D := #2.

(** ** Frames *)

Definition LonLatToFrame (s : LinePlan D) (lonlat : Point) : Point :=
  let d := sub2 lonlat (lonlat_ref_ s) in
  V2 (vx (lonlat_scale_ s) * vx d) (vy (lonlat_scale_ s) * vy d).

Definition FrameToLonLat (s : LinePlan D) (frame : Point) : Point :=
  add2 (V2 (vx frame / vx (lonlat_scale_ s)) (vy frame / vy (lonlat_scale_ s))) (lonlat_ref_ s).

Definition UpdateObstacles (s : LinePlan D) : LinePlan D :=
  s |> set_obstacles_ (map (λ p, ProcessPts (MkPolygon (map (LonLatToFrame s) (pts p)) (centroid p)))
                         (obstacles_lonlat_ s)).

(** The loop over the inner waypoints: the gates, and [curpt] and [nextpt] after it. *)
Fixpoint inner_gates (curpt nextpt : Point) (rest : list Point) : list (Point * Point) * Point * Point :=
  match rest with
  | [] => ([], curpt, nextpt)
  | pt :: rest =>
      let '(gates, c, n) := inner_gates nextpt pt rest in
      (MakeGateFromWaypoints nextpt curpt pt :: gates, c, n)
  end.

Definition UpdateWaypoints (s : LinePlan D) : LinePlan D :=
  match map (LonLatToFrame s) (waypoints_lonlat_ s) with
  | [] => s
  | [pt] => s |> set_waypoints_ [(pt, pt)] |> set_next_waypoint_ 0
  | pt0 :: pt1 :: rest =>
      let '(gates, curpt, nextpt) := inner_gates pt0 pt1 rest in
      let ways :=
        if repeat_waypoints_ s
        then MakeGateFromWaypoints pt0 nextpt pt1 :: gates ++ [MakeGateFromWaypoints nextpt curpt pt0]
        else (pt0, pt0) :: gates ++ [(nextpt, nextpt)] in
      s |> set_waypoints_ ways |> set_are_gates_ (repeat false (length ways))
  end.

Definition ResetRef (newlonlatref : Point) (s : LinePlan D) : LinePlan D :=
  let s := s |> set_lonlat_ref_ newlonlatref in
  let '(yscale, xscale) := GPSLatLonScale (vy (lonlat_ref_ s)) in
  let s := s |> set_lonlat_scale_ (V2 xscale yscale) in
  let s := s |> set_boat_pos_ (LonLatToFrame s (boat_pos_lonlat_ s)) in
  let s := s |> set_prev_boat_pos_ (LonLatToFrame s (prev_boat_pos_lonlat_ s)) in
  s |> UpdateObstacles |> UpdateWaypoints.

(** ** Progress along the waypoints *)

#[local] Open Scope result_scope.

Definition send_state (s : LinePlan D) : LinePlan D := plan_send (OutTackerState (state_msg_ s)) s.

(** Whether the boat is on the gate's side of its start, or within it. *)
Definition passes_gate (is_gate : bool) (gate_start gate_end prev cur : Point) : bool :=
  if is_gate then ProjectsToLine gate_start gate_end prev && ProjectsToLine gate_start gate_end cur
  else if norm2 (sub2 gate_start gate_end) <? dec 1 6 then norm2 (sub2 cur gate_start) <? #5
  else ProjectsToRay gate_start gate_end prev && ProjectsToRay gate_start gate_end cur.

Definition UpdateWaypointInc (s : LinePlan D) : result PlanErr (LinePlan D) :=
  let size := Z.of_nat (length (waypoints_ s)) in
  let next := next_waypoint_ s in
  if (size =? 0)%Z then Ok s
  else if negb (repeat_waypoints_ s) && (wrapu 64 next =? size - 1)%Z then
    let* way := at_ (waypoints_ s) next in
    let near := norm2 (sub2 way.1 (boat_pos_ s)) <? #15 in
    let msg := state_msg_ s in
    let msg := if near then MkTackerState true next (near_waypoint msg)
               else MkTackerState false (next - 1)%Z (near_waypoint msg) in
    Ok (s |> set_state_msg_ msg |> send_state)
  else
    let* way := at_ (waypoints_ s) next in
    let '(gate_start, gate_end) := way in
    let* is_gate := at_ (are_gates_ s) next in
    let passed_line := passes_gate is_gate gate_start gate_end (prev_boat_pos_ s) (boat_pos_ s) in
    let near_way := norm2 (sub2 gate_start (boat_pos_ s)) <? #8 in
    let d0 := DistToLine gate_start gate_end (prev_boat_pos_ s) in
    let d1 := DistToLine gate_start gate_end (boat_pos_ s) in
    let s :=
      if passed_line || near_way then
        if (d0 * d1 <=? #0) || near_way
        then s |> set_next_waypoint_ (wrapu 64 (next + 1) mod size)%Z |> set_crossed_cnt_ 0
        else s |> set_crossed_cnt_ (crossed_cnt_ s - 1)%Z
      else s in
    Ok (s |> set_state_msg_ (MkTackerState false (next_waypoint_ s - 1)%Z near_way) |> send_state).

(** ** Handlers *)

Definition handle_boat_state_plan (msg : BoatState D) (s : LinePlan D) : result PlanErr (LinePlan D) :=
  let s := s |> set_prev_boat_pos_ (boat_pos_ s) |> set_prev_boat_pos_lonlat_ (boat_pos_lonlat_ s)
             |> set_boat_pos_lonlat_ (V2 (v3x (pos msg)) (v3y (pos msg))) in
  let s := s |> set_boat_pos_ (LonLatToFrame s (boat_pos_lonlat_ s)) |> set_yaw_ (v3z (euler msg)) in
  let s := if #100 <? GPSDistance (v3y (pos msg)) (v3x (pos msg)) (vy (lonlat_ref_ s)) (vx (lonlat_ref_ s))
           then ResetRef (boat_pos_lonlat_ s) s else s in
  UpdateWaypointInc s.

Definition handle_plan_wind (w : vec3 D) (s : LinePlan D) : LinePlan D :=
  s |> set_wind_dir_ (natan2 (v3y w) (v3x w)).

Definition handle_tack_mode (m : ControlMode) (s : LinePlan D) : LinePlan D :=
  match tacker m with Some t => s |> set_tack_mode_ t | None => s end.

(** The obstacles that are valid, in order; an invalid one is fatal when verbose. *)
Fixpoint valid_obstacles (msgs : list (WaypointList D)) (acc : list (Polygon D))
  : result PlanErr (list (Polygon D)) :=
  match msgs with
  | [] => Ok acc
  | m :: msgs =>
      if ValidatePoints (points m) then
        match Polygon_new uninit (points m) with
        | Ok p => valid_obstacles msgs (acc ++ [p])
        | Err _ => Err PlanCheckFailed
        end
      else if FLAGS_v then Err PlanCheckFailed else valid_obstacles msgs acc
  end.

Definition ReceiveObstacles (msg : list (WaypointList D)) (s : LinePlan D) : result PlanErr (LinePlan D) :=
  let* obs := valid_obstacles msg [] in
  Ok (s |> set_obstacles_lonlat_ obs |> UpdateObstacles).

Definition ReceiveWaypoints (msg : WaypointList D) (s : LinePlan D) : LinePlan D :=
  match points msg with
  | [] => s
  | _ =>
      let s := s |> set_crossed_cnt_ 0 |> set_repeat_waypoints_ (default false (repeat_ msg)) in
      let s := if default true (restart msg) || (next_waypoint_ s =? 0)%Z then s |> set_next_waypoint_ 1 else s in
      let s := s |> set_next_waypoint_ (Z.min (next_waypoint_ s) (Z.of_nat (length (points msg)) - 1)) in
      let start := if default true (defined_start msg) then [] else [boat_pos_lonlat_ s] in
      let s := s |> set_waypoints_lonlat_ (start ++ points msg) in
      let s := if vx (lonlat_scale_ s) =? #0
               then match waypoints_lonlat_ s with pt :: _ => ResetRef pt s | [] => s end
               else s in
      UpdateWaypoints s
  end.

(** The contents of the two files, when they can be read. *)
Definition ReadWaypointsAndObstacles (ways : option (WaypointList D)) (obs : option (list (WaypointList D)))
    (s : LinePlan D) : result PlanErr (LinePlan D) :=
  let s := match ways with Some m => ReceiveWaypoints m s |> plan_send (OutWaypoints m) | None => s end in
  match obs with
  | Some m => let* s := ReceiveObstacles m s in Ok (plan_send (OutObstacles m) s)
  | None => Ok s
  end.

(** The members without an initialiser are arguments. *)
Definition LinePlan_init (yaw0 wind0 : D) (p0 p1 p2 p3 : Point) : LinePlan D :=
  MkLinePlan yaw0 wind0 0 p0 p1 p2 p3 zero2 zero2 [] [] [] [] [] [] 0 false HeadingCmd_clear
    (MkTackerState false 0 false) LINE_PLAN [].

(** ** Planning *)

(** The loop over the legs: the path, and the message built from it. *)
Fixpoint join_legs (s : LinePlan D) (paths : list (list Point)) (alphas : list D) (gates : list (Point * Point))
    (path msg : list Point) : result PlanErr (list Point * list Point) :=
  match paths with
  | [] => Ok (path, msg)
  | leg :: paths =>
      if (length leg =? 0)%nat then Err PlanCheckFailed
      else match alphas, gates with
           | alpha :: alphas, gate :: gates =>
               let path := path ++ leg ++ [add2 (scale2 (#1 - alpha) gate.1) (scale2 alpha gate.2)] in
               join_legs s paths alphas gates path (map (FrameToLonLat s) path)
           | _, _ => Err PlanOutOfRange
           end
  end.

Fixpoint gates_from (s : LinePlan D) (start : Z) (n : nat) : result PlanErr (list (Point * Point)) :=
  match n with
  | O => Ok []
  | S n =>
      let* g := at_ (waypoints_ s) (wrapu 64 start mod Z.of_nat (length (waypoints_ s)))%Z in
      let* gs := gates_from s (start + 1)%Z n in
      Ok (g :: gs)
  end.

(** The heading, and the state with the planned points. *)
Definition GetGoalHeading (s : LinePlan D) : result PlanErr (D * LinePlan D) :=
  let size := Z.of_nat (length (waypoints_ s)) in
  if (size <? 1)%Z then Ok (yaw_ s, s)
  else
    let future_idx := (next_waypoint_ s + 1)%Z in
    let future_idx := if repeat_waypoints_ s then (wrapu 64 future_idx mod size)%Z
                      else Z.min (size - 1) future_idx in
    let* future := at_ (waypoints_ s) future_idx in
    let nextpt := midpoint future in
    let Nlegs := Z.max 1 (if repeat_waypoints_ s then kMaxLegs else Z.min kMaxLegs (size - next_waypoint_ s)) in
    let* plan_for_gates := gates_from s (next_waypoint_ s) (Z.to_nat Nlegs) in
    let* (paths, alphas) :=
      FindMultiplePath uninit (boat_pos_ s) plan_for_gates nextpt (wind_dir_ s) (obstacles_ s) (yaw_ s) in
    let* (path, msg) := join_legs s paths alphas plan_for_gates [] (pathpoints_lonlat_msg_ s) in
    match path with
    | a :: b :: _ => Ok (atan2v (sub2 b a), s |> set_pathpoints_lonlat_msg_ msg)
    | _ => Err PlanOutOfRange
    end.

Definition send_path (s : LinePlan D) : LinePlan D := plan_send (OutPathPoints (pathpoints_lonlat_msg_ s)) s.

Definition LinePlan_Iterate (s : LinePlan D) : result PlanErr (LinePlan D) :=
  match tack_mode_ s with
  | LINE_PLAN =>
      if squaredNorm2 (lonlat_scale_ s) <? dec 1 10 then Ok s
      else
        let* (heading, s) := GetGoalHeading s in
        let s := s |> set_heading_msg_ (set_heading (Some heading) (heading_msg_ s)) in
        Ok (s |> plan_send (OutHeadingCmd (heading_msg_ s)) |> send_path)
  | _ => Ok (s |> set_pathpoints_lonlat_msg_ [] |> send_path)
  end.

(** ** Events *)

Inductive PlanEvent :=
| EvWaypoints (m : WaypointList D)
| EvObstacles (m : list (WaypointList D))
| EvTackMode (m : ControlMode)
| EvBoatState (m : BoatState D)
| EvTrueWind (w : vec3 D)
| EvPlanIterate.

Definition plan_step (e : PlanEvent) (s : LinePlan D) : result PlanErr (LinePlan D) :=
  match e with
  | EvWaypoints m => Ok (ReceiveWaypoints m s)
  | EvObstacles m => ReceiveObstacles m s
  | EvTackMode m => Ok (handle_tack_mode m s)
  | EvBoatState m => handle_boat_state_plan m s
  | EvTrueWind w => Ok (handle_plan_wind w s)
  | EvPlanIterate => LinePlan_Iterate s
  end.

Fixpoint plan_run (es : list PlanEvent) (s : LinePlan D) : result PlanErr (LinePlan D) :=
  match es with
  | [] => Ok s
  | e :: es => let* s := plan_step e s in plan_run es s
  end.
End Node.
Arguments PlanEvent : clear implicits.

(** ** No access out of range *)

Section Safe.
Context {D : Type} {ND : Num D} {EG : Eigen D}.
Variable uninit : vec2 D.
#[local] Notation "s |> f" := (f s) (at level 50, left associativity, only parsing).

Definition obstacles_ok (s : LinePlan D) : Prop :=
  Forall (λ p, pts p ≠ []) (obstacles_lonlat_ s) ∧ Forall (λ p, pts p ≠ []) (obstacles_ s).

(** What the waypoints in longitude and latitude must satisfy for the waypoints to be
    built from them. *)
Definition lonlat_ok (s : LinePlan D) : Prop :=
  let n := Z.of_nat (length (waypoints_lonlat_ s)) in
  0 <= next_waypoint_ s ∧ n < 2 ^ 32 ∧ (0 < n -> next_waypoint_ s < n) ∧ (n = 1 -> repeat_waypoints_ s = false).

(** The invariant: the next waypoint is an index of the waypoints, and of the flags
    wherever they are consulted. *)
Record plan_ok (s : LinePlan D) : Prop := {
  ok_lonlat : lonlat_ok s;
  ok_len : length (waypoints_ s) = length (waypoints_lonlat_ s);
  ok_gates : (2 <= length (waypoints_ s))%nat -> length (are_gates_ s) = length (waypoints_ s);
  ok_obstacles : obstacles_ok s;
}.

Lemma at_ok {A} (l : list A) i : 0 <= i < Z.of_nat (length l) -> ∃ x, at_ l i = Ok x.
Proof.
  intros H. unfold at_. destruct (Z.ltb_spec i 0); [lia|].
  destruct (lookup_lt_is_Some_2 l (Z.to_nat i)) as [x ->]; [lia|]. by exists x.
Qed.

Lemma at_lookup {A} (l : list A) i x : at_ l i = Ok x -> l !! Z.to_nat i = Some x.
Proof. unfold at_. destruct (i <? 0); [done|]. destruct (l !! Z.to_nat i); [by intros [= ->]|done]. Qed.

Lemma inner_gates_length (c n : vec2 D) rest : length (inner_gates c n rest).1.1 = length rest.
Proof.
  revert c n. induction rest as [|p rest IH]; intros c n; [done|]. simpl. specialize (IH n p).
  destruct (inner_gates n p rest) as [[g c'] n']. simpl in *. by f_equal.
Qed.

Lemma UpdateWaypoints_ok (s : LinePlan D) :
  lonlat_ok s -> obstacles_ok s -> (waypoints_lonlat_ s = [] -> waypoints_ s = []) -> plan_ok (UpdateWaypoints s).
Proof.
  intros Hll Hobs He. unfold UpdateWaypoints.
  assert (length (map (LonLatToFrame s) (waypoints_lonlat_ s)) = length (waypoints_lonlat_ s)) as Hlen
    by apply length_map.
  destruct (map (LonLatToFrame s) (waypoints_lonlat_ s)) as [|p0 [|p1 rest]]; simpl in Hlen.
  - assert (waypoints_lonlat_ s = []) as E by (by destruct (waypoints_lonlat_ s)).
    constructor; [done|by rewrite E, (He E)|rewrite (He E); simpl; lia|done].
  - constructor; simpl; [|lia|lia|done]. destruct Hll as (H0 & H1 & H2 & H3).
    unfold lonlat_ok. simpl. rewrite <- Hlen in *. split_and!; [lia|lia|lia|by apply H3].
  - pose proof (inner_gates_length p0 p1 rest) as Hg.
    destruct (inner_gates p0 p1 rest) as [[g c'] n']. simpl in Hg.
    set (ways := if repeat_waypoints_ s then _ else _).
    assert (length ways = S (S (length rest))) as Hw.
    { unfold ways. destruct (repeat_waypoints_ s); simpl; rewrite length_app; simpl; lia. }
    constructor; simpl; [done|lia|by rewrite repeat_length|done].
Qed.

Lemma UpdateObstacles_ok (s : LinePlan D) :
  Forall (λ p, pts p ≠ []) (obstacles_lonlat_ s) -> obstacles_ok (UpdateObstacles s).
Proof.
  intros H. split; [done|]. simpl. apply Forall_map. eapply Forall_impl; [exact H|].
  intros p Hp. simpl. intros E. apply Hp. by destruct (pts p).
Qed.

Lemma ResetRef_ok p (s : LinePlan D) :
  lonlat_ok s -> obstacles_ok s -> (waypoints_lonlat_ s = [] -> waypoints_ s = []) -> plan_ok (ResetRef p s).
Proof.
  intros Hll Hobs He. unfold ResetRef. destruct (GPSLatLonScale _) as [ys xs].
  apply UpdateWaypoints_ok; [done| |done]. apply UpdateObstacles_ok, Hobs.
Qed.

Lemma ResetRef_fields p (s : LinePlan D) :
  waypoints_lonlat_ (ResetRef p s) = waypoints_lonlat_ s ∧ repeat_waypoints_ (ResetRef p s) = repeat_waypoints_ s.
Proof.
  unfold ResetRef. destruct (GPSLatLonScale _) as [ys xs]. unfold UpdateWaypoints.
  match goal with |- context [map ?f ?l] => destruct (map f l) as [|p0 [|p1 rest]] end; [done|done|].
  by destruct (inner_gates p0 p1 rest) as [[? ?] ?].
Qed.

Lemma plan_ok_empty (s : LinePlan D) : plan_ok s -> waypoints_lonlat_ s = [] -> waypoints_ s = [].
Proof. intros H E. pose proof (ok_len s H) as L. rewrite E in L. by destruct (waypoints_ s). Qed.

Lemma UpdateWaypointInc_ok (s : LinePlan D) :
  plan_ok s -> ∃ s', UpdateWaypointInc s = Ok s' ∧ plan_ok s'.
Proof.
  intros Hok. destruct (ok_lonlat s Hok) as (H0 & H1 & H2 & H3). pose proof (ok_len s Hok) as Hl.
  rewrite <- Hl in H1, H2, H3. unfold UpdateWaypointInc.
  destruct (Z.eqb_spec (Z.of_nat (length (waypoints_ s))) 0) as [|Hne]; [by exists s|].
  destruct (at_ok (waypoints_ s) (next_waypoint_ s)) as [[g0 g1] Ew]; [lia|].
  destruct (negb (repeat_waypoints_ s) && _) eqn:Elast.
  - rewrite Ew. cbn [rbind]. eexists. split; [done|].
    destruct Hok. destruct (nltb _ _); constructor; done.
  - rewrite Ew. cbn [rbind].
    assert (2 <= length (waypoints_ s))%nat as H2l.
    { destruct (decide (length (waypoints_ s) = 1%nat)) as [E1|]; [|lia]. exfalso.
      rewrite H3 in Elast by lia. simpl in Elast. unfold wrapu in Elast.
      rewrite Z.mod_small in Elast by lia. apply Z.eqb_neq in Elast. lia. }
    destruct (at_ok (are_gates_ s) (next_waypoint_ s)) as [ig ->]; [rewrite (ok_gates s Hok H2l); lia|].
    cbn [rbind]. eexists. split; [done|].
    assert (∀ n, 0 <= n < Z.of_nat (length (waypoints_ s)) -> ∀ c m o,
              plan_ok (s |> set_next_waypoint_ n |> set_crossed_cnt_ c |> set_state_msg_ m |> set_plan_out o)) as Hn.
    { intros n Hn c m o. destruct Hok as [_ ? ? ?]. constructor; simpl; [|done..].
      unfold lonlat_ok. simpl. rewrite <- Hl. split_and!; [lia|lia|lia|done]. }
    assert (0 <= wrapu 64 (next_waypoint_ s + 1) mod Z.of_nat (length (waypoints_ s)) < Z.of_nat (length (waypoints_ s)))
      by (apply Z.mod_pos_bound; lia).
    destruct (passes_gate _ _ _ _ _ || _); [destruct (_ || _)|].
    + by apply Hn.
    + apply (Hn (next_waypoint_ s)); lia.
    + apply (Hn (next_waypoint_ s) ltac:(lia) (crossed_cnt_ s)).
Qed.

(** A message of waypoints whose size fits an [int], and that is not one waypoint to be
    repeated. *)
Definition waypoints_msg_ok (m : WaypointList D) : Prop :=
  Z.of_nat (length (points m)) < 2 ^ 31
  ∧ (length (points m) = 1%nat -> default true (defined_start m) = true -> default false (repeat_ m) = false).

Lemma ReceiveWaypoints_ok m (s : LinePlan D) :
  plan_ok s -> waypoints_msg_ok m -> plan_ok (ReceiveWaypoints m s).
Proof.
  intros Hok [Hsz Hrep]. unfold ReceiveWaypoints.
  destruct (ok_lonlat s Hok) as (H0 & _). pose proof (ok_obstacles s Hok) as Hobs.
  destruct (points m) as [|p ps] eqn:Ep; [done|]. cbv zeta.
  set (s1 := s |> set_crossed_cnt_ 0 |> set_repeat_waypoints_ (default false (repeat_ m))).
  set (s2 := if default true (restart m) || _ then _ else s1).
  set (s3 := set_next_waypoint_ _ s2).
  set (start := if default true (defined_start m) then [] else _).
  set (s4 := set_waypoints_lonlat_ _ s3).
  assert (next_waypoint_ s2 = (if default true (restart m) || (next_waypoint_ s =? 0) then 1 else next_waypoint_ s)
          ∧ repeat_waypoints_ s4 = default false (repeat_ m) ∧ obstacles_lonlat_ s4 = obstacles_lonlat_ s
          ∧ obstacles_ s4 = obstacles_ s) as (E2 & Er & Eo1 & Eo2).
  { unfold s4, s3, s2, s1. simpl. by destruct (default true (restart m) || _). }
  assert (lonlat_ok s4) as Hll.
  { unfold lonlat_ok. rewrite Er. change (waypoints_lonlat_ s4) with (start ++ p :: ps).
    change (next_waypoint_ s4) with (Z.min (next_waypoint_ s2) (Z.of_nat (length (p :: ps)) - 1)).
    assert (1 <= next_waypoint_ s2).
    { rewrite E2. destruct (default true (restart m)); [simpl; lia|]. simpl. case_test; lia. }
    rewrite length_app. cbn [length] in *.
    assert (length start <= 1)%nat by (unfold start; destruct (default true (defined_start m)); simpl; lia).
    split_and!; [lia|lia|lia|]. intros E1. apply Hrep; [lia|].
    unfold start in E1. destruct (default true (defined_start m)); [done|]. simpl in E1. lia. }
  assert (obstacles_ok s4) as Hobs4 by (unfold obstacles_ok; by rewrite Eo1, Eo2).
  assert (waypoints_lonlat_ s4 ≠ []) as Hne by (by change (start ++ p :: ps ≠ []); destruct start).
  apply UpdateWaypoints_ok; (destruct (neqb _ _); [destruct (waypoints_lonlat_ s4) as [|q qs] eqn:Eq; [done|]|]);
    try done.
  - apply ResetRef_ok; [done..|by rewrite Eq].
  - apply (ResetRef_ok q s4); [done..|by rewrite Eq].
  - intros E. destruct (ResetRef_fields q s4) as [E' _]. rewrite E', Eq in E. done.
Qed.

Lemma valid_obstacles_ok msgs acc :
  Forall (λ p, pts p ≠ []) acc ->
  ∃ obs, valid_obstacles uninit false msgs acc = Ok obs ∧ Forall (λ p : Polygon D, pts p ≠ []) obs.
Proof.
  revert acc. induction msgs as [|m msgs IH]; intros acc Hacc; simpl; [by exists acc|].
  destruct (ValidatePoints (points m)) eqn:E; [|by apply IH].
  unfold Polygon_new. rewrite E. apply IH, Forall_app. split; [done|]. repeat constructor. simpl.
  by destruct (points m).
Qed.

Lemma ReceiveObstacles_ok m (s : LinePlan D) :
  plan_ok s -> ∃ s', ReceiveObstacles uninit false m s = Ok s' ∧ plan_ok s'.
Proof.
  intros [? ? ? ?]. unfold ReceiveObstacles.
  destruct (valid_obstacles_ok m [] ltac:(constructor)) as (obs & -> & Hobs). cbn [rbind].
  eexists. split; [done|]. constructor; [done..|]. by apply UpdateObstacles_ok.
Qed.

Lemma GetGoalHeading_ok (s : LinePlan D) :
  plan_ok s -> ∃ h msg, GetGoalHeading uninit s = Ok (h, set_pathpoints_lonlat_msg_ msg s).
Proof.
  intros Hok. destruct (ok_lonlat s Hok) as (H0 & H1 & H2 & H3). pose proof (ok_len s Hok) as Hl.
  rewrite <- Hl in H1, H2, H3. unfold GetGoalHeading.
  destruct (Z.ltb_spec (Z.of_nat (length (waypoints_ s))) 1) as [|Hge].
  { exists (yaw_ s), (pathpoints_lonlat_msg_ s). by destruct s. }
  match goal with |- context [at_ (waypoints_ s) ?i] => destruct (at_ok (waypoints_ s) i) as [fut ->] end.
  { destruct (repeat_waypoints_ s); [apply Z.mod_pos_bound; lia|lia]. }
  cbn [rbind]. set (N := Z.max 1 _).
  assert (Z.to_nat N = 1%nat) as -> by (unfold N, kMaxLegs; destruct (repeat_waypoints_ s); lia).
  cbn [gates_from].
  destruct (at_ok (waypoints_ s) (wrapu 64 (next_waypoint_ s) mod Z.of_nat (length (waypoints_ s)))) as [g ->].
  { apply Z.mod_pos_bound. lia. }
  cbn [rbind].
  destruct (FindMultiplePath_ok uninit (obstacles_ s) (proj2 (ok_obstacles s Hok)) (boat_pos_ s) [g] (midpoint fut)
              (wind_dir_ s) (yaw_ s) ltac:(done)) as (t & al & -> & (l & Hn & Hf & _) & Ha).
  destruct t as [|leg [|]]; [done| |done]. destruct al as [|a [|]]; [done| |done].
  apply Forall_cons in Hf as [Hleg _]. destruct leg as [|x leg]; [done|]. cbn [rbind join_legs length Nat.eqb app].
  destruct leg as [|y leg]; cbn [app]; eauto.
Qed.

(** Replacing what is not indexed keeps the invariant. *)
Lemma plan_ok_outputs (s : LinePlan D) msg hm o :
  plan_ok s -> plan_ok (s |> set_pathpoints_lonlat_msg_ msg |> set_heading_msg_ hm |> set_plan_out o).
Proof. by intros [? ? ? ?]. Qed.

Lemma Iterate_ok (s : LinePlan D) : plan_ok s -> ∃ s', LinePlan_Iterate uninit s = Ok s' ∧ plan_ok s'.
Proof.
  intros Hok. unfold LinePlan_Iterate.
  destruct (tack_mode_ s); try (eexists; split; [done|]; by apply (plan_ok_outputs s [] (heading_msg_ s))).
  destruct (nltb _ _); [by exists s|].
  destruct (GetGoalHeading_ok s Hok) as (h & msg & ->). cbn [rbind]. eexists. split; [done|].
  by apply plan_ok_outputs.
Qed.

Definition event_ok (e : PlanEvent D) : Prop :=
  match e with EvWaypoints m => waypoints_msg_ok m | _ => True end.

Lemma plan_step_ok e (s : LinePlan D) :
  plan_ok s -> event_ok e -> ∃ s', plan_step uninit false e s = Ok s' ∧ plan_ok s'.
Proof.
  intros Hok He. destruct e as [m|m|m|m|w|]; cbn [plan_step].
  - eexists. split; [done|]. by apply ReceiveWaypoints_ok.
  - by apply ReceiveObstacles_ok.
  - eexists. split; [done|]. unfold handle_tack_mode. destruct Hok, (tacker m); by constructor.
  - unfold handle_boat_state_plan. cbv zeta. apply UpdateWaypointInc_ok. destruct (nltb _ _).
    + apply ResetRef_ok; [exact (ok_lonlat s Hok)|exact (ok_obstacles s Hok)|exact (plan_ok_empty s Hok)].
    + destruct Hok. by constructor.
  - eexists. split; [done|]. destruct Hok. by constructor.
  - by apply Iterate_ok.
Qed.

Lemma plan_run_ok es (s : LinePlan D) :
  plan_ok s -> Forall event_ok es -> ∃ s', plan_run uninit false es s = Ok s' ∧ plan_ok s'.
Proof.
  intros Hok Hes. revert s Hok. induction Hes as [|e es He Hes IH]; intros s Hok; cbn [plan_run]; [by exists s|].
  destruct (plan_step_ok e s Hok He) as (s1 & -> & H1). cbn [rbind]. by apply IH.
Qed.

(** What an event sends: never a list of waypoints. *)
Definition sends_no_waypoints (s s' : LinePlan D) : Prop :=
  ∃ l, plan_out s' = plan_out s ++ l ∧ ∀ m, OutWaypoints m ∉ l.

Lemma sends_nothing (s s' : LinePlan D) : plan_out s' = plan_out s -> sends_no_waypoints s s'.
Proof. intros E. exists []. rewrite app_nil_r. split; [done|]. intros m. apply not_elem_of_nil. Qed.

Lemma UpdateWaypoints_out (s : LinePlan D) : plan_out (UpdateWaypoints s) = plan_out s.
Proof.
  unfold UpdateWaypoints. match goal with |- context [map ?f ?l] => destruct (map f l) as [|p0 [|p1 rest]] end; [done|done|].
  by destruct (inner_gates p0 p1 rest) as [[? ?] ?].
Qed.

Lemma ResetRef_out p (s : LinePlan D) : plan_out (ResetRef p s) = plan_out s.
Proof. unfold ResetRef. destruct (GPSLatLonScale _) as [ys xs]. by rewrite UpdateWaypoints_out. Qed.

Lemma ReceiveWaypoints_out m (s : LinePlan D) : plan_out (ReceiveWaypoints m s) = plan_out s.
Proof.
  unfold ReceiveWaypoints. destruct (points m) as [|p ps]; [done|]. cbv zeta. rewrite UpdateWaypoints_out.
  destruct (neqb _ _).
  - destruct (default true (defined_start m)); cbn [waypoints_lonlat_ set_waypoints_lonlat_ app];
      rewrite ResetRef_out; by destruct (default true (restart m) || _).
  - by destruct (default true (restart m) || _).
Qed.

Lemma UpdateWaypointInc_out (s s' : LinePlan D) : UpdateWaypointInc s = Ok s' -> sends_no_waypoints s s'.
Proof.
  unfold UpdateWaypointInc. cbv zeta. intros H.
  destruct (Z.of_nat (length (waypoints_ s)) =? 0); [injection H as <-; by apply sends_nothing|].
  destruct (negb _ && _); destruct (at_ (waypoints_ s) _) as [[g0 g1]|]; try done; cbn [rbind] in H.
  - injection H as <-. eexists. split; [done|]. intros m. by rewrite list_elem_of_singleton.
  - destruct (at_ (are_gates_ s) _) as [ig|]; [|done]. cbn [rbind] in H. injection H as <-.
    destruct (passes_gate _ _ _ _ _ || _); [destruct (nleb _ _ || _)|];
      (eexists [OutTackerState _]; split; [reflexivity|intros m; by rewrite list_elem_of_singleton]).
Qed.

Lemma plan_step_out e (s s' : LinePlan D) :
  plan_ok s -> plan_step uninit false e s = Ok s' -> sends_no_waypoints s s'.
Proof.
  intros Hok.
  destruct e as [m|m|m|m|w|]; cbn [plan_step]; intros H.
  - injection H as <-. apply sends_nothing, ReceiveWaypoints_out.
  - unfold ReceiveObstacles in H. destruct (valid_obstacles _ _ _ _); [|done]. injection H as <-. by apply sends_nothing.
  - injection H as <-. apply sends_nothing. unfold handle_tack_mode. by destruct (tacker m).
  - unfold handle_boat_state_plan in H. cbv zeta in H. apply UpdateWaypointInc_out in H as (l & E & Hl).
    exists l. split; [|done]. rewrite E. destruct (nltb _ _); [by rewrite ResetRef_out|done].
  - injection H as <-. by apply sends_nothing.
  - unfold LinePlan_Iterate in H. destruct (tack_mode_ s);
      try (injection H as <-; eexists; split; [done|]; intros m; by rewrite list_elem_of_singleton).
    destruct (nltb _ _); [injection H as <-; by apply sends_nothing|].
    destruct (GetGoalHeading_ok s Hok) as (h & msg & E). rewrite E in H. cbn [rbind] in H. injection H as <-.
    eexists [_; _]. split; [cbn; by rewrite <- app_assoc|]. intros m. rewrite !elem_of_cons, elem_of_nil. by intros [|[|]].
Qed.

Lemma LinePlan_init_ok y w p0 p1 p2 p3 : plan_ok (LinePlan_init y w p0 p1 p2 p3 : LinePlan D).
Proof. constructor; simpl; [split_and!; simpl; lia|done|lia|by split]. Qed.

(** The planner after its constructor has read the files. *)
Lemma plan_start_ok y w p0 p1 p2 p3 (ways : option (WaypointList D)) (obs : option (list (WaypointList D))) :
  (∀ m, ways = Some m -> waypoints_msg_ok m) ->
  ∃ s, ReadWaypointsAndObstacles uninit false ways obs (LinePlan_init y w p0 p1 p2 p3) = Ok s ∧ plan_ok s
    ∧ ∀ m, OutWaypoints m ∈ plan_out s -> ways = Some m.
Proof.
  intros Hw. set (s0 := LinePlan_init y w p0 p1 p2 p3). assert (plan_ok s0) as H0 by apply LinePlan_init_ok.
  unfold ReadWaypointsAndObstacles. cbv zeta. set (s1 := match ways with Some _ => _ | None => _ end).
  assert (plan_ok s1 ∧ ∀ m, OutWaypoints m ∈ plan_out s1 -> ways = Some m) as [H1 Ho].
  { unfold s1. destruct ways as [m|]; [|split; [done|]; intros m; cbn; by rewrite elem_of_nil].
    pose proof (ReceiveWaypoints_ok m s0 H0 (Hw m eq_refl)) as [? ? ? ?]. split; [by constructor|].
    intros m'. cbn [plan_send set_plan_out plan_out]. rewrite ReceiveWaypoints_out, elem_of_app, list_elem_of_singleton.
    intros [H|[= ->]]; [|done]. cbn in H. by apply not_elem_of_nil in H. }
  destruct obs as [m|]; [|by exists s1].
  destruct (ReceiveObstacles_ok m s1 H1) as (s2 & E & H2). pose proof (plan_step_out (EvObstacles m) s1 s2 H1 E) as (l & El & Hl).
  rewrite E. cbn [rbind]. eexists. split; [done|]. split; [destruct H2; by constructor|].
  intros m'. cbn [plan_send set_plan_out plan_out]. rewrite El, !elem_of_app, list_elem_of_singleton.
  intros [[H|H]|H]; [by apply Ho|by apply Hl in H|done].
Qed.

(** C12: The planner node never fails: from its constructor, whatever its files hold and
    whatever messages arrive in whatever order, no check fails and no vector is
    accessed out of range, and the invariant holds at the end.  Excluded are a list of
    one waypoint that is to be repeated, and obstacles sent under the verbose flag. *)
Theorem line_plan_never_fails (yaw0 wind0 : D) (p0 p1 p2 p3 : vec2 D) (ways : option (WaypointList D))
    (obs : option (list (WaypointList D))) (es : list (PlanEvent D)) :
  (∀ m, ways = Some m -> waypoints_msg_ok m) -> Forall event_ok es ->
  ∃ s s', ReadWaypointsAndObstacles uninit false ways obs (LinePlan_init yaw0 wind0 p0 p1 p2 p3) = Ok s
          ∧ plan_run uninit false es s = Ok s' ∧ plan_ok s'.
Proof.
  intros Hw Hes. destruct (plan_start_ok yaw0 wind0 p0 p1 p2 p3 ways obs Hw) as (s & E & Hs & _).
  destruct (plan_run_ok es s Hs Hes) as (s' & E' & H'). eauto.
Qed.
End Safe.

Lemma line_plan_never_fails_witness :
  let m := MkWaypointList [V2 0 0; V2 1 1; V2 2 0]%R None None (Some true) in
  ∃ s s', @ReadWaypointsAndObstacles R num_R eigen_plain zero2 false (Some m) None
            (LinePlan_init 0 0 zero2 zero2 zero2 zero2)%R = Ok s
          ∧ @plan_run R num_R eigen_plain zero2 false
              [EvBoatState (MkBoatState (V3 0 0 0) (V3 0 0 0) (V3 0 0 0) (V3 0 0 0) Internal_clear)%R;
               EvPlanIterate] s = Ok s' ∧ plan_ok s'.
Proof.
  apply (@line_plan_never_fails R num_R eigen_plain zero2).
  - intros m' [= <-]. split; simpl; [lia|done].
  - repeat constructor.
Defined.

(** ** Failure on one repeated waypoint *)

Section Progress.
Context {D : Type} {ND : Num D} {EG : Eigen D}.
Variable uninit : vec2 D.

(** The state after one waypoint to be repeated: no flag for it. *)
Definition unflagged (s : LinePlan D) : Prop :=
  length (waypoints_lonlat_ s) = 1%nat ∧ repeat_waypoints_ s = true ∧ are_gates_ s = [].

Lemma UpdateWaypoints_unflagged (s : LinePlan D) :
  unflagged s -> unflagged (UpdateWaypoints s) ∧ length (waypoints_ (UpdateWaypoints s)) = 1%nat
                 ∧ next_waypoint_ (UpdateWaypoints s) = 0.
Proof.
  intros (Hl & Hr & Hg). unfold UpdateWaypoints.
  destruct (waypoints_lonlat_ s) as [|p [|]] eqn:E; [done| |done]. simpl. unfold unflagged. simpl. by rewrite E.
Qed.

Lemma ResetRef_unflagged p (s : LinePlan D) :
  unflagged s -> unflagged (ResetRef p s) ∧ length (waypoints_ (ResetRef p s)) = 1%nat
                 ∧ next_waypoint_ (ResetRef p s) = 0.
Proof.
  intros H. unfold ResetRef. destruct (GPSLatLonScale _). by apply UpdateWaypoints_unflagged.
Qed.

Lemma UpdateWaypointInc_unflagged (s : LinePlan D) :
  unflagged s -> length (waypoints_ s) = 1%nat -> next_waypoint_ s = 0 -> UpdateWaypointInc s = Err PlanOutOfRange.
Proof.
  intros (Hl & Hr & Hg) Hw Hn. unfold UpdateWaypointInc. rewrite Hr, Hn, Hg, Hw. simpl.
  destruct (waypoints_ s) as [|[a b] [|]]; [done| |done]. done.
Qed.

(** A list of one waypoint sent to a new node with the repeat flag makes the next
    position message read a flag of an empty vector, for every such list and
    position. *)
Theorem repeated_single_waypoint_fails (y w : D) (p0 p1 p2 p3 pt : vec2 D) (r : option bool) (b : BoatState D)
    (verbose : bool) :
  plan_run uninit verbose [EvWaypoints (MkWaypointList [pt] r (Some true) (Some true)); EvBoatState b]
    (LinePlan_init y w p0 p1 p2 p3) = Err PlanOutOfRange.
Proof.
  cbn [plan_run plan_step rbind]. set (m := MkWaypointList _ _ _ _). set (s0 := LinePlan_init _ _ _ _ _ _).
  assert (unflagged (ReceiveWaypoints m s0) ∧ length (waypoints_ (ReceiveWaypoints m s0)) = 1%nat
          ∧ next_waypoint_ (ReceiveWaypoints m s0) = 0) as (Hu & Hw & Hn).
  { unfold ReceiveWaypoints. cbn [points m]. cbv zeta. apply UpdateWaypoints_unflagged.
    destruct (_ || _), (neqb _ _); try (apply ResetRef_unflagged); by split_and!. }
  unfold handle_boat_state_plan. cbv zeta. generalize dependent (ReceiveWaypoints m s0). intros s Hu Hw Hn.
  destruct (nltb _ _).
  - match goal with |- context [UpdateWaypointInc (ResetRef ?p ?t)] =>
      destruct (ResetRef_unflagged p t Hu) as (? & ? & ?) end.
    by rewrite UpdateWaypointInc_unflagged.
  - by rewrite UpdateWaypointInc_unflagged.
Qed.

(** ** Progress *)

End Progress.

(** Two waypoints 100 m apart, the boat 6 m from the first. *)
Definition two_waypoints : LinePlan float :=
  let s := @LinePlan_init _ num_poly 0%float 0%float (V2 6%float 0%float) (V2 0%float 0%float)
             (V2 9%float 0%float) (V2 0%float 0%float) in
  let s := @set_lonlat_scale_ float (V2 1%float 1%float) s in
  @UpdateWaypoints _ num_poly eigen_plain
    (set_waypoints_lonlat_ [V2 0%float 0%float; V2 100%float 0%float] s).


(** ** The frame in metres, in exact arithmetic *)

#[local] Open Scope R_scope.

Lemma scale_positive lat : Rabs lat < 90 -> 0 < (GPSLatLonScale lat).1 ∧ 0 < (GPSLatLonScale lat).2.
Proof.
  intros Hl. apply Rabs_def2 in Hl as [Hl1 Hl2]. pose proof PI2_3_2 as Hpi. unfold GPSLatLonScale, ToRad. simpl.
  assert (0 < cos (lat * PI / 180)) as Hc by (apply cos_gt_0; nra).
  set (c := cos (lat * PI / 180)) in *. unfold dec. simpl.
  assert (0 < 1 + 6739496756586882 / IZR (10 ^ 18) * (c * c)) as Hd.
  { assert (0 < 6739496756586882 / IZR (10 ^ 18)) by (apply Rdiv_lt_0_compat; [lra|apply (IZR_lt 0); lia]). nra. }
  pose proof (sqrt_lt_R0 _ Hd) as Hs. generalize dependent (R_sqrt.sqrt (1 + 6739496756586882 / IZR (10 ^ 18) * (c * c))).
  intros d Hs. split; apply Rdiv_lt_0_compat; try lra; repeat apply Rmult_lt_0_compat; lra.
Qed.

Section Frame.
Context {EG : Eigen R}.

(** C35: In exact arithmetic, after the reference is set anywhere but at the poles, the
    conversions between longitude and latitude and metres are inverse to each other,
    the reference is the origin, and the boat's position in metres is the image of its
    position in degrees. *)
Theorem frame_roundtrip (s : LinePlan R) (ref : vec2 R) :
  Rabs (vy ref) < 90 ->
  let s' := ResetRef ref s in
  (∀ p, FrameToLonLat s' (LonLatToFrame s' p) = p) ∧ (∀ q, LonLatToFrame s' (FrameToLonLat s' q) = q)
  ∧ LonLatToFrame s' ref = V2 0 0 ∧ boat_pos_ s' = LonLatToFrame s' (boat_pos_lonlat_ s').
Proof.
  intros Hlat s'. destruct (scale_positive (vy ref) Hlat) as [Hy Hx].
  assert (lonlat_ref_ s' = ref ∧ lonlat_scale_ s' = V2 (GPSLatLonScale (vy ref)).2 (GPSLatLonScale (vy ref)).1
          ∧ boat_pos_ s' = LonLatToFrame s' (boat_pos_lonlat_ s')) as (Er & Es & Eb).
  { unfold s', ResetRef. cbn [lonlat_ref_ set_lonlat_ref_]. destruct (GPSLatLonScale (vy ref)) as [ys xs].
    unfold UpdateWaypoints. match goal with |- context [map ?f ?l] => destruct (map f l) as [|q0 [|q1 rest]] end;
      [done|done|]. by destruct (inner_gates q0 q1 rest) as [[? ?] ?]. }
  split_and!; [..|exact Eb]; [intros [px py]|intros [px py]|]; unfold LonLatToFrame, FrameToLonLat, add2, sub2;
    rewrite Er, Es; generalize dependent (GPSLatLonScale (vy ref)); intros [ys xs] Hy Hx _; simpl in *;
    f_equal; field; lra.
Qed.
End Frame.

Lemma frame_roundtrip_witness :
  let s' := @ResetRef R num_R eigen_plain (V2 (-71) 42) (LinePlan_init 0 0 zero2 zero2 zero2 zero2) in
  FrameToLonLat s' (LonLatToFrame s' (V2 3 4)) = V2 3 4.
Proof.
  apply (@frame_roundtrip eigen_plain (LinePlan_init 0 0 zero2 zero2 zero2 zero2) (V2 (-71) 42)).
  simpl. rewrite Rabs_right; lra.
Defined.
