(* ===== verification/LineTacker.v ===== *)
(** * The line and reward tacker

    src/control/line_tacking.cc and .h: the older planner, a node that follows at most
    ten waypoints and tacks by keeping within a corridor or by a reward for each of
    four headings.  The arrays of the source are lists of ten elements; an index outside
    them, or a remainder by zero, is an error. *)

From Stdlib Require Import ZArith Lia Reals Lra Psatz.
From stdpp Require Import base list.
From S2P Require Import Prelude Num NumR Vec Util Polygon Messages.

#[local] Open Scope Z_scope.

Definition N_WAYPOINTS : Z := 10.

(** An unset field reads as zero. *)
Record TackerConstants (D : Type) := MkTackConsts {
  close_haul_angle : D;
  in_irons_cost : D;
  near_goal_cost : D;
  hysteresis_cost : D;
  diff_yaw_cost : D;
  momentum_cost : D;
  tacking_cost : D;
}.
Arguments MkTackConsts {D}.
Arguments close_haul_angle {D} _.
Arguments in_irons_cost {D} _.
Arguments near_goal_cost {D} _.
Arguments hysteresis_cost {D} _.
Arguments diff_yaw_cost {D} _.
Arguments momentum_cost {D} _.
Arguments tacking_cost {D} _.
Inductive TackOut (D : Type) :=
| OutTackConsts (c : TackerConstants D)
| OutTackHeading (m : HeadingCmd D)
| OutTackState (m : TackerState)
| OutTackWaypoints (m : WaypointList D).
Arguments OutTackConsts {D} _.
Arguments OutTackHeading {D} _.
Arguments OutTackState {D} _.
Arguments OutTackWaypoints {D} _.

(** The members, in the order of the class. *)
Record LineTacker (D : Type) := MkTack {
  tk_waypoints : list (vec2 D);
  tk_i : Z;
  tk_offset : Z;
  tk_way_len : Z;
  tk_recalc_zero : bool;
  tk_repeat : bool;
  tk_pos : vec2 D;
  tk_dist : D;
  tk_wind : D;
  tk_apparent : D;
  tk_theta : D;
  tk_speed : D;
  tk_yaw_rate : D;
  tk_mode : TACKER;
  tk_consts : TackerConstants D;
  tk_heading : HeadingCmd D;
  tk_state : TackerState;
  tk_out : list (TackOut D);
}.
Arguments MkTack {D}.
Arguments tk_waypoints {D} _.
Arguments tk_i {D} _.
Arguments tk_offset {D} _.
Arguments tk_way_len {D} _.
Arguments tk_recalc_zero {D} _.
Arguments tk_repeat {D} _.
Arguments tk_pos {D} _.
Arguments tk_dist {D} _.
Arguments tk_wind {D} _.
Arguments tk_apparent {D} _.
Arguments tk_theta {D} _.
Arguments tk_speed {D} _.
Arguments tk_yaw_rate {D} _.
Arguments tk_mode {D} _.
Arguments tk_consts {D} _.
Arguments tk_heading {D} _.
Arguments tk_state {D} _.
Arguments tk_out {D} _.
Definition set_tk_waypoints {D : Type} (v : list (vec2 D)) (s : LineTacker D) : LineTacker D := MkTack v (s.(tk_i)) (s.(tk_offset)) (s.(tk_way_len)) (s.(tk_recalc_zero)) (s.(tk_repeat)) (s.(tk_pos)) (s.(tk_dist)) (s.(tk_wind)) (s.(tk_apparent)) (s.(tk_theta)) (s.(tk_speed)) (s.(tk_yaw_rate)) (s.(tk_mode)) (s.(tk_consts)) (s.(tk_heading)) (s.(tk_state)) (s.(tk_out)).
Definition set_tk_i {D : Type} (v : Z) (s : LineTacker D) : LineTacker D := MkTack (s.(tk_waypoints)) v (s.(tk_offset)) (s.(tk_way_len)) (s.(tk_recalc_zero)) (s.(tk_repeat)) (s.(tk_pos)) (s.(tk_dist)) (s.(tk_wind)) (s.(tk_apparent)) (s.(tk_theta)) (s.(tk_speed)) (s.(tk_yaw_rate)) (s.(tk_mode)) (s.(tk_consts)) (s.(tk_heading)) (s.(tk_state)) (s.(tk_out)).
Definition set_tk_offset {D : Type} (v : Z) (s : LineTacker D) : LineTacker D := MkTack (s.(tk_waypoints)) (s.(tk_i)) v (s.(tk_way_len)) (s.(tk_recalc_zero)) (s.(tk_repeat)) (s.(tk_pos)) (s.(tk_dist)) (s.(tk_wind)) (s.(tk_apparent)) (s.(tk_theta)) (s.(tk_speed)) (s.(tk_yaw_rate)) (s.(tk_mode)) (s.(tk_consts)) (s.(tk_heading)) (s.(tk_state)) (s.(tk_out)).
Definition set_tk_way_len {D : Type} (v : Z) (s : LineTacker D) : LineTacker D := MkTack (s.(tk_waypoints)) (s.(tk_i)) (s.(tk_offset)) v (s.(tk_recalc_zero)) (s.(tk_repeat)) (s.(tk_pos)) (s.(tk_dist)) (s.(tk_wind)) (s.(tk_apparent)) (s.(tk_theta)) (s.(tk_speed)) (s.(tk_yaw_rate)) (s.(tk_mode)) (s.(tk_consts)) (s.(tk_heading)) (s.(tk_state)) (s.(tk_out)).
Definition set_tk_recalc_zero {D : Type} (v : bool) (s : LineTacker D) : LineTacker D := MkTack (s.(tk_waypoints)) (s.(tk_i)) (s.(tk_offset)) (s.(tk_way_len)) v (s.(tk_repeat)) (s.(tk_pos)) (s.(tk_dist)) (s.(tk_wind)) (s.(tk_apparent)) (s.(tk_theta)) (s.(tk_speed)) (s.(tk_yaw_rate)) (s.(tk_mode)) (s.(tk_consts)) (s.(tk_heading)) (s.(tk_state)) (s.(tk_out)).
Definition set_tk_repeat {D : Type} (v : bool) (s : LineTacker D) : LineTacker D := MkTack (s.(tk_waypoints)) (s.(tk_i)) (s.(tk_offset)) (s.(tk_way_len)) (s.(tk_recalc_zero)) v (s.(tk_pos)) (s.(tk_dist)) (s.(tk_wind)) (s.(tk_apparent)) (s.(tk_theta)) (s.(tk_speed)) (s.(tk_yaw_rate)) (s.(tk_mode)) (s.(tk_consts)) (s.(tk_heading)) (s.(tk_state)) (s.(tk_out)).
Definition set_tk_pos {D : Type} (v : vec2 D) (s : LineTacker D) : LineTacker D := MkTack (s.(tk_waypoints)) (s.(tk_i)) (s.(tk_offset)) (s.(tk_way_len)) (s.(tk_recalc_zero)) (s.(tk_repeat)) v (s.(tk_dist)) (s.(tk_wind)) (s.(tk_apparent)) (s.(tk_theta)) (s.(tk_speed)) (s.(tk_yaw_rate)) (s.(tk_mode)) (s.(tk_consts)) (s.(tk_heading)) (s.(tk_state)) (s.(tk_out)).
Definition set_tk_dist {D : Type} (v : D) (s : LineTacker D) : LineTacker D := MkTack (s.(tk_waypoints)) (s.(tk_i)) (s.(tk_offset)) (s.(tk_way_len)) (s.(tk_recalc_zero)) (s.(tk_repeat)) (s.(tk_pos)) v (s.(tk_wind)) (s.(tk_apparent)) (s.(tk_theta)) (s.(tk_speed)) (s.(tk_yaw_rate)) (s.(tk_mode)) (s.(tk_consts)) (s.(tk_heading)) (s.(tk_state)) (s.(tk_out)).
Definition set_tk_wind {D : Type} (v : D) (s : LineTacker D) : LineTacker D := MkTack (s.(tk_waypoints)) (s.(tk_i)) (s.(tk_offset)) (s.(tk_way_len)) (s.(tk_recalc_zero)) (s.(tk_repeat)) (s.(tk_pos)) (s.(tk_dist)) v (s.(tk_apparent)) (s.(tk_theta)) (s.(tk_speed)) (s.(tk_yaw_rate)) (s.(tk_mode)) (s.(tk_consts)) (s.(tk_heading)) (s.(tk_state)) (s.(tk_out)).
Definition set_tk_apparent {D : Type} (v : D) (s : LineTacker D) : LineTacker D := MkTack (s.(tk_waypoints)) (s.(tk_i)) (s.(tk_offset)) (s.(tk_way_len)) (s.(tk_recalc_zero)) (s.(tk_repeat)) (s.(tk_pos)) (s.(tk_dist)) (s.(tk_wind)) v (s.(tk_theta)) (s.(tk_speed)) (s.(tk_yaw_rate)) (s.(tk_mode)) (s.(tk_consts)) (s.(tk_heading)) (s.(tk_state)) (s.(tk_out)).
Definition set_tk_theta {D : Type} (v : D) (s : LineTacker D) : LineTacker D := MkTack (s.(tk_waypoints)) (s.(tk_i)) (s.(tk_offset)) (s.(tk_way_len)) (s.(tk_recalc_zero)) (s.(tk_repeat)) (s.(tk_pos)) (s.(tk_dist)) (s.(tk_wind)) (s.(tk_apparent)) v (s.(tk_speed)) (s.(tk_yaw_rate)) (s.(tk_mode)) (s.(tk_consts)) (s.(tk_heading)) (s.(tk_state)) (s.(tk_out)).
Definition set_tk_speed {D : Type} (v : D) (s : LineTacker D) : LineTacker D := MkTack (s.(tk_waypoints)) (s.(tk_i)) (s.(tk_offset)) (s.(tk_way_len)) (s.(tk_recalc_zero)) (s.(tk_repeat)) (s.(tk_pos)) (s.(tk_dist)) (s.(tk_wind)) (s.(tk_apparent)) (s.(tk_theta)) v (s.(tk_yaw_rate)) (s.(tk_mode)) (s.(tk_consts)) (s.(tk_heading)) (s.(tk_state)) (s.(tk_out)).
Definition set_tk_yaw_rate {D : Type} (v : D) (s : LineTacker D) : LineTacker D := MkTack (s.(tk_waypoints)) (s.(tk_i)) (s.(tk_offset)) (s.(tk_way_len)) (s.(tk_recalc_zero)) (s.(tk_repeat)) (s.(tk_pos)) (s.(tk_dist)) (s.(tk_wind)) (s.(tk_apparent)) (s.(tk_theta)) (s.(tk_speed)) v (s.(tk_mode)) (s.(tk_consts)) (s.(tk_heading)) (s.(tk_state)) (s.(tk_out)).
Definition set_tk_mode {D : Type} (v : TACKER) (s : LineTacker D) : LineTacker D := MkTack (s.(tk_waypoints)) (s.(tk_i)) (s.(tk_offset)) (s.(tk_way_len)) (s.(tk_recalc_zero)) (s.(tk_repeat)) (s.(tk_pos)) (s.(tk_dist)) (s.(tk_wind)) (s.(tk_apparent)) (s.(tk_theta)) (s.(tk_speed)) (s.(tk_yaw_rate)) v (s.(tk_consts)) (s.(tk_heading)) (s.(tk_state)) (s.(tk_out)).
Definition set_tk_consts {D : Type} (v : TackerConstants D) (s : LineTacker D) : LineTacker D := MkTack (s.(tk_waypoints)) (s.(tk_i)) (s.(tk_offset)) (s.(tk_way_len)) (s.(tk_recalc_zero)) (s.(tk_repeat)) (s.(tk_pos)) (s.(tk_dist)) (s.(tk_wind)) (s.(tk_apparent)) (s.(tk_theta)) (s.(tk_speed)) (s.(tk_yaw_rate)) (s.(tk_mode)) v (s.(tk_heading)) (s.(tk_state)) (s.(tk_out)).
Definition set_tk_heading {D : Type} (v : HeadingCmd D) (s : LineTacker D) : LineTacker D := MkTack (s.(tk_waypoints)) (s.(tk_i)) (s.(tk_offset)) (s.(tk_way_len)) (s.(tk_recalc_zero)) (s.(tk_repeat)) (s.(tk_pos)) (s.(tk_dist)) (s.(tk_wind)) (s.(tk_apparent)) (s.(tk_theta)) (s.(tk_speed)) (s.(tk_yaw_rate)) (s.(tk_mode)) (s.(tk_consts)) v (s.(tk_state)) (s.(tk_out)).
Definition set_tk_state {D : Type} (v : TackerState) (s : LineTacker D) : LineTacker D := MkTack (s.(tk_waypoints)) (s.(tk_i)) (s.(tk_offset)) (s.(tk_way_len)) (s.(tk_recalc_zero)) (s.(tk_repeat)) (s.(tk_pos)) (s.(tk_dist)) (s.(tk_wind)) (s.(tk_apparent)) (s.(tk_theta)) (s.(tk_speed)) (s.(tk_yaw_rate)) (s.(tk_mode)) (s.(tk_consts)) (s.(tk_heading)) v (s.(tk_out)).
Definition set_tk_out {D : Type} (v : list (TackOut D)) (s : LineTacker D) : LineTacker D := MkTack (s.(tk_waypoints)) (s.(tk_i)) (s.(tk_offset)) (s.(tk_way_len)) (s.(tk_recalc_zero)) (s.(tk_repeat)) (s.(tk_pos)) (s.(tk_dist)) (s.(tk_wind)) (s.(tk_apparent)) (s.(tk_theta)) (s.(tk_speed)) (s.(tk_yaw_rate)) (s.(tk_mode)) (s.(tk_consts)) (s.(tk_heading)) (s.(tk_state)) v.

Inductive TackErr := TackOutOfRange | TackDivByZero.

Section Node.
Context {D : Type} {ND : Num D} {EG : Eigen D}.
Abbreviation Point := (vec2 D).
#[local] Open Scope num_scope.
#[local] Open Scope result_scope.
#[local] Notation "s |> f" := (f s) (at level 50, left associativity, only parsing).

Definition tack_send (o : TackOut D) (s : LineTacker D) : LineTacker D := set_tk_out (tk_out s ++ [o]) s.

(** An element of an array, and a remainder, as the language has them. *)
Definition tk_at {A : Type} (l : list A) (i : Z) : result TackErr A :=
  if (i <? 0)%Z then Err TackOutOfRange else of_option TackOutOfRange (l !! Z.to_nat i).
Definition tk_rem (a b : Z) : result TackErr Z := if (b =? 0)%Z then Err TackDivByZero else Ok (Z.rem a b).

Definition kWindTol : D := nfloat (dec 1 1).
Definition bounds_ : list D := repeat #20 10.
Definition waypoint_moe_ : list D := [#10; #10; #10; #50; #10; #10; #10; #10; #10; #10].

Definition default_tack_consts : TackerConstants D :=
  MkTackConsts (nfloat (dec 9 1)) #3 #3 (nfloat (dec 13 1)) #1 #1 #0.

(** ** Handlers *)

Definition handle_tacker_consts (c : TackerConstants D) (s : LineTacker D) : LineTacker D := s |> set_tk_consts c.

Definition handle_tack_true_wind (w : vec3 D) (s : LineTacker D) : LineTacker D :=
  s |> set_tk_wind (nfloat (natan2 (v3y w) (v3x w))).
Definition handle_tack_wind (w : vec3 D) (s : LineTacker D) : LineTacker D :=
  s |> set_tk_apparent (nfloat (natan2 (v3y w) (v3x w))).

Definition handle_tack_boat_state (m : BoatState D) (s : LineTacker D) : LineTacker D :=
  let vx := v3x (vel m) in
  let vy := v3y (vel m) in
  s |> set_tk_theta (v3z (euler m))
    |> set_tk_speed (nfloat (nsqrt (faddf (fmulf vx vx) (fmulf vy vy))))
    |> set_tk_speed #10
    |> set_tk_pos (V2 (v3x (pos m)) (v3y (pos m)))
    |> set_tk_yaw_rate (nfloat (norm_angle (v3z (omega m)))).

Definition handle_tacker_mode (m : ControlMode) (s : LineTacker D) : LineTacker D :=
  match tacker m with Some t => s |> set_tk_mode t | None => s end.

(** The copying loop: point [i + starti] to element [i + offset], for [i < cnt]. *)
Fixpoint copy_points (n : nat) (i offset starti : Z) (pts way : list Point) : result TackErr (list Point) :=
  match n with
  | O => Ok way
  | S n =>
      let* p := tk_at pts (i + starti)%Z in
      let* _ := tk_at way (i + offset)%Z in
      copy_points n (i + 1)%Z offset starti pts (<[Z.to_nat (i + offset) := p]> way)
  end.

Definition ProcessWaypoints (m : WaypointList D) (s : LineTacker D) : result TackErr (LineTacker D) :=
  let starti := if default true (restart m) then 0%Z else (tk_offset s + tk_i s)%Z in
  let recalc := negb (default true (defined_start m)) in
  let offset := if recalc then 1%Z else 0%Z in
  let cnt := Z.min (Z.of_nat (length (points m)) - starti) (N_WAYPOINTS - offset) in
  let* way := copy_points (Z.to_nat cnt) 0 offset starti (points m) (tk_waypoints s) in
  Ok (s |> set_tk_recalc_zero recalc |> set_tk_repeat (default false (repeat_ m)) |> set_tk_waypoints way
        |> set_tk_i 0 |> set_tk_offset starti |> set_tk_way_len (cnt + offset)%Z).

(** The contents of the file, when it can be read and parsed. *)
Definition ReadWaypointsFromFile (file : option (WaypointList D)) (s : LineTacker D) : result TackErr (LineTacker D) :=
  match file with
  | Some m => ProcessWaypoints m (tack_send (OutTackWaypoints m) s)
  | None => Ok s
  end.

(** The members without an initialiser are arguments. *)
Definition LineTacker_init (way : list Point) (dist apparent speed rate : D) : LineTacker D :=
  MkTack way 0 0 0 false false (V2 #0 #0) dist #0 apparent #0 speed rate TACKER_NONE
    (MkTackConsts #0 #0 #0 #0 #0 #0 #0) HeadingCmd_clear (MkTackerState false 0 false) [].

Definition LineTacker_new (file : option (WaypointList D)) (way : list Point) (dist apparent speed rate : D)
  : result TackErr (LineTacker D) :=
  let* s := ReadWaypointsFromFile file (LineTacker_init way dist apparent speed rate) in
  let s := s |> set_tk_consts default_tack_consts in
  Ok (tack_send (OutTackConsts (tk_consts s)) s).

(** ** Rewards *)

Definition upwind_of (s : LineTacker D) : D := nfloat (norm_angle (tk_wind s - npi)).

Definition InIronsReward (s : LineTacker D) (heading : D) : D :=
  let upwind := upwind_of s in
  let abswdiff := nfloat (nabs (norm_angle (fsubf heading upwind))) in
  nfloat (nmin (fmulf abswdiff #2 / npi) #1).

Definition DesirabilityReward (s : LineTacker D) (heading nominal_heading : D) : D :=
  let normdiff := nfloat (norm_angle (fsubf heading nominal_heading) / npi) in
  nfloat (fsubf #1 (fmulf normdiff normdiff) * nmax (nmin (tk_dist s / #20) #3) (dec 33 2)).

Definition MomentumReward (s : LineTacker D) (heading : D) : D :=
  let diff := nfloat (norm_angle (fsubf heading (tk_theta s)) / npi) in
  let diff2 := fmulf diff diff in
  let norm_yaw_rate := nfloat (tk_yaw_rate s / npi * (if #0 <? diff then #1 else - #1)) in
  fmulf (fsubf #1 diff2) norm_yaw_rate.

Definition CostToGoReward (s : LineTacker D) (heading : D) : D :=
  let diff := nfloat (norm_angle (fsubf heading (tk_theta s)) / npi) in
  let diff2 := fmulf diff diff in
  fsubf #1 diff2.

Definition RequiresTackingReward (s : LineTacker D) (heading : D) : D :=
  let diff := nfloat (norm_angle (fsubf heading (tk_theta s))) in
  let wdiff := nfloat (norm_angle (fsubf (tk_theta s) (tk_wind s) + npi)) in
  let b := faddf wdiff diff in
  nabs (faddf (fsubf (fsubf b wdiff) (nfloat (nsin b))) (nfloat (nsin wdiff))).

Definition IndecisionReward (s : LineTacker D) (h : D) : D :=
  let diff := nfloat (norm_angle (fsubf h (get (heading (tk_heading s)))) / npi) in
  let diff2 := fmulf diff diff in
  fsubf #1 diff2.

Definition IsValidHeading (s : LineTacker D) (heading : D) : bool :=
  negb (nabs (norm_angle (fsubf heading (tk_wind s) + npi)) <? npi / #4).

Definition heading_reward (s : LineTacker D) (nominal h : D) : D :=
  let c := tk_consts s in
  faddf (faddf (faddf (faddf (faddf (fmulf (in_irons_cost c) (InIronsReward s h))
    (fmulf (near_goal_cost c) (DesirabilityReward s h nominal)))
    (fmulf (hysteresis_cost c) (IndecisionReward s h)))
    (fmulf (diff_yaw_cost c) (CostToGoReward s h)))
    (fmulf (momentum_cost c) (MomentumReward s h)))
    (fmulf (tacking_cost c) (RequiresTackingReward s h)).

(** The loop over the candidates: the largest reward so far and its heading. *)
Definition best_heading (s : LineTacker D) (nominal : D) (candidates : list D) : D * D :=
  fold_left (λ best h,
    let reward := heading_reward s nominal h in
    if IsValidHeading s h && (best.1 <? reward) then (reward, h) else best) candidates (#0, nominal).

(** ** The goal heading *)

Definition DistanceFromLine (start end_ loc : Point) : D :=
  if nabs (vy end_ - vy start) <? dec 1 3 then nfloat ((vy start + vy end_) / #2 - vy loc)
  else if nabs (vx end_ - vx start) <? dec 1 3 then nfloat ((vx start + vx end_) / #2 - vx loc)
  else
    let perp_slope := nfloat (- (vx end_ - vx start) / (vy end_ - vy start)) in
    let perp_intercept := nfloat (vy loc - perp_slope * vx loc) in
    let orig_slope := fdivf (- #1) perp_slope in
    let orig_intercept := nfloat (vy end_ - orig_slope * vx end_) in
    let x := fdivf (fsubf perp_intercept orig_intercept) (fsubf orig_slope perp_slope) in
    let y := faddf (fmulf perp_slope x) perp_intercept in
    let dx := nfloat (x - vx loc) in
    let dy := nfloat (y - vy loc) in
    let dist := nfloat (nsqrt (faddf (fmulf dx dx) (fmulf dy dy))) in
    fmulf dist (if #0 <? dx then #1 else - #1).

Definition ApparentWind (s : LineTacker D) : D := nfloat (norm_angle (tk_apparent s)).

(** The close-hauled heading of the corridor tacker, given its distance test. *)
Definition closehaul_choice (s : LineTacker D) (outside : bool) (nominal min_closehaul max_closehaul : D) : D :=
  if outside then
    if #0 <? norm_angle (fsubf (tk_wind s) nominal) then max_closehaul else min_closehaul
  else if nabs (ApparentWind s) <? npi / #2 then
    if ApparentWind s <? #0 then min_closehaul else max_closehaul
  else
    let diff_min_close := nfloat (nabs (norm_angle (fsubf min_closehaul (tk_theta s)))) in
    let diff_max_close := nfloat (nabs (norm_angle (fsubf max_closehaul (tk_theta s)))) in
    if diff_min_close <? diff_max_close then min_closehaul else max_closehaul.

(** The heading for the tacking mode. *)
Definition tack_heading (s : LineTacker D) (start end_ : Point) (avgscale nominal : D) : result TackErr D :=
  let upwind := upwind_of s in
  let min_closehaul := nfloat (norm_angle (fsubf upwind (close_haul_angle (tk_consts s)))) in
  let max_closehaul := nfloat (norm_angle (faddf upwind (close_haul_angle (tk_consts s)))) in
  let goal_wind_diff := nfloat (norm_angle (fsubf nominal upwind)) in
  match tk_mode s with
  | REWARD =>
      Ok (best_heading s nominal [nominal; get (heading (tk_heading s)); min_closehaul; max_closehaul]).2
  | LINE =>
      if faddf (close_haul_angle (tk_consts s)) kWindTol <? nabs goal_wind_diff then Ok nominal
      else
        let dist_to_line := nfloat (DistanceFromLine start end_ (tk_pos s) * avgscale) in
        let* bound := tk_at bounds_ (tk_i s) in
        Ok (closehaul_choice s (bound <=? nabs dist_to_line) nominal min_closehaul max_closehaul)
  | _ => Ok nominal
  end.

(** Progress along the waypoints, when [close] to the next one: [(done, i_)]. *)
Definition tack_progress (s : LineTacker D) (close : bool) : result TackErr (bool * Z) :=
  if close then
    if (tk_i s <? tk_way_len s - 2)%Z then Ok (false, (tk_i s + 1)%Z)
    else if tk_repeat s then let* j := tk_rem (tk_i s + 1) (tk_way_len s) in Ok (true, j)
    else Ok (true, tk_i s)
  else Ok (false, tk_i s).

Definition GoalHeading (s : LineTacker D) : result TackErr (D * LineTacker D) :=
  let s := if tk_recalc_zero s then s |> set_tk_waypoints (<[0%nat := tk_pos s]> (tk_waypoints s)) else s in
  let* start := tk_at (tk_waypoints s) (tk_i s) in
  let* j := tk_rem (tk_i s + 1) (tk_way_len s) in
  let* end_ := tk_at (tk_waypoints s) j in
  let dy := nfloat (vy end_ - vy (tk_pos s)) in
  let dx := nfloat (vx end_ - vx (tk_pos s)) in
  let nominal_heading := nfloat (natan2 dy dx) in
  let dist := nfloat (nsqrt (faddf (fmulf dy dy) (fmulf dx dx))) in
  let '(latscale, lonscale) := GPSLatLonScale (vy (tk_pos s)) in
  let avgscale := (latscale + lonscale) * dec 5 1 in
  let s := s |> set_tk_dist (nfloat (dist * avgscale)) in
  let* moe := tk_at waypoint_moe_ j in
  let* (done, i) := tack_progress s (dist <? moe / avgscale) in
  let s := s |> set_tk_i i |> set_tk_state (MkTackerState done i (near_waypoint (tk_state s))) in
  let s := tack_send (OutTackState (tk_state s)) s in
  let* h := tack_heading s start end_ avgscale nominal_heading in
  Ok (h, s).

Definition LineTacker_Iterate (s : LineTacker D) : result TackErr (LineTacker D) :=
  if (tk_way_len s =? 0)%Z then Ok s
  else match tk_mode s with
       | DISABLED => Ok s
       | _ =>
           let* (gh, s) := GoalHeading s in
           let s := s |> set_tk_heading (set_extra_sail (Some #0) (set_heading (Some gh) (tk_heading s))) in
           let s := match tk_mode s with
                    | LINE | REWARD | TACKER_NONE => tack_send (OutTackHeading (tk_heading s)) s
                    | _ => s
                    end in
           Ok (tack_send (OutTackConsts (tk_consts s)) s)
       end.

(** ** Events *)

(** The handlers and the iteration one after the other; TackerThreads has their interleavings. *)
Inductive TackEvent :=
| EvTackConsts (c : TackerConstants D)
| EvTackTrueWind (w : vec3 D)
| EvTackWind (w : vec3 D)
| EvTackBoatState (m : BoatState D)
| EvTackControlMode (m : ControlMode)
| EvTackWaypoints (m : WaypointList D)
| EvTackIterate.

Definition tack_step (e : TackEvent) (s : LineTacker D) : result TackErr (LineTacker D) :=
  match e with
  | EvTackConsts c => Ok (handle_tacker_consts c s)
  | EvTackTrueWind w => Ok (handle_tack_true_wind w s)
  | EvTackWind w => Ok (handle_tack_wind w s)
  | EvTackBoatState m => Ok (handle_tack_boat_state m s)
  | EvTackControlMode m => Ok (handle_tacker_mode m s)
  | EvTackWaypoints m => ProcessWaypoints m s
  | EvTackIterate => LineTacker_Iterate s
  end.

Fixpoint tack_run (es : list TackEvent) (s : LineTacker D) : result TackErr (LineTacker D) :=
  match es with
  | [] => Ok s
  | e :: es => let* s := tack_step e s in tack_run es s
  end.
End Node.
Arguments TackEvent : clear implicits.

(** ** No access out of range *)

Section Safe.
Context {D : Type} {ND : Num D} {EG : Eigen D}.
#[local] Notation "s |> f" := (f s) (at level 50, left associativity, only parsing).

(** The indices stay within the arrays. *)
Record tack_ok (s : LineTacker D) : Prop := {
  tok_len : length (tk_waypoints s) = 10%nat;
  tok_way : 0 <= tk_way_len s <= 10;
  tok_i : 0 <= tk_i s < Z.max 1 (tk_way_len s);
}.

Lemma tk_at_ok {A} (l : list A) i : 0 <= i < Z.of_nat (length l) -> ∃ x, tk_at l i = Ok x.
Proof.
  intros H. unfold tk_at. destruct (Z.ltb_spec i 0); [lia|].
  destruct (lookup_lt_is_Some_2 l (Z.to_nat i)) as [x ->]; [lia|]. by exists x.
Qed.

Lemma copy_points_ok n i offset starti (pts way : list (vec2 D)) :
  0 <= i -> 0 <= offset -> 0 <= starti ->
  i + starti + Z.of_nat n <= Z.of_nat (length pts) -> i + offset + Z.of_nat n <= Z.of_nat (length way) ->
  ∃ way', copy_points n i offset starti pts way = Ok way' ∧ length way' = length way.
Proof.
  revert i way. induction n as [|n IH]; intros i way Hi Ho Hs Hp Hw; cbn [copy_points]; [by exists way|].
  destruct (tk_at_ok pts (i + starti)) as [p ->]; [lia|].
  destruct (tk_at_ok way (i + offset)) as [q ->]; [lia|]. cbn [rbind].
  destruct (IH (i + 1) (<[Z.to_nat (i + offset) := p]> way)) as (way' & -> & Hl);
    rewrite ?length_insert in *; [lia..|]. by exists way'.
Qed.

Lemma ProcessWaypoints_ok m (s : LineTacker D) :
  tack_ok s -> default true (restart m) = true -> ∃ s', ProcessWaypoints m s = Ok s' ∧ tack_ok s'.
Proof.
  intros [Hl Hw Hi] Hr. unfold ProcessWaypoints. rewrite Hr. cbv zeta.
  set (offset := if negb (default true (defined_start m)) then 1 else 0).
  assert (0 <= offset <= 1) as Ho by (unfold offset; destruct (negb _); lia).
  set (cnt := Z.min _ _). assert (0 <= cnt <= 10 - offset) as Hc by (unfold cnt, N_WAYPOINTS; lia).
  destruct (copy_points_ok (Z.to_nat cnt) 0 offset 0 (points m) (tk_waypoints s)) as (way' & -> & Hlen); try lia.
  cbn [rbind]. eexists. split; [done|]. constructor; simpl; lia.
Qed.

(** The index after a step of progress is still within the waypoints. *)
Lemma tack_progress_ok (s : LineTacker D) close :
  tack_ok s -> tk_way_len s ≠ 0 ->
  ∃ d i, tack_progress s close = Ok (d, i) ∧ 0 <= i < Z.max 1 (tk_way_len s).
Proof.
  intros [Hl Hw Hi] Hne. unfold tack_progress, tk_rem.
  destruct close; [|by eexists _, _]. destruct (Z.ltb_spec (tk_i s) (tk_way_len s - 2)).
  { eexists _, _. split; [done|lia]. }
  destruct (tk_repeat s); [|by eexists _, _].
  destruct (Z.eqb_spec (tk_way_len s) 0); [done|]. cbn [rbind]. eexists _, _. split; [done|].
  pose proof (Z.rem_bound_pos (tk_i s + 1) (tk_way_len s)). lia.
Qed.

Lemma tack_heading_ok (s : LineTacker D) st en sc nom : 0 <= tk_i s < 10 -> ∃ h, tack_heading s st en sc nom = Ok h.
Proof.
  intros Hi. unfold tack_heading. cbv zeta. destruct (tk_mode s); try by eexists.
  destruct (nltb _ _); [by eexists|]. destruct (tk_at_ok (bounds_ (D := D)) (tk_i s)) as [b ->]; [simpl; lia|].
  by eexists.
Qed.

Lemma GoalHeading_safe (s : LineTacker D) :
  tack_ok s -> tk_way_len s ≠ 0 -> ∃ h s', GoalHeading s = Ok (h, s') ∧ tack_ok s'.
Proof.
  intros Hok Hne. unfold GoalHeading. cbv zeta.
  set (s1 := if tk_recalc_zero s then _ else s).
  assert (tack_ok s1 ∧ tk_way_len s1 = tk_way_len s) as [Hok1 Ew].
  { unfold s1. destruct (tk_recalc_zero s); [|done]. destruct Hok. split; [|done].
    constructor; simpl; [by rewrite length_insert|done|done]. }
  rewrite <- Ew in Hne. clearbody s1. clear Hok Ew s. rename s1 into s. pose proof Hok1 as [Hl Hw Hi].
  destruct (tk_at_ok (tk_waypoints s) (tk_i s)) as [st ->]; [lia|]. cbn [rbind].
  unfold tk_rem at 1. destruct (Z.eqb_spec (tk_way_len s) 0); [done|]. cbn [rbind].
  pose proof (Z.rem_bound_pos (tk_i s + 1) (tk_way_len s)) as Hj. set (j := Z.rem _ _) in *.
  destruct (tk_at_ok (tk_waypoints s) j) as [en ->]; [lia|]. cbn [rbind].
  destruct (GPSLatLonScale _) as [la lo].
  destruct (tk_at_ok (waypoint_moe_ (D := D)) j) as [moe ->]; [simpl; lia|]. cbn [rbind].
  match goal with |- context [tack_progress ?t ?c] =>
    destruct (tack_progress_ok t c) as (d & i & -> & Hi'); [by constructor|done|] end.
  cbn [rbind].
  match goal with |- context [tack_heading ?t ?a ?b ?c ?e] =>
    destruct (tack_heading_ok t a b c e) as [h ->]; [simpl in *; lia|] end.
  cbn [rbind]. eexists _, _. split; [done|]. by constructor.
Qed.

Lemma LineTacker_Iterate_ok (s : LineTacker D) : tack_ok s -> ∃ s', LineTacker_Iterate s = Ok s' ∧ tack_ok s'.
Proof.
  intros Hok. unfold LineTacker_Iterate. destruct (Z.eqb_spec (tk_way_len s) 0); [by exists s|].
  destruct (GoalHeading_safe s Hok) as (h & s1 & E & [? ? ?]); [done|].
  destruct (tk_mode s); rewrite ?E; cbn [rbind]; try (by exists s); eexists; (split; [done|]);
    destruct (tk_mode _); by constructor.
Qed.

Definition tack_event_ok (e : TackEvent D) : Prop :=
  match e with EvTackWaypoints m => default true (restart m) = true | _ => True end.

Lemma tack_step_ok e (s : LineTacker D) : tack_ok s -> tack_event_ok e -> ∃ s', tack_step e s = Ok s' ∧ tack_ok s'.
Proof.
  intros Hok He. pose proof Hok as [? ? ?]. destruct e as [c|w|w|m|m|m|]; cbn [tack_step].
  1-4: eexists; (split; [done|]); by constructor.
  - eexists. split; [done|]. unfold handle_tacker_mode. destruct (tacker m); by constructor.
  - by apply ProcessWaypoints_ok.
  - by apply LineTacker_Iterate_ok.
Qed.

Lemma tack_run_ok es (s : LineTacker D) :
  tack_ok s -> Forall tack_event_ok es -> ∃ s', tack_run es s = Ok s' ∧ tack_ok s'.
Proof.
  intros Hok Hes. revert s Hok. induction Hes as [|e es He Hes IH]; intros s Hok; cbn [tack_run]; [by exists s|].
  destruct (tack_step_ok e s Hok He) as (s1 & -> & H1). cbn [rbind]. by apply IH.
Qed.

Lemma LineTacker_new_ok (file : option (WaypointList D)) (way : list (vec2 D)) (dist apparent speed rate : D) :
  length way = 10%nat -> (∀ m, file = Some m -> default true (restart m) = true) ->
  ∃ s, LineTacker_new file way dist apparent speed rate = Ok s ∧ tack_ok s.
Proof.
  intros Hl Hf. unfold LineTacker_new. set (s0 := LineTacker_init _ _ _ _ _).
  assert (tack_ok s0) as H0 by (constructor; simpl; lia).
  assert (∃ s1, ReadWaypointsFromFile file s0 = Ok s1 ∧ tack_ok s1) as (s1 & -> & H1).
  { destruct file as [m|]; simpl; [|by exists s0]. apply ProcessWaypoints_ok; [by destruct H0|by apply Hf]. }
  cbn [rbind]. eexists. split; [done|]. by destruct H1.
Qed.
End Safe.

(** A list of waypoints that does not restart the course and is shorter than the progress
    made leaves a negative number of waypoints, which the guard of [Iterate] against
    an empty course lets through. *)
Theorem short_course_negative_length {D} {ND : Num D} (s : LineTacker D) (m : WaypointList D) :
  restart m = Some false -> default true (defined_start m) = true ->
  Z.of_nat (length (points m)) < tk_offset s + tk_i s ->
  ∃ s', ProcessWaypoints m s = Ok s' ∧ tk_way_len s' < 0 ∧ tk_waypoints s' = tk_waypoints s.
Proof.
  intros Hr Hd Hl. unfold ProcessWaypoints. rewrite Hr, Hd. cbn [from_option negb id]. cbv zeta.
  match goal with |- context [copy_points (Z.to_nat ?c)] =>
    replace (Z.to_nat c) with 0%nat by (unfold N_WAYPOINTS; simpl; lia) end.
  cbn [copy_points rbind]. eexists. split; [done|]. simpl. unfold N_WAYPOINTS. split; [lia|done].
Qed.

Lemma short_course_witness :
  let s := @set_tk_offset R 3 (@LineTacker_init R num_R [] 0 0 0 0)%R in
  ∃ s', ProcessWaypoints (MkWaypointList [V2 0 0]%R (Some false) None None) s = Ok s' ∧ tk_way_len s' < 0.
Proof.
  destruct (@short_course_negative_length R num_R (@set_tk_offset R 3 (@LineTacker_init R num_R [] 0 0 0 0)%R)
    (MkWaypointList [V2 0 0]%R (Some false) None None)) as (s' & E & H & _); try reflexivity.
  exists s'. auto.
Defined.

(** ** The reward tacker *)

Section Reward.
Context {D : Type} {ND : Num D} {NO : NumOrder D}.

Lemma best_heading_snoc (s : LineTacker D) nominal l h :
  best_heading s nominal (l ++ [h]) =
  let best := best_heading s nominal l in
  if IsValidHeading s h && nltb best.1 (heading_reward s nominal h) then (heading_reward s nominal h, h) else best.
Proof. unfold best_heading. by rewrite fold_left_app. Qed.

(** Of any list of candidates the reward tacker chooses a valid heading whose reward no
    other valid candidate exceeds and that is positive, or the nominal heading when no
    valid candidate has a positive reward; it holds in binary64, also with NaNs. *)
Theorem reward_choice_optimal (s : LineTacker D) (nominal : D) (candidates : list D) :
  let '(best, h) := best_heading s nominal candidates in
  (∀ c, c ∈ candidates -> IsValidHeading s c = true -> nltb best (heading_reward s nominal c) = false)
  ∧ (best = nofZ 0 ∧ h = nominal
     ∨ h ∈ candidates ∧ IsValidHeading s h = true ∧ best = heading_reward s nominal h ∧ nltb (nofZ 0) best = true).
Proof.
  induction candidates as [|c l IH] using rev_ind.
  { split; [by intros c Hc%elem_of_nil|by left]. }
  rewrite best_heading_snoc. destruct (best_heading s nominal l) as [best h]. cbv zeta. cbn [fst].
  destruct IH as [Hmax Hb]. destruct (IsValidHeading s c && _) eqn:E.
  - apply andb_true_iff in E as [Hv Hlt]. split.
    + intros c' Hc' Hv'. apply elem_of_app in Hc' as [Hc'|Hc'].
      * specialize (Hmax c' Hc' Hv'). destruct (nltb (heading_reward s nominal c) _) eqn:E'; [|done].
        by rewrite (nltb_trans _ _ _ Hlt E') in Hmax.
      * apply list_elem_of_singleton in Hc' as ->. apply nltb_irrefl.
    + right. split_and!; [apply elem_of_app; right; left|done|done|].
      destruct Hb as [[-> _]|(_ & _ & _ & H0)]; [done|by eapply nltb_trans].
  - split.
    + intros c' Hc' Hv'. apply elem_of_app in Hc' as [Hc'|Hc']; [by apply Hmax|].
      apply list_elem_of_singleton in Hc' as ->. by rewrite Hv' in E.
    + destruct Hb as [Hb|(Hin & Hb)]; [by left|right]. split; [apply elem_of_app; by left|done].
Qed.
End Reward.

(** ** The corridor tacker, in exact arithmetic *)

#[local] Open Scope R_scope.

Lemma upwind_of_R (s : LineTacker R) : Rabs (tk_wind s) <= 1000 -> - PI <= upwind_of s <= PI.
Proof.
  intros Hw. pose proof PI_4. pose proof PI_RGT_0. apply Rabs_bounds in Hw. unfold upwind_of. simpl.
  apply norm_angle_spec. apply Rabs_le. lra.
Qed.

(** A close-hauled heading is exactly the close-haul angle off the wind. *)
Lemma closehaul_angle u c h :
  - PI <= u <= PI -> 0 <= c <= PI -> h = norm_angle (u - c) ∨ h = norm_angle (u + c) -> Rabs (norm_angle (h - u)) = c.
Proof.
  intros Hu Hc Hh. pose proof PI_4. pose proof PI_RGT_0.
  assert (- PI <= h <= PI ∧ ∃ k, h - u = c + IZR k * (2 * PI) ∨ h - u = - c + IZR k * (2 * PI)) as (Hb & k & E).
  { destruct Hh as [->| ->].
    - destruct (norm_angle_spec (u - c)) as (Hb & k & E); [apply Rabs_le; lra|]. split; [done|].
      exists (- k)%Z. rewrite opp_IZR. right. rewrite E. lra.
    - destruct (norm_angle_spec (u + c)) as (Hb & k & E); [apply Rabs_le; lra|]. split; [done|].
      exists (- k)%Z. rewrite opp_IZR. left. rewrite E. lra. }
  apply norm_angle_congr with k; [apply Rabs_le; lra|done|done].
Qed.

Lemma tack_heading_line (s : LineTacker R) start end_ scale nominal h :
  tk_mode s = LINE -> Rabs (tk_wind s) <= 1000 -> 0 <= close_haul_angle (tk_consts s) <= PI ->
  tack_heading s start end_ scale nominal = Ok h ->
  close_haul_angle (tk_consts s) <= Rabs (norm_angle (h - upwind_of s)).
Proof.
  intros Hm Hw Hc. unfold tack_heading. rewrite Hm. cbv zeta. pose proof (upwind_of_R s Hw) as Hu.
  destruct (nltb _ _) eqn:E.
  - intros [= <-]. revert E. unfold faddf, fsubf, kWindTol, dec. simpl. change (IZR (10 ^ 1)) with 10.
    case_R; [intros _; lra|done].
  - destruct (tk_at bounds_ (tk_i s)); [|done]. cbn [rbind]. intros [= <-].
    rewrite (closehaul_angle (upwind_of s) (close_haul_angle (tk_consts s))); [lra|done|done|].
    unfold closehaul_choice. repeat match goal with |- context [if ?b then _ else _] => destruct b end; auto.
Qed.

(** C29: In exact arithmetic the corridor tacker never commands a heading closer to the wind
    than the close-haul angle, wherever the boat and the waypoints are; it holds of every
    iteration that sends a heading. *)
Theorem line_mode_keeps_off_wind (s s' : LineTacker R) :
  tk_mode s = LINE -> tk_way_len s ≠ 0%Z -> Rabs (tk_wind s) <= 1000 ->
  0 <= close_haul_angle (tk_consts s) <= PI ->
  LineTacker_Iterate s = Ok s' ->
  ∃ h m, heading m = Some h ∧ OutTackHeading m ∈ tk_out s'
         ∧ close_haul_angle (tk_consts s) <= Rabs (norm_angle (h - upwind_of s)).
Proof.
  intros Hm Hl Hw Hc. unfold LineTacker_Iterate. destruct (Z.eqb_spec (tk_way_len s) 0); [done|]. rewrite Hm.
  destruct (GoalHeading s) as [[h s1]|] eqn:E; [|done]. cbn [rbind]. intros [= <-].
  assert (tk_mode s1 = LINE ∧ close_haul_angle (tk_consts s) <= Rabs (norm_angle (h - upwind_of s))) as [Hm1 Hh].
  { revert E. unfold GoalHeading. cbv zeta. set (s0 := if tk_recalc_zero s then _ else s).
    assert (tk_mode s0 = tk_mode s ∧ tk_wind s0 = tk_wind s ∧ tk_consts s0 = tk_consts s) as (Em & Ew & Ec)
      by (unfold s0; by destruct (tk_recalc_zero s)).
    clearbody s0. destruct (tk_at (tk_waypoints s0) (tk_i s0)) as [st|]; [|done]. cbn [rbind].
    destruct (tk_rem _ _) as [j|]; [|done]. cbn [rbind].
    destruct (tk_at (tk_waypoints s0) j) as [en|]; [|done]. cbn [rbind]. destruct (GPSLatLonScale _) as [la lo].
    destruct (tk_at waypoint_moe_ j) as [moe|]; [|done]. cbn [rbind].
    destruct (tack_progress _ _) as [[d i]|]; [|done]. cbn [rbind].
    destruct (tack_heading _ _ _ _ _) as [h'|] eqn:Eh; [|done]. cbn [rbind]. intros [= <- <-]. split; [simpl; congruence|].
    apply tack_heading_line in Eh; simpl in *; rewrite ?Em, ?Ew, ?Ec in *; done. }
  exists h, (set_extra_sail (Some 0) (set_heading (Some h) (tk_heading s1))). simpl. rewrite Hm1.
  split_and!; [done| |done]. simpl. rewrite <- app_assoc. apply elem_of_app. right. left.
Qed.

(** The start of a corridor: the boat on the first of two waypoints to windward. *)
Definition corridor_start : LineTacker R :=
  MkTack (repeat (V2 0 0) 10) 0 0 2 false false (V2 5 5) 0 0 0 0 0 0 LINE
    (MkTackConsts (9 / 10) 0 0 0 0 0 0) HeadingCmd_clear (MkTackerState false 0 false) [].

Lemma line_mode_witness :
  ∃ s' h m, LineTacker_Iterate corridor_start = Ok s' ∧ heading m = Some h ∧ OutTackHeading m ∈ tk_out s'
            ∧ 9 / 10 <= Rabs (norm_angle (h - upwind_of corridor_start)).
Proof.
  destruct (LineTacker_Iterate_ok corridor_start) as (s' & E & _); [constructor; simpl; lia|].
  pose proof PI2_3_2.
  destruct (line_mode_keeps_off_wind corridor_start s') as (h & m & Hh & Hin & Hle).
  - reflexivity.
  - done.
  - simpl. rewrite Rabs_R0. lra.
  - simpl. lra.
  - exact E.
  - exists s', h, m. auto.
Defined.

Section Distance.
Context {EG : Eigen R} {EL : EigenLaws R}.

(** The foot of the perpendicular from [p], by slopes, gives the distance by the cross
    product. *)
Lemma slope_distance a b px py ex ey :
  a ≠ 0 -> b ≠ 0 ->
  let m := - a / b in
  let n := - (1) / m in
  let x := (py - m * px - (ey - n * ex)) / (n - m) in
  let dx := x - px in
  let dy := m * x + (py - m * px) - py in
  dx * dx + dy * dy = (a * (py - ey) - b * (px - ex)) * (a * (py - ey) - b * (px - ex)) / (a * a + b * b).
Proof.
  intros Ha Hb m n x dx dy.
  assert (0 < a * a + b * b) as Hs.
  { assert (0 < a * a) by (destruct (Rdichotomy a 0 Ha); nra). nra. }
  assert (dx = b * (a * (py - ey) - b * (px - ex)) / (a * a + b * b)) as Ex.
  { unfold dx, x, n, m. field. split_and!; [lra|done|done|lra]. }
  assert (dy = m * dx) as -> by (unfold dy, dx; ring).
  rewrite Ex. unfold m. field. split; [lra|done].
Qed.

(** In exact arithmetic the distance by slopes that the corridor tacker uses is, up to
    sign, the distance to the line by the perpendicular that the line planner uses, for
    lines that are not nearly parallel to an axis. *)
Theorem distance_from_line_equiv (start end_ loc : vec2 R) :
  1 / 1000 <= Rabs (vx end_ - vx start) -> 1 / 1000 <= Rabs (vy end_ - vy start) ->
  Rabs (DistanceFromLine start end_ loc) = Rabs (DistToLine start end_ loc).
Proof.
  intros Hx Hy. set (a := vx end_ - vx start) in *. set (b := vy end_ - vy start) in *.
  assert (a ≠ 0 ∧ b ≠ 0) as [Ha Hb].
  { split; intros E; [rewrite E in Hx; clear Hy|rewrite E in Hy; clear Hx]; rewrite Rabs_R0 in *; lra. }
  assert (start ≠ end_) as Hne by (intros ->; unfold a in Ha; lra).
  pose proof (dist_pos start end_ Hne) as Hd. pose proof (dist_sqr start end_) as Hs.
  rewrite DistToLine_cross by done. set (c := cross start end_ loc).
  assert (0 <= Rabs (c / dist start end_)) by apply Rabs_pos.
  unfold DistanceFromLine, dec. simpl. change (IZR (10 ^ 3)) with 1000. fold a b.
  do 2 (case_R; [lra|]). unfold fmulf, faddf, fsubf, fdivf. simpl.
  pose proof (slope_distance a b (vx loc) (vy loc) (vx end_) (vy end_) Ha Hb) as Hsl. cbv zeta in Hsl.
  rewrite Hsl. clear Hsl.
  assert (a * (vy loc - vy end_) - b * (vx loc - vx end_) = c) as -> by (unfold a, b, c, cross; ring).
  assert (a * a + b * b = dist start end_ * dist start end_) as -> by (rewrite Hs; unfold a, b; ring).
  replace (c * c / (dist start end_ * dist start end_)) with (Rsqr (c / dist start end_)) by (unfold Rsqr; field; lra).
  rewrite sqrt_Rsqr_abs. case_R; rewrite Rabs_mult, Rabs_Rabsolu, ?Rabs_Ropp, Rabs_R1; lra.
Qed.
End Distance.

Lemma distance_from_line_witness :
  Rabs (DistanceFromLine (V2 0 0) (V2 1 1) (V2 3 0)) = Rabs (@DistToLine R num_R eigen_plain (V2 0 0) (V2 1 1) (V2 3 0)).
Proof.
  apply (@distance_from_line_equiv eigen_plain eigen_plain_laws); simpl; rewrite Rminus_0_r, Rabs_R1; lra.
Defined.
