(* ===== verification/TackerThreads.v ===== *)
(** * The threads of the line tacker

    src/control/line_tacking.cc: its handlers run in threads of their own beside [Iterate], with
    the waypoints, the index and their number shared between them without a lock.  The bodies of
    LineTacker are here sequences of single accesses to these members, and the claim on their safety is
    for all interleavings. *)

From Stdlib Require Import ZArith Lia Reals.
From stdpp Require Import base list relations.
From S2P Require Import Prelude Threads Num NumR Vec Util Messages LineTacker.

#[local] Open Scope Z_scope.

Section Bodies.
Context {D : Type} {ND : Num D}.
#[local] Open Scope num_scope.
Abbreviation body := (thread (LineTacker D) TackErr).

(** ** Accesses *)

Definition set_pos_x (x : D) (s : LineTacker D) : LineTacker D := set_tk_pos (V2 x (vy (tk_pos s))) s.
Definition set_pos_y (y : D) (s : LineTacker D) : LineTacker D := set_tk_pos (V2 (vx (tk_pos s)) y) s.
Definition set_way_x (j : nat) (x : D) (s : LineTacker D) : LineTacker D :=
  set_tk_waypoints (alter (λ p, V2 x (vy p)) j (tk_waypoints s)) s.
Definition set_way_y (j : nat) (y : D) (s : LineTacker D) : LineTacker D :=
  set_tk_waypoints (alter (λ p, V2 (vx p) y) j (tk_waypoints s)) s.

(** A point is copied coordinate by coordinate. *)
Definition load_pos (k : vec2 D -> body) : body :=
  load (λ s, vx (tk_pos s)) (λ x, load (λ s, vy (tk_pos s)) (λ y, k (V2 x y))).
Definition load_way (j : Z) (k : vec2 D -> body) : body :=
  attempt (λ s, tk_at (tk_waypoints s) j) (λ p, attempt (λ s, tk_at (tk_waypoints s) j) (λ q, k (V2 (vx p) (vy q)))).
Definition store_way (j : nat) (p : vec2 D) (k : body) : body := store (set_way_x j (vx p)) (store (set_way_y j (vy p)) k).

(** [(i_ + 1) % way_len_] *)
Definition load_next (k : Z -> body) : body :=
  load tk_i (λ i, load tk_way_len (λ n, attempt (λ _, tk_rem (i + 1)%Z n) k)).

(** ** Handlers *)

Definition tacker_consts_body (c : TackerConstants D) : body := store (handle_tacker_consts c) Done.
Definition tack_true_wind_body (w : vec3 D) : body := store (handle_tack_true_wind w) Done.
Definition tack_wind_body (w : vec3 D) : body := store (handle_tack_wind w) Done.
Definition tacker_mode_body (m : ControlMode) : body := store (handle_tacker_mode m) Done.

Definition tack_boat_state_body (m : BoatState D) : body :=
  let vx := v3x (vel m) in
  let vy := v3y (vel m) in
  store (set_tk_theta (v3z (euler m)))
  (store (set_tk_speed (nfloat (nsqrt (faddf (fmulf vx vx) (fmulf vy vy)))))
  (store (set_tk_speed #10)
  (store (set_pos_x (v3x (pos m)))
  (store (set_pos_y (v3y (pos m)))
  (store (set_tk_yaw_rate (nfloat (norm_angle (v3z (omega m))))) Done))))).

Fixpoint copy_points_body (n : nat) (i offset starti : Z) (pts : list (vec2 D)) (k : body) : body :=
  match n with
  | O => k
  | S n =>
      attempt (λ _, tk_at pts (i + starti)%Z) (λ p,
      attempt (λ s, tk_at (tk_waypoints s) (i + offset)%Z) (λ _,
      store_way (Z.to_nat (i + offset)) p (copy_points_body n (i + 1)%Z offset starti pts k)))
  end.

Definition load_starti (m : WaypointList D) (k : Z -> body) : body :=
  if default true (restart m) then k 0%Z else load tk_offset (λ o, load tk_i (λ i, k (o + i)%Z)).

Definition ProcessWaypoints_body (m : WaypointList D) : body :=
  load_starti m (λ starti,
  store (set_tk_recalc_zero (negb (default true (defined_start m))))
  (store (set_tk_repeat (default false (repeat_ m)))
  (load tk_recalc_zero (λ recalc,
  let offset := if recalc then 1%Z else 0%Z in
  let cnt := Z.min (Z.of_nat (length (points m)) - starti) (N_WAYPOINTS - offset) in
  copy_points_body (Z.to_nat cnt) 0 offset starti (points m)
  (store (set_tk_i 0)
  (store (set_tk_offset starti)
  (store (set_tk_way_len (cnt + offset)%Z) Done))))))).

(** ** The iteration *)

(** [waypoints_[0] = cur_pos_], when the course has no start of its own *)
Definition recalc_body (k : body) : body :=
  load tk_recalc_zero (λ rz, if (rz : bool) then load_pos (λ p, store_way 0 p k) else k).

(** The progress when the next waypoint is near. *)
Definition tack_progress_body (close : bool) (k : bool -> body) : body :=
  if close then
    load tk_i (λ i, load tk_way_len (λ n,
    if (i <? n - 2)%Z then load tk_i (λ i, store (set_tk_i (i + 1)%Z) (k false))
    else load tk_repeat (λ r,
      if (r : bool) then
        load tk_i (λ i, store (set_tk_i (i + 1)%Z)
        (load tk_i (λ i, load tk_way_len (λ n, attempt (λ _, tk_rem i n) (λ j, store (set_tk_i j) (k true))))))
      else k true)))
  else k false.

(** The choice of the heading is one action on the measurements: it has no other access to an
    array than that of [bounds_]. *)
Definition GoalHeading_body (k : D -> body) : body :=
  recalc_body (
  load tk_i (λ i, load_way i (λ start,
  load_next (λ j, load_way j (λ end_,
  load (λ s, vy (tk_pos s)) (λ y,
  load (λ s, vx (tk_pos s)) (λ x,
  let dy := nfloat (vy end_ - y) in
  let dx := nfloat (vx end_ - x) in
  let nominal_heading := nfloat (natan2 dy dx) in
  let dist := nfloat (nsqrt (faddf (fmulf dy dy) (fmulf dx dx))) in
  load (λ s, vy (tk_pos s)) (λ y,
  let avgscale := ((GPSLatLonScale y).1 + (GPSLatLonScale y).2) * dec 5 1 in
  store (set_tk_dist (nfloat (dist * avgscale)))
  (load_next (λ j,
  attempt (λ _, tk_at waypoint_moe_ j) (λ moe,
  tack_progress_body (dist <? moe / avgscale) (λ done,
  load tk_i (λ i,
  store (λ s, set_tk_state (MkTackerState done i (near_waypoint (tk_state s))) s)
  (store (λ s, tack_send (OutTackState (tk_state s)) s)
  (attempt (λ s, tack_heading s start end_ avgscale nominal_heading) k))))))))))))))).

Definition send_heading_body (k : body) : body :=
  load tk_mode (λ m, match m with
    | LINE | REWARD | TACKER_NONE => store (λ s, tack_send (OutTackHeading (tk_heading s)) s) k
    | _ => k
    end).

Definition LineTacker_Iterate_body : body :=
  load tk_way_len (λ n, if (n =? 0)%Z then Done else
  load tk_mode (λ m, match m with DISABLED => Done | _ =>
  GoalHeading_body (λ gh,
  store (λ s, set_tk_heading (set_heading (Some gh) (tk_heading s)) s)
  (store (λ s, set_tk_heading (set_extra_sail (Some #0) (tk_heading s)) s)
  (send_heading_body
  (store (λ s, tack_send (OutTackConsts (tk_consts s)) s) Done)))) end)).

(** ** Without interference they are the functions of LineTacker *)

Lemma alter_xy j p (l : list (vec2 D)) :
  alter (λ q, V2 (vx q) (vy p)) j (alter (λ q, V2 (vx p) (vy q)) j l) = <[j := p]> l.
Proof. revert j. destruct p. induction l as [|q l IH]; intros [|j]; try done. cbn. f_equal. apply IH. Qed.

Lemma set_way_point j p (s : LineTacker D) :
  set_way_y j (vy p) (set_way_x j (vx p) s) = set_tk_waypoints (<[j := p]> (tk_waypoints s)) s.
Proof. rewrite <- alter_xy. done. Qed.

Lemma alone_copy n : ∀ i offset starti pts k (s : LineTacker D),
  run_alone (copy_points_body n i offset starti pts k) s
  = rbind (copy_points n i offset starti pts (tk_waypoints s)) (λ way, run_alone k (set_tk_waypoints way s)).
Proof.
  induction n as [|n IH]; intros i offset starti pts k s; cbn [copy_points_body copy_points]; [by destruct s|].
  rewrite alone_attempt. destruct (tk_at pts _) as [p|]; [|done]. cbn [rbind].
  rewrite alone_attempt. destruct (tk_at (tk_waypoints s) _) as [q|]; [|done]. cbn [rbind].
  unfold store_way. rewrite !alone_store, set_way_point, IH. by destruct s.
Qed.

Lemma alone_ProcessWaypoints m (s : LineTacker D) : run_alone (ProcessWaypoints_body m) s = ProcessWaypoints m s.
Proof.
  unfold ProcessWaypoints_body, ProcessWaypoints, load_starti.
  destruct (default true (restart m)); rewrite ?alone_load, !alone_store, alone_load, alone_copy; cbn [tk_recalc_zero set_tk_recalc_zero set_tk_repeat];
    cbv zeta; cbn [tk_waypoints set_tk_waypoints set_tk_recalc_zero set_tk_repeat]; by destruct (copy_points _ _ _ _ _ _).
Qed.

Lemma alone_progress close k (s : LineTacker D) :
  run_alone (tack_progress_body close k) s
  = rbind (tack_progress s close) (λ '(d, i), run_alone (k d) (set_tk_i i s)).
Proof.
  unfold tack_progress_body, tack_progress. destruct close; [|by destruct s]. rewrite !alone_load.
  destruct (Z.ltb _ _); [done|]. rewrite alone_load. destruct (tk_repeat s); [|by destruct s].
  rewrite alone_load, alone_store, !alone_load, alone_attempt. cbn [tk_i tk_way_len set_tk_i].
  destruct (tk_rem _ _) as [j|]; [|done]. cbn [rbind]. by rewrite alone_store.
Qed.

Lemma alone_load_way j k (s : LineTacker D) :
  run_alone (load_way j k) s = rbind (tk_at (tk_waypoints s) j) (λ p, run_alone (k p) s).
Proof.
  unfold load_way. rewrite alone_attempt. destruct (tk_at (tk_waypoints s) j) as [p|] eqn:E; [|done]. cbn [rbind].
  rewrite alone_attempt, E. by destruct p.
Qed.

Lemma alone_load_next k (s : LineTacker D) :
  run_alone (load_next k) s = rbind (tk_rem (tk_i s + 1) (tk_way_len s)) (λ j, run_alone (k j) s).
Proof. unfold load_next. by rewrite !alone_load, alone_attempt. Qed.

Lemma alone_recalc k (s : LineTacker D) :
  run_alone (recalc_body k) s
  = run_alone k (if tk_recalc_zero s then set_tk_waypoints (<[0%nat := tk_pos s]> (tk_waypoints s)) s else s).
Proof.
  unfold recalc_body. rewrite alone_load. destruct (tk_recalc_zero s); [|done].
  unfold load_pos, store_way. rewrite !alone_load, !alone_store.
  rewrite (set_way_point 0 (V2 (vx (tk_pos s)) (vy (tk_pos s)))). by destruct (tk_pos s).
Qed.

Lemma alone_GoalHeading k (s : LineTacker D) :
  run_alone (GoalHeading_body k) s = rbind (GoalHeading s) (λ '(h, s'), run_alone (k h) s').
Proof.
  unfold GoalHeading_body, GoalHeading. rewrite alone_recalc. cbv zeta. set (s1 := if tk_recalc_zero s then _ else s).
  clearbody s1. rewrite alone_load, alone_load_way. destruct (tk_at _ (tk_i s1)) as [st|]; [|done]. cbn [rbind].
  rewrite alone_load_next. destruct (tk_rem _ _) as [j|] eqn:Ej; [|done]. cbn [rbind].
  rewrite alone_load_way. destruct (tk_at _ j) as [en|]; [|done]. cbn [rbind].
  rewrite !alone_load, alone_store, alone_load_next. destruct (GPSLatLonScale _) as [la lo]. cbn [fst snd].
  cbn [tk_i tk_way_len set_tk_dist]. rewrite Ej. cbn [rbind]. rewrite alone_attempt.
  destruct (tk_at waypoint_moe_ j) as [moe|]; [|done]. cbn [rbind]. rewrite alone_progress.
  destruct (tack_progress _ _) as [[d i]|]; [|done]. cbn [rbind].
  rewrite alone_load, !alone_store, alone_attempt. by destruct (tack_heading _ _ _ _ _).
Qed.

Lemma alone_Iterate (s : LineTacker D) : run_alone LineTacker_Iterate_body s = LineTacker_Iterate s.
Proof.
  unfold LineTacker_Iterate_body, LineTacker_Iterate. rewrite alone_load. destruct (Z.eqb _ _); [done|].
  rewrite alone_load. destruct (tk_mode s); [..|done|]; rewrite ?alone_GoalHeading;
  destruct (GoalHeading s) as [[h s1]|]; try done; cbn [rbind]; rewrite !alone_store; unfold send_heading_body;
  rewrite alone_load; cbn [tk_mode set_tk_heading]; by destruct (tk_mode s1).
Qed.
End Bodies.

(** ** All interleavings *)

Inductive TackThread := ThConsts | ThTrueWind | ThWind | ThBoatState | ThMode | ThWaypoints | ThIterate.
#[export] Instance TackThread_eq_dec : EqDecision TackThread.
Proof. solve_decision. Defined.

(** The messages that the theorem is about: lists of waypoints that restart the course and give
    at least one waypoint, the position of the boat included. *)
Definition course_ok {D : Type} (m : WaypointList D) : Prop :=
  default true (restart m) = true ∧ (points m ≠ [] ∨ defined_start m = Some false).

Section Interleaved.
Context {D : Type} {ND : Num D}.

(** What each thread may run, for messages that satisfy [ok]. *)
Definition tack_body (ok : WaypointList D -> Prop) (i : TackThread) (t : thread (LineTacker D) TackErr) : Prop :=
  match i with
  | ThConsts => ∃ c, t = tacker_consts_body c
  | ThTrueWind => ∃ w, t = tack_true_wind_body w
  | ThWind => ∃ w, t = tack_wind_body w
  | ThBoatState => ∃ m, t = tack_boat_state_body m
  | ThMode => ∃ m, t = tacker_mode_body m
  | ThWaypoints => ∃ m, ok m ∧ t = ProcessWaypoints_body m
  | ThIterate => t = LineTacker_Iterate_body
  end.

(** The invariant of the members: the index is 10 only between the two stores of [i_]. *)
Record tack_inv (s : LineTacker D) : Prop := {
  ti_len : length (tk_waypoints s) = 10%nat;
  ti_way : 0 <= tk_way_len s <= 10;
  ti_i : 0 <= tk_i s <= 10;
}.

Definition tack_same (s s' : LineTacker D) : Prop :=
  tk_i s' = tk_i s ∧ tk_way_len s' = tk_way_len s ∧ tk_recalc_zero s' = tk_recalc_zero s.

Definition tack_guar (i : TackThread) (s s' : LineTacker D) : Prop :=
  match i with
  | ThIterate => tk_way_len s' = tk_way_len s ∧ tk_recalc_zero s' = tk_recalc_zero s
  | ThWaypoints => (tk_i s' = tk_i s ∨ tk_i s' = 0) ∧ (tk_way_len s ≠ 0 -> tk_way_len s' ≠ 0)
  | _ => tack_same s s'
  end.
Definition tack_rely (i : TackThread) (s s' : LineTacker D) : Prop :=
  match i with
  | ThIterate => (tk_i s' = tk_i s ∨ tk_i s' = 0) ∧ (tk_way_len s ≠ 0 -> tk_way_len s' ≠ 0)
  | ThWaypoints => tk_recalc_zero s' = tk_recalc_zero s
  | _ => True
  end.
Definition tack_idle (i : TackThread) (s : LineTacker D) : Prop :=
  match i with ThIterate => tk_i s <= 9 | _ => True end.

(** What the iteration knows of the index once it has seen a course. *)
Definition on_course (P : Z -> Prop) (s : LineTacker D) : Prop := P (tk_i s) ∧ tk_way_len s ≠ 0.

Lemma on_course_stable (P : Z -> Prop) : P 0 -> stable tack_inv (tack_rely ThIterate) (on_course P).
Proof.
  intros H0 s s' _ _ [Hi Hn] [Hp Hl]. split; [|by apply Hn]. by destruct Hi as [->| ->].
Qed.

Abbreviation irg := (rg (E := TackErr) tack_inv (tack_rely ThIterate) (tack_guar ThIterate) (tack_idle ThIterate)).

Lemma iter_load {A} (P Q : Z -> Prop) (get : LineTacker D -> A) k :
  (∀ i, P i -> Q i) -> Q 0 -> (∀ s, tack_inv s -> on_course P s -> irg (on_course Q) (k (get s))) ->
  irg (on_course P) (load get k).
Proof.
  intros HPQ H0 Hk. apply (rg_load _ (λ _, on_course Q)); [|intros _; by apply on_course_stable|done].
  intros s HI [Hp Hl]. split; [done|]. split; auto.
Qed.

Lemma iter_load_i (P : Z -> Prop) k :
  (∀ i, 0 <= i <= 10 -> P i -> irg (on_course (λ j, j = i ∨ j = 0)) (k i)) -> irg (on_course P) (load tk_i k).
Proof.
  intros Hk. apply (rg_load _ (λ a, on_course (λ j, j = a ∨ j = 0))); [|intros a; apply on_course_stable; auto|].
  - intros s HI [Hp Hl]. split; [done|]. split; auto.
  - intros s [_ _ Hi] [Hp _]. by apply Hk.
Qed.

(** A step that leaves the index, the number of waypoints and the course. *)
Lemma iter_store (P : Z -> Prop) set k :
  P 0 -> (∀ s, tack_same s (set s) ∧ length (tk_waypoints (set s)) = length (tk_waypoints s)) ->
  irg (on_course P) k -> irg (on_course P) (store set k).
Proof.
  intros H0 Hs Hk. apply (rg_store _ (on_course P)); [|by apply on_course_stable|done].
  intros s [Hl Hw Hi] [Hp Hn]. destruct (Hs s) as [(E1 & E2 & E3) E4].
  unfold on_course. rewrite E1, E2. split_and!; try done. constructor; rewrite ?E1, ?E2, ?E4; done.
Qed.

Lemma iter_store_i (P Q : Z -> Prop) i k :
  Q 0 -> Q i -> 0 <= i <= 10 -> irg (on_course Q) k -> irg (on_course P) (store (set_tk_i i) k).
Proof.
  intros H0 Hi Hr Hk. apply (rg_store _ (on_course Q)); [|by apply on_course_stable|done].
  intros s [Hl Hw _] [_ Hn]. by split_and!.
Qed.

Lemma iter_attempt {A} (P : Z -> Prop) (get : LineTacker D -> result TackErr A) k :
  P 0 -> (∀ s, tack_inv s -> on_course P s -> ∃ a, get s = Ok a) ->
  (∀ s a, get s = Ok a -> irg (on_course P) (k a)) -> irg (on_course P) (attempt get k).
Proof.
  intros H0 Hg Hk. apply (rg_attempt _ (λ _, on_course P)); [|intros _; by apply on_course_stable|].
  - intros s HI HP. destruct (Hg s HI HP) as [a E]. split; [done|]. by exists a.
  - intros s a _ _ E. by apply (Hk s).
Qed.

Abbreviation at9 := (on_course (λ i, i <= 9)).

Lemma iter_load_way j k : 0 <= j <= 9 -> (∀ p, irg at9 (k p)) -> irg at9 (load_way j k).
Proof.
  intros Hj Hk. assert (∀ s : LineTacker D, tack_inv s -> ∃ p, tk_at (tk_waypoints s) j = Ok p) as Hat.
  { intros s [Hl _ _]. apply tk_at_ok. lia. }
  apply iter_attempt; [done|by auto|]. intros _ p _. apply iter_attempt; [done|by auto|]. intros _ q _. apply Hk.
Qed.

(** A remainder by the number of waypoints, which another list may have changed since. *)
Lemma iter_rem (P : Z -> Prop) i k :
  P 0 -> 0 <= i -> (∀ j, 0 <= j <= 9 -> irg (on_course P) (k j)) ->
  irg (on_course P) (load tk_way_len (λ n, attempt (λ _, tk_rem i n) k)).
Proof.
  intros H0 Hi Hk. apply (iter_load P P); [done..|]. intros s [_ Hw _] [_ Hn].
  apply iter_attempt; [done| |].
  - intros _ _ _. unfold tk_rem. destruct (Z.eqb_spec (tk_way_len s) 0); [done|by eexists].
  - intros _ j. unfold tk_rem. destruct (Z.eqb_spec (tk_way_len s) 0); [done|]. intros [= <-]. apply Hk.
    pose proof (Z.rem_bound_pos i (tk_way_len s)). lia.
Qed.

Lemma irg_weaken (P Q : Z -> Prop) t : (∀ i, P i -> Q i) -> irg (on_course Q) t -> irg (on_course P) t.
Proof. intros H. apply rg_weaken. intros s _ [? ?]. split; auto. Qed.

Lemma iter_load_next k : (∀ j, 0 <= j <= 9 -> irg at9 (k j)) -> irg at9 (load_next k).
Proof.
  intros Hk. apply iter_load_i. intros i Hi Hi9. apply (irg_weaken _ (λ i, i <= 9)); [lia|].
  apply iter_rem; [lia|lia|done].
Qed.

Lemma iter_progress close k : (∀ d, irg at9 (k d)) -> irg at9 (tack_progress_body close k).
Proof.
  intros Hk. unfold tack_progress_body. destruct close; [|done].
  apply iter_load_i. intros i Hi Hi9. set (P := λ j, j = i ∨ j = 0). assert (P 0) by (by right).
  apply (iter_load P P); [done..|]. intros s [_ Hw _] _. destruct (Z.ltb_spec i (tk_way_len s - 2)) as [Hlt|_].
  - apply iter_load_i. intros i' _ Hi'. assert (0 <= i' < 8) by (destruct Hi'; lia).
    apply (iter_store_i _ (λ i, i <= 9)); [lia|lia|lia|apply Hk].
  - apply (iter_load P (λ i, i <= 9)); [intros j [-> | ->]; lia|lia|]. intros s' _ _.
    destruct (tk_repeat s'); [|apply Hk]. apply iter_load_i. intros i' Hr Hi'.
    apply (iter_store_i _ (λ _, True)); [done|done|lia|]. apply iter_load_i. intros i'' Hr'' _.
    apply iter_rem; [by right|lia|]. intros j Hj. apply (iter_store_i _ (λ i, i <= 9)); [lia..|apply Hk].
Qed.

Lemma iter_recalc k : irg at9 k -> irg at9 (recalc_body k).
Proof.
  intros Hk. apply (iter_load _ (λ i, i <= 9)); [done..|]. intros s _ _. destruct (tk_recalc_zero s); [|done].
  do 2 (apply (iter_load _ (λ i, i <= 9)); [done..|]; intros ? _ _).
  do 2 (apply iter_store; [done|intros t; split; [done|apply length_alter]|]). done.
Qed.

Lemma iter_GoalHeading k : (∀ h, irg at9 (k h)) -> irg at9 (GoalHeading_body k).
Proof.
  intros Hk. unfold GoalHeading_body. apply iter_recalc. apply iter_load_i. intros i Hi Hi9.
  apply (irg_weaken _ (λ i, i <= 9)); [lia|]. apply iter_load_way; [lia|]. intros st.
  apply iter_load_next. intros j Hj. apply iter_load_way; [lia|]. intros en.
  do 3 (apply (iter_load _ (λ i, i <= 9)); [done..|]; intros ? _ _).
  apply iter_store; [done|done|]. apply iter_load_next. intros j' Hj'.
  apply iter_attempt; [done|intros _ _ _; apply tk_at_ok; simpl; lia|]. intros _ moe _.
  apply iter_progress. intros d. apply (iter_load _ (λ i, i <= 9)); [done..|]. intros ? _ _.
  do 2 (apply iter_store; [done|done|]).
  apply iter_attempt; [done|intros t [_ _ ?] [? _]; apply tack_heading_ok; lia|]. intros _ h _. apply Hk.
Qed.

Lemma iterate_rg : irg (tack_idle ThIterate) LineTacker_Iterate_body.
Proof.
  unfold LineTacker_Iterate_body.
  apply (rg_load _ (λ n s, tk_i s <= 9 ∧ (n ≠ 0 -> tk_way_len s ≠ 0))).
  - done.
  - intros n s s' _ _ [Hi Hn] [Hp Hl]. split; [destruct Hi; lia|auto].
  - intros s _ _. destruct (Z.eqb_spec (tk_way_len s) 0); [by constructor; intros s' _ []|].
    apply (rg_weaken _ _ _ _ at9); [intros s' _ [? ?]; split; auto|].
    apply (iter_load _ (λ i, i <= 9)); [done..|]. intros s' _ _.
    assert (∀ t, irg at9 t -> irg at9 (match tk_mode s' with DISABLED => Done | _ => t end)) as Hmode.
    { intros t Ht. destruct (tk_mode s'); try done. constructor. by intros ? _ []. }
    apply Hmode, iter_GoalHeading. intros h. do 2 (apply iter_store; [done|done|]).
    apply (iter_load _ (λ i, i <= 9)); [done..|]. intros s'' _ _.
    assert (irg at9 (store (λ s, tack_send (OutTackConsts (tk_consts s)) s) Done)).
    { apply iter_store; [done|done|]. constructor. by intros ? _ []. }
    destruct (tk_mode s''); try done; by apply iter_store.
Qed.

(** *** The handler of the waypoints *)

Abbreviation wrg := (rg (E := TackErr) tack_inv (tack_rely ThWaypoints) (tack_guar ThWaypoints) (λ _, True)).

Lemma way_store set k :
  (∀ s, tack_inv s -> tack_inv (set s) ∧ tack_guar ThWaypoints s (set s)) ->
  wrg (λ _, True) k -> wrg (λ _, True) (store set k).
Proof. intros Hs Hk. apply (rg_store _ (λ _, True)); [|done|done]. intros s HI _. destruct (Hs s HI). auto. Qed.

Lemma way_same_ok s (s' : LineTacker D) :
  tack_same s s' -> length (tk_waypoints s') = length (tk_waypoints s) -> tack_inv s ->
  tack_inv s' ∧ tack_guar ThWaypoints s s'.
Proof.
  intros (E1 & E2 & _) E3 [Hl Hw Hi]. split; [constructor; rewrite ?E1, ?E2, ?E3; done|].
  cbn. rewrite E1, E2. auto.
Qed.

Lemma way_copy n : ∀ i offset starti pts k,
  0 <= i -> 0 <= offset -> 0 <= starti ->
  i + starti + Z.of_nat n <= Z.of_nat (length pts) -> i + offset + Z.of_nat n <= 10 ->
  wrg (λ _, True) k -> wrg (λ _, True) (copy_points_body (D := D) n i offset starti pts k).
Proof.
  induction n as [|n IH]; intros i offset starti pts k Hi Ho Hs Hp Hw Hk; [done|]. cbn [copy_points_body].
  apply (rg_attempt _ (λ _ _, True)); [|done|].
  { intros s HI _. destruct (tk_at_ok pts (i + starti)) as [p ->]; [lia|]. split; [cbn; auto|by exists p]. }
  intros s p HI _ _. apply (rg_attempt _ (λ _ _, True)); [|done|].
  { intros s1 [Hl _ _] _. destruct (tk_at_ok (tk_waypoints s1) (i + offset)) as [q ->]; [lia|].
    split; [cbn; auto|by exists q]. }
  intros _ _ _ _ _. do 2 (apply way_store; [intros t Ht; apply way_same_ok; [done|apply length_alter|done]|]).
  apply IH; [lia..|done].
Qed.

Lemma process_waypoints_rg m : course_ok m -> wrg (λ _, True) (ProcessWaypoints_body m).
Proof.
  intros [Hr Hne]. unfold ProcessWaypoints_body, load_starti. rewrite Hr.
  set (b := negb (default true (defined_start m))).
  assert (stable tack_inv (tack_rely ThWaypoints) (λ s, tk_recalc_zero s = b)) as Hst by (intros s s' _ _ Hrel Hb; by rewrite Hrel).
  apply (rg_store _ (λ s, tk_recalc_zero s = b)).
  { intros s [Hl Hw Hi] _. split; [by constructor|]. split; [cbn; auto|done]. }
  { done. }
  apply (rg_store _ (λ s, tk_recalc_zero s = b)).
  { intros s [Hl Hw Hi] E. split; [by constructor|]. split; [cbn; auto|done]. }
  { done. }
  apply (rg_load _ (λ _ _, True)); [intros s _ _; split; [cbn; auto|done]|done|]. intros s _ ->. cbv zeta.
  set (offset := if b then 1 else 0). set (cnt := Z.min _ _).
  assert (0 <= offset <= 1) as Ho by (unfold offset; destruct b; lia).
  assert (0 <= cnt <= 10 - offset ∧ cnt <= Z.of_nat (length (points m)) ∧ 1 <= cnt + offset) as (Hc & Hp & H1).
  { unfold cnt, N_WAYPOINTS. split; [lia|]. split; [lia|]. destruct Hne as [Hne|Hd].
    - destruct (points m); [done|]. simpl length. lia.
    - unfold offset, b. rewrite Hd. simpl. lia. }
  apply way_copy; [lia..|]. apply way_store.
  { intros t [Hl Hw Hi]. split; [constructor; simpl; [done|done|lia]|]. split; [by right|done]. }
  apply way_store. { intros t Ht. by apply way_same_ok. }
  apply way_store; [|by constructor].
  intros t [Hl Hw Hi]. split; [constructor; simpl; [done|lia|done]|]. split; [by left|simpl; lia].
Qed.

(** *** The other handlers *)

Lemma other_rg (i : TackThread) set k :
  i ≠ ThIterate -> i ≠ ThWaypoints -> (∀ s, tack_same s (set s) ∧ length (tk_waypoints (set s)) = length (tk_waypoints s)) ->
  rg tack_inv (tack_rely i) (tack_guar i) (tack_idle i) (λ _, True) k ->
  rg (E := TackErr) tack_inv (tack_rely i) (tack_guar i) (tack_idle i) (λ _, True) (store set k).
Proof.
  intros Hi Hw Hs Hk. apply (rg_store _ (λ _, True)); [|done|done]. intros s HI _. destruct (Hs s) as [H1 H2].
  destruct (way_same_ok s (set s) H1 H2 HI) as [H3 _]. split; [done|]. split; [|done]. by destruct i.
Qed.

Lemma tack_bodies_ok i t :
  tack_body course_ok i t -> rg tack_inv (tack_rely i) (tack_guar i) (tack_idle i) (tack_idle i) t.
Proof.
  assert (∀ j : TackThread, j ≠ ThIterate ->
    rg (E := TackErr) tack_inv (tack_rely j) (tack_guar j) (tack_idle j) (λ _, True) Done) as Hd
    by (intros j Hj; constructor; by destruct j).
  destruct i; cbn [tack_body].
  - intros [c ->]. apply other_rg; [done|done|done|by apply Hd].
  - intros [c ->]. apply other_rg; [done|done|done|by apply Hd].
  - intros [c ->]. apply other_rg; [done|done|done|by apply Hd].
  - intros [m ->]. unfold tack_boat_state_body. repeat (apply other_rg; [done|done|done|]). auto.
  - intros [m ->]. apply other_rg; [done|done| |auto]. intros s. unfold handle_tacker_mode. by destruct (tacker m).
  - intros (m & Hm & ->). by apply process_waypoints_rg.
  - intros ->. apply iterate_rg.
Qed.

Lemma tack_compatible : compatible (tack_body course_ok) no_excl tack_inv tack_rely tack_guar tack_idle.
Proof.
  constructor.
  - apply tack_bodies_ok.
  - intros i j s s' Hij _ _ _ HG. destruct j; try done; destruct i; try done;
      cbn in *; unfold tack_same in *; intuition congruence.
  - intros i s s' _ _ HR Hs. destruct i; try done. cbn in *. destruct HR as [[?|?] _]; lia.
  - intros i j Hij _ s s' _ _ HG Hs. destruct j; try done. destruct i; try done; cbn in *; unfold tack_same in *; lia.
  - by intros i j s [].
  - by intros i j [].
Qed.

(** C28: In every interleaving of the accesses of its handlers and of its iterations the tacker
    never leaves its arrays and never takes a remainder by zero: from its constructor, whatever
    its file holds, for any messages in which new waypoints restart the course and give at
    least one waypoint.  The number of waypoints stays between 0 and 10, and the index below 10
    whenever no iteration is under way. *)
Theorem line_tacker_memory_safe (file : option (WaypointList D)) (way : list (vec2 D)) (dist apparent speed rate : D) :
  length way = 10%nat -> (∀ m, file = Some m -> default true (restart m) = true) ->
  ∃ s, LineTacker_new file way dist apparent speed rate = Ok s
    ∧ ∀ c, rtc (conf_step (tack_body course_ok) no_excl) (idle s) c ->
        ¬ conf_fails c ∧ 0 <= tk_way_len (c_state c) <= 10
        ∧ (c_threads c ThIterate = Done -> 0 <= tk_i (c_state c) <= 9).
Proof.
  intros Hl Hf. destruct (LineTacker_new_ok file way dist apparent speed rate Hl Hf) as (s & E & [H1 H2 H3]).
  exists s. split; [done|]. intros c Hc.
  destruct (rg_sound _ _ _ _ _ _ s c tack_compatible) as [[HI Ht _] Hnf].
  - constructor; [done|done|lia].
  - intros []; cbn; try done. lia.
  - done.
  - split; [done|]. destruct HI as [_ Hw Hi]. split; [done|]. intros Ed. specialize (Ht ThIterate).
    rewrite Ed in Ht. cbn in Ht. split; [lia|]. by apply Ht; intros _ j [].
Qed.

(** An empty list of waypoints between the test of an iteration for a course and its remainder
    makes it a remainder by zero. *)
Definition empty_course : WaypointList D := MkWaypointList [] None None None.
Definition empty_course_turns : list (turn TackThread (LineTacker D) TackErr) :=
  [Start ThIterate LineTacker_Iterate_body; Next ThIterate; Start ThWaypoints (ProcessWaypoints_body empty_course)]
  ++ repeat (Next ThWaypoints) 6 ++ repeat (Next ThIterate) 7.

Lemma empty_course_race (x y dist apparent speed rate : D) :
  ∃ s c, LineTacker_new (Some (MkWaypointList [V2 x y; V2 y x] None None None)) (repeat (V2 x y) 10) dist apparent speed rate = Ok s
    ∧ rtc (conf_step (tack_body (λ m, default true (restart m) = true)) no_excl) (idle s) c
    ∧ next_error c ThIterate = Some TackDivByZero ∧ conf_fails c.
Proof.
  eexists. edestruct (run_turns_fails (tack_body (λ m, default true (restart m) = true)) no_excl empty_course_turns)
    as (c & Hc & He & Hf); [by intros i j []| | |exists c; split; [reflexivity|by split_and!]].
  - repeat constructor. by exists empty_course.
  - reflexivity.
Qed.
End Interleaved.

Lemma line_tacker_safe_witness :
  let m := MkWaypointList [V2 0 0; V2 1 1]%R None None (Some true) in
  ∃ s, @LineTacker_new R num_R (Some m) (repeat (V2 0 0)%R 10) 0%R 0%R 0%R 0%R = Ok s
    ∧ ∀ c, rtc (conf_step (tack_body course_ok) no_excl) (idle s) c ->
        ¬ conf_fails c ∧ 0 <= tk_way_len (c_state c) <= 10
        ∧ (c_threads c ThIterate = Done -> 0 <= tk_i (c_state c) <= 9).
Proof.
  apply (@line_tacker_memory_safe R num_R).
  - reflexivity.
  - by intros m' [= <-].
Defined.
