(* ===== verification/Adaptive.v ===== *)
(** * Adaptive control

    src/control/adaptive.cc and .h: a model of the forces on the boat that is linear in
    six parameters, the search for the sail and rudder angles with the most forward
    force for a wanted torque, and the node that adapts the parameters.  Products of
    dense matrices are the linear algebra library's (Dense.v).  A pointer argument that may be null is an
    output; the functions return all of their outputs. *)

From Stdlib Require Import ZArith Lia Reals Lra Psatz Floats.
From stdpp Require Import base list.
From S2P Require Import Prelude Num NumR NumF Vec Dense Util Messages.

#[local] Open Scope Z_scope.

Inductive Constraint := kQuadratic | kStarboard | kPort.

Record Airfoil (D : Type) := MkAirfoil {
  af_A : D;
  af_rho : D;
  af_C : D;
  af_K : D;
  af_drageps : D;
  af_maxalpha : D;
}.
Arguments MkAirfoil {D}.
Arguments af_A {D} _.
Arguments af_rho {D} _.
Arguments af_C {D} _.
Arguments af_K {D} _.
Arguments af_drageps {D} _.
Arguments af_maxalpha {D} _.

Record BoatConstants (D : Type) := MkBoat {
  bc_sail : Airfoil D;
  bc_keel : Airfoil D;
  bc_rudder : Airfoil D;
  bc_hs : D;
  bc_hk : D;
  bc_hr : D;
  bc_rs : D;
  bc_rk : D;
  bc_rr : D;
  bc_ls : D;
  bc_lr : D;
  bc_hb : D;
  bc_m : D;
  bc_g : D;
  bc_J : D;
  bc_Blon : D;
  bc_Blat : D;
  bc_Bomega : D;
  bc_taubias : D;
}.
Arguments MkBoat {D}.
Arguments bc_sail {D} _.
Arguments bc_keel {D} _.
Arguments bc_rudder {D} _.
Arguments bc_hs {D} _.
Arguments bc_hk {D} _.
Arguments bc_hr {D} _.
Arguments bc_rs {D} _.
Arguments bc_rk {D} _.
Arguments bc_rr {D} _.
Arguments bc_ls {D} _.
Arguments bc_lr {D} _.
Arguments bc_hb {D} _.
Arguments bc_m {D} _.
Arguments bc_g {D} _.
Arguments bc_J {D} _.
Arguments bc_Blon {D} _.
Arguments bc_Blat {D} _.
Arguments bc_Bomega {D} _.
Arguments bc_taubias {D} _.
Definition set_bc_rudder {D : Type} (v : Airfoil D) (s : BoatConstants D) : BoatConstants D := MkBoat (s.(bc_sail)) (s.(bc_keel)) v (s.(bc_hs)) (s.(bc_hk)) (s.(bc_hr)) (s.(bc_rs)) (s.(bc_rk)) (s.(bc_rr)) (s.(bc_ls)) (s.(bc_lr)) (s.(bc_hb)) (s.(bc_m)) (s.(bc_g)) (s.(bc_J)) (s.(bc_Blon)) (s.(bc_Blat)) (s.(bc_Bomega)) (s.(bc_taubias)).
Definition set_bc_rs {D : Type} (v : D) (s : BoatConstants D) : BoatConstants D := MkBoat (s.(bc_sail)) (s.(bc_keel)) (s.(bc_rudder)) (s.(bc_hs)) (s.(bc_hk)) (s.(bc_hr)) v (s.(bc_rk)) (s.(bc_rr)) (s.(bc_ls)) (s.(bc_lr)) (s.(bc_hb)) (s.(bc_m)) (s.(bc_g)) (s.(bc_J)) (s.(bc_Blon)) (s.(bc_Blat)) (s.(bc_Bomega)) (s.(bc_taubias)).
Definition set_bc_Blon {D : Type} (v : D) (s : BoatConstants D) : BoatConstants D := MkBoat (s.(bc_sail)) (s.(bc_keel)) (s.(bc_rudder)) (s.(bc_hs)) (s.(bc_hk)) (s.(bc_hr)) (s.(bc_rs)) (s.(bc_rk)) (s.(bc_rr)) (s.(bc_ls)) (s.(bc_lr)) (s.(bc_hb)) (s.(bc_m)) (s.(bc_g)) (s.(bc_J)) v (s.(bc_Blat)) (s.(bc_Bomega)) (s.(bc_taubias)).
Definition set_bc_Bomega {D : Type} (v : D) (s : BoatConstants D) : BoatConstants D := MkBoat (s.(bc_sail)) (s.(bc_keel)) (s.(bc_rudder)) (s.(bc_hs)) (s.(bc_hk)) (s.(bc_hr)) (s.(bc_rs)) (s.(bc_rk)) (s.(bc_rr)) (s.(bc_ls)) (s.(bc_lr)) (s.(bc_hb)) (s.(bc_m)) (s.(bc_g)) (s.(bc_J)) (s.(bc_Blon)) (s.(bc_Blat)) v (s.(bc_taubias)).
Definition set_bc_taubias {D : Type} (v : D) (s : BoatConstants D) : BoatConstants D := MkBoat (s.(bc_sail)) (s.(bc_keel)) (s.(bc_rudder)) (s.(bc_hs)) (s.(bc_hk)) (s.(bc_hr)) (s.(bc_rs)) (s.(bc_rk)) (s.(bc_rr)) (s.(bc_ls)) (s.(bc_lr)) (s.(bc_hb)) (s.(bc_m)) (s.(bc_g)) (s.(bc_J)) (s.(bc_Blon)) (s.(bc_Blat)) (s.(bc_Bomega)) v.

Record ControlPhysics (D : Type) := MkPhysics {
  consts_ : BoatConstants D;
  Qf : D;
  Qtaumax : D;
  Qtaueq : D;
}.
Arguments MkPhysics {D}.
Arguments consts_ {D} _.
Arguments Qf {D} _.
Arguments Qtaumax {D} _.
Arguments Qtaueq {D} _.

Inductive AdOut (D : Type) :=
| OutAdSail (m : SailCmd D)
| OutAdRudder (m : RudderCmd D)
| OutAdConsts (c : ControllerConstants D).
Arguments OutAdSail {D} _.
Arguments OutAdRudder {D} _.
Arguments OutAdConsts {D} _.

Record AdaptiveControl (D : Type) := MkAdaptive {
  Kbeta : list (list D);
  physics_ : ControlPhysics D;
  ad_sail_msg : SailCmd D;
  ad_rudder_msg : RudderCmd D;
  ad_boat_state : BoatState D;
  ad_consts : ControllerConstants D;
  ad_heading : D;
  ad_yaw : D;
  ad_thetaw : D;
  ad_vw : D;
  ad_thetac : D;
  ad_vc : D;
  ad_omega : D;
  ad_yaw_ref : D;
  ad_omega_ref : D;
  ad_out : list (AdOut D);
}.
Arguments MkAdaptive {D}.
Arguments Kbeta {D} _.
Arguments physics_ {D} _.
Arguments ad_sail_msg {D} _.
Arguments ad_rudder_msg {D} _.
Arguments ad_boat_state {D} _.
Arguments ad_consts {D} _.
Arguments ad_heading {D} _.
Arguments ad_yaw {D} _.
Arguments ad_thetaw {D} _.
Arguments ad_vw {D} _.
Arguments ad_thetac {D} _.
Arguments ad_vc {D} _.
Arguments ad_omega {D} _.
Arguments ad_yaw_ref {D} _.
Arguments ad_omega_ref {D} _.
Arguments ad_out {D} _.
Definition set_physics_ {D : Type} (v : ControlPhysics D) (s : AdaptiveControl D) : AdaptiveControl D := MkAdaptive (s.(Kbeta)) v (s.(ad_sail_msg)) (s.(ad_rudder_msg)) (s.(ad_boat_state)) (s.(ad_consts)) (s.(ad_heading)) (s.(ad_yaw)) (s.(ad_thetaw)) (s.(ad_vw)) (s.(ad_thetac)) (s.(ad_vc)) (s.(ad_omega)) (s.(ad_yaw_ref)) (s.(ad_omega_ref)) (s.(ad_out)).
Definition set_ad_sail_msg {D : Type} (v : SailCmd D) (s : AdaptiveControl D) : AdaptiveControl D := MkAdaptive (s.(Kbeta)) (s.(physics_)) v (s.(ad_rudder_msg)) (s.(ad_boat_state)) (s.(ad_consts)) (s.(ad_heading)) (s.(ad_yaw)) (s.(ad_thetaw)) (s.(ad_vw)) (s.(ad_thetac)) (s.(ad_vc)) (s.(ad_omega)) (s.(ad_yaw_ref)) (s.(ad_omega_ref)) (s.(ad_out)).
Definition set_ad_rudder_msg {D : Type} (v : RudderCmd D) (s : AdaptiveControl D) : AdaptiveControl D := MkAdaptive (s.(Kbeta)) (s.(physics_)) (s.(ad_sail_msg)) v (s.(ad_boat_state)) (s.(ad_consts)) (s.(ad_heading)) (s.(ad_yaw)) (s.(ad_thetaw)) (s.(ad_vw)) (s.(ad_thetac)) (s.(ad_vc)) (s.(ad_omega)) (s.(ad_yaw_ref)) (s.(ad_omega_ref)) (s.(ad_out)).
Definition set_ad_boat_state {D : Type} (v : BoatState D) (s : AdaptiveControl D) : AdaptiveControl D := MkAdaptive (s.(Kbeta)) (s.(physics_)) (s.(ad_sail_msg)) (s.(ad_rudder_msg)) v (s.(ad_consts)) (s.(ad_heading)) (s.(ad_yaw)) (s.(ad_thetaw)) (s.(ad_vw)) (s.(ad_thetac)) (s.(ad_vc)) (s.(ad_omega)) (s.(ad_yaw_ref)) (s.(ad_omega_ref)) (s.(ad_out)).
Definition set_ad_consts {D : Type} (v : ControllerConstants D) (s : AdaptiveControl D) : AdaptiveControl D := MkAdaptive (s.(Kbeta)) (s.(physics_)) (s.(ad_sail_msg)) (s.(ad_rudder_msg)) (s.(ad_boat_state)) v (s.(ad_heading)) (s.(ad_yaw)) (s.(ad_thetaw)) (s.(ad_vw)) (s.(ad_thetac)) (s.(ad_vc)) (s.(ad_omega)) (s.(ad_yaw_ref)) (s.(ad_omega_ref)) (s.(ad_out)).
Definition set_ad_heading {D : Type} (v : D) (s : AdaptiveControl D) : AdaptiveControl D := MkAdaptive (s.(Kbeta)) (s.(physics_)) (s.(ad_sail_msg)) (s.(ad_rudder_msg)) (s.(ad_boat_state)) (s.(ad_consts)) v (s.(ad_yaw)) (s.(ad_thetaw)) (s.(ad_vw)) (s.(ad_thetac)) (s.(ad_vc)) (s.(ad_omega)) (s.(ad_yaw_ref)) (s.(ad_omega_ref)) (s.(ad_out)).
Definition set_ad_yaw {D : Type} (v : D) (s : AdaptiveControl D) : AdaptiveControl D := MkAdaptive (s.(Kbeta)) (s.(physics_)) (s.(ad_sail_msg)) (s.(ad_rudder_msg)) (s.(ad_boat_state)) (s.(ad_consts)) (s.(ad_heading)) v (s.(ad_thetaw)) (s.(ad_vw)) (s.(ad_thetac)) (s.(ad_vc)) (s.(ad_omega)) (s.(ad_yaw_ref)) (s.(ad_omega_ref)) (s.(ad_out)).
Definition set_ad_thetaw {D : Type} (v : D) (s : AdaptiveControl D) : AdaptiveControl D := MkAdaptive (s.(Kbeta)) (s.(physics_)) (s.(ad_sail_msg)) (s.(ad_rudder_msg)) (s.(ad_boat_state)) (s.(ad_consts)) (s.(ad_heading)) (s.(ad_yaw)) v (s.(ad_vw)) (s.(ad_thetac)) (s.(ad_vc)) (s.(ad_omega)) (s.(ad_yaw_ref)) (s.(ad_omega_ref)) (s.(ad_out)).
Definition set_ad_vw {D : Type} (v : D) (s : AdaptiveControl D) : AdaptiveControl D := MkAdaptive (s.(Kbeta)) (s.(physics_)) (s.(ad_sail_msg)) (s.(ad_rudder_msg)) (s.(ad_boat_state)) (s.(ad_consts)) (s.(ad_heading)) (s.(ad_yaw)) (s.(ad_thetaw)) v (s.(ad_thetac)) (s.(ad_vc)) (s.(ad_omega)) (s.(ad_yaw_ref)) (s.(ad_omega_ref)) (s.(ad_out)).
Definition set_ad_thetac {D : Type} (v : D) (s : AdaptiveControl D) : AdaptiveControl D := MkAdaptive (s.(Kbeta)) (s.(physics_)) (s.(ad_sail_msg)) (s.(ad_rudder_msg)) (s.(ad_boat_state)) (s.(ad_consts)) (s.(ad_heading)) (s.(ad_yaw)) (s.(ad_thetaw)) (s.(ad_vw)) v (s.(ad_vc)) (s.(ad_omega)) (s.(ad_yaw_ref)) (s.(ad_omega_ref)) (s.(ad_out)).
Definition set_ad_vc {D : Type} (v : D) (s : AdaptiveControl D) : AdaptiveControl D := MkAdaptive (s.(Kbeta)) (s.(physics_)) (s.(ad_sail_msg)) (s.(ad_rudder_msg)) (s.(ad_boat_state)) (s.(ad_consts)) (s.(ad_heading)) (s.(ad_yaw)) (s.(ad_thetaw)) (s.(ad_vw)) (s.(ad_thetac)) v (s.(ad_omega)) (s.(ad_yaw_ref)) (s.(ad_omega_ref)) (s.(ad_out)).
Definition set_ad_omega {D : Type} (v : D) (s : AdaptiveControl D) : AdaptiveControl D := MkAdaptive (s.(Kbeta)) (s.(physics_)) (s.(ad_sail_msg)) (s.(ad_rudder_msg)) (s.(ad_boat_state)) (s.(ad_consts)) (s.(ad_heading)) (s.(ad_yaw)) (s.(ad_thetaw)) (s.(ad_vw)) (s.(ad_thetac)) (s.(ad_vc)) v (s.(ad_yaw_ref)) (s.(ad_omega_ref)) (s.(ad_out)).
Definition set_ad_yaw_ref {D : Type} (v : D) (s : AdaptiveControl D) : AdaptiveControl D := MkAdaptive (s.(Kbeta)) (s.(physics_)) (s.(ad_sail_msg)) (s.(ad_rudder_msg)) (s.(ad_boat_state)) (s.(ad_consts)) (s.(ad_heading)) (s.(ad_yaw)) (s.(ad_thetaw)) (s.(ad_vw)) (s.(ad_thetac)) (s.(ad_vc)) (s.(ad_omega)) v (s.(ad_omega_ref)) (s.(ad_out)).
Definition set_ad_omega_ref {D : Type} (v : D) (s : AdaptiveControl D) : AdaptiveControl D := MkAdaptive (s.(Kbeta)) (s.(physics_)) (s.(ad_sail_msg)) (s.(ad_rudder_msg)) (s.(ad_boat_state)) (s.(ad_consts)) (s.(ad_heading)) (s.(ad_yaw)) (s.(ad_thetaw)) (s.(ad_vw)) (s.(ad_thetac)) (s.(ad_vc)) (s.(ad_omega)) (s.(ad_yaw_ref)) v (s.(ad_out)).
Definition set_ad_out {D : Type} (v : list (AdOut D)) (s : AdaptiveControl D) : AdaptiveControl D := MkAdaptive (s.(Kbeta)) (s.(physics_)) (s.(ad_sail_msg)) (s.(ad_rudder_msg)) (s.(ad_boat_state)) (s.(ad_consts)) (s.(ad_heading)) (s.(ad_yaw)) (s.(ad_thetaw)) (s.(ad_vw)) (s.(ad_thetac)) (s.(ad_vc)) (s.(ad_omega)) (s.(ad_yaw_ref)) (s.(ad_omega_ref)) v.

#[local] Notation "s |> f" := (f s) (at level 50, left associativity, only parsing).

Section Physics.
Context {D : Type} {ND : Num D} {DE : Dense D}.
#[local] Open Scope num_scope.

Definition npi_2 : D := npi / #2.

Definition default_boat_consts : BoatConstants D :=
  let rhoair := dec 1225 3 in
  let rhowater := #1000 in
  MkBoat (MkAirfoil #2 rhoair (dec 14 1) (dec 15 1) #0 npi_2)
         (MkAirfoil (dec 3 1) rhowater (dec 14 1) #8 (dec 1 1) (dec 25 2))
         (MkAirfoil (dec 4 2) rhowater (dec 17 1) #5 (dec 5 2) (dec 25 2))
         (dec 15 1) (- dec 7 1) #0 (dec 1 1) #0 (- dec 9 1) (dec 35 2) #0 (- dec 7 1) #25 (dec 98 1) #10
         #15 #25 #500 #0.

Definition betamin_ : list D := [#0; #0; dec 1 2; - #1; - #10; #1].
Definition betamax_ : list D := [#1000; #10000; #1; #1; #10; #1].

Definition ControlPhysics_init : ControlPhysics D := MkPhysics default_boat_consts #1 (dec 4 1) (dec 4 2).

Definition beta (p : ControlPhysics D) : list D :=
  let c := consts_ p in
  [bc_Blon c; bc_Bomega c; af_A (bc_rudder c); bc_rs c; bc_taubias c; #1].

Definition set_beta (b : list D) (p : ControlPhysics D) : ControlPhysics D :=
  let c := consts_ p in
  let r := bc_rudder c in
  let c := c |> set_bc_Blon (nth 0 b #0) |> set_bc_Bomega (nth 1 b #0)
             |> set_bc_rudder (MkAirfoil (nth 2 b #0) (af_rho r) (af_C r) (af_K r) (af_drageps r) (af_maxalpha r))
             |> set_bc_rs (nth 3 b #0) |> set_bc_taubias (nth 4 b #0) in
  MkPhysics c (Qf p) (Qtaumax p) (Qtaueq p).

Definition IncrementBeta (diff : list D) (p : ControlPhysics D) : ControlPhysics D :=
  let b := zip_with nadd (beta p) diff in
  set_beta (cmin (cmax b betamin_) betamax_) p.

(** The cosine limited below by 0.5 is computed but not used. *)
Definition RudderForTorque (p : ControlPhysics D) (taus tauk taugoal heel thetac vc : D) : D :=
  let c := consts_ p in
  let r := bc_rudder c in
  let denom := dec 5 1 * af_rho r * af_A r * vc * vc * af_K r * ncos thetac * ncos heel * bc_rr c in
  (taugoal - taus - tauk - bc_taubias c) / denom - thetac.

(** ** Forces and torques: [(force, angle)] *)

Definition SailAirfoil (p : ControlPhysics D) (alpha v : D) : D * D :=
  let s := bc_sail (consts_ p) in
  let absalpha := nabs alpha in
  let signalpha := nofZ (Sign alpha) in
  let trimalpha := nmax (absalpha - dec 5 2) #0 in
  let mag := af_C s * (#1 - nexp (- af_K s * trimalpha)) in
  (dec 5 1 * af_rho s * af_A s * v * v * mag, (npi_2 - nabs alpha) * signalpha).

(** The keel and the rudder have the same form. *)
Definition linear_airfoil (a : Airfoil D) (alpha v : D) : D * D :=
  let absalpha := nabs alpha in
  let signalpha := nofZ (Sign alpha) in
  let mag := af_K a * nmin absalpha (af_maxalpha a) in
  (dec 5 1 * af_rho a * af_A a * v * v * mag, (npi_2 - af_drageps a) * signalpha).
Definition KeelAirfoil (p : ControlPhysics D) (alpha v : D) : D * D := linear_airfoil (bc_keel (consts_ p)) alpha v.
Definition RudderAirfoil (p : ControlPhysics D) (alpha v : D) : D * D := linear_airfoil (bc_rudder (consts_ p)) alpha v.

Definition SailForce (p : ControlPhysics D) (thetaw vw deltas : D) : D * D :=
  let alpha := - norm_angle (thetaw + deltas + npi) in
  let '(Fs, ang) := SailAirfoil p alpha vw in
  (Fs, norm_angle (ang - thetaw)).

Definition KeelForce (p : ControlPhysics D) (thetac vc : D) : D * D :=
  let alpha := - norm_angle thetac in
  let '(Fk, ang) := KeelAirfoil p alpha vc in
  (Fk, norm_angle (ang - thetac + npi)).

Definition RudderForce (p : ControlPhysics D) (thetac vc deltar : D) : D * D :=
  let alpha := - norm_angle (thetac + deltar) in
  let '(Fr, ang) := RudderAirfoil p alpha vc in
  (Fr, norm_angle (ang - thetac + npi)).

Definition SailTorque (p : ControlPhysics D) (Fs gammas deltas heel : D) : D :=
  let c := consts_ p in
  Fs * ((bc_rs c - bc_ls c * ncos deltas) * nsin gammas * ncos heel + bc_hk c * ncos gammas * nsin heel).

Definition KeelTorque (p : ControlPhysics D) (Fk gammak heel : D) : D :=
  let c := consts_ p in
  Fk * (bc_rk c * nsin gammak * ncos heel + bc_hk c * ncos gammak * nsin heel).

Definition RudderTorque (p : ControlPhysics D) (Fr gammar heel : D) : D :=
  Fr * bc_rr (consts_ p) * nsin gammar * ncos heel.

Definition CalcHeel (p : ControlPhysics D) (Fs gammas Fk gammak : D) : D :=
  let c := consts_ p in
  let tanheel := (Fs * bc_hs c * nsin gammas + Fk * bc_hk c * nsin gammak) / (bc_hb c * bc_m c * bc_g c) in
  natan tanheel.

(** The outputs of [NetForce]. *)
Record Net := MkNet { Flon : D; Flat : D; taunet : D; newheel : D; Yrows : list (list D) }.

Definition NetForce (p : ControlPhysics D) (thetaw vw thetac vc deltas deltar omega : D) : Net :=
  let c := consts_ p in
  let '(Fs, gammas) := SailForce p thetaw vw deltas in
  let '(Fk, gammak) := KeelForce p thetac vc in
  let '(Fr, gammar) := RudderForce p thetac vc deltar in
  let heel := CalcHeel p Fs gammas Fk gammak in
  let taus := SailTorque p Fs gammas deltas heel in
  let tauk := KeelTorque p Fk gammak heel in
  let taur := RudderTorque p Fr gammar heel in
  let YFlonBlon := - vc * nabs vc * ncos thetac in
  let YFlonAr := Fr * ncos gammar / af_A (bc_rudder c) in
  let YFlonconst := Fs * ncos gammas + Fk * ncos gammak in
  let YFlon := [YFlonBlon; #0; YFlonAr; #0; #0; YFlonconst] in
  let FBlat := bc_Blat c * vc * nsin thetac in
  let Flat := (Fs * nsin gammas + Fk * nsin gammak + Fr * nsin gammar) * ncos heel + FBlat in
  let YtauBomega := - omega * nabs omega in
  let YtauAr := taur / af_A (bc_rudder c) in
  let Ytaurs := Fs * nsin gammas * ncos heel in
  let Ytauconst := tauk + (taus - Ytaurs * bc_rs c) in
  let Ytau := [#0; YtauBomega; YtauAr; Ytaurs; #1; Ytauconst] in
  MkNet (nth 0 (mvec [YFlon] (beta p)) #0) Flat (nth 0 (mvec [Ytau] (beta p)) #0) heel [YFlon; Ytau].

(** ** The search *)

Definition ClipRudder (p : ControlPhysics D) (deltar thetac : D) : D :=
  let maxrud := af_maxalpha (bc_rudder (consts_ p)) in
  nmax (nmin deltar (maxrud - thetac)) (- maxrud - thetac).

(** The range of sail angles. *)
Definition sail_range (thetaw : D) : D * D :=
  let maxsail := nabs (norm_angle (npi - thetaw)) in
  let minsail := nmax (maxsail - npi_2) #0 in
  let maxsail := nmin maxsail npi_2 in
  (if #0 <? thetaw then minsail else - maxsail, if thetaw <? #0 then - minsail else maxsail).

(** One trial: [None] when the rudder angle is out of range, otherwise the rudder angle
    and the cost. *)
Definition trial (p : ControlPhysics D) (thetaw vw thetac vc taug : D) (constraint : Constraint) (trialds : D)
  : option (D * D) :=
  let mindr := Clip (- af_maxalpha (bc_rudder (consts_ p)) - thetac) (- dec 5 1) #0 in
  let maxdr := Clip (af_maxalpha (bc_rudder (consts_ p)) - thetac) #0 (dec 5 1) in
  let '(Fs, gammas) := SailForce p thetaw vw trialds in
  let '(Fk, gammak) := KeelForce p thetac vc in
  let heel := CalcHeel p Fs gammas Fk gammak in
  let taus := SailTorque p Fs gammas trialds heel in
  let tauk := KeelTorque p Fk gammak heel in
  let trialdr := RudderForTorque p taus tauk taug heel thetac vc in
  let trialdr := match constraint with
                 | kQuadratic => ClipRudder p trialdr thetac
                 | kStarboard => nmax trialdr maxdr
                 | kPort => nmin trialdr mindr
                 end in
  if negb (ClipRudder p trialdr thetac =? trialdr) then None
  else
    let '(Fr, gammar) := RudderForce p thetac vc trialdr in
    let taur := RudderTorque p Fr gammar heel in
    let Flon := Fs * ncos gammas + Fk * ncos gammak + Fr * ncos gammar in
    let taue := taus + tauk + taur + bc_taubias (consts_ p) in
    let cost := - Qf p * Flon in
    let cost := match constraint with
                | kQuadratic => cost + Qtaueq p * (taue - taug) * (taue - taug)
                | kStarboard => cost + Qtaumax p * taue
                | kPort => cost + - Qtaumax p * taue
                end in
    Some (trialdr, cost).

(** [cost < mincost], [None] being infinity. *)
Definition below (cost : D) (mincost : option D) : bool :=
  match mincost with None => nlt_inf cost | Some m => cost <? m end.

(** The loop: [(mincost, success, deltas, deltar)]. *)
Definition trial_step (p : ControlPhysics D) (thetaw vw thetac vc taug : D) (constraint : Constraint)
    (minds deltadeltas : D) (st : option D * bool * D * D) (ii : nat) : option D * bool * D * D :=
  let '(mincost, success, deltas, deltar) := st in
  let trialds := minds + nofZ (Z.of_nat ii) * deltadeltas in
  match trial p thetaw vw thetac vc taug constraint trialds with
  | None => st
  | Some (trialdr, cost) =>
      if below cost mincost then (Some cost, true, trialds, trialdr) else (mincost, true, deltas, deltar)
  end.

(** [(success, deltas, deltar)]; the outputs keep their values when no cost is below
    infinity. *)
Definition GlobalMaxForceForTorque (p : ControlPhysics D) (thetaw vw thetac vc taug : D) (constraint : Constraint)
    (nsteps : Z) (deltas deltar : D) : bool * D * D :=
  let '(minds, maxds) := sail_range thetaw in
  let deltadeltas := (maxds - minds) / nofZ (Z.max 1 (nsteps - 1)) in
  let '(_, success, deltas, deltar) :=
    fold_left (trial_step p thetaw vw thetac vc taug constraint minds deltadeltas) (seq 0 (Z.to_nat nsteps))
      (None, false, deltas, deltar) in
  (success, deltas, deltar).

(** ** The node *)

Definition adaptive_dt : D := nfloat (dec 5 2).
Definition Kref : D := dec 99 2.
Definition Kmax_exp_vel : D := dec 2 1.
Definition Kmax_exp_acc : D := dec 2 1.
Definition Lambda : list (list D) := [[#1; #0]; [#0; #1]].

Definition adaptive_send (o : AdOut D) (s : AdaptiveControl D) : AdaptiveControl D := set_ad_out (ad_out s ++ [o]) s.

(** Only the diagonal of [Kbeta] is assigned: [offdiag i j] is what its other entries
    hold. *)
Definition Kbeta_init (offdiag : nat -> nat -> D) : list (list D) :=
  map (λ i, map (λ j, if (i =? j)%nat then if (i =? 3)%nat then dec 4 3 else #0 else offdiag i j) (seq 0 6)) (seq 0 6).

Definition default_adaptive_consts : ControllerConstants D :=
  set_qf (Some #1) (set_rudder_kp (Some #25) (set_winch_kp (Some #13) Constants_clear)).

Definition empty_boat_state : BoatState D :=
  MkBoatState (V3 #0 #0 #0) (V3 #0 #0 #0) (V3 #0 #0 #0) (V3 #0 #0 #0) Internal_clear.

Definition AdaptiveControl_init (offdiag : nat -> nat -> D) : AdaptiveControl D :=
  MkAdaptive (Kbeta_init offdiag) ControlPhysics_init SailCmd_clear RudderCmd_clear empty_boat_state
    default_adaptive_consts (nfloat (#2 * npi / #4)) #0 #0 #0 #0 #0 #0 #0 #0 []
  |> adaptive_send (OutAdConsts default_adaptive_consts).

Definition adaptive_handle_boat_state (m : BoatState D) (s : AdaptiveControl D) : AdaptiveControl D :=
  let vx := v3x (vel m) in
  let vy := v3y (vel m) in
  let yaw := v3z (euler m) in
  s |> set_ad_boat_state m |> set_ad_yaw yaw |> set_ad_omega (v3z (omega m))
    |> set_ad_thetac (nfloat (- norm_angle (natan2 vy vx - yaw)))
    |> set_ad_thetac #0
    |> set_ad_vc (nfloat (nsqrt (vx * vx + vy * vy))).

Definition adaptive_handle_wind (w : vec3 D) (s : AdaptiveControl D) : AdaptiveControl D :=
  let wx := v3x w in
  let wy := v3y w in
  s |> set_ad_thetaw (nfloat (norm_angle (natan2 (- wy) wx)))
    |> set_ad_vw (nfloat (nsqrt (wy * wy + wx * wx) * dec 16 1)).

Definition adaptive_handle_heading (m : HeadingCmd D) (s : AdaptiveControl D) : AdaptiveControl D :=
  match heading m with Some h => s |> set_ad_heading h | None => s end.

Definition adaptive_handle_consts (c : ControllerConstants D) (s : AdaptiveControl D) : AdaptiveControl D :=
  match qf c with
  | Some q =>
      let p := physics_ s in
      s |> set_ad_consts c |> set_physics_ (MkPhysics (consts_ p) q (Qtaumax p) (Qtaueq p))
  | None => s
  end.

Definition transpose2 (rows : list (list D)) : list (list D) :=
  map (λ i, map (λ r, nth i r #0) rows) (seq 0 6).

Definition Adaptor (s : AdaptiveControl D) (deltas deltar : D) : list D :=
  let Y := Yrows (NetForce (physics_ s) (ad_thetaw s) (ad_vw s) (ad_thetac s) (ad_vc s) deltas deltar #0) in
  let sigma := zip_with nadd [#0; fsubf (ad_omega_ref s) (ad_omega s)]
                 (mvec Lambda [#0; norm_angle (fsubf (ad_yaw_ref s) (ad_yaw s))]) in
  mvec (mmul (map (map nopp) (Kbeta s)) (transpose2 Y)) sigma.

Definition UpdateYawRef (s : AdaptiveControl D) : AdaptiveControl D :=
  let s := s |> set_ad_yaw_ref
                  (nfloat (norm_angle (Kref * norm_angle (fsubf (ad_yaw_ref s) (ad_yaw s)) + ad_yaw s))) in
  let s := s |> set_ad_omega_ref (nfloat (Kref * ad_omega_ref s + (#1 - Kref) * ad_omega s)) in
  let exp_vel := Clip (norm_angle (fsubf (ad_heading s) (ad_yaw_ref s))) (- Kmax_exp_vel) Kmax_exp_vel in
  let exp_acc := Clip (norm_angle (exp_vel - ad_omega_ref s)) (- Kmax_exp_acc) Kmax_exp_acc in
  let s :=
    if Kmax_exp_vel <? #0 then s |> set_ad_yaw_ref (ad_heading s)
    else if Kmax_exp_acc <? #0 then s |> set_ad_yaw_ref (nfloat (ad_yaw_ref s + exp_vel * adaptive_dt))
    else s |> set_ad_yaw_ref (nfloat (faddf (ad_yaw_ref s) (fmulf (ad_omega_ref s) adaptive_dt)
                                      + dec 5 1 * exp_acc * adaptive_dt * adaptive_dt))
           |> set_ad_omega_ref (nfloat (ad_omega_ref s + exp_acc * adaptive_dt)) in
  s |> set_ad_yaw_ref (nfloat (norm_angle (ad_yaw_ref s))).

(** [(success, deltas, deltar)] and the new state; the angles come in uninitialised. *)
Definition Controller (ds0 dr0 : D) (s : AdaptiveControl D) : bool * D * D * AdaptiveControl D :=
  let taue := get (rudder_kp (ad_consts s)) * norm_angle (fsubf (ad_heading s) (ad_yaw s)) - #15 * ad_omega s in
  let '(ok, deltas, deltar) :=
    GlobalMaxForceForTorque (physics_ s) (ad_thetaw s) (ad_vw s) (ad_thetac s) (ad_vc s) taue kQuadratic 20 ds0 dr0 in
  if negb ok then (false, deltas, deltar, s)
  else
    let betadot := Adaptor s deltas deltar in
    let s := s |> set_physics_ (IncrementBeta (map (λ b, b * adaptive_dt) betadot) (physics_ s)) in
    (true, deltas, deltar, UpdateYawRef s).

Definition Adaptive_Iterate (ds0 dr0 : D) (s : AdaptiveControl D) : AdaptiveControl D :=
  let '(ok, deltas, deltar, s) := Controller ds0 dr0 s in
  let '(deltas, deltar) := if ok then (deltas, deltar) else (#0, #0) in
  let deltas := nabs deltas in
  let cursail := get (sail (internal (ad_boat_state s))) in
  let sail_err := norm_angle (deltas - cursail) in
  let s := s |> set_ad_sail_msg
                  (set_sail_pos (Some (nfloat deltas))
                    (set_sail_voltage (Some (nfloat (get (winch_kp (ad_consts s)) * sail_err / nsqrt (nabs sail_err))))
                      (ad_sail_msg s)))
             |> set_ad_rudder_msg
                  (set_rudder_pos (Some (nfloat (Clip deltar (- dec 5 1) (dec 5 1)))) (ad_rudder_msg s)) in
  s |> adaptive_send (OutAdSail (ad_sail_msg s)) |> adaptive_send (OutAdRudder (ad_rudder_msg s))
    |> adaptive_send (OutAdConsts (ad_consts s)).

Inductive AdEvent :=
| EvAdState (m : BoatState D)
| EvAdWind (w : vec3 D)
| EvAdHeading (m : HeadingCmd D)
| EvAdConsts (c : ControllerConstants D)
| EvAdSbus
| EvAdIterate (ds0 dr0 : D).

Definition adaptive_step (s : AdaptiveControl D) (e : AdEvent) : AdaptiveControl D :=
  match e with
  | EvAdState m => adaptive_handle_boat_state m s
  | EvAdWind w => adaptive_handle_wind w s
  | EvAdHeading m => adaptive_handle_heading m s
  | EvAdConsts c => adaptive_handle_consts c s
  | EvAdSbus => s
  | EvAdIterate ds0 dr0 => Adaptive_Iterate ds0 dr0 s
  end.

Definition adaptive_run (es : list AdEvent) (s : AdaptiveControl D) : AdaptiveControl D :=
  fold_left adaptive_step es s.
End Physics.
Arguments Net : clear implicits.
Arguments AdEvent : clear implicits.

(** ** The model is linear in its parameters, in exact arithmetic *)

#[local] Open Scope R_scope.

Section Exact.
Context {DE : Dense R} {DL : DenseLaws R}.

(** In exact arithmetic the regressor rows times the parameters give the forward force
    and the yaw torque of the physical model: sum of the sail's, keel's and rudder's parts,
    damping and bias; so what is adapted are the coefficients of the model used to
    choose the angles. *)
Theorem net_force_linear (p : ControlPhysics R) (thetaw vw thetac vc deltas deltar omega : R) :
  af_A (bc_rudder (consts_ p)) ≠ 0 ->
  let n := NetForce p thetaw vw thetac vc deltas deltar omega in
  let '(Fs, gammas) := SailForce p thetaw vw deltas in
  let '(Fk, gammak) := KeelForce p thetac vc in
  let '(Fr, gammar) := RudderForce p thetac vc deltar in
  let heel := CalcHeel p Fs gammas Fk gammak in
  Flon n = Fs * cos gammas + Fk * cos gammak + Fr * cos gammar - bc_Blon (consts_ p) * (vc * Rabs vc * cos thetac)
  ∧ taunet n = SailTorque p Fs gammas deltas heel + KeelTorque p Fk gammak heel + RudderTorque p Fr gammar heel
               + bc_taubias (consts_ p) - bc_Bomega (consts_ p) * (omega * Rabs omega).
Proof.
  intros HA. unfold NetForce. cbv zeta.
  destruct (SailForce p thetaw vw deltas) as [Fs gs]. destruct (KeelForce p thetac vc) as [Fk gk].
  destruct (RudderForce p thetac vc deltar) as [Fr gr]. cbn [Flon taunet].
  rewrite !mvec_eq. unfold row_dot, beta. simpl. split; field; done.
Qed.

(** ** The search *)

Lemma nmax_R a b : nmax a b = Rmax a b.
Proof. unfold nmax. simpl. unfold Rmax. case_R; destruct (Rle_dec a b); lra. Qed.

Lemma nmin_R a b : nmin a b = Rmin a b.
Proof. unfold nmin. simpl. unfold Rmin. case_R; destruct (Rle_dec a b); lra. Qed.

(** What [trial_step] keeps: after the trials [done], the best one is recorded. *)
Definition best_of (f : nat -> option (R * R)) (ds : nat -> R) (done : list nat) (st : option R * bool * R * R) : Prop :=
  let '(mincost, success, deltas, deltar) := st in
  (success = true <-> ∃ ii, ii ∈ done ∧ f ii ≠ None)
  ∧ (mincost = None -> success = false)
  ∧ (∀ m, mincost = Some m ->
       (∃ ii, ii ∈ done ∧ deltas = ds ii ∧ f ii = Some (deltar, m))
       ∧ ∀ jj dr c, jj ∈ done -> f jj = Some (dr, c) -> m <= c).

Section Search.
Variables (p : ControlPhysics R) (thetaw vw thetac vc taug : R) (cn : Constraint) (minds dd : R).
Let ds (ii : nat) : R := minds + IZR (Z.of_nat ii) * dd.
Let f (ii : nat) : option (R * R) := trial p thetaw vw thetac vc taug cn (ds ii).

Lemma trial_step_best done st ii :
  best_of f ds done st -> best_of f ds (done ++ [ii]) (trial_step p thetaw vw thetac vc taug cn minds dd st ii).
Proof.
  destruct st as [[[mc su] a] b]. intros (Hs & Hn & Hm). unfold trial_step.
  change (trial p thetaw vw thetac vc taug cn (minds + nofZ (Z.of_nat ii) * dd)%num) with (f ii).
  destruct (f ii) as [[dr c]|] eqn:E.
  - assert (∃ jj, jj ∈ done ++ [ii] ∧ f jj ≠ None) as Hex.
    { exists ii. split; [apply elem_of_app; right; left|by rewrite E]. }
    destruct (below c mc) eqn:Eb; split_and!; try done.
    + intros m [= <-]. split; [exists ii; split_and!; [apply elem_of_app; right; left|done|done]|].
      intros jj dr' c' [Hj|Hj]%elem_of_app Ej; [|apply list_elem_of_singleton in Hj as ->; rewrite E in Ej; injection Ej as _ <-; lra].
      destruct mc as [m0|]; simpl in Eb.
      * destruct (Hm m0 eq_refl) as [_ Hle]. specialize (Hle jj dr' c' Hj Ej).
        revert Eb. case_R; [lra|done].
      * assert (su = true) as Hsu by (apply Hs; exists jj; split; [done|by rewrite Ej]). by rewrite Hn in Hsu.
    + intros ->. simpl in Eb. done.
    + intros m ->. destruct (Hm m eq_refl) as [(jj & Hj & Ha & Ef) Hle]. split.
      * exists jj. split_and!; [apply elem_of_app; by left|done|done].
      * intros kk dr' c' [Hk|Hk]%elem_of_app Ek; [by eapply Hle|].
        apply list_elem_of_singleton in Hk as ->. rewrite E in Ek. injection Ek as <- <-. simpl in Eb.
        revert Eb. case_R; [done|lra].
  - split_and!; [|done|].
    + rewrite Hs. split; intros (jj & Hj & Ej); exists jj; (split; [|done]).
      * apply elem_of_app. by left.
      * apply elem_of_app in Hj as [?|Hj]; [done|]. apply list_elem_of_singleton in Hj as ->. by rewrite E in Ej.
    + intros m ->. destruct (Hm m eq_refl) as [(jj & Hj & Ha & Ef) Hle]. split.
      * exists jj. split_and!; [apply elem_of_app; by left|done|done].
      * intros kk dr' c' [Hk|Hk]%elem_of_app Ek; [by eapply Hle|].
        apply list_elem_of_singleton in Hk as ->. by rewrite E in Ek.
Qed.

Lemma trials_best n a b :
  best_of f ds (seq 0 n) (fold_left (trial_step p thetaw vw thetac vc taug cn minds dd) (seq 0 n) (None, false, a, b)).
Proof.
  induction n as [|n IH].
  - simpl. split_and!; [|done|done]. split; [done|]. by intros (ii & Hi%elem_of_nil & _).
  - rewrite seq_S, fold_left_app. simpl. by apply trial_step_best.
Qed.
End Search.

Lemma ClipRudder_R (p : ControlPhysics R) d t :
  0 <= af_maxalpha (bc_rudder (consts_ p)) ->
  let m := af_maxalpha (bc_rudder (consts_ p)) in
  - m - t <= ClipRudder p d t <= m - t ∧ ClipRudder p (ClipRudder p d t) t = ClipRudder p d t.
Proof.
  intros Hm m. unfold ClipRudder. fold m. simpl. rewrite !nmax_R, !nmin_R. fold m in Hm.
  unfold Rmax, Rmin. repeat destruct (Rle_dec _ _); lra.
Qed.

(** Under the quadratic constraint every trial is valid. *)
Lemma trial_quadratic p thetaw vw thetac vc taug ds :
  0 <= af_maxalpha (bc_rudder (consts_ p)) ->
  ∃ dr c, trial p thetaw vw thetac vc taug kQuadratic ds = Some (dr, c)
          ∧ - af_maxalpha (bc_rudder (consts_ p)) <= dr + thetac <= af_maxalpha (bc_rudder (consts_ p)).
Proof.
  intros Hm. unfold trial. cbv zeta. destruct (SailForce _ _ _ _) as [Fs gs]. destruct (KeelForce _ _ _) as [Fk gk].
  match goal with |- context [RudderForTorque ?a ?b ?c ?d ?e ?f ?g] => set (r := RudderForTorque a b c d e f g) end.
  destruct (ClipRudder_R p r thetac Hm) as [Hb Hi]. simpl in Hi, Hb. rewrite Hi.
  replace (neqb (ClipRudder p r thetac) (ClipRudder p r thetac)) with true by (simpl; by case_R).
  cbn [negb]. destruct (RudderForce _ _ _ _) as [Fr gr]. eexists _, _. split; [done|]. lra.
Qed.

(** The search under the quadratic constraint. *)
Lemma search_quadratic (p : ControlPhysics R) (thetaw vw thetac vc taug : R) (nsteps : Z) (ds0 dr0 : R) :
  (0 < nsteps)%Z -> 0 <= af_maxalpha (bc_rudder (consts_ p)) ->
  let '(minds, maxds) := sail_range thetaw in
  let ds ii := minds + IZR (Z.of_nat ii) * ((maxds - minds) / IZR (Z.max 1 (nsteps - 1))) in
  let '(success, deltas, deltar) :=
    GlobalMaxForceForTorque p thetaw vw thetac vc taug kQuadratic nsteps ds0 dr0 in
  success = true
  ∧ ∃ ii c, (ii < Z.to_nat nsteps)%nat ∧ deltas = ds ii
      ∧ trial p thetaw vw thetac vc taug kQuadratic deltas = Some (deltar, c)
      ∧ - af_maxalpha (bc_rudder (consts_ p)) <= deltar + thetac <= af_maxalpha (bc_rudder (consts_ p))
      ∧ ∀ jj dr c', (jj < Z.to_nat nsteps)%nat ->
          trial p thetaw vw thetac vc taug kQuadratic (ds jj) = Some (dr, c') -> c <= c'.
Proof.
  intros Hn Hm. unfold GlobalMaxForceForTorque. destruct (sail_range thetaw) as [minds maxds]. cbv zeta.
  set (dd := (maxds - minds) / IZR (Z.max 1 (nsteps - 1))).
  pose proof (trials_best p thetaw vw thetac vc taug kQuadratic minds dd (Z.to_nat nsteps) ds0 dr0) as Hb.
  change ((maxds - minds) / nofZ (Z.max 1 (nsteps - 1)))%num with dd.
  destruct (fold_left _ _ _) as [[[mc su] a] b]. destruct Hb as (Hs & Hno & Hmin).
  destruct (trial_quadratic p thetaw vw thetac vc taug (minds + IZR (Z.of_nat 0) * dd) Hm) as (dr & c & E & _).
  assert (su = true) as -> by (apply Hs; exists 0%nat; split; [apply elem_of_seq; lia|by rewrite E]).
  split; [done|]. destruct mc as [m|]; [|by specialize (Hno eq_refl)].
  destruct (Hmin m eq_refl) as [(ii & Hi & -> & Ef) Hle]. exists ii, m. apply elem_of_seq in Hi.
  split_and!; [lia|done|done| | |].
  - destruct (trial_quadratic p thetaw vw thetac vc taug (minds + IZR (Z.of_nat ii) * dd) Hm) as (dr' & c' & E' & Hb).
    rewrite E' in Ef. injection Ef as -> ->. lra.
  - destruct (trial_quadratic p thetaw vw thetac vc taug (minds + IZR (Z.of_nat ii) * dd) Hm) as (dr' & c' & E' & Hb).
    rewrite E' in Ef. injection Ef as -> ->. lra.
  - intros jj dr' c' Hj Ej. apply (Hle jj dr'); [apply elem_of_seq; lia|done].
Qed.

Lemma sail_range_R thetaw :
  Rabs thetaw <= PI ->
  let '(minds, maxds) := sail_range thetaw in
  - (PI / 2) <= minds <= PI / 2 ∧ - (PI / 2) <= maxds <= PI / 2.
Proof.
  intros H. apply Rabs_bounds in H. pose proof PI_RGT_0. pose proof PI_4.
  assert (- PI <= norm_angle (PI - thetaw) <= PI) as Hn by (apply norm_angle_spec, Rabs_le; lra).
  unfold sail_range, npi_2. rewrite nmax_R, nmin_R. simpl. set (n := norm_angle (PI - thetaw)) in *.
  assert (0 <= Rabs n <= PI) as Ha by (split; [apply Rabs_pos|apply Rabs_le; lra]).
  unfold Rmax, Rmin. destruct (Rle_dec (Rabs n - PI / 2) 0), (Rle_dec (Rabs n) (PI / 2)), (Rltb_spec 0 thetaw);
    case_R; lra.
Qed.

(** A point of a grid from [a] to [b]. *)
Lemma grid_range (a b lo hi : R) (n : Z) (ii : nat) :
  (1 < n)%Z -> (ii < Z.to_nat n)%nat -> lo <= a <= hi -> lo <= b <= hi ->
  lo <= a + IZR (Z.of_nat ii) * ((b - a) / IZR (Z.max 1 (n - 1))) <= hi.
Proof.
  intros Hn Hi Ha Hb. rewrite Z.max_r by lia. set (m := IZR (n - 1)).
  assert (0 < m) as Hm by (apply (IZR_lt 0); lia).
  assert (0 <= IZR (Z.of_nat ii) <= m) as Hk by (split; apply IZR_le; lia).
  set (t := IZR (Z.of_nat ii) / m).
  assert (0 <= t <= 1) as Ht.
  { unfold t. split; [apply Rmult_le_pos; [lra|left; by apply Rinv_0_lt_compat]|].
    apply Rmult_le_reg_r with m; [done|]. unfold Rdiv. rewrite Rmult_assoc, Rinv_l by lra. lra. }
  replace (a + IZR (Z.of_nat ii) * ((b - a) / m)) with (a * (1 - t) + b * t) by (unfold t; field; lra).
  nra.
Qed.

(** What the search divides by: the righting moment of the ballast, and the torque of a unit of
    rudder angle, which is zero for a boat at rest or going sideways. *)
Record divisors_ok (p : ControlPhysics R) (thetac vc : R) : Prop := {
  div_heel : bc_hb (consts_ p) * bc_m (consts_ p) * bc_g (consts_ p) ≠ 0;
  div_rudder : af_rho (bc_rudder (consts_ p)) ≠ 0 ∧ af_A (bc_rudder (consts_ p)) ≠ 0 ∧ af_K (bc_rudder (consts_ p)) ≠ 0
               ∧ bc_rr (consts_ p) ≠ 0;
  div_speed : vc ≠ 0;
  div_leeway : cos thetac ≠ 0;
}.

(** The torque of a unit of rudder angle, and the torques of sail, keel and bias, with the sail at
    [ds]. *)
Definition trial_torques (p : ControlPhysics R) (thetaw vw thetac vc ds : R) : R * R :=
  let c := consts_ p in
  let '(Fs, gammas) := SailForce p thetaw vw ds in
  let '(Fk, gammak) := KeelForce p thetac vc in
  let heel := CalcHeel p Fs gammas Fk gammak in
  let r := bc_rudder c in
  (5 / 10 * af_rho r * af_A r * vc * vc * af_K r * cos thetac * cos heel * bc_rr c,
   SailTorque p Fs gammas ds heel + KeelTorque p Fk gammak heel + bc_taubias c).

(** The rudder angle of a trial is the one that balances the torques, clipped. *)
Lemma trial_balance p thetaw vw thetac vc taug ds dr c :
  divisors_ok p thetac vc -> 0 <= af_maxalpha (bc_rudder (consts_ p)) ->
  trial p thetaw vw thetac vc taug kQuadratic ds = Some (dr, c) ->
  let '(unit, others) := trial_torques p thetaw vw thetac vc ds in
  unit ≠ 0 ∧ ∃ d, unit * (d + thetac) + others = taug ∧ dr = ClipRudder p d thetac.
Proof.
  intros [_ (H1 & H2 & H3 & H4) H5 H6] Hm. unfold trial, trial_torques. cbv zeta.
  destruct (SailForce p thetaw vw ds) as [Fs gs]. destruct (KeelForce p thetac vc) as [Fk gk].
  set (heel := CalcHeel p Fs gs Fk gk).
  assert (cos heel ≠ 0) as H7.
  { unfold heel, CalcHeel. simpl. match goal with |- context [atan ?x] => destruct (atan_bound x) as [A1 A2] end.
    apply Rgt_not_eq, cos_gt_0; lra. }
  match goal with |- context [RudderForTorque ?a ?b ?c ?d ?e ?f ?g] => set (r := RudderForTorque a b c d e f g) end.
  destruct (ClipRudder_R p r thetac Hm) as [_ Hi]. simpl in Hi. rewrite Hi.
  replace (neqb (ClipRudder p r thetac) (ClipRudder p r thetac)) with true by (simpl; by case_R).
  cbn [negb]. destruct (RudderForce p thetac vc _) as [Fr gr]. intros [= <- _]. split.
  - repeat (apply Rmult_integral_contrapositive_currified); try done; lra.
  - exists r. split; [|done]. unfold r, RudderForTorque. dec_R. simpl. field. by split_and!.
Qed.

(** C34: In exact arithmetic, when the boat makes way and does not go sideways, so that no
    divisor is zero, the search of the adaptive controller succeeds under its quadratic
    constraint.  It returns a sail angle of the grid, at most a quarter turn to either
    side, and for it the rudder angle that gives the torque asked for, clipped to the
    rudder's limits; and the cost of the pair is the least of the whole grid. *)
Theorem adaptive_search_optimal (p : ControlPhysics R) (thetaw vw thetac vc taug : R) (nsteps : Z) (ds0 dr0 : R) :
  (1 < nsteps)%Z -> Rabs thetaw <= PI -> 0 <= af_maxalpha (bc_rudder (consts_ p)) -> divisors_ok p thetac vc ->
  let '(minds, maxds) := sail_range thetaw in
  let ds ii := minds + IZR (Z.of_nat ii) * ((maxds - minds) / IZR (Z.max 1 (nsteps - 1))) in
  let '(success, deltas, deltar) :=
    GlobalMaxForceForTorque p thetaw vw thetac vc taug kQuadratic nsteps ds0 dr0 in
  let '(unit, others) := trial_torques p thetaw vw thetac vc deltas in
  success = true ∧ Rabs deltas <= PI / 2
  ∧ (unit ≠ 0 ∧ ∃ d, unit * (d + thetac) + others = taug ∧ deltar = ClipRudder p d thetac)
  ∧ ∃ ii c, (ii < Z.to_nat nsteps)%nat ∧ deltas = ds ii
      ∧ trial p thetaw vw thetac vc taug kQuadratic deltas = Some (deltar, c)
      ∧ - af_maxalpha (bc_rudder (consts_ p)) <= deltar + thetac <= af_maxalpha (bc_rudder (consts_ p))
      ∧ ∀ jj dr c', (jj < Z.to_nat nsteps)%nat ->
          trial p thetaw vw thetac vc taug kQuadratic (ds jj) = Some (dr, c') -> c <= c'.
Proof.
  intros Hn Hw Hm Hd. pose proof (sail_range_R thetaw Hw) as Hr.
  pose proof (search_quadratic p thetaw vw thetac vc taug nsteps ds0 dr0 ltac:(lia) Hm) as Hs.
  destruct (sail_range thetaw) as [a b]. destruct (GlobalMaxForceForTorque _ _ _ _ _ _ _ _ _ _) as [[su ds] dr].
  destruct Hs as (-> & ii & c & Hi & Eds & Ht & Hrest).
  pose proof (trial_balance p thetaw vw thetac vc taug ds dr c Hd Hm Ht) as Hb.
  destruct (trial_torques p thetaw vw thetac vc ds) as [u o]. refine (conj eq_refl (conj _ (conj Hb _))); [|eauto 7].
  apply Rabs_le. rewrite Eds. apply grid_range; [lia|lia|lra..].
Qed.

(** ** The invariant of the node *)

(** What sensors may report: a yaw and a turn rate within generous bounds. *)
Definition ad_event_ok (W : R) (e : AdEvent R) : Prop :=
  match e with
  | EvAdState m => Rabs (v3z (euler m)) <= 100 ∧ Rabs (v3z (omega m)) <= W
  | EvAdHeading m => ∀ h, heading m = Some h -> Rabs h <= 100
  | _ => True
  end.

(** The parameters are within [betamin_] and [betamax_], and the fixed limits hold. *)
Definition physics_ok (p : ControlPhysics R) : Prop :=
  let c := consts_ p in
  0 <= bc_Blon c <= 1000 ∧ 0 <= bc_Bomega c <= 10000 ∧ 1 / 100 <= af_A (bc_rudder c) <= 1
  ∧ -1 <= bc_rs c <= 1 ∧ -10 <= bc_taubias c <= 10 ∧ af_maxalpha (bc_rudder c) = 25 / 100.

(** What a sent message may command. *)
Definition ad_out_ok (o : AdOut R) : Prop :=
  match o with
  | OutAdSail m => ∃ x, sail_pos m = Some x ∧ 0 <= x <= PI / 2
  | OutAdRudder m => ∃ x, rudder_pos m = Some x ∧ - (25 / 100) <= x <= 25 / 100
  | OutAdConsts _ => True
  end.

Record adaptive_ok (W : R) (s : AdaptiveControl R) : Prop := MkAdaptiveOk {
  aok_Kbeta : length (Kbeta s) = 6%nat;
  aok_physics : physics_ok (physics_ s);
  aok_yaw : Rabs (ad_yaw s) <= 100;
  aok_heading : Rabs (ad_heading s) <= 100;
  aok_omega : Rabs (ad_omega s) <= W;
  aok_thetaw : Rabs (ad_thetaw s) <= PI;
  aok_thetac : ad_thetac s = 0;
  aok_yaw_ref : Rabs (ad_yaw_ref s) <= PI;
  aok_omega_ref : Rabs (ad_omega_ref s) <= W + 1;
  aok_out : Forall ad_out_ok (ad_out s);
}.

Lemma norm_angle_abs a : Rabs a <= 10000 -> Rabs (norm_angle a) <= PI.
Proof. intros H. apply Rabs_le. destruct (norm_angle_spec a H) as [? _]. lra. Qed.

Lemma IncrementBeta_ok (diff : list R) (p : ControlPhysics R) :
  length diff = 6%nat -> physics_ok p -> physics_ok (IncrementBeta diff p).
Proof.
  intros Hd (_ & _ & _ & _ & _ & Hm). unfold IncrementBeta. rewrite cmin_eq, cmax_eq.
  destruct diff as [|d0 [|d1 [|d2 [|d3 [|d4 [|d5 [|]]]]]]]; try done. unfold physics_ok. simpl.
  assert (∀ x lo hi, lo <= hi -> lo <= nmin (nmax x lo) hi <= hi) as Hc.
  { intros x lo hi H. rewrite nmax_R, nmin_R. unfold Rmax, Rmin. repeat destruct (Rle_dec _ _); lra. }
  dec_R. split_and!; try apply Hc; try done; lra.
Qed.

Lemma tenths : dec 2 1 = 2 / 10 ∧ dec 5 1 = 5 / 10 ∧ dec 99 2 = 99 / 100 ∧ dec 5 2 = 5 / 100.
Proof. dec_R. done. Qed.

(** The reference stays a normalised angle, its rate close to the rates reported. *)
Lemma UpdateYawRef_bounds (W : R) (s : AdaptiveControl R) :
  0 <= W <= 1000 -> adaptive_ok W s ->
  ∃ y o, UpdateYawRef s = set_ad_yaw_ref y (set_ad_omega_ref o s) ∧ Rabs y <= PI ∧ Rabs o <= W + 1.
Proof.
  intros HW [_ _ Hyaw Hh Ho _ _ Hy Hor _]. pose proof PI_RGT_0. pose proof PI_4.
  destruct tenths as (E2 & E5 & E99 & Edt).
  unfold UpdateYawRef, fsubf, faddf, fmulf, adaptive_dt, Kref, Kmax_exp_vel, Kmax_exp_acc.
  rewrite E2, E5, E99, Edt. cbn -[norm_angle Clip IZR Rltb Rlt_dec]. case_R; [lra|]. cbn -[norm_angle Clip IZR Rltb Rlt_dec].
  apply Rabs_bounds in Hyaw, Hh, Ho, Hy, Hor.
  assert (- PI <= norm_angle (ad_yaw_ref s - ad_yaw s) <= PI) as H1 by (apply norm_angle_spec, Rabs_le; lra).
  set (n1 := norm_angle (ad_yaw_ref s - ad_yaw s)) in *.
  assert (- PI <= norm_angle (99 / 100 * n1 + ad_yaw s) <= PI) as H2 by (apply norm_angle_spec, Rabs_le; lra).
  set (n2 := norm_angle (99 / 100 * n1 + ad_yaw s)) in *.
  set (o1 := 99 / 100 * ad_omega_ref s + (1 - 99 / 100) * ad_omega s) in *.
  match goal with |- context [Clip ?a ?b ?c] => pose proof (Clip_R a b c ltac:(lra)) end.
  match goal with |- context [norm_angle (Clip ?a ?b ?c - o1)] => set (ev := Clip a b c) in * end.
  match goal with |- context [Clip ?a ?b ?c] => pose proof (Clip_R a b c ltac:(lra)); set (ea := Clip a b c) in * end.
  eexists _, _. split; [reflexivity|]. split; [|apply Rabs_le; subst o1; lra].
  apply norm_angle_abs, Rabs_le. subst o1. lra.
Qed.

Lemma Adaptor_length s ds dr : length (Kbeta s) = 6%nat -> length (Adaptor s ds dr) = 6%nat.
Proof. intros H. unfold Adaptor. cbv zeta. by rewrite mvec_eq, mmul_eq, !length_map. Qed.

(** The controller succeeds, keeps the invariant and returns angles within their limits. *)
Lemma Controller_ok (W ds0 dr0 : R) (s : AdaptiveControl R) :
  0 <= W <= 1000 -> adaptive_ok W s ->
  let '(ok, ds, dr, s') := Controller ds0 dr0 s in
  ok = true ∧ Rabs ds <= PI / 2 ∧ - (25 / 100) <= dr <= 25 / 100 ∧ adaptive_ok W s'.
Proof.
  intros HW Hs. pose proof Hs as [Hk Hp Hyaw Hh Ho Hw Hc Hy Hor Hout].
  pose proof Hp as (_ & _ & _ & _ & _ & Hm). unfold Controller. cbv zeta.
  match goal with |- context [GlobalMaxForceForTorque ?p ?w ?vw ?c ?vc ?t _ _ _ _] =>
    pose proof (search_quadratic p w vw c vc t 20 ds0 dr0 ltac:(lia) ltac:(rewrite Hm; lra)) as Hq end.
  pose proof (sail_range_R _ Hw) as Hr. destruct (sail_range (ad_thetaw s)) as [a b].
  destruct (GlobalMaxForceForTorque _ _ _ _ _ _ _ _ _ _) as [[su ds] dr].
  destruct Hq as (-> & ii & c & Hi & Eds & _ & Hdr & _). cbn [negb].
  rewrite Hm, Hc in Hdr. split_and!; [done|apply Rabs_le; rewrite Eds; apply grid_range; [lia|lia|lra..]|lra|lra|].
  set (s1 := set_physics_ _ s).
  assert (adaptive_ok W s1) as H1.
  { constructor; try done. apply IncrementBeta_ok; [|done]. rewrite length_map. by apply Adaptor_length. }
  destruct (UpdateYawRef_bounds W s1 HW H1) as (y & o & -> & Hy' & Ho'). by destruct H1; constructor.
Qed.

Lemma Adaptive_Iterate_ok (W ds0 dr0 : R) (s : AdaptiveControl R) :
  0 <= W <= 1000 -> adaptive_ok W s -> adaptive_ok W (Adaptive_Iterate ds0 dr0 s).
Proof.
  intros HW Hs. unfold Adaptive_Iterate. pose proof (Controller_ok W ds0 dr0 s HW Hs) as Hc.
  destruct (Controller ds0 dr0 s) as [[[ok ds] dr] s']. destruct Hc as (-> & Hds & Hdr & [? ? ? ? ? ? ? ? ? Hout]).
  constructor; try done. cbn -[norm_angle Clip IZR Rdiv dec].
  rewrite <- !app_assoc. apply Forall_app. split; [done|]. repeat constructor; cbn -[norm_angle Clip IZR Rdiv dec].
  - eexists. split; [done|]. split; [apply Rabs_pos|done].
  - eexists. split; [done|]. destruct tenths as (_ & -> & _).
    unfold Clip. rewrite nmax_R, nmin_R. unfold Rmax, Rmin. simpl. repeat destruct (Rle_dec _ _); lra.
Qed.

Lemma adaptive_step_ok (W : R) (s : AdaptiveControl R) (e : AdEvent R) :
  0 <= W <= 1000 -> ad_event_ok W e -> adaptive_ok W s -> adaptive_ok W (adaptive_step s e).
Proof.
  intros HW He Hs. pose proof PI_RGT_0. pose proof Hs as [Hk Hp Hyaw Hh Ho Hw Hc Hy Hor Hout].
  destruct e as [m|w|m|c| |ds0 dr0]; simpl in *; [..|done|by apply Adaptive_Iterate_ok].
  - destruct He. by constructor.
  - constructor; try done. apply norm_angle_abs. pose proof (Ratan2_bound (- v3y w) (v3x w)). simpl. lra.
  - unfold adaptive_handle_heading. destruct (heading m) as [h|]; [|done]. constructor; try done. by apply He.
  - unfold adaptive_handle_consts. destruct (qf c); [|done]. by constructor.
Qed.

(** C33: In exact arithmetic, whatever messages arrive in whatever order (reported yaw and
    commanded headings at most 100 in size, turn rates at most [W]) and whatever the
    uninitialised off-diagonal gains hold: the adapted parameters stay within their
    limits, the reference yaw stays in [-pi, pi] and its rate within [W + 1], every sail
    command is between 0 and pi/2 and every rudder command within 0.25, the rudder's
    limit. *)
Theorem adaptive_invariant (W : R) (offdiag : nat -> nat -> R) (es : list (AdEvent R)) :
  0 <= W <= 1000 -> Forall (ad_event_ok W) es ->
  let s := adaptive_run es (AdaptiveControl_init offdiag) in
  physics_ok (physics_ s) ∧ Rabs (ad_yaw_ref s) <= PI ∧ Rabs (ad_omega_ref s) <= W + 1
  ∧ Forall ad_out_ok (ad_out s).
Proof.
  intros HW. assert (adaptive_ok W (AdaptiveControl_init offdiag)) as H0.
  { pose proof PI_RGT_0. pose proof PI_4.
    constructor; simpl; rewrite ?Rabs_R0; try lra; [done| |apply Rabs_le; lra|repeat constructor].
    unfold physics_ok. dec_R.
    split_and!; lra. }
  intros He. cbv zeta. revert H0. generalize (AdaptiveControl_init offdiag). unfold adaptive_run.
  induction He as [|e es He _ IH]; intros s Hs; [by destruct Hs|]. simpl. by apply IH, adaptive_step_ok.
Qed.
End Exact.

(** ** Witnesses: the laws hold of the plain matrix product *)

(** With the boat at rest and no wind the only torque is the bias, and there is no force. *)
Lemma net_force_witness :
  af_A (bc_rudder (consts_ ControlPhysics_init)) ≠ 0
  ∧ let n := @NetForce R _ dense_plain ControlPhysics_init 1 0 0 0 (1 / 2) (1 / 10) 0 in Flon n = 0 ∧ taunet n = 0.
Proof.
  assert (af_A (bc_rudder (consts_ ControlPhysics_init)) ≠ 0) as HA.
  { dec_R. lra. }
  split; [exact HA|].
  pose proof (@net_force_linear dense_plain dense_plain_laws ControlPhysics_init 1 0 0 0 (1 / 2) (1 / 10) 0 HA) as H.
  cbv zeta in H |- *. revert H. unfold SailForce, KeelForce, RudderForce, SailAirfoil, KeelAirfoil, RudderAirfoil, linear_airfoil.
  unfold SailTorque, KeelTorque, RudderTorque. cbn -[norm_angle NetForce dec IZR CalcHeel nmax nmin Sign Rmult cos sin npi_2].
  rewrite !Rmult_0_r, !Rmult_0_l. intros [-> ->]. split; ring.
Defined.

Lemma adaptive_search_witness :
  let '(success, deltas, deltar) :=
    GlobalMaxForceForTorque ControlPhysics_init 1 5 0 1 0 kQuadratic 20 0 0 in
  success = true ∧ Rabs deltas <= PI / 2.
Proof.
  pose proof (adaptive_search_optimal ControlPhysics_init 1 5 0 1 0 20 0 0 ltac:(lia)) as H.
  assert (Rabs 1 <= PI) as Hw by (rewrite Rabs_R1; pose proof PI2_1; pose proof PI_RGT_0; lra).
  assert (0 <= af_maxalpha (bc_rudder (consts_ ControlPhysics_init))) as Hm.
  { dec_R. lra. }
  assert (divisors_ok ControlPhysics_init 0 1) as Hd.
  { constructor; [..|lra|rewrite cos_0; lra]; cbn -[dec IZR Rdiv]; dec_R; [lra|]. split_and!; lra. }
  specialize (H Hw Hm Hd). destruct (sail_range 1) as [a b].
  destruct (GlobalMaxForceForTorque _ _ _ _ _ _ _ _ _ _) as [[su ds] dr].
  destruct (trial_torques _ _ _ _ _ _) as [u o]. cbv zeta in H. tauto.
Defined.

(** At rest and without wind the rudder angle is 0 / 0: in binary64 every trial is rejected and the
    search fails. *)
Lemma search_at_rest_fails :
  GlobalMaxForceForTorque (ND := num_poly) (ControlPhysics_init (ND := num_poly)) 1%float 0%float 0%float 0%float 0%float
    kQuadratic 20 3%float 4%float = (false, 3%float, 4%float).
Proof. vm_compute. reflexivity. Qed.

Lemma adaptive_invariant_witness :
  let es := [EvAdHeading (set_heading (Some 1) HeadingCmd_clear); EvAdWind (V3 3 4 0);
             EvAdState empty_boat_state; EvAdIterate 0 0] in
  Rabs (ad_omega_ref (@adaptive_run R _ dense_plain es (AdaptiveControl_init (λ i j, 7)))) <= 1
  ∧ Forall ad_out_ok (ad_out (@adaptive_run R _ dense_plain es (AdaptiveControl_init (λ i j, 7)))).
Proof.
  intros es.
  destruct (@adaptive_invariant dense_plain dense_plain_laws 0 (λ i j, 7) es ltac:(lra)) as (_ & _ & H & Ho).
  - unfold es. rewrite !Forall_cons. simpl. rewrite Rabs_R0.
    split_and!; try done; try lra. intros h [= <-]. rewrite Rabs_R1. lra.
  - split; [lra|exact Ho].
Defined.
