(* ===== verification/SimPhysics.v ===== *)
(** * The simulated boat

    [TrivialDynamics] of src/sim/sim_physics.cc and .h, the boat the simulator steps: the
    forces and torques of sail, rudder, keel and hull, and the integration of position,
    velocity and attitude.  [pow] and [asin] of the C library are the class [NumFun]; the
    normalisation of a vector and the inverse of a matrix are the linear algebra
    library's, the class [EigenInv] with their documented meaning. *)

From Stdlib Require Import ZArith Lia Reals Lra Psatz RNsatz Rpower.
From stdpp Require Import base list.
From S2P Require Import Prelude Num NumR Vec Util Messages.

#[local] Open Scope Z_scope.

Class NumFun (D : Type) := {
  npow : D -> D -> D;
  nasin : D -> D;
  ntan : D -> D;
}.

#[export] Instance numfun_R : NumFun R := {| npow := Rpower; nasin := asin; ntan := tan |}.

Section MatrixOps.
Context {D : Type} {ND : Num D}.
#[local] Open Scope num_scope.

Definition opp3 (a : vec3 D) : vec3 D := V3 (- v3x a) (- v3y a) (- v3z a).
Definition div3 (a : vec3 D) (k : D) : vec3 D := V3 (v3x a / k) (v3y a / k) (v3z a / k).
Definition zero3 : vec3 D := V3 #0 #0 #0.
Definition col3 (A : mat3 D) (j : nat) : vec3 D := V3 (entry A 0 j) (entry A 1 j) (entry A 2 j).
Definition transpose3 (A : mat3 D) : mat3 D := M3 (col3 A 0) (col3 A 1) (col3 A 2).
Definition map3 (f : D -> D) (A : mat3 D) : mat3 D :=
  let row r := V3 (f (v3x r)) (f (v3y r)) (f (v3z r)) in M3 (row (row0 A)) (row (row1 A)) (row (row2 A)).
Definition scale_mat (k : D) (A : mat3 D) : mat3 D := map3 (nmul k) A.
Definition zip3 (f : D -> D -> D) (a b : vec3 D) : vec3 D :=
  V3 (f (v3x a) (v3x b)) (f (v3y a) (v3y b)) (f (v3z a) (v3z b)).
Definition diag3 (a b c : D) : mat3 D := M3 (V3 a #0 #0) (V3 #0 b #0) (V3 #0 #0 c).

Definition det3 (A : mat3 D) : D :=
  v3x (row0 A) * (v3y (row1 A) * v3z (row2 A) - v3z (row1 A) * v3y (row2 A))
  - v3y (row0 A) * (v3x (row1 A) * v3z (row2 A) - v3z (row1 A) * v3x (row2 A))
  + v3z (row0 A) * (v3x (row1 A) * v3y (row2 A) - v3y (row1 A) * v3x (row2 A)).
End MatrixOps.

Class EigenInv (D : Type) := {
  normalized3 : vec3 D -> vec3 D;
  inverse3 : mat3 D -> mat3 D;
}.

Record SimDebugMsg (D : Type) := MkSimDebug {
  dbg_fs : vec3 D;
  dbg_fr : vec3 D;
  dbg_fk : vec3 D;
  dbg_fh : vec3 D;
  dbg_fnet : vec3 D;
  dbg_taus : vec3 D;
  dbg_taur : vec3 D;
  dbg_tauk : vec3 D;
  dbg_tauh : vec3 D;
  dbg_tauright : vec3 D;
  dbg_taunet : vec3 D;
}.
Arguments MkSimDebug {D}.
Arguments dbg_fs {D} _.
Arguments dbg_fr {D} _.
Arguments dbg_fk {D} _.
Arguments dbg_fh {D} _.
Arguments dbg_fnet {D} _.
Arguments dbg_taus {D} _.
Arguments dbg_taur {D} _.
Arguments dbg_tauk {D} _.
Arguments dbg_tauh {D} _.
Arguments dbg_tauright {D} _.
Arguments dbg_taunet {D} _.

Record TrivialDynamics (D : Type) := MkTD {
  td_dt : D;
  td_deltas : D;
  td_deltar : D;
  td_deltab : D;
  td_x : vec3 D;
  td_v : vec3 D;
  td_yaw : D;
  td_heel : D;
  td_RBI : mat3 D;
  td_omega : vec3 D;
  td_wind : vec3 D;
  td_debug : list (SimDebugMsg D);
}.
Arguments MkTD {D}.
Arguments td_dt {D} _.
Arguments td_deltas {D} _.
Arguments td_deltar {D} _.
Arguments td_deltab {D} _.
Arguments td_x {D} _.
Arguments td_v {D} _.
Arguments td_yaw {D} _.
Arguments td_heel {D} _.
Arguments td_RBI {D} _.
Arguments td_omega {D} _.
Arguments td_wind {D} _.
Arguments td_debug {D} _.
Definition set_td_dt {D : Type} (v : D) (s : TrivialDynamics D) : TrivialDynamics D := MkTD v (s.(td_deltas)) (s.(td_deltar)) (s.(td_deltab)) (s.(td_x)) (s.(td_v)) (s.(td_yaw)) (s.(td_heel)) (s.(td_RBI)) (s.(td_omega)) (s.(td_wind)) (s.(td_debug)).
Definition set_td_deltas {D : Type} (v : D) (s : TrivialDynamics D) : TrivialDynamics D := MkTD (s.(td_dt)) v (s.(td_deltar)) (s.(td_deltab)) (s.(td_x)) (s.(td_v)) (s.(td_yaw)) (s.(td_heel)) (s.(td_RBI)) (s.(td_omega)) (s.(td_wind)) (s.(td_debug)).
Definition set_td_deltar {D : Type} (v : D) (s : TrivialDynamics D) : TrivialDynamics D := MkTD (s.(td_dt)) (s.(td_deltas)) v (s.(td_deltab)) (s.(td_x)) (s.(td_v)) (s.(td_yaw)) (s.(td_heel)) (s.(td_RBI)) (s.(td_omega)) (s.(td_wind)) (s.(td_debug)).
Definition set_td_deltab {D : Type} (v : D) (s : TrivialDynamics D) : TrivialDynamics D := MkTD (s.(td_dt)) (s.(td_deltas)) (s.(td_deltar)) v (s.(td_x)) (s.(td_v)) (s.(td_yaw)) (s.(td_heel)) (s.(td_RBI)) (s.(td_omega)) (s.(td_wind)) (s.(td_debug)).
Definition set_td_x {D : Type} (v : vec3 D) (s : TrivialDynamics D) : TrivialDynamics D := MkTD (s.(td_dt)) (s.(td_deltas)) (s.(td_deltar)) (s.(td_deltab)) v (s.(td_v)) (s.(td_yaw)) (s.(td_heel)) (s.(td_RBI)) (s.(td_omega)) (s.(td_wind)) (s.(td_debug)).
Definition set_td_v {D : Type} (v : vec3 D) (s : TrivialDynamics D) : TrivialDynamics D := MkTD (s.(td_dt)) (s.(td_deltas)) (s.(td_deltar)) (s.(td_deltab)) (s.(td_x)) v (s.(td_yaw)) (s.(td_heel)) (s.(td_RBI)) (s.(td_omega)) (s.(td_wind)) (s.(td_debug)).
Definition set_td_yaw {D : Type} (v : D) (s : TrivialDynamics D) : TrivialDynamics D := MkTD (s.(td_dt)) (s.(td_deltas)) (s.(td_deltar)) (s.(td_deltab)) (s.(td_x)) (s.(td_v)) v (s.(td_heel)) (s.(td_RBI)) (s.(td_omega)) (s.(td_wind)) (s.(td_debug)).
Definition set_td_heel {D : Type} (v : D) (s : TrivialDynamics D) : TrivialDynamics D := MkTD (s.(td_dt)) (s.(td_deltas)) (s.(td_deltar)) (s.(td_deltab)) (s.(td_x)) (s.(td_v)) (s.(td_yaw)) v (s.(td_RBI)) (s.(td_omega)) (s.(td_wind)) (s.(td_debug)).
Definition set_td_RBI {D : Type} (v : mat3 D) (s : TrivialDynamics D) : TrivialDynamics D := MkTD (s.(td_dt)) (s.(td_deltas)) (s.(td_deltar)) (s.(td_deltab)) (s.(td_x)) (s.(td_v)) (s.(td_yaw)) (s.(td_heel)) v (s.(td_omega)) (s.(td_wind)) (s.(td_debug)).
Definition set_td_omega {D : Type} (v : vec3 D) (s : TrivialDynamics D) : TrivialDynamics D := MkTD (s.(td_dt)) (s.(td_deltas)) (s.(td_deltar)) (s.(td_deltab)) (s.(td_x)) (s.(td_v)) (s.(td_yaw)) (s.(td_heel)) (s.(td_RBI)) v (s.(td_wind)) (s.(td_debug)).
Definition set_td_wind {D : Type} (v : vec3 D) (s : TrivialDynamics D) : TrivialDynamics D := MkTD (s.(td_dt)) (s.(td_deltas)) (s.(td_deltar)) (s.(td_deltab)) (s.(td_x)) (s.(td_v)) (s.(td_yaw)) (s.(td_heel)) (s.(td_RBI)) (s.(td_omega)) v (s.(td_debug)).
Definition set_td_debug {D : Type} (v : list (SimDebugMsg D)) (s : TrivialDynamics D) : TrivialDynamics D := MkTD (s.(td_dt)) (s.(td_deltas)) (s.(td_deltar)) (s.(td_deltab)) (s.(td_x)) (s.(td_v)) (s.(td_yaw)) (s.(td_heel)) (s.(td_RBI)) (s.(td_omega)) (s.(td_wind)) v.

(** The state and inputs of [CalcXdot]. *)
Record VectorStates (D : Type) := MkX {
  X_heel : D;
  X_yaw : D;
  X_vx : D;
  X_vy : D;
  X_omega : vec3 D;
  X_deltas : D;
  X_deltab : D;
  X_deltabdot : D;
}.
Arguments MkX {D}.
Arguments X_heel {D} _.
Arguments X_yaw {D} _.
Arguments X_vx {D} _.
Arguments X_vy {D} _.
Arguments X_omega {D} _.
Arguments X_deltas {D} _.
Arguments X_deltab {D} _.
Arguments X_deltabdot {D} _.

Inductive SimErr := FoundNaN.

Section Dynamics.
Context {D : Type} {ND : Num D} {NF : NumFun D} {EG : Eigen D} {EI : EigenInv D}.
#[local] Open Scope num_scope.
#[local] Open Scope result_scope.
#[local] Notation "s |> f" := (f s) (at level 50, left associativity, only parsing).

(** The dimensions of the boat; [mass] is a [float]. *)
Definition td_rr : D := - #1.
Definition td_rs : D := dec 2 1.
Definition td_rk : D := #0.
Definition td_ls : D := dec 3 1.
Definition td_lr : D := dec 3 2.
Definition td_hs : D := #1.
Definition td_hr : D := - dec 2 1.
Definition td_hk : D := - dec 7 1.
Definition td_lm : D := #1.
Definition td_mm : D := #15.
Definition td_CoM : vec3 D := V3 #0 #0 (- dec 5 1).
Definition td_mass : D := #30.
Definition td_J : mat3 D := diag3 #25 #25 #20.

Definition TrivialDynamics_init (dt : D) : TrivialDynamics D :=
  MkTD dt (dec 13 1) #0 #1 zero3 zero3 #0 #0 identity3 zero3 zero3 [].

(** The attitude of a heel and a yaw. *)
Definition heel_yaw_matrix (heel yaw : D) : mat3 D :=
  let ch := ncos heel in
  let sh := nsin heel in
  let cy := ncos yaw in
  let sy := nsin yaw in
  M3 (V3 cy (- sy * ch) (sy * sh)) (V3 sy (ch * cy) (- cy * sh)) (V3 #0 sh ch).

(** ** Forces *)

Definition kPeak1 : D := nfloat (dec 4 1).
Definition kPeak2 : D := nfloat (dec 8 1).

(** The coefficients at angle of attack [alpha]. *)
Definition lift_coefficient (maxlift alpha : D) : D :=
  nfloat (if kPeak1 <? alpha
          then if kPeak2 <? alpha then maxlift * (#1 - fsubf alpha kPeak2 / (npi / #2 - kPeak2)) else maxlift
          else fmulf (fdivf maxlift kPeak1) alpha).
Definition drag_coefficient (mindrag maxdrag alpha : D) : D :=
  nfloat (npow (fdivf maxdrag mindrag) (fmulf alpha #2 / npi) * mindrag).

(** The signed angle of attack, 0 for NaN. *)
Definition attack_angle (va : vec3 D) (delta : D) : D :=
  let a := nfloat (norm_angle (natan2 (- v3y va) (- v3x va) - delta)) in
  if nisnan a then #0 else a.

Definition attack_sign (alphasigned : D) : Z :=
  let alpha := nabs alphasigned in
  if alpha =? #0 then 1%Z else nint (fdivf alphasigned alpha).

Definition AeroForces (RBI : mat3 D) (va : vec3 D) (delta rho A mindrag maxdrag maxlift : D) (luff : bool) : vec3 D :=
  let alphasigned := attack_angle va delta in
  let alpha := nabs alphasigned in
  let sign_alpha := nofZ (attack_sign alphasigned) in
  let alpha := if luff && (alpha <? dec 25 2) then dec 25 2 else alpha in
  let liftrot := M3 (V3 (#0 * sign_alpha) (- #1 * sign_alpha) #0) (V3 (#1 * sign_alpha) (#0 * sign_alpha) #0) (V3 #0 #0 #1) in
  let Cl := lift_coefficient maxlift alpha in
  let Cd := drag_coefficient mindrag maxdrag alpha in
  let sqNorm := nfloat (squaredNorm3 va) in
  let s := nfloat (dec 5 1 * rho * A * squaredNorm3 va) in
  let va := if dec 5 3 <? sqNorm then normalized3 va else va in
  let lift := mat_vec (scale_mat (fmulf Cl s) liftrot) va in
  let drag := scale3 (fmulf Cd s) va in
  let force := add3 lift drag in
  V3 (v3x force) (v3y force * entry RBI 2 2) (v3z force).

(** Apparent wind and apparent water in the frame of the boat, without the vertical part. *)
Definition apparent_wind (s : TrivialDynamics D) : vec3 D :=
  let wa := mat_vec (transpose3 (td_RBI s)) (sub3 (td_wind s) (td_v s)) in V3 (v3x wa) (v3y wa) #0.
Definition apparent_water (s : TrivialDynamics D) : vec3 D :=
  let va := mat_vec (transpose3 (td_RBI s)) (opp3 (td_v s)) in V3 (v3x va) (v3y va) #0.

Definition SailForces (s : TrivialDynamics D) : vec3 D :=
  AeroForces (td_RBI s) (apparent_wind s) (nfloat (td_deltas s)) (nfloat (dec 1225 3)) #4
    (nfloat (dec 5 2)) #1 (nfloat (dec 15 1)) false.
Definition RudderForces (s : TrivialDynamics D) : vec3 D :=
  AeroForces (td_RBI s) (apparent_water s) (nfloat (td_deltar s * dec 15 1)) #1000 (nfloat (dec 7 2))
    (nfloat (dec 1 2)) (nfloat (dec 5 2)) (nfloat (dec 17 1)) false.
Definition KeelForces (s : TrivialDynamics D) : vec3 D :=
  AeroForces (td_RBI s) (apparent_water s) #0 #1000 (nfloat (dec 4 1)) (nfloat (dec 2 2)) (nfloat (dec 11 1)) #2 false.
Definition HullForces (s : TrivialDynamics D) : vec3 D :=
  AeroForces (td_RBI s) (apparent_water s) #0 #1000 (nfloat (dec 1 1)) (nfloat (dec 1 2)) (nfloat (dec 2 1)) #0 false.

(** ** Torques *)

Definition SailTorques (s : TrivialDynamics D) (f : vec3 D) : vec3 D :=
  cross3 (V3 (td_rs - td_ls * ncos (td_deltas s)) (- td_ls * nsin (td_deltas s)) td_hs) f.
Definition RudderTorques (s : TrivialDynamics D) (f : vec3 D) : vec3 D :=
  cross3 (V3 (td_rr - td_lr * ncos (td_deltar s)) (- td_lr * nsin (td_deltar s)) td_hr) f.
Definition KeelTorques (f : vec3 D) : vec3 D := cross3 (V3 td_rk #0 td_hk) f.
Definition HullTorques (s : TrivialDynamics D) : vec3 D :=
  let o := td_omega s in
  mat_vec (map3 nopp (diag3 #100 #200 #200)) (V3 (v3x o * nabs (v3x o)) (v3y o * nabs (v3y o)) (v3z o * nabs (v3z o))).
Definition RightingTorques (s : TrivialDynamics D) (heel : D) : vec3 D :=
  let g := nfloat (dec 98 1) in
  let kMaxTorque := nfloat (fmulf td_mass g * v3z td_CoM) in
  let kMovableSlope := dec 3333 4 in
  let tauballast := td_mm * td_lm * g * nsin (td_deltab s) * ncos (heel + kMovableSlope * td_deltab s) in
  let kAccountForPitch := nfloat (#0 * entry (td_RBI s) 2 0) in
  V3 (entry (td_RBI s) 2 1 * kMaxTorque + tauballast) kAccountForPitch #0.

(** ** The step *)

Definition actuator_limit (a lim : D) : D := nmin (nmax a (- lim)) lim.

(** The actuator angles at the start of a step. *)
Definition set_actuators (deltas_in deltar_in : D) (s : TrivialDynamics D) : TrivialDynamics D :=
  let deltas := nmax (norm_angle deltas_in) #0 in
  let apparent_wind_dir :=
    norm_angle (natan2 (v3y (td_wind s) - v3x (td_v s)) (v3x (td_wind s) - v3y (td_v s)) - td_yaw s) in
  let deltas := if #0 <? apparent_wind_dir then - deltas else deltas in
  s |> set_td_deltas (norm_angle deltas) |> set_td_deltar (actuator_limit deltar_in (dec 6 1))
    |> set_td_deltab (actuator_limit (td_deltab s) (dec 15 1)).

(** The two-argument [Update]; it returns position, velocity and attitude. *)
Definition Update2 (deltas_in deltar_in : D) (s : TrivialDynamics D)
  : result SimErr ((vec3 D * vec3 D) * mat3 D * TrivialDynamics D) :=
  let dt := td_dt s in
  let s := set_actuators deltas_in deltar_in s in
  let RBI := td_RBI s in
  let Fs := SailForces s in
  let Fr := RudderForces s in
  let Fk := KeelForces s in
  let Fh := HullForces s in
  let Fnet := add3 (add3 (add3 Fs Fr) Fk) Fh in
  let taus := SailTorques s Fs in
  let taur := RudderTorques s Fr in
  let tauk := KeelTorques Fk in
  let tauh := HullTorques s in
  let tauright := RightingTorques s (nasin (entry RBI 2 1)) in
  let tau := add3 (add3 (add3 (add3 taus taur) tauk) tauh) tauright in
  let Fnet := mat_vec RBI Fnet in
  let omegadot := let a := mat_vec (inverse3 td_J) tau in V3 (v3x a * dt) (v3y a * dt) (v3z a * dt) in
  let omega := add3 (td_omega s) omegadot in
  let yawdot := v3z (mat_vec RBI omega) in
  let heel := norm_angle (td_heel s + v3x omega * dt) in
  let yaw := norm_angle (td_yaw s + yawdot * dt) in
  let omega := V3 (v3x omega) (yawdot * nsin heel) (yawdot * ncos heel) in
  let acc f := f / td_mass * dt in
  let v := V3 (v3x (td_v s) + acc (v3x Fnet)) (v3y (td_v s) + acc (v3y Fnet)) #0 in
  let RBI := heel_yaw_matrix heel yaw in
  let msg := MkSimDebug (EigenToProto Fs) (EigenToProto Fr) (EigenToProto Fk) (EigenToProto Fh) (EigenToProto Fnet)
               (EigenToProto taus) (EigenToProto taur) (EigenToProto tauk) (EigenToProto tauh) (EigenToProto tauright)
               (EigenToProto tau) in
  let s := s |> set_td_omega omega |> set_td_heel heel |> set_td_yaw yaw |> set_td_v v |> set_td_RBI RBI
             |> set_td_debug (td_debug s ++ [msg]) in
  if nisnan (entry RBI 0 0) then Err FoundNaN
  else
    let s := s |> set_td_x (add3 (td_x s) (V3 (v3x v * dt) (v3y v * dt) (v3z v * dt))) in
    Ok ((td_x s, td_v s), td_RBI s, s).

(** The three-argument [Update]: actuator rates. *)
Definition Update3 (sdot rdot bdot : D) (s : TrivialDynamics D)
  : result SimErr ((vec3 D * vec3 D) * mat3 D * TrivialDynamics D) :=
  let dt := td_dt s in
  let s := s |> set_td_deltas (nabs (td_deltas s) + sdot * dt) |> set_td_deltar (td_deltar s + rdot * dt)
             |> set_td_deltab (td_deltab s + bdot * dt) in
  Update2 (td_deltas s) (td_deltar s) s.

Definition set_from_state (m : BoatState D) (s : TrivialDynamics D) : TrivialDynamics D :=
  let heel := v3x (euler m) in
  let yaw := v3z (euler m) in
  s |> set_td_deltas (get (sail (internal m))) |> set_td_deltar (get (rudder (internal m)))
    |> set_td_deltab (get (ballast (internal m)))
    |> set_td_x (V3 (v3x (td_x s) * #0) (v3y (td_x s) * #0) (v3z (td_x s) * #0))
    |> set_td_v (V3 (v3x (vel m)) (v3y (vel m)) (v3z (td_v s)))
    |> set_td_yaw yaw |> set_td_heel heel |> set_td_RBI (heel_yaw_matrix heel yaw).

(** The direction the wind blows from, relative to the boat. *)
Definition get_apparent_dir (s : TrivialDynamics D) : D :=
  let wa := mat_vec (transpose3 (td_RBI s)) (sub3 (td_wind s) (td_v s)) in natan2 (- v3y wa) (- v3x wa).
Definition get_alpha_sail (s : TrivialDynamics D) : D := norm_angle (get_apparent_dir s - td_deltas s).
Definition get_rdot_for_goal (goal : D) (s : TrivialDynamics D) : D := #5 * (goal - td_deltar s).
Definition get_sdot_for_goal (goal : D) (s : TrivialDynamics D) : D := #5 * (goal - nabs (td_deltas s)).

(** The derivative of the state under inputs [(deltasdot, deltabddot)]; the object keeps
    what it was set to. *)
Definition CalcXdot (X : VectorStates D) (U : D * D) (s : TrivialDynamics D) : VectorStates D * TrivialDynamics D :=
  let heel := X_heel X in
  let yaw := X_yaw X in
  let s := s |> set_td_v (V3 (X_vx X) (X_vy X) #0) |> set_td_omega (X_omega X) |> set_td_deltas (X_deltas X)
             |> set_td_deltab (X_deltab X) |> set_td_RBI (heel_yaw_matrix heel yaw) in
  let deltabdot := X_deltabdot X in
  let '(deltasdot, uballast) := U in
  let Fs := SailForces s in
  let Fr := RudderForces s in
  let Fk := KeelForces s in
  let Fh := HullForces s in
  let Fnet := add3 (add3 (add3 Fs Fr) Fk) Fh in
  let tau := add3 (add3 (add3 (add3 (SailTorques s Fs) (RudderTorques s Fr)) (KeelTorques Fk)) (HullTorques s))
               (RightingTorques s heel) in
  let Fnet := V3 (v3x Fnet) (v3y Fnet) #0 in
  let omegadot := mat_vec (inverse3 td_J) tau in
  let vdot := div3 (mat_vec (td_RBI s) Fnet) td_mass in
  let yawdot := nsin yaw * v3y (td_omega s) + ncos yaw * v3z (td_omega s) in
  let heeldot := nsin heel * v3y (td_omega s) + ncos heel * v3z (td_omega s) in
  let kBballast := #100 / (td_mm * td_lm * td_lm * #5) in
  let deltabddot := uballast / (td_mm * td_lm * td_lm) - kBballast * deltabdot in
  (MkX heeldot yawdot (v3x vdot) (v3y vdot) omegadot deltasdot deltabdot deltabddot, s).
End Dynamics.

(** ** Properties, in exact arithmetic *)

#[local] Open Scope R_scope.

Class EigenInvLaws {EG : Eigen R} {EI : EigenInv R} := {
  normalized3_eq (a : vec3 R) : 0 < norm3 a -> normalized3 a = div3 a (norm3 a);
}.

(** An instance: the inverse is the adjugate over the determinant. *)
Definition adjugate (A : mat3 R) : mat3 R :=
  let c a b := cross3 (Eigen := eigen_plain) a b in
  transpose3 (M3 (c (row1 A) (row2 A)) (c (row2 A) (row0 A)) (c (row0 A) (row1 A))).
Definition eigen_inv_plain : EigenInv R := {|
  normalized3 a := div3 a (norm3 (Eigen := eigen_plain) a);
  inverse3 A := map3 (λ x, x / det3 A) (adjugate A);
|}.
Definition eigen_inv_plain_laws : @EigenInvLaws eigen_plain eigen_inv_plain.
Proof. constructor. reflexivity. Qed.

Section Exact.
Context {EG : Eigen R} {EL : EigenLaws R} {EI : EigenInv R} {IL : EigenInvLaws}.

(** A rotation matrix: orthonormal rows and columns, and determinant 1. *)
Definition rotation (A : mat3 R) : Prop :=
  mat_mul (transpose3 A) A = identity3 ∧ mat_mul A (transpose3 A) = identity3 ∧ det3 A = 1.

Lemma heel_yaw_rotation h y : rotation (heel_yaw_matrix h y).
Proof.
  pose proof (sin2_cos2_sub h) as Hh. pose proof (sin2_cos2_sub y) as Hy. split_and!.
  - rewrite mat_mul_eq. cbn. rewrite !dot3_eq. cbn. unfold identity3. f_equal; f_equal; cbn; nsatz.
  - rewrite mat_mul_eq. cbn. rewrite !dot3_eq. cbn. unfold identity3. f_equal; f_equal; cbn; nsatz.
  - unfold det3. cbn. nsatz.
Qed.

(** The attitude is the one of the Euler angles heel, 0 and yaw. *)
Lemma heel_yaw_euler h y : heel_yaw_matrix h y = RollPitchYawToMatrix (V3 h 0 y).
Proof. rewrite RollPitchYawToMatrix_eq, sin_0, cos_0. unfold heel_yaw_matrix. cbn. f_equal; f_equal; ring. Qed.

(** ** Drag *)

Lemma drag_positive mind maxd a : 0 < mind -> 0 < drag_coefficient mind maxd a.
Proof. intros H. unfold drag_coefficient. cbn. unfold Rpower. pose proof (exp_pos (a * 2 / PI * ln (maxd / mind))). nra. Qed.

(** The direction of the flow used for the forces is a positive multiple of it. *)
Lemma flow_direction (va : vec3 R) :
  ∃ k, 0 < k ∧ (if Rltb (dec 5 3) (squaredNorm3 va) then normalized3 va else va) = V3 (k * v3x va) (k * v3y va) (k * v3z va).
Proof.
  case_R; [|exists 1; destruct va; cbn; split; [lra|f_equal; ring]].
  assert (0 < norm3 va) as Hn.
  { rewrite norm3_eq. cbn. apply sqrt_lt_R0. rewrite squaredNorm3_eq in r. revert r. unfold dec. cbn.
    change (IZR (10 ^ 3)) with 1000. lra. }
  exists (/ norm3 va). split; [by apply Rinv_0_lt_compat|]. rewrite normalized3_eq by done.
  unfold div3. cbn. f_equal; unfold Rdiv; ring.
Qed.

(** On an even keel the force has a non-negative component along the flow: lift is
    across it. *)
Lemma aero_power RBI va delta rho A mind maxd maxl luff :
  entry RBI 2 2 = 1 -> v3z va = 0 -> 0 <= rho -> 0 <= A -> 0 < mind ->
  0 <= dot3 (AeroForces RBI va delta rho A mind maxd maxl luff) va.
Proof.
  intros HR Hz Hr HA Hm. unfold AeroForces. cbv zeta. rewrite HR. cbn [nfloat num_R].
  match goal with |- context [lift_coefficient maxl ?a] => set (al := a); set (Cl := lift_coefficient maxl al) end.
  pose proof (drag_positive mind maxd al Hm) as HCd. set (Cd := drag_coefficient mind maxd al) in *.
  set (sg := nofZ (attack_sign _)).
  destruct (flow_direction va) as (k & Hk & E). cbn [nltb num_R]. rewrite E.
  rewrite mat_vec_eq, !dot3_eq, squaredNorm3_eq. cbn. rewrite Hz. unfold dec. cbn. change (IZR (10 ^ 1)) with 10.
  set (q := v3x va * v3x va + v3y va * v3y va).
  match goal with |- 0 <= ?e => replace e with (Cd * (5 / 10 * rho * A * q) * k * q) by (unfold q, sg; cbn; ring) end.
  assert (0 <= q) by (unfold q; nra). clearbody Cd q. repeat apply Rmult_le_pos; lra.
Qed.

(** [aero_power] for a flow [E] that is opposite to the velocity. *)
Ltac drag_against Hneg E :=
  apply Hneg; rewrite <- E; apply aero_power; rewrite ?E; try done; dec_R; lra.


(** ** The step *)

Lemma actuator_limit_R a lim : 0 <= lim -> - lim <= actuator_limit a lim <= lim.
Proof. intros H. unfold actuator_limit, nmin, nmax. cbn. destruct (Rltb_spec a (- lim)); case_R; lra. Qed.

(** A turn rate about the vertical has no pitch component. *)
Lemma no_pitch_rate h w yd : v3y (mat_vec (AngleAxis h UnitX) (V3 w (yd * nsin h)%num (yd * ncos h)%num)) = 0.
Proof. rewrite AngleAxis_eq, mat_vec_eq. cbn. rewrite dot3_eq. cbn. ring. Qed.

Lemma nisnan_R (x : R) : nisnan x = false.
Proof. unfold nisnan. cbn. by case_R. Qed.

(** What holds of the boat after a step: the attitude is a rotation matrix, the one of heel
    and yaw with no pitch; the boat is on the surface and does not pitch; the actuators
    are within their limits. *)
Record sim_wf (s : TrivialDynamics R) : Prop := MkSimWf {
  swf_rotation : rotation (td_RBI s);
  swf_attitude : td_RBI s = RollPitchYawToMatrix (V3 (td_heel s) 0 (td_yaw s));
  swf_flat : v3z (td_v s) = 0;
  swf_level : v3y (mat_vec (AngleAxis (td_heel s) UnitX) (td_omega s)) = 0;
  swf_sail : Rabs (td_deltas s) <= PI;
  swf_rudder : -6 / 10 <= td_deltar s <= 6 / 10;
  swf_ballast : -15 / 10 <= td_deltab s <= 15 / 10;
}.

Lemma set_actuators_R ds dr (s : TrivialDynamics R) :
  Rabs ds <= 10000 ->
  let s' := set_actuators ds dr s in
  Rabs (td_deltas s') <= PI ∧ -6 / 10 <= td_deltar s' <= 6 / 10 ∧ -15 / 10 <= td_deltab s' <= 15 / 10.
Proof.
  intros Hd. pose proof PI_RGT_0. pose proof PI_4. destruct (norm_angle_spec ds Hd) as [Hn _].
  unfold set_actuators. cbn [td_deltas td_deltar td_deltab set_td_deltas set_td_deltar set_td_deltab]. split_and!.
  - apply Rabs_le. unfold nmax. cbn. 
    match goal with |- context [norm_angle (if ?c then ?a else ?b)] => set (x := if c then a else b) end.
    assert (- PI <= x <= PI) as Hx by (unfold x; clear x; destruct (Rltb_spec (norm_angle ds) 0); case_R; lra).
    apply norm_angle_spec, Rabs_le. lra.
  - pose proof (actuator_limit_R dr (6 / 10) ltac:(lra)) as Ha. revert Ha. dec_R. lra.
  - pose proof (actuator_limit_R dr (6 / 10) ltac:(lra)) as Ha. revert Ha. dec_R. lra.
  - pose proof (actuator_limit_R (td_deltab s) (15 / 10) ltac:(lra)) as Ha. revert Ha. dec_R. lra.
  - pose proof (actuator_limit_R (td_deltab s) (15 / 10) ltac:(lra)) as Ha. revert Ha. dec_R. lra.
Qed.

(** Every step, from any state, succeeds and ends in a well-formed one. *)
Lemma Update2_wf (s : TrivialDynamics R) (ds dr : R) :
  Rabs ds <= 10000 ->
  ∃ s', Update2 ds dr s = Ok (td_x s', td_v s', td_RBI s', s') ∧ sim_wf s'
        ∧ td_x s' = add3 (td_x s) (scale3 (td_dt s) (td_v s')) ∧ td_wind s' = td_wind s.
Proof.
  intros Hd. destruct (set_actuators_R ds dr s Hd) as (Hs & Hr & Hb).
  unfold Update2. cbv zeta. rewrite nisnan_R. eexists. split; [reflexivity|].
  set (s1 := set_actuators ds dr s) in *.
  assert (td_x s1 = td_x s ∧ td_wind s1 = td_wind s) as [Ex Ew] by done.
  split; [constructor|split]; cbn [td_deltas td_deltar td_deltab td_x td_v td_yaw td_heel td_RBI td_omega td_wind
    set_td_x set_td_v set_td_yaw set_td_heel set_td_RBI set_td_omega set_td_debug]; try done.
  - apply heel_yaw_rotation.
  - apply heel_yaw_euler.
  - apply no_pitch_rate.
  - rewrite Ex. unfold add3, scale3. cbn [v3x v3y v3z]. f_equal; cbn; ring.
Qed.
End Exact.

(** ** Witnesses: the boat at its start *)

