(* ===== verification/SimSaoud.v ===== *)
(** * The detailed boat model

    [SimulatorSaoud2013] of src/sim/sim_physics.h and .cc: six degrees of freedom with
    lift and drag of sail, rudder and keel, after the paper the source cites.  The class
    does not override [get_deltab], so it is abstract and the simulator does not use it.
    The inverses are the linear algebra library's: [inverse3] of SimPhysics.v and
    [inverse6] for the inertia matrix; vectors of six coefficients are lists. *)

From Stdlib Require Import ZArith Lia Reals Lra Psatz RNsatz.
From stdpp Require Import base list.
From S2P Require Import Prelude Num NumR Vec Dense Util Messages SimPhysics.

#[local] Open Scope Z_scope.

Record Saoud (D : Type) := MkSaoud {
  sd_dt : D;
  sd_deltas : D;
  sd_deltasdot : D;
  sd_deltar : D;
  sd_deltardot : D;
  sd_x : vec3 D;
  sd_v : vec3 D;
  sd_vw : vec3 D;
  sd_vc : vec3 D;
  sd_RBI : mat3 D;
  sd_omega : vec3 D;
}.
Arguments MkSaoud {D}.
Arguments sd_dt {D} _.
Arguments sd_deltas {D} _.
Arguments sd_deltasdot {D} _.
Arguments sd_deltar {D} _.
Arguments sd_deltardot {D} _.
Arguments sd_x {D} _.
Arguments sd_v {D} _.
Arguments sd_vw {D} _.
Arguments sd_vc {D} _.
Arguments sd_RBI {D} _.
Arguments sd_omega {D} _.
Definition set_sd_deltas {D : Type} (v : D) (s : Saoud D) : Saoud D := MkSaoud (s.(sd_dt)) v (s.(sd_deltasdot)) (s.(sd_deltar)) (s.(sd_deltardot)) (s.(sd_x)) (s.(sd_v)) (s.(sd_vw)) (s.(sd_vc)) (s.(sd_RBI)) (s.(sd_omega)).
Definition set_sd_deltasdot {D : Type} (v : D) (s : Saoud D) : Saoud D := MkSaoud (s.(sd_dt)) (s.(sd_deltas)) v (s.(sd_deltar)) (s.(sd_deltardot)) (s.(sd_x)) (s.(sd_v)) (s.(sd_vw)) (s.(sd_vc)) (s.(sd_RBI)) (s.(sd_omega)).
Definition set_sd_deltar {D : Type} (v : D) (s : Saoud D) : Saoud D := MkSaoud (s.(sd_dt)) (s.(sd_deltas)) (s.(sd_deltasdot)) v (s.(sd_deltardot)) (s.(sd_x)) (s.(sd_v)) (s.(sd_vw)) (s.(sd_vc)) (s.(sd_RBI)) (s.(sd_omega)).
Definition set_sd_deltardot {D : Type} (v : D) (s : Saoud D) : Saoud D := MkSaoud (s.(sd_dt)) (s.(sd_deltas)) (s.(sd_deltasdot)) (s.(sd_deltar)) v (s.(sd_x)) (s.(sd_v)) (s.(sd_vw)) (s.(sd_vc)) (s.(sd_RBI)) (s.(sd_omega)).
Definition set_sd_x {D : Type} (v : vec3 D) (s : Saoud D) : Saoud D := MkSaoud (s.(sd_dt)) (s.(sd_deltas)) (s.(sd_deltasdot)) (s.(sd_deltar)) (s.(sd_deltardot)) v (s.(sd_v)) (s.(sd_vw)) (s.(sd_vc)) (s.(sd_RBI)) (s.(sd_omega)).
Definition set_sd_v {D : Type} (v : vec3 D) (s : Saoud D) : Saoud D := MkSaoud (s.(sd_dt)) (s.(sd_deltas)) (s.(sd_deltasdot)) (s.(sd_deltar)) (s.(sd_deltardot)) (s.(sd_x)) v (s.(sd_vw)) (s.(sd_vc)) (s.(sd_RBI)) (s.(sd_omega)).
Definition set_sd_vw {D : Type} (v : vec3 D) (s : Saoud D) : Saoud D := MkSaoud (s.(sd_dt)) (s.(sd_deltas)) (s.(sd_deltasdot)) (s.(sd_deltar)) (s.(sd_deltardot)) (s.(sd_x)) (s.(sd_v)) v (s.(sd_vc)) (s.(sd_RBI)) (s.(sd_omega)).
Definition set_sd_RBI {D : Type} (v : mat3 D) (s : Saoud D) : Saoud D := MkSaoud (s.(sd_dt)) (s.(sd_deltas)) (s.(sd_deltasdot)) (s.(sd_deltar)) (s.(sd_deltardot)) (s.(sd_x)) (s.(sd_v)) (s.(sd_vw)) (s.(sd_vc)) v (s.(sd_omega)).
Definition set_sd_omega {D : Type} (v : vec3 D) (s : Saoud D) : Saoud D := MkSaoud (s.(sd_dt)) (s.(sd_deltas)) (s.(sd_deltasdot)) (s.(sd_deltar)) (s.(sd_deltardot)) (s.(sd_x)) (s.(sd_v)) (s.(sd_vw)) (s.(sd_vc)) (s.(sd_RBI)) v.

Section Model.
Context {D : Type} {ND : Num D} {NF : NumFun D} {EG : Eigen D} {EI : EigenInv D} {DE : Dense D}.
Variable inverse6 : list (list D) -> list (list D).
#[local] Open Scope num_scope.
#[local] Notation "s |> f" := (f s) (at level 50, left associativity, only parsing).

(** The parameters of the boat, all in SI units. *)
Definition sd_g : D := dec 98 1.
Definition sd_ls : D := dec 15 1.
Definition sd_lr : D := dec 5 2.
Definition sd_hs : D := #2.
Definition sd_hr : D := #0.
Definition sd_hk : D := - dec 3 1.
Definition sd_rr : D := #1.
Definition sd_rs : D := #1.
Definition rhoair : D := dec 1225 3.
Definition rhowater : D := #1000.
Definition Ss : D := #5.
Definition Sr : D := dec 5 2.
Definition Sk : D := dec 3 1.
Definition c0s : D := dec 2 1.
Definition c1s : D := dec 4 1.
Definition c0r : D := c0s.
Definition c1r : D := c1s.
Definition c0k : D := c0s.
Definition c1k : D := c1s.
Definition m0 : D := #40.
Definition nabla : D := m0 / rhowater.
(** The quadratic and linear resistances of the hull are assigned and then set to zero. *)
Definition c1 : vec3 D := zero3.
Definition c2 : vec3 D := zero3.
Definition c3 : vec3 D := zero3.
Definition c4 : vec3 D := zero3.
Definition J0 : mat3 D := diag3 #50 #50 #30.
Definition MA : list (list D) := repeat (repeat #0 6) 6.
Definition B_B : vec3 D := V3 #0 #0 (dec 5 1).

Definition Saoud_init (dt : D) : Saoud D :=
  MkSaoud dt (dec 8 1) #0 #0 #0 zero3 zero3 zero3 zero3 identity3 zero3.

(** ** Frames *)

Definition k0 : vec3 D := V3 #0 #0 #1.
Definition j_ (s : Saoud D) : vec3 D := col3 (sd_RBI s) 1.

Definition TBI (s : Saoud D) (p : vec3 D) : vec3 D := Trans p (sd_RBI s) (sd_x s).

(** A surface at angle [d]: its axes in the frame of the hull. *)
Definition isB (d : D) : vec3 D := V3 (ncos d) (nsin d) #0.
Definition jsB (d : D) : vec3 D := V3 (- nsin d) (ncos d) #0.
Definition ksB : vec3 D := V3 #0 #0 #1.

Definition xsB (s : Saoud D) : vec3 D :=
  V3 (sd_rs - sd_ls * ncos (sd_deltas s)) (- sd_ls * nsin (sd_deltas s)) sd_hs.
Definition is_ (s : Saoud D) : vec3 D := mat_vec (sd_RBI s) (isB (sd_deltas s)).
Definition js (s : Saoud D) : vec3 D := mat_vec (sd_RBI s) (jsB (sd_deltas s)).
Definition ks (s : Saoud D) : vec3 D := mat_vec (sd_RBI s) ksB.
Definition xs (s : Saoud D) : vec3 D := TBI s (xsB s).

Definition xrB (s : Saoud D) : vec3 D :=
  V3 (- sd_rr - sd_lr * ncos (sd_deltar s)) (- sd_lr * nsin (sd_deltar s)) sd_hr.
Definition ir (s : Saoud D) : vec3 D := mat_vec (sd_RBI s) (isB (sd_deltar s)).
Definition jr (s : Saoud D) : vec3 D := mat_vec (sd_RBI s) (jsB (sd_deltar s)).
Definition kr (s : Saoud D) : vec3 D := mat_vec (sd_RBI s) ksB.
Definition xr (s : Saoud D) : vec3 D := TBI s (xrB s).

(** ** Velocities *)

Definition GGs (s : Saoud D) : vec3 D := mat_vec (sd_RBI s) (xsB s).
Definition vs (s : Saoud D) : vec3 D :=
  sub3 (add3 (sd_v s) (cross3 (sd_omega s) (GGs s))) (scale3 (sd_ls * sd_deltasdot s) (js s)).
Definition vas (s : Saoud D) : vec3 D := sub3 (vs s) (sd_vw s).

Definition GGr (s : Saoud D) : vec3 D := mat_vec (sd_RBI s) (xrB s).
Definition vr (s : Saoud D) : vec3 D :=
  sub3 (add3 (sd_v s) (cross3 (sd_omega s) (GGr s))) (scale3 (sd_lr * sd_deltardot s) (jr s)).
Definition var_ (s : Saoud D) : vec3 D := sub3 (vr s) (sd_vc s).

Definition GGk (s : Saoud D) : vec3 D := mat_vec (sd_RBI s) (V3 #0 #0 sd_hk).
Definition vk (s : Saoud D) : vec3 D := add3 (sd_v s) (cross3 (sd_omega s) (GGk s)).
Definition vak (s : Saoud D) : vec3 D := sub3 (vk s) (sd_vc s).

Definition omegaB (s : Saoud D) : vec3 D := mat_vec (inverse3 (sd_RBI s)) (sd_omega s).
Definition vB (s : Saoud D) : vec3 D := mat_vec (inverse3 (sd_RBI s)) (sd_v s).

(** ** Angles of attack and coefficients *)

(** From the components of the velocity along the three axes of the surface. *)
Definition attack (along across up : D) : D :=
  let d := nsqrt (square along + square up) in
  if nabs d <? dec 1 3 then #0 else natan (- across / d).
Definition alphas (s : Saoud D) : D :=
  let v := vas s in attack (dot3 v (is_ s)) (dot3 v (js s)) (dot3 v (ks s)).
Definition alphar (s : Saoud D) : D :=
  let v := var_ s in attack (dot3 v (ir s)) (dot3 v (jr s)) (dot3 v (kr s)).
Definition alphak (s : Saoud D) : D :=
  let v := mat_vec (sd_RBI s) (vak s) in attack (v3x v) (v3y v) (v3z v).

Definition CDparam (c0 c1 alpha : D) : D := c0 + #2 * c1 * square (nsin alpha).
Definition CLparam (c1 alpha : D) : D := (if nabs alpha <? #1 then #1 else #0) * c1 * nsin (#2 * alpha).
Definition CsL (alpha : D) : D := CLparam c1s alpha.
Definition CsD (alpha : D) : D := CDparam c0s c1s alpha.
Definition CrL (alpha : D) : D := CLparam c1r alpha.
Definition CrD (alpha : D) : D := CDparam c0r c1r alpha.
Definition CkL (alpha : D) : D := CLparam c1k alpha.
Definition CkD (alpha : D) : D := CDparam c0k c1k alpha.

(** ** Forces and torques *)

(** The force on a surface with normal [n] at velocity [va] relative to the fluid. *)
Definition foil_force (lambda CL CD a : D) (va n : vec3 D) : vec3 D :=
  add3 (scale3 (- lambda * (CD - CL * ntan a) * norm3 va) va)
       (scale3 (lambda * CL / ncos a * squaredNorm3 va) n).
Definition Fs (s : Saoud D) : vec3 D :=
  let a := alphas s in foil_force (dec 5 1 * rhoair * Ss) (CsL a) (CsD a) a (vas s) (js s).
Definition taus (s : Saoud D) : vec3 D := cross3 (GGs s) (Fs s).
Definition Fr (s : Saoud D) : vec3 D :=
  let a := alphar s in foil_force (dec 5 1 * rhowater * Sr) (CrL a) (CrD a) a (var_ s) (jr s).
Definition taur (s : Saoud D) : vec3 D := cross3 (GGr s) (Fr s).
Definition Fk (s : Saoud D) : vec3 D :=
  let a := alphak s in foil_force (dec 5 1 * rhowater * Sk) (CkL a) (CkD a) a (vak s) (j_ s).
Definition tauk (s : Saoud D) : vec3 D := cross3 (GGk s) (Fk s).

(** A resistance with quadratic and linear terms. *)
Definition resistance (quad lin w : vec3 D) : vec3 D :=
  add3 (zip3 nmul (zip3 nmul w w) quad) (zip3 nmul w lin).
Definition Fd (s : Saoud D) : vec3 D :=
  resistance c1 c2 (mat_vec (inverse3 (sd_RBI s)) (sub3 (sd_v s) (sd_vc s))).
Definition taud (s : Saoud D) : vec3 D := resistance c3 c4 (omegaB s).

Definition FBuoy : vec3 D := scale3 (nabla * rhowater * sd_g) k0.
Definition Fres : vec3 D := zero3.
Definition taures (s : Saoud D) : vec3 D := cross3 (mat_vec (sd_RBI s) B_B) FBuoy.

(** ** Equations of motion *)

Definition vec_list (a : vec3 D) : list D := [v3x a; v3y a; v3z a].
Definition mat_list (A : mat3 D) : list (list D) := [vec_list (row0 A); vec_list (row1 A); vec_list (row2 A)].
Definition list_vec (l : list D) (i : nat) : vec3 D := V3 (nth i l #0) (nth (i + 1) l #0) (nth (i + 2) l #0).
(** [block(i, j, 3, 3)] of a 6x6 matrix. *)
Definition block33 (M : list (list D)) (i j : nat) : mat3 D :=
  let row k := list_vec (nth (i + k) M []) j in M3 (row 0%nat) (row 1%nat) (row 2%nat).
(** A 6x6 matrix of four blocks. *)
Definition blocks (A B C E : mat3 D) : list (list D) :=
  zip_with app (mat_list A) (mat_list B) ++ zip_with app (mat_list C) (mat_list E).
Definition zero33 : mat3 D := M3 zero3 zero3 zero3.
Definition add6 (A B : list (list D)) : list (list D) := zip_with (zip_with nadd) A B.

Definition MRB : list (list D) := blocks (diag3 m0 m0 m0) zero33 zero33 J0.
Definition CRB (s : Saoud D) : list (list D) :=
  let wb := omegaB s in
  blocks (scale_mat m0 (Skew wb)) zero33 zero33 (map3 nopp (Skew (mat_vec J0 wb))).
Definition CA (s : Saoud D) : list (list D) :=
  let A11 := block33 MA 0 0 in
  let A12 := block33 MA 0 3 in
  let A21 := block33 MA 3 0 in
  let A22 := block33 MA 3 3 in
  let sk A B := map3 nopp (Skew (add3 (mat_vec A (vB s)) (mat_vec B (omegaB s)))) in
  blocks zero33 (sk A11 A12) (sk A11 A12) (sk A21 A22).
Definition MT : list (list D) := add6 MRB MA.
Definition CT (s : Saoud D) : list (list D) := add6 (CRB s) (CA s).

Definition sum_forces (s : Saoud D) : vec3 D := add3 (add3 (add3 (add3 (Fd s) Fres) (Fs s)) (Fr s)) (Fk s).
Definition sum_torques (s : Saoud D) : vec3 D :=
  add3 (add3 (add3 (add3 (taud s) (taures s)) (taus s)) (taur s)) (tauk s).

Definition nudot (s : Saoud D) : list D :=
  let forces := vec_list (mat_vec (inverse3 (sd_RBI s)) (sum_forces s))
                ++ vec_list (mat_vec (inverse3 (sd_RBI s)) (sum_torques s)) in
  let nu := vec_list (vB s) ++ vec_list (omegaB s) in
  mvec (inverse6 MT) (zip_with nsub forces (mvec (CT s) nu)).

(** [Update()] *)
Definition Saoud_Update (s : Saoud D) : Saoud D :=
  let dt := sd_dt s in
  let s := s |> set_sd_deltas (sd_deltas s + sd_deltasdot s * dt) |> set_sd_deltar (sd_deltar s + sd_deltardot s * dt) in
  let deltanu := map (λ a, a * dt) (nudot s) in
  let vbody := add3 (vB s) (list_vec deltanu 0) in
  let omegabody := add3 (omegaB s) (list_vec deltanu 3) in
  let wx := Skew omegabody in
  let RBI := sd_RBI s in
  let s := s |> set_sd_v (mat_vec RBI vbody) |> set_sd_omega (mat_vec RBI omegabody) in
  let s := s |> set_sd_x (add3 (sd_x s) (V3 (v3x (sd_v s) * dt) (v3y (sd_v s) * dt) (v3z (sd_v s) * dt))) in
  let step := map3 (λ a, a * dt) (mat_mul RBI wx) in
  let RBI := M3 (add3 (row0 RBI) (row0 step)) (add3 (row1 RBI) (row1 step)) (add3 (row2 RBI) (row2 step)) in
  s |> set_sd_RBI (Orthogonalize RBI).

(** [Update(sdot, rdot, _)] *)
Definition Saoud_Update3 (sdot rdot : D) (s : Saoud D) : (vec3 D * vec3 D) * mat3 D * Saoud D :=
  let s := Saoud_Update (s |> set_sd_deltasdot sdot |> set_sd_deltardot rdot) in
  ((sd_x s, sd_v s), sd_RBI s, s).
Definition Saoud_set_wind (w : vec3 D) (s : Saoud D) : Saoud D := s |> set_sd_vw w.
End Model.

(** ** Properties, in exact arithmetic *)

#[local] Open Scope R_scope.

Section Exact.
Context {EG : Eigen R} {EL : EigenLaws R} {EI : EigenInv R} {DE : Dense R} {DL : DenseLaws R}.

(** The components of a vector along the axes of a surface turned by [d] have its norm. *)
Lemma surface_axes (A : mat3 R) (d : R) (va : vec3 R) :
  rotation A ->
  square (dot3 va (mat_vec A (isB d))) + square (dot3 va (mat_vec A (jsB d))) + square (dot3 va (mat_vec A ksB))
  = squaredNorm3 va.
Proof.
  intros (_ & H & _). revert H. rewrite mat_mul_eq. cbn. rewrite !dot3_eq. cbn. intros [= E1 E2 E3 E4 E5 E6 E7 E8 E9].
  rewrite !mat_vec_eq, !dot3_eq, squaredNorm3_eq. unfold square, isB, jsB, ksB. cbn.
  pose proof (sin2_cos2_sub d) as Hd. revert Hd. generalize (sin d) (cos d). intros sd cd Hd.
  nsatz.
Qed.

(** With an attack angle computed from the flow, the lift is across the flow: only the drag
    does work. *)
Lemma foil_power (lambda CL CD along across up : R) (va n : vec3 R) :
  dot3 va n = across -> square along + square across + square up = squaredNorm3 va ->
  1 / 1000 <= sqrt (square along + square up) ->
  dot3 (foil_force lambda CL CD (attack along across up) va n) va = - (lambda * CD * (norm3 va * norm3 va * norm3 va)).
Proof.
  intros Hn Hsq Hd. unfold attack. cbn [nsqrt num_R]. cbn [nadd nabs nltb num_R].
  set (q := square along + square up) in *. set (d := sqrt q) in *.
  assert (0 < d) as Hd0 by lra.
  assert (Rltb (Rabs d) (dec 1 3) = false) as ->.
  { rewrite Rabs_right by lra. dec_R. case_R; [lra|done]. }
  assert (q = d * d) as Eq.
  { unfold d. rewrite sqrt_sqrt; [done|]. unfold q, square. cbn. nra. }
  set (N := norm3 va).
  assert (0 <= N ∧ N * N = squaredNorm3 va) as [HN HNN].
  { unfold N. rewrite norm3_eq, squaredNorm3_eq. cbn. split; [apply sqrt_pos|apply sqrt_sqrt; nra]. }
  assert (N * N = d * d + across * across) as HN2 by (rewrite HNN, <- Hsq; unfold q, square in *; cbn in *; lra).
  assert (0 < N) as HN0 by nra.
  assert (cos (atan (- across / d)) = d / N) as Hc.
  { rewrite cos_atan. replace (1 + (- across / d)²) with (N / d * (N / d)); [|unfold Rsqr; rewrite <- (Rmult_1_l 1)].
    - rewrite sqrt_square by (apply Rlt_le, Rdiv_lt_0_compat; lra). field. lra.
    - replace (N / d * (N / d)) with (N * N / (d * d)) by (field; lra). rewrite HN2. field. lra. }
  unfold foil_force. rewrite dot3_eq. unfold add3, scale3. cbn -[norm3 squaredNorm3 tan cos atan]. fold N.
  rewrite Hc, atan_right_inv.
  assert (v3x va * v3x va + v3y va * v3y va + v3z va * v3z va = N * N) as HV by (rewrite HNN, squaredNorm3_eq; done).
  rewrite dot3_eq in Hn. cbn in Hn. rewrite <- HNN.
  set (w := - lambda * (CD - CL * (- across / d)) * N). set (l := lambda * CL / (d / N) * (N * N)).
  replace ((w * v3x va + l * v3x n) * v3x va + (w * v3y va + l * v3y n) * v3y va + (w * v3z va + l * v3z n) * v3z va)
    with (w * (v3x va * v3x va + v3y va * v3y va + v3z va * v3z va)
          + l * (v3x va * v3x n + v3y va * v3y n + v3z va * v3z n)) by ring.
  rewrite HV, Hn. unfold w, l. field. lra.
Qed.

Lemma CDparam_pos (c0 c1 a : R) : 0 <= c0 -> 0 <= c1 -> 0 <= CDparam c0 c1 a.
Proof. intros H0 H1. unfold CDparam, square. cbn. pose proof (Rle_0_sqr (sin a)). unfold Rsqr in *. nra. Qed.

(** The speed of the flow in the plane of the sail and of the rudder. *)
Definition sail_flow (s : Saoud R) : R := sqrt (square (dot3 (vas s) (is_ s)) + square (dot3 (vas s) (ks s))).
Definition rudder_flow (s : Saoud R) : R := sqrt (square (dot3 (var_ s) (ir s)) + square (dot3 (var_ s) (kr s))).

(** C37: In exact arithmetic, with the hull's attitude a rotation and a flow above the
    threshold, the lift of sail and rudder does no work: the power of the whole force
    against the apparent velocity is that of the drag alone, and never positive. *)
Theorem lift_does_no_work (s : Saoud R) :
  rotation (sd_RBI s) -> 1 / 1000 <= sail_flow s -> 1 / 1000 <= rudder_flow s ->
  let cube n := n * n * n in
  dot3 (Fs s) (vas s) = - (dec 5 1 * rhoair * Ss * CsD (alphas s) * cube (norm3 (vas s)))
  ∧ dot3 (Fr s) (var_ s) = - (dec 5 1 * rhowater * Sr * CrD (alphar s) * cube (norm3 (var_ s)))
  ∧ dot3 (Fs s) (vas s) <= 0 ∧ dot3 (Fr s) (var_ s) <= 0.
Proof.
  intros HR Hs Hr cube.
  assert (dot3 (Fs s) (vas s) = - (dec 5 1 * rhoair * Ss * CsD (alphas s) * cube (norm3 (vas s)))) as Es.
  { apply foil_power; [done|by apply surface_axes|done]. }
  assert (dot3 (Fr s) (var_ s) = - (dec 5 1 * rhowater * Sr * CrD (alphar s) * cube (norm3 (var_ s)))) as Er.
  { apply foil_power; [done|by apply surface_axes|done]. }
  assert (∀ va, 0 <= cube (norm3 va)) as Hc.
  { intros va. unfold cube. assert (0 <= norm3 va) by (rewrite norm3_eq; apply sqrt_pos). nra. }
  split_and!; [done|done|rewrite Es|rewrite Er].
  - assert (0 <= CsD (alphas s)) by (apply CDparam_pos; unfold c0s, c1s; dec_R; lra).
    specialize (Hc (vas s)). revert H Hc. generalize (CsD (alphas s)) (cube (norm3 (vas s))).
    intros a b Ha Hb. unfold rhoair, Ss. dec_R. nra.
  - assert (0 <= CrD (alphar s)) by (apply CDparam_pos; unfold c0r, c1r, c0s, c1s; dec_R; lra).
    specialize (Hc (var_ s)). revert H Hc. generalize (CrD (alphar s)) (cube (norm3 (var_ s))).
    intros a b Ha Hb. unfold rhowater, Sr. dec_R. nra.
Qed.

(** The Coriolis terms do no work: the velocity is orthogonal to what they contribute. *)
Theorem coriolis_no_work (s : Saoud R) :
  let nu := vec_list (vB s) ++ vec_list (omegaB s) in row_dot nu (mvec (CT s) nu) = 0.
Proof.
  cbv zeta. rewrite mvec_eq. unfold CT, CRB, CA. cbv zeta.
  generalize (omegaB s) (vB s). intros w u. rewrite !mat_vec_eq. unfold row_dot. cbn.
  rewrite !dot3_eq. cbn. ring.
Qed.
End Exact.

(** The boat at its start, moving forward at one metre per second. *)
Definition saoud_moving : Saoud R := set_sd_v (V3 1 0 0) (set_sd_deltas 0 (Saoud_init (1 / 1000))).

Lemma lift_does_no_work_witness :
  @dot3 R _ eigen_plain (@Fs R _ _ eigen_plain saoud_moving) (@vas R _ eigen_plain saoud_moving) <= 0.
Proof.
  assert (identity3 = heel_yaw_matrix 0 0) as E.
  { unfold heel_yaw_matrix, identity3. cbn. rewrite sin_0, cos_0. f_equal; f_equal; ring. }
  apply (@lift_does_no_work eigen_plain eigen_plain_laws saoud_moving).
  - change (sd_RBI saoud_moving) with (identity3 : mat3 R). rewrite E. apply (@heel_yaw_rotation eigen_plain eigen_plain_laws).
  - unfold sail_flow, square, vas, vs, is_, js, ks, isB, jsB, ksB. cbn. unfold plain_dot3. cbn. rewrite sin_0, cos_0.
    match goal with |- _ <= sqrt ?x => replace x with 1 by ring end. rewrite sqrt_1. lra.
  - unfold rudder_flow, square, var_, vr, ir, jr, kr, isB, jsB, ksB. cbn. unfold plain_dot3. cbn. rewrite sin_0, cos_0.
    match goal with |- _ <= sqrt ?x => replace x with 1 by ring end. rewrite sqrt_1. lra.
Defined.
