(* ===== verification/SimNode.v ===== *)
(** * The simulator

    src/sim/sim_inter.cc and .h, fake_airmar.cc and .h and fake_internal_sensors.cc: the
    node that steps the simulated boat, and the fake sensors that turn its true state into
    the messages of the real ones.  The clock, the time flags and the quaternion of an
    attitude are arguments.  The sensor noise is disabled in the source: the draws of its
    generator are discarded and 0 is added. *)

From Stdlib Require Import ZArith Lia Reals Lra Psatz.
From stdpp Require Import base list.
From S2P Require Import Prelude Num NumR Vec Util Messages StateEstimator SimPhysics.

#[local] Open Scope Z_scope.

(** The CAN messages of the fake sensor, one constructor for each queue. *)
Inductive AirmarMsg (D : Type) :=
| AmHeading (heading : D)
| AmRate (rate : D)
| AmAttitude (roll pitch : D)
| AmPosition (lat lon : D)
| AmCogSog (cog sog : D)
| AmWind (speed angle : D) (reference : WIND_REFERENCE).
Arguments AmHeading {D} _.
Arguments AmRate {D} _.
Arguments AmAttitude {D} _ _.
Arguments AmPosition {D} _ _.
Arguments AmCogSog {D} _ _.
Arguments AmWind {D} _ _ _.

(** [am_last_*] are the fields of the last messages that are read again; [am_has_euler] and
    [am_has_wind] say whether a state with Euler angles and a wind have arrived. *)
Record FakeAirmar (D : Type) := MkAirmar {
  am_last_heading : option D;
  am_last_roll : option D;
  am_last_pitch : option D;
  am_state : BoatState D;
  am_has_euler : bool;
  am_wind : vec3 D;
  am_has_wind : bool;
  am_lat : D;
  am_lon : D;
  am_lat_scale : D;
  am_lon_scale : D;
  am_counter : Z;
  am_out : list (AirmarMsg D);
}.
Arguments MkAirmar {D}.
Arguments am_last_heading {D} _.
Arguments am_last_roll {D} _.
Arguments am_last_pitch {D} _.
Arguments am_state {D} _.
Arguments am_has_euler {D} _.
Arguments am_wind {D} _.
Arguments am_has_wind {D} _.
Arguments am_lat {D} _.
Arguments am_lon {D} _.
Arguments am_lat_scale {D} _.
Arguments am_lon_scale {D} _.
Arguments am_counter {D} _.
Arguments am_out {D} _.
Definition set_am_last_heading {D : Type} (v : option D) (s : FakeAirmar D) : FakeAirmar D := MkAirmar v (s.(am_last_roll)) (s.(am_last_pitch)) (s.(am_state)) (s.(am_has_euler)) (s.(am_wind)) (s.(am_has_wind)) (s.(am_lat)) (s.(am_lon)) (s.(am_lat_scale)) (s.(am_lon_scale)) (s.(am_counter)) (s.(am_out)).
Definition set_am_last_roll {D : Type} (v : option D) (s : FakeAirmar D) : FakeAirmar D := MkAirmar (s.(am_last_heading)) v (s.(am_last_pitch)) (s.(am_state)) (s.(am_has_euler)) (s.(am_wind)) (s.(am_has_wind)) (s.(am_lat)) (s.(am_lon)) (s.(am_lat_scale)) (s.(am_lon_scale)) (s.(am_counter)) (s.(am_out)).
Definition set_am_last_pitch {D : Type} (v : option D) (s : FakeAirmar D) : FakeAirmar D := MkAirmar (s.(am_last_heading)) (s.(am_last_roll)) v (s.(am_state)) (s.(am_has_euler)) (s.(am_wind)) (s.(am_has_wind)) (s.(am_lat)) (s.(am_lon)) (s.(am_lat_scale)) (s.(am_lon_scale)) (s.(am_counter)) (s.(am_out)).
Definition set_am_state {D : Type} (v : BoatState D) (s : FakeAirmar D) : FakeAirmar D := MkAirmar (s.(am_last_heading)) (s.(am_last_roll)) (s.(am_last_pitch)) v (s.(am_has_euler)) (s.(am_wind)) (s.(am_has_wind)) (s.(am_lat)) (s.(am_lon)) (s.(am_lat_scale)) (s.(am_lon_scale)) (s.(am_counter)) (s.(am_out)).
Definition set_am_has_euler {D : Type} (v : bool) (s : FakeAirmar D) : FakeAirmar D := MkAirmar (s.(am_last_heading)) (s.(am_last_roll)) (s.(am_last_pitch)) (s.(am_state)) v (s.(am_wind)) (s.(am_has_wind)) (s.(am_lat)) (s.(am_lon)) (s.(am_lat_scale)) (s.(am_lon_scale)) (s.(am_counter)) (s.(am_out)).
Definition set_am_wind {D : Type} (v : vec3 D) (s : FakeAirmar D) : FakeAirmar D := MkAirmar (s.(am_last_heading)) (s.(am_last_roll)) (s.(am_last_pitch)) (s.(am_state)) (s.(am_has_euler)) v (s.(am_has_wind)) (s.(am_lat)) (s.(am_lon)) (s.(am_lat_scale)) (s.(am_lon_scale)) (s.(am_counter)) (s.(am_out)).
Definition set_am_has_wind {D : Type} (v : bool) (s : FakeAirmar D) : FakeAirmar D := MkAirmar (s.(am_last_heading)) (s.(am_last_roll)) (s.(am_last_pitch)) (s.(am_state)) (s.(am_has_euler)) (s.(am_wind)) v (s.(am_lat)) (s.(am_lon)) (s.(am_lat_scale)) (s.(am_lon_scale)) (s.(am_counter)) (s.(am_out)).
Definition set_am_lat {D : Type} (v : D) (s : FakeAirmar D) : FakeAirmar D := MkAirmar (s.(am_last_heading)) (s.(am_last_roll)) (s.(am_last_pitch)) (s.(am_state)) (s.(am_has_euler)) (s.(am_wind)) (s.(am_has_wind)) v (s.(am_lon)) (s.(am_lat_scale)) (s.(am_lon_scale)) (s.(am_counter)) (s.(am_out)).
Definition set_am_lon {D : Type} (v : D) (s : FakeAirmar D) : FakeAirmar D := MkAirmar (s.(am_last_heading)) (s.(am_last_roll)) (s.(am_last_pitch)) (s.(am_state)) (s.(am_has_euler)) (s.(am_wind)) (s.(am_has_wind)) (s.(am_lat)) v (s.(am_lat_scale)) (s.(am_lon_scale)) (s.(am_counter)) (s.(am_out)).
Definition set_am_lat_scale {D : Type} (v : D) (s : FakeAirmar D) : FakeAirmar D := MkAirmar (s.(am_last_heading)) (s.(am_last_roll)) (s.(am_last_pitch)) (s.(am_state)) (s.(am_has_euler)) (s.(am_wind)) (s.(am_has_wind)) (s.(am_lat)) (s.(am_lon)) v (s.(am_lon_scale)) (s.(am_counter)) (s.(am_out)).
Definition set_am_lon_scale {D : Type} (v : D) (s : FakeAirmar D) : FakeAirmar D := MkAirmar (s.(am_last_heading)) (s.(am_last_roll)) (s.(am_last_pitch)) (s.(am_state)) (s.(am_has_euler)) (s.(am_wind)) (s.(am_has_wind)) (s.(am_lat)) (s.(am_lon)) (s.(am_lat_scale)) v (s.(am_counter)) (s.(am_out)).
Definition set_am_counter {D : Type} (v : Z) (s : FakeAirmar D) : FakeAirmar D := MkAirmar (s.(am_last_heading)) (s.(am_last_roll)) (s.(am_last_pitch)) (s.(am_state)) (s.(am_has_euler)) (s.(am_wind)) (s.(am_has_wind)) (s.(am_lat)) (s.(am_lon)) (s.(am_lat_scale)) (s.(am_lon_scale)) v (s.(am_out)).
Definition set_am_out {D : Type} (v : list (AirmarMsg D)) (s : FakeAirmar D) : FakeAirmar D := MkAirmar (s.(am_last_heading)) (s.(am_last_roll)) (s.(am_last_pitch)) (s.(am_state)) (s.(am_has_euler)) (s.(am_wind)) (s.(am_has_wind)) (s.(am_lat)) (s.(am_lon)) (s.(am_lat_scale)) (s.(am_lon_scale)) (s.(am_counter)) v.

Inductive SimOut (D : Type) :=
| OutSimState (b : BoatState D) (orientation : D * D * D * D)
| OutSimWind (w : vec3 D)
| OutShutdown.
Arguments OutSimState {D} _ _.
Arguments OutSimWind {D} _.
Arguments OutShutdown {D}.

Record SimulatorNode (D : Type) := MkSim {
  sn_impl : TrivialDynamics D;
  sn_sdot : D;
  sn_rdot : D;
  sn_bdot : D;
  sn_deltas : D;
  sn_deltar : D;
  sn_started : bool;
  sn_next_reset : D;
  sn_last : BoatState D;
  sn_last_has_pos : bool;
  sn_airmar : FakeAirmar D;
  sn_out : list (SimOut D);
}.
Arguments MkSim {D}.
Arguments sn_impl {D} _.
Arguments sn_sdot {D} _.
Arguments sn_rdot {D} _.
Arguments sn_bdot {D} _.
Arguments sn_deltas {D} _.
Arguments sn_deltar {D} _.
Arguments sn_started {D} _.
Arguments sn_next_reset {D} _.
Arguments sn_last {D} _.
Arguments sn_last_has_pos {D} _.
Arguments sn_airmar {D} _.
Arguments sn_out {D} _.
Definition set_sn_impl {D : Type} (v : TrivialDynamics D) (s : SimulatorNode D) : SimulatorNode D := MkSim v (s.(sn_sdot)) (s.(sn_rdot)) (s.(sn_bdot)) (s.(sn_deltas)) (s.(sn_deltar)) (s.(sn_started)) (s.(sn_next_reset)) (s.(sn_last)) (s.(sn_last_has_pos)) (s.(sn_airmar)) (s.(sn_out)).
Definition set_sn_sdot {D : Type} (v : D) (s : SimulatorNode D) : SimulatorNode D := MkSim (s.(sn_impl)) v (s.(sn_rdot)) (s.(sn_bdot)) (s.(sn_deltas)) (s.(sn_deltar)) (s.(sn_started)) (s.(sn_next_reset)) (s.(sn_last)) (s.(sn_last_has_pos)) (s.(sn_airmar)) (s.(sn_out)).
Definition set_sn_rdot {D : Type} (v : D) (s : SimulatorNode D) : SimulatorNode D := MkSim (s.(sn_impl)) (s.(sn_sdot)) v (s.(sn_bdot)) (s.(sn_deltas)) (s.(sn_deltar)) (s.(sn_started)) (s.(sn_next_reset)) (s.(sn_last)) (s.(sn_last_has_pos)) (s.(sn_airmar)) (s.(sn_out)).
Definition set_sn_bdot {D : Type} (v : D) (s : SimulatorNode D) : SimulatorNode D := MkSim (s.(sn_impl)) (s.(sn_sdot)) (s.(sn_rdot)) v (s.(sn_deltas)) (s.(sn_deltar)) (s.(sn_started)) (s.(sn_next_reset)) (s.(sn_last)) (s.(sn_last_has_pos)) (s.(sn_airmar)) (s.(sn_out)).
Definition set_sn_deltas {D : Type} (v : D) (s : SimulatorNode D) : SimulatorNode D := MkSim (s.(sn_impl)) (s.(sn_sdot)) (s.(sn_rdot)) (s.(sn_bdot)) v (s.(sn_deltar)) (s.(sn_started)) (s.(sn_next_reset)) (s.(sn_last)) (s.(sn_last_has_pos)) (s.(sn_airmar)) (s.(sn_out)).
Definition set_sn_deltar {D : Type} (v : D) (s : SimulatorNode D) : SimulatorNode D := MkSim (s.(sn_impl)) (s.(sn_sdot)) (s.(sn_rdot)) (s.(sn_bdot)) (s.(sn_deltas)) v (s.(sn_started)) (s.(sn_next_reset)) (s.(sn_last)) (s.(sn_last_has_pos)) (s.(sn_airmar)) (s.(sn_out)).
Definition set_sn_started {D : Type} (v : bool) (s : SimulatorNode D) : SimulatorNode D := MkSim (s.(sn_impl)) (s.(sn_sdot)) (s.(sn_rdot)) (s.(sn_bdot)) (s.(sn_deltas)) (s.(sn_deltar)) v (s.(sn_next_reset)) (s.(sn_last)) (s.(sn_last_has_pos)) (s.(sn_airmar)) (s.(sn_out)).
Definition set_sn_next_reset {D : Type} (v : D) (s : SimulatorNode D) : SimulatorNode D := MkSim (s.(sn_impl)) (s.(sn_sdot)) (s.(sn_rdot)) (s.(sn_bdot)) (s.(sn_deltas)) (s.(sn_deltar)) (s.(sn_started)) v (s.(sn_last)) (s.(sn_last_has_pos)) (s.(sn_airmar)) (s.(sn_out)).
Definition set_sn_last {D : Type} (v : BoatState D) (s : SimulatorNode D) : SimulatorNode D := MkSim (s.(sn_impl)) (s.(sn_sdot)) (s.(sn_rdot)) (s.(sn_bdot)) (s.(sn_deltas)) (s.(sn_deltar)) (s.(sn_started)) (s.(sn_next_reset)) v (s.(sn_last_has_pos)) (s.(sn_airmar)) (s.(sn_out)).
Definition set_sn_last_has_pos {D : Type} (v : bool) (s : SimulatorNode D) : SimulatorNode D := MkSim (s.(sn_impl)) (s.(sn_sdot)) (s.(sn_rdot)) (s.(sn_bdot)) (s.(sn_deltas)) (s.(sn_deltar)) (s.(sn_started)) (s.(sn_next_reset)) (s.(sn_last)) v (s.(sn_airmar)) (s.(sn_out)).
Definition set_sn_airmar {D : Type} (v : FakeAirmar D) (s : SimulatorNode D) : SimulatorNode D := MkSim (s.(sn_impl)) (s.(sn_sdot)) (s.(sn_rdot)) (s.(sn_bdot)) (s.(sn_deltas)) (s.(sn_deltar)) (s.(sn_started)) (s.(sn_next_reset)) (s.(sn_last)) (s.(sn_last_has_pos)) v (s.(sn_out)).
Definition set_sn_out {D : Type} (v : list (SimOut D)) (s : SimulatorNode D) : SimulatorNode D := MkSim (s.(sn_impl)) (s.(sn_sdot)) (s.(sn_rdot)) (s.(sn_bdot)) (s.(sn_deltas)) (s.(sn_deltar)) (s.(sn_started)) (s.(sn_next_reset)) (s.(sn_last)) (s.(sn_last_has_pos)) (s.(sn_airmar)) v.

Section Airmar.
Context {D : Type} {ND : Num D}.
#[local] Open Scope num_scope.
#[local] Notation "s |> f" := (f s) (at level 50, left associativity, only parsing).

Definition am_dt : D := nfloat (dec 1 1).
Definition kTContinuous : D := nfloat (- dec 21 1).

Definition zero_boat_state : BoatState D :=
  MkBoatState (V3 #0 #0 #0) (V3 #0 #0 #0) (V3 #0 #0 #0) (V3 #0 #0 #0) Internal_clear.

Definition FakeAirmar_init : FakeAirmar D :=
  MkAirmar None None None zero_boat_state false (V3 #0 #0 #0) false
    (dec 42276126 6 * npi / #180) (- dec 71756934 6 * npi / #180) (#111078 / npi * #180) (dec 824996 1 / npi * #180) 0 [].

Definition set_gps_zero (lat lon : D) (s : FakeAirmar D) : FakeAirmar D :=
  let '(latscale, lonscale) := GPSLatLonScale lat in
  s |> set_am_lat lat |> set_am_lon lon |> set_am_lat_scale latscale |> set_am_lon_scale lonscale.

Definition airmar_handle_state (m : BoatState D) (has_euler : bool) (s : FakeAirmar D) : FakeAirmar D :=
  s |> set_am_state m |> set_am_has_euler has_euler.
Definition airmar_handle_wind (w : vec3 D) (has_x : bool) (s : FakeAirmar D) : FakeAirmar D :=
  s |> set_am_wind w |> set_am_has_wind has_x.

Definition airmar_send (m : AirmarMsg D) (s : FakeAirmar D) : FakeAirmar D := s |> set_am_out (am_out s ++ [m]).

(** [Normal] returns 0. *)
Definition airmar_noise : D := #0.

Definition CalcNew (last truth kT : D) : D :=
  let diff := nfloat (norm_angle (fsubf truth last)) in
  nfloat (norm_angle (faddf last (fmulf (fsubf #1 kT) diff))).

Definition kTdt : D := nfloat (#0 * nfloat (nexp (fmulf am_dt kTContinuous))).
Definition kT1Hz : D := nfloat (#0 * nfloat (nexp kTContinuous)).

Definition send_attitude (s : FakeAirmar D) : FakeAirmar D :=
  let roll := faddf (v3x (euler (am_state s))) airmar_noise in
  let pitch := faddf (v3y (euler (am_state s))) airmar_noise in
  let roll := CalcNew (get (am_last_roll s)) roll kT1Hz in
  let pitch := CalcNew (get (am_last_pitch s)) pitch kT1Hz in
  s |> airmar_send (AmAttitude roll pitch) |> set_am_last_roll (Some roll) |> set_am_last_pitch (Some pitch).

(** The messages about the boat's motion. *)
Definition send_motion (s : FakeAirmar D) : FakeAirmar D :=
  let st := am_state s in
  let heading := CalcNew (get (am_last_heading s)) (nfloat (npi / #2 - v3z (euler st))) kTdt in
  let s := s |> airmar_send (AmHeading heading) |> set_am_last_heading (Some heading) in
  let s := s |> airmar_send (AmRate (faddf (- v3z (omega st)) airmar_noise)) in
  let s := if (Z.rem (am_counter s) (nint (fdivf #1 am_dt)) =? 0)%Z then send_attitude s else s in
  let x := v3x (pos st) + airmar_noise in
  let y := v3y (pos st) + airmar_noise in
  let s := s |> airmar_send (AmPosition (y / am_lat_scale s + am_lat s) (x / am_lon_scale s + am_lon s)) in
  let vx := v3x (vel st) in
  let vy := v3y (vel st) in
  s |> airmar_send (AmCogSog (nfloat (npi / #2 - nfloat (natan2 vy vx) + airmar_noise))
                             (faddf (nfloat (nsqrt (faddf (fmulf vx vx) (fmulf vy vy)))) airmar_noise)).

(** True wind by compass direction it comes from, then apparent wind relative to the bow. *)
Definition send_wind (s : FakeAirmar D) : FakeAirmar D :=
  let st := am_state s in
  let wx := v3x (am_wind s) in
  let wy := v3y (am_wind s) in
  let speed := faddf (nfloat (nsqrt (faddf (fmulf wx wx) (fmulf wy wy)))) airmar_noise in
  let angle := norm_angle (npi / #2 - nfloat (natan2 (- wy) (- wx)) + airmar_noise) in
  let s := s |> airmar_send (AmWind speed (nfloat angle) TRUE_NORTH_REF) in
  let wx := fsubf wx (v3x (vel st)) in
  let wy := fsubf wy (v3y (vel st)) in
  let alphaw := - norm_angle (natan2 (- wy) (- wx) - v3z (euler st)) in
  s |> airmar_send (AmWind (nfloat (nsqrt (wx * wx + wy * wy))) (nfloat alphaw) APPARENT).

Definition Airmar_Iterate (s : FakeAirmar D) : FakeAirmar D :=
  if negb (am_has_euler s) || negb (am_has_wind s) then s
  else
    let s := send_wind (send_motion s) in
    s |> set_am_counter (am_counter s + 1)%Z.

(** ** The fake internal sensors pass the true positions on *)
Definition fake_internal_handle (m : BoatState D) (has_internal : bool) : option (InternalBoatState D) :=
  if has_internal then Some (internal m) else None.
End Airmar.

Section Node.
Context {D : Type} {ND : Num D} {NF : NumFun D} {EG : Eigen D} {EI : EigenInv D}.
Variable quaternion : mat3 D -> D * D * D * D.
Variables starttime endtime reset_period : D.
Variable set_pos_ : bool.
#[local] Open Scope num_scope.
#[local] Open Scope result_scope.
#[local] Notation "s |> f" := (f s) (at level 50, left associativity, only parsing).

Definition sim_dt : D := dec 1 3.

(** [deltas_] and [deltar_] have no initialiser. *)
Definition SimulatorNode_init (deltas deltar : D) : SimulatorNode D :=
  MkSim (TrivialDynamics_init (nfloat sim_dt)) #0 #0 #0 deltas deltar false (- #1) zero_boat_state false FakeAirmar_init [].

Definition sim_send (o : SimOut D) (s : SimulatorNode D) : SimulatorNode D := s |> set_sn_out (sn_out s ++ [o]).

Definition set_wind (x y z : D) (s : SimulatorNode D) : SimulatorNode D :=
  s |> set_sn_impl (set_td_wind (V3 x y z) (sn_impl s)) |> sim_send (OutSimWind (V3 x y z)).
Definition set_wind_dir (src_dir speed : D) (s : SimulatorNode D) : SimulatorNode D :=
  set_wind (fmulf speed (nfloat (ncos src_dir))) (fmulf speed (nfloat (nsin src_dir))) #0 s.

Definition kAirmarOffset : D := - #0.

Definition handle_orig_state (m : BoatState D) (has_pos : bool) (s : SimulatorNode D) : SimulatorNode D :=
  let e := euler m in
  s |> set_sn_last (set_euler (V3 (v3x e) (v3y e) (nfloat (v3z e - kAirmarOffset))) m)
    |> set_sn_last_has_pos has_pos |> set_sn_deltas (get (sail (internal m))).

(** A field that is set and not NaN. *)
Definition usable (o : option D) : option D :=
  match o with Some x => if nisnan x then None else Some x | None => None end.

Definition ProcessSail (cmd : SailCmd D) (s : SimulatorNode D) : SimulatorNode D :=
  match usable (sail_vel cmd), usable (sail_pos cmd) with
  | Some v, _ => s |> set_sn_sdot v
  | None, Some p => s |> set_sn_sdot (get_sdot_for_goal p (sn_impl s))
  | None, None => s
  end.

Definition ProcessRudder (cmd : RudderCmd D) (s : SimulatorNode D) : SimulatorNode D :=
  let s := s |> set_sn_deltar (get (rudder_pos cmd)) in
  match usable (rudder_vel cmd), usable (rudder_pos cmd) with
  | Some v, _ => s |> set_sn_rdot v
  | None, Some p => s |> set_sn_rdot (get_rdot_for_goal p (sn_impl s))
  | None, None => s
  end.

Definition ProcessBallast (cmd : BallastCmd D) (s : SimulatorNode D) : SimulatorNode D :=
  match usable (ballast_vel cmd), ballast_voltage cmd with
  | Some v, _ => s |> set_sn_bdot v
  | None, Some u => s |> set_sn_bdot (u / #12)
  | None, None => s
  end.

(** Going back to the logged state, at the start and at every reset. *)
Definition sim_start (s : SimulatorNode D) : SimulatorNode D :=
  let lat := if sn_last_has_pos s then v3y (pos (sn_last s)) else dec 42276126 6 in
  let lon := if sn_last_has_pos s then v3x (pos (sn_last s)) else - dec 71756934 6 in
  s |> set_sn_impl (set_from_state (sn_last s) (sn_impl s)) |> set_sn_airmar (set_gps_zero lat lon (sn_airmar s))
    |> set_sn_started true.

Definition sim_reset (systime : D) (s : SimulatorNode D) : SimulatorNode D :=
  let s := if (#0 <? reset_period) && (sn_next_reset s <? systime)
           then s |> set_sn_started false |> set_sn_next_reset (systime + reset_period) else s in
  if sn_started s then s else sim_start s.

(** The message about the true state. *)
Definition sim_state_msg (s : SimulatorNode D) : BoatState D :=
  let t := sn_impl s in
  MkBoatState (td_x t) (EigenToProto (td_v t)) (EigenToProto (td_omega t)) (EigenToProto (GetRollPitchYaw (td_RBI t)))
    (MkInternal (Some (nfloat (td_deltas t))) (Some (nfloat (td_deltar t))) (Some (nfloat (td_deltab t)))
       (Some (nfloat (sn_sdot s))) (Some (nfloat (sn_rdot s))) (Some (nfloat (sn_bdot s)))).

Definition Sim_Iterate (systime : D) (s : SimulatorNode D) : result SimErr (SimulatorNode D) :=
  if systime <? starttime then Ok s
  else if endtime <? systime then Ok (s |> sim_send OutShutdown)
  else
    let s := sim_reset systime s in
    let* (_, impl) := if set_pos_ then Update2 (sn_deltas s) (sn_deltar s) (sn_impl s)
                      else Update3 (sn_sdot s) (sn_rdot s) (sn_bdot s) (sn_impl s) in
    let s := s |> set_sn_impl impl in
    Ok (s |> sim_send (OutSimState (sim_state_msg s) (let '(w, x, y, z) := quaternion (td_RBI impl) in
                                                      (nfloat w, nfloat x, nfloat y, nfloat z)))).
End Node.

(** ** From the true state to the estimate and back, in exact arithmetic *)

#[local] Open Scope R_scope.

(** What the estimator does with a message of the fake sensor. *)
Definition deliver (s : StateEstimator R) (m : AirmarMsg R) : StateEstimator R :=
  match m with
  | AmHeading h => handle_heading (Some h) s
  | AmRate r => handle_rate (Some r) s
  | AmAttitude _ pitch => handle_attitude (Some pitch) s
  | AmPosition lat lon => handle_position (Some lat) (Some lon) s
  | AmCogSog cog sog => handle_cog_sog (Some cog) (Some sog) s
  | AmWind speed angle ref => handle_wind (Some speed) (Some angle) (Some ref) s
  end.

(** Without a lag the filter returns the true angle, up to whole turns. *)
Lemma CalcNew_truth last truth :
  Rabs last <= 1000 -> Rabs truth <= 1000 -> ∃ k : Z, CalcNew last truth kTdt = truth - IZR k * (2 * PI).
Proof.
  intros Hl Ht. apply Rabs_bounds in Hl, Ht. pose proof PI_RGT_0. pose proof PI_4.
  unfold CalcNew, faddf, fsubf, fmulf, kTdt. cbn -[norm_angle].
  destruct (norm_angle_spec (truth - last)) as (Hn & j & Ej); [apply Rabs_le; lra|].
  set (n := norm_angle (truth - last)) in *.
  destruct (norm_angle_spec (last + (1 - 0 * exp (fmulf am_dt kTContinuous)) * n)) as (_ & k & Ek).
  { rewrite Rmult_0_l, Rminus_0_r, Rmult_1_l. apply Rabs_le. lra. }
  exists (k + j)%Z. unfold fmulf in Ek. cbn -[norm_angle] in Ek. rewrite Ek, plus_IZR. rewrite Rmult_0_l. lra.
Qed.

(** The wind as the estimator reads it: [from] is the direction it comes from. *)
Lemma wind_vector wx wy a (k : Z) :
  a = Ratan2 (- wy) (- wx) - IZR k * (2 * PI) ->
  let r := sqrt (wx * wx + wy * wy) in - r * cos a = wx ∧ - r * sin a = wy.
Proof.
  intros -> r. destruct (Ratan2_cartesian (- wy) (- wx)) as [Hc Hs].
  rewrite cos_turns, sin_turns. replace (- wx * - wx + - wy * - wy) with (wx * wx + wy * wy) in Hc, Hs by ring.
  fold r in Hc, Hs. lra.
Qed.

(** The same in the frame of the boat, for the angle from its bow. *)
Lemma body_wind_vector wx wy yaw a (k : Z) :
  a = Ratan2 (- wy) (- wx) - yaw - IZR k * (2 * PI) ->
  let r := sqrt (wx * wx + wy * wy) in
  - r * cos a = cos yaw * wx + sin yaw * wy ∧ - r * sin a = cos yaw * wy - sin yaw * wx.
Proof.
  intros -> r. destruct (wind_vector wx wy (Ratan2 (- wy) (- wx)) 0) as [Hx Hy]; [ring|]. fold r in Hx, Hy.
  rewrite cos_turns, sin_turns, cos_minus, sin_minus.
  set (t := Ratan2 (- wy) (- wx)) in *. clearbody r t. rewrite <- Hx, <- Hy. split; ring.
Qed.

(** An attitude changes neither the yaw nor what the other messages set. *)
Lemma deliver_attitude att (e : StateEstimator R) :
  (att = [] ∨ ∃ r p, att = [AmAttitude r p]) ->
  let e' := fold_left deliver att e in
  vel_ e' = vel_ e ∧ omega_ e' = omega_ e ∧ pos_ e' = pos_ e ∧ v3z (euler_angles_ e') = v3z (euler_angles_ e)
  ∧ est_out e' = est_out e.
Proof. by intros [->|(r & p & ->)]. Qed.

(** The messages of an iteration. *)
Lemma Airmar_Iterate_out (am : FakeAirmar R) :
  am_has_euler am = true -> am_has_wind am = true ->
  let st := am_state am in
  let vx := v3x (vel st) in
  let vy := v3y (vel st) in
  let wx := v3x (am_wind am) in
  let wy := v3y (am_wind am) in
  let ax := wx - vx in
  let ay := wy - vy in
  ∃ att, (att = [] ∨ ∃ r p, att = [AmAttitude r p]) ∧
  am_out (Airmar_Iterate am) =
    am_out am ++ [AmHeading (CalcNew (get (am_last_heading am)) (PI / 2 - v3z (euler st)) kTdt); AmRate (- v3z (omega st))]
    ++ att ++ [AmPosition (v3y (pos st) / am_lat_scale am + am_lat am) (v3x (pos st) / am_lon_scale am + am_lon am);
               AmCogSog (PI / 2 - Ratan2 vy vx) (sqrt (vx * vx + vy * vy));
               AmWind (sqrt (wx * wx + wy * wy)) (norm_angle (PI / 2 - Ratan2 (- wy) (- wx))) TRUE_NORTH_REF;
               AmWind (sqrt (ax * ax + ay * ay)) (- norm_angle (Ratan2 (- ay) (- ax) - v3z (euler st))) APPARENT].
Proof.
  intros He Hw. cbv zeta. unfold Airmar_Iterate. rewrite He, Hw. cbn [negb orb].
  unfold send_wind, send_motion, faddf, fsubf, fmulf, airmar_noise. cbv zeta.
  match goal with |- context [if ?c then _ else _] => destruct c end.
  - eexists [AmAttitude _ _]. split; [right; eauto|].
    cbn -[norm_angle CalcNew kTdt kT1Hz]. rewrite <- !app_assoc. cbn -[norm_angle CalcNew kTdt kT1Hz].
    rewrite !Rplus_0_r. reflexivity.
  - exists []. split; [by left|]. cbn -[norm_angle CalcNew kTdt kT1Hz]. rewrite <- !app_assoc. cbn -[norm_angle CalcNew kTdt kT1Hz].
    rewrite !Rplus_0_r. reflexivity.
Qed.

(** C23: In exact arithmetic, one iteration of the fake sensor delivered to the state estimator
    gives it the simulator's true state back: velocity, turn rate, position, the yaw up to
    whole turns, and the two winds it publishes are the true wind and the apparent wind
    in the frame of the boat. *)
Theorem sim_sensor_roundtrip (am : FakeAirmar R) (est : StateEstimator R) :
  am_has_euler am = true -> am_has_wind am = true -> am_out am = [] ->
  Rabs (v3z (euler (am_state am))) <= 900 -> Rabs (get (am_last_heading am)) <= 900 ->
  let st := am_state am in
  let yaw := v3z (euler st) in
  let ax := v3x (am_wind am) - v3x (vel st) in
  let ay := v3y (am_wind am) - v3y (vel st) in
  let est' := fold_left deliver (am_out (Airmar_Iterate am)) est in
  vel_ est' = V3 (v3x (vel st)) (v3y (vel st)) (v3z (vel_ est))
  ∧ v3z (omega_ est') = v3z (omega st)
  ∧ pos_ est' = V3 (v3x (pos st) / am_lon_scale am + am_lon am) (v3y (pos st) / am_lat_scale am + am_lat am) (v3z (pos_ est))
  ∧ (∃ k : Z, v3z (euler_angles_ est') = yaw + IZR k * (2 * PI))
  ∧ est_out est' = est_out est ++
      [OutTrueWind (V3 (v3x (am_wind am)) (v3y (am_wind am)) 0);
       OutWind (V3 (cos yaw * ax + sin yaw * ay) (cos yaw * ay - sin yaw * ax) 0)].
Proof.
  intros He Hw Ho Hy Hh st yaw ax ay est'. pose proof PI_RGT_0. pose proof PI_4.
  apply Rabs_bounds in Hy as Hy'.
  destruct (CalcNew_truth (get (am_last_heading am)) (PI / 2 - yaw)) as (k & Ek); [lra|apply Rabs_le; unfold yaw, st; lra|].
  set (wx := v3x (am_wind am)) in *. set (wy := v3y (am_wind am)) in *.
  destruct (norm_angle_spec (PI / 2 - Ratan2 (- wy) (- wx))) as (_ & kt & Et).
  { pose proof (Rabs_bounds _ _ (Ratan2_bound (- wy) (- wx))). apply Rabs_le. lra. }
  destruct (norm_angle_spec (Ratan2 (- ay) (- ax) - yaw)) as (_ & ka & Ea).
  { pose proof (Rabs_bounds _ _ (Ratan2_bound (- ay) (- ax))). apply Rabs_le. unfold yaw, st. lra. }
  destruct (Ratan2_cartesian (v3y (vel st)) (v3x (vel st))) as [Hvx Hvy].
  destruct (Airmar_Iterate_out am He Hw) as (att & Hatt & Eo).
  cbv zeta in Eo. fold st wx wy in Eo. fold ax ay yaw in Eo.
  unfold est'. clear est'. rewrite Eo, Ho. rewrite app_nil_l, !fold_left_app.
  match goal with |- context [fold_left deliver att ?e] => set (e1 := e) end.
  destruct (deliver_attitude att e1 Hatt) as (Ev & Eom & Ep & Ee & Eout). set (e2 := fold_left deliver att e1) in *.
  cbn -[CalcNew kTdt] in Ev, Eom, Ep, Ee, Eout. clearbody e2.
  cbn -[norm_angle Ratan2 sqrt cos sin]. rewrite Eout, <- app_assoc, Et, Ea. cbn [app]. split_and!.
  - rewrite Ev. unfold set_x, set_y. cbn. 
    replace (PI / 2 - (PI / 2 - Ratan2 (v3y (vel st)) (v3x (vel st)))) with (Ratan2 (v3y (vel st)) (v3x (vel st))) by lra.
    by rewrite Hvx, Hvy.
  - rewrite Eom. cbn. lra.
  - rewrite Ep. reflexivity.
  - exists k. rewrite Ee, Ek. cbn. lra.
  - f_equal. f_equal; [|f_equal]; do 2 f_equal.
    1, 2: apply (wind_vector wx wy _ (- kt)); rewrite opp_IZR; lra.
    1, 2: apply (body_wind_vector ax ay yaw _ ka); lra.
Qed.

Section Step.
Context {EG : Eigen R} {EL : EigenLaws R} {EI : EigenInv R}.
Variable quaternion : mat3 R -> R * R * R * R.
Variables starttime endtime reset_period : R.
Variable set_pos_ : bool.

(** C24: In exact arithmetic an iteration of the simulator between its start and end times
    succeeds whatever state the boat is in, and publishes one message with the true
    state.  The boat it leaves is well-formed: its attitude is a rotation matrix, that
    of its heel and yaw without pitch, it stays on the surface, sail, rudder and ballast
    are within their limits; and the angles published are its heel, 0 and its yaw. *)
Theorem sim_iterate_wellformed (systime : R) (s : SimulatorNode R) :
  starttime <= systime <= endtime ->
  let s0 := sim_reset reset_period systime s in
  Rabs (if set_pos_ then sn_deltas s0 else Rabs (td_deltas (sn_impl s0)) + sn_sdot s0 * td_dt (sn_impl s0)) <= 10000 ->
  ∃ s' b q,
    Sim_Iterate quaternion starttime endtime reset_period set_pos_ systime s = Ok s'
    ∧ sn_out s' = sn_out s ++ [OutSimState b q]
    ∧ sim_wf (sn_impl s')
    ∧ vel b = td_v (sn_impl s') ∧ v3z (vel b) = 0
    ∧ (- PI < td_heel (sn_impl s') <= PI -> - PI < td_yaw (sn_impl s') <= PI ->
       euler b = V3 (td_heel (sn_impl s')) 0 (td_yaw (sn_impl s'))).
Proof.
  intros Ht s0 Hd. pose proof PI_RGT_0. unfold Sim_Iterate. cbn [nltb num_R].
  destruct (Rltb_spec systime starttime); [lra|]. destruct (Rltb_spec endtime systime); [lra|]. fold s0.
  assert (sn_out s0 = sn_out s) as E0.
  { unfold s0, sim_reset, sim_start, set_gps_zero. cbn [nltb num_R].
    repeat match goal with |- context [if ?c then _ else _] => destruct c end; try done;
      by destruct (GPSLatLonScale _). }
  assert (∃ t, (if set_pos_ then Update2 (sn_deltas s0) (sn_deltar s0) (sn_impl s0)
                else Update3 (sn_sdot s0) (sn_rdot s0) (sn_bdot s0) (sn_impl s0))
               = Ok (td_x t, td_v t, td_RBI t, t) ∧ sim_wf t) as (t & -> & Hwf).
  { destruct set_pos_; [|unfold Update3]; edestruct Update2_wf as (t & E & Hwf & _); [exact Hd|eauto|exact Hd|eauto]. }
  cbn [rbind]. eexists _, _, _. split; [reflexivity|]. split; [cbn [sn_out sim_send set_sn_out set_sn_impl]; by rewrite E0|].
  split; [exact Hwf|]. split_and!.
  - cbn. by destruct (td_v t).
  - cbn. apply swf_flat, Hwf.
  - cbn [sn_impl set_sn_impl sim_send set_sn_out]. intros Hh Hy. unfold sim_state_msg. cbn [sn_impl set_sn_impl euler].
    rewrite (swf_attitude _ Hwf), GetRollPitchYaw_inv by lra. reflexivity.
Qed.
End Step.

(** ** Witnesses *)

(** A boat that moves north-east with a yaw of 1 in a wind. *)
Definition airmar_example : FakeAirmar R :=
  airmar_handle_wind (V3 3 4 0) true
    (airmar_handle_state (set_vel (V3 1 2 0) (set_euler (V3 0 0 1) zero_boat_state)) true FakeAirmar_init).

Lemma sim_sensor_witness :
  vel_ (fold_left deliver (am_out (Airmar_Iterate airmar_example)) (Est_init 0 0)) = V3 1 2 0.
Proof.
  destruct (sim_sensor_roundtrip airmar_example (Est_init 0 0)) as (H & _); try reflexivity; try exact H.
  - cbn. rewrite Rabs_R1. lra.
  - cbn. rewrite Rabs_R0. lra.
Defined.

Lemma sim_iterate_witness :
  ∃ s', @Sim_Iterate R _ _ eigen_plain eigen_inv_plain (λ _, (1, 0, 0, 0)) 0 9999 0 true 1 (SimulatorNode_init 1 0) = Ok s'
        ∧ -6 / 10 <= td_deltar (sn_impl s') <= 6 / 10.
Proof.
  destruct (@sim_iterate_wellformed eigen_plain eigen_plain_laws eigen_inv_plain (λ _, (1, 0, 0, 0)) 0 9999 0 true 1
    (SimulatorNode_init 1 0)) as (s' & b & q & E & _ & W & _); [lra| |].
  - unfold sim_reset. cbn [nltb nofZ num_R]. destruct (Rltb_spec 0 0); [lra|]. cbn [andb].
    change (sn_deltas _) with 1. rewrite Rabs_R1. lra.
  - exists s'. split; [exact E|]. destruct W. lra.
Defined.
