(* ===== verification/Server.v ===== *)
(** * The web server

    src/ui/server.cc and .h: the node that answers the requests of the user interface.  A
    request is a JSON object that the server splits by hand into names and values; a null
    value asks for the current value of a field, any other value is sent to the queue of
    that name.  Strings are lists of characters.  The reflection and the JSON functions of
    the protocol buffer library are the class [Reflection]; the socket, the queues' threads
    and the clock are events with their data. *)

From Stdlib Require Import ZArith Lia Ascii String.
From stdpp Require Import base list gmap strings.
From S2P Require Import Prelude.

#[local] Open Scope Z_scope.
Open Scope list_scope.

Abbreviation str := (list ascii).
Abbreviation chars := list_ascii_of_string.

Definition QUOTE : ascii := "034"%char.

Inductive CppType := CPPTYPE_MESSAGE | CPPTYPE_STRING | CPPTYPE_NUMBER.

(** What the server uses of the message library.  [json_entry name val] is the serialised
    [LogEntry] whose field [name] was parsed from the text [val]. *)
Class Reflection (message field : Type) := {
  empty_entry : message;
  parse_entry : list Byte.byte -> option message;
  FindFieldByName : message -> str -> option field;
  HasField : message -> field -> bool;
  cpp_type : field -> CppType;
  GetMessage : message -> field -> message;
  MessageToJson : message -> str;
  GetString : message -> field -> str;
  print_number : message -> field -> str;
  json_entry : str -> str -> option (list Byte.byte);
}.

(** An access to an empty string, to a field that is not a message as one, to bytes beyond
    a buffer, or to a queue that was not opened. *)
Inductive ServerErr := EmptyString | NotAMessage | BufferOverrun | NullQueue | OutOfFuel.

(** ** Strings *)

Definition ascii_is (a b : ascii) : bool := Ascii.eqb a b.

(** [find]: the index of the first occurrence, [None] for [npos]. *)
Fixpoint find_char (c : ascii) (l : str) : option nat :=
  match l with
  | [] => None
  | x :: l => if ascii_is x c then Some 0%nat else S <$> find_char c l
  end.

(** ** Splitting a request *)

(** The name between the first two quotes; [npos + 1] is 0. *)
Definition request_name (msg : str) : str :=
  let start := match find_char QUOTE msg with Some i => S i | None => 0%nat end in
  let tail := drop start msg in
  match find_char QUOTE tail with Some n => take n tail | None => tail end.

(** The loop over the characters: [(open_cnt, end_val)] when it ends. *)
Fixpoint scan (l : str) (i : nat) (open_cnt : Z) (in_quote : bool) (end_val : nat) : Z * nat :=
  match l with
  | [] => (open_cnt, end_val)
  | c :: l =>
      if ascii_is c QUOTE then scan l (S i) open_cnt (negb in_quote) i
      else if in_quote then scan l (S i) open_cnt in_quote i
      else
        let open_cnt := if ascii_is c "[" || ascii_is c "{" then open_cnt + 1
                        else if ascii_is c "]" || ascii_is c "}" then open_cnt - 1 else open_cnt in
        if (open_cnt <? 0) || (ascii_is c "," && (open_cnt =? 0)) then (open_cnt, i)
        else scan l (S i) open_cnt in_quote i
  end.

(** The value at the start of the text and what follows it; [None] when a bracket stays
    open.  [msg[size()]] is the terminator. *)
Definition split_value (msg : str) : option (str * str) :=
  let '(open_cnt, end_val) := scan msg 0 0 false 0 in
  if 0 <? open_cnt then None
  else
    let end_val := if (open_cnt =? 0) && negb (ascii_is (nth end_val msg "000"%char) ",") then S end_val else end_val in
    Some (take end_val msg, drop end_val msg).

(** The outer braces. *)
Definition strip_braces (msg : str) : result ServerErr str :=
  match msg with
  | [] => Err EmptyString
  | c :: m =>
      let msg := if ascii_is c "{" then m else msg in
      match last msg with
      | None => Err EmptyString
      | Some c => Ok (if ascii_is c "}" then removelast msg else msg)
      end
  end.

Section Server.
Context {message field : Type} {RF : Reflection message field}.
#[local] Open Scope result_scope.

(** The names of the fields of [LogEntry], each with its queue. *)
Variable queue_names : list str.
(** [lowercase_name] of a field. *)
Variable lowercase : str -> str.

Record WebSocketServer := MkServer {
  msgs_ : gmap str message;
  last_conn_ : Z;
  connected : option bool;
  conn_out : list (option bool);
}.

Definition Server_init (last_conn : Z) : WebSocketServer := MkServer ∅ last_conn None [].

(** A message of a queue: one that does not parse leaves the last one. *)
Definition ProcessQueue (name : str) (bytes : list Byte.byte) (s : WebSocketServer) : WebSocketServer :=
  let entry := match parse_entry bytes with
               | Some m => m
               | None => default empty_entry (msgs_ s !! name)
               end in
  MkServer (<[name := entry]> (msgs_ s)) (last_conn_ s) (connected s) (conn_out s).

(** The end of a queue's thread. *)
Definition ProcessQueue_end (name : str) (s : WebSocketServer) : WebSocketServer :=
  MkServer (delete name (msgs_ s)) (last_conn_ s) (connected s) (conn_out s).

Definition Server_Iterate (now : Z) (s : WebSocketServer) : WebSocketServer :=
  let c := if last_conn_ s + 5 * 1000000000 <? now then Some false else connected s in
  MkServer (msgs_ s) (last_conn_ s) c (conn_out s ++ [c]).

(** ** Reading a value *)

(** The walk along the names before each period; [None] when a field is not found. *)
Fixpoint walk (fuel : nat) (path : str) (m : message) : result ServerErr (option (message * str)) :=
  match fuel with
  | O => Err OutOfFuel
  | S fuel =>
      match find_char "." path with
      | None => Ok (Some (m, path))
      | Some next =>
          match FindFieldByName m (take next path) with
          | None => Ok None
          | Some f =>
              match cpp_type f with
              | CPPTYPE_MESSAGE => walk fuel (drop (S next) path) (GetMessage m f)
              | _ => Err NotAMessage
              end
          end
      end
  end.

Definition print_field (m : message) (f : field) : str :=
  match cpp_type f with
  | CPPTYPE_MESSAGE => MessageToJson (GetMessage m f)
  | CPPTYPE_STRING => GetString m f
  | CPPTYPE_NUMBER => print_number m f
  end.

Definition GetCurrentVal (s : WebSocketServer) (msg : str) : result ServerErr str :=
  let queue := match find_char "." msg with Some n => take n msg | None => msg end in
  match msgs_ s !! queue with
  | None => Ok []
  | Some entry =>
      let* w := walk (S (length msg)) msg entry in
      match w with
      | None => Ok []
      | Some (m, name) =>
          match FindFieldByName m name with
          | None => Ok []
          | Some f =>
              if negb (HasField m f) then Ok []
              else Ok ([QUOTE] ++ msg ++ [QUOTE; ":"%char] ++ print_field m f ++ [","%char])
          end
      end
  end.

(** ** A request *)

(** What is appended to the answer, and what is sent to queues. *)
Definition process_pair (s : WebSocketServer) (name val : str) : result ServerErr (str * list (str * list Byte.byte)) :=
  if bool_decide (val = chars "null") then let* v := GetCurrentVal s name in Ok (v, [])
  else if find_char "." name is Some _ then Ok ([], [])
  else if negb (bool_decide (name ∈ queue_names)) then Ok ([], [])
  else
    match json_entry name val with
    | None => Ok ([], [])
    | Some bytes =>
        if (1024 <? Z.of_nat (length bytes)) then Err BufferOverrun
        else if negb (bool_decide (name ∈ map lowercase queue_names)) then Err NullQueue
        else Ok ([], [(name, bytes)])
    end.

(** The loop; an answer of [None] is the early return. *)
Fixpoint request_loop (fuel : nat) (s : WebSocketServer) (msg out : str) (sends : list (str * list Byte.byte))
  : result ServerErr (option str * list (str * list Byte.byte)) :=
  match fuel with
  | O => Err OutOfFuel
  | S fuel =>
      match find_char ":" msg with
      | None => Ok (Some out, sends)
      | Some colon =>
          let name := request_name msg in
          match split_value (drop (S colon) msg) with
          | None => Ok (None, sends)
          | Some (val, rest) =>
              let* (o, sd) := process_pair s name val in
              request_loop fuel s rest (out ++ o) (sends ++ sd)
          end
      end
  end.

(** The whole handler; [time] is the printed time.  It gives the answer, if any, what was
    sent and the new state. *)
Definition ProcessSocket (shutdown : bool) (now : Z) (time message : str) (s : WebSocketServer)
  : result ServerErr (option str * list (str * list Byte.byte) * WebSocketServer) :=
  if shutdown then Ok (None, [], s)
  else
    let s := MkServer (msgs_ s) now (Some true) (conn_out s) in
    let* msg := strip_braces message in
    let out := ["{"%char] ++ [QUOTE] ++ chars "time" ++ [QUOTE; ":"%char] ++ time ++ [","%char] in
    let* (answer, sends) := request_loop (S (length msg)) s msg out [] in
    Ok (match answer with
        | Some out => Some (removelast out ++ ["}"%char])
        | None => None
        end, sends, s).
End Server.

(** ** The request grammar *)

(** The scanner over a whole value: depth and quotes at its end, [None] if it would stop
    inside. *)
Fixpoint scan_through (l : str) (open_cnt : Z) (in_quote : bool) : option (Z * bool) :=
  match l with
  | [] => Some (open_cnt, in_quote)
  | c :: l =>
      if ascii_is c QUOTE then scan_through l open_cnt (negb in_quote)
      else if in_quote then scan_through l open_cnt in_quote
      else
        let open_cnt := if ascii_is c "[" || ascii_is c "{" then open_cnt + 1
                        else if ascii_is c "]" || ascii_is c "}" then open_cnt - 1 else open_cnt in
        if (open_cnt <? 0) || (ascii_is c "," && (open_cnt =? 0)) then None
        else scan_through l open_cnt in_quote
  end.

(** A value whose brackets and quotes are balanced, with no comma outside of them. *)
Definition value_ok (v : str) : Prop := scan_through v 0 false = Some (0, false).
(** A name without quotes and colons. *)
Definition name_ok (n : str) : Prop := (QUOTE ∉ n) ∧ (":"%char ∉ n).
#[global] Instance name_ok_dec n : Decision (name_ok n).
Proof. apply _. Defined.

Definition print_pair (p : str * str) : str := [QUOTE] ++ fst p ++ [QUOTE; ":"%char] ++ snd p.
Definition print_more (ps : list (str * str)) : str := flat_map (λ p, ","%char :: print_pair p) ps.
Definition print_request (p : str * str) (ps : list (str * str)) : str :=
  ["{"%char] ++ print_pair p ++ print_more ps ++ ["}"%char].

(** ** Splitting is correct *)

Lemma scan_app v rest i o q e o' q' :
  scan_through v o q = Some (o', q') ->
  scan (v ++ rest) i o q e = scan rest (i + length v) o' q' (match v with [] => e | _ => i + length v - 1 end)%nat.
Proof.
  revert i o q e. induction v as [|c v IH]; intros i o q e H.
  - injection H as -> ->. simpl. by rewrite Nat.add_0_r.
  - cbn [scan_through] in H. cbn [scan app].
    assert (S i + length v = i + S (length v))%nat as E1 by lia.
    assert (match v with [] => i | _ => S i + length v - 1 end = i + S (length v) - 1)%nat as E2 by (destruct v; simpl; lia).
    cbn [length].
    destruct (ascii_is c QUOTE); [by rewrite (IH _ _ _ _ H), E2, E1|].
    destruct q; [by rewrite (IH _ _ _ _ H), E2, E1|]. cbv zeta in *.
    match type of H with (if ?b then _ else _) = _ => destruct b; [done|] end.
    by rewrite (IH _ _ _ _ H), E2, E1.
Qed.

Lemma scan_through_app v w o q :
  scan_through (v ++ w) o q = '(o, q) ← scan_through v o q; scan_through w o q.
Proof.
  revert o q. induction v as [|c v IH]; intros o q; [done|]. cbn [scan_through app].
  destruct (ascii_is c QUOTE); [apply IH|]. destruct q; [apply IH|]. cbv zeta.
  match goal with |- (if ?b then _ else _) = _ => destruct b; [done|apply IH] end.
Qed.

Lemma value_last v c : value_ok (v ++ [c]) -> ascii_is c "," = false.
Proof.
  unfold value_ok. rewrite scan_through_app. destruct (scan_through v 0 false) as [[o q]|]; [|done]. cbn.
  destruct (ascii_is c ",") eqn:E; [|done]. apply Ascii.eqb_eq in E as ->. cbn. destruct q; [done|].
  destruct (Z.ltb_spec o 0); [done|]. destruct (Z.eqb_spec o 0); [done|]. cbn. intros [= ->]. lia.
Qed.

(** A balanced value is split off whole, at the end of the text or before a comma. *)
Lemma split_value_ok v rest :
  value_ok v -> (rest = [] ∨ ∃ r, rest = ","%char :: r) -> split_value (v ++ rest) = Some (v, rest).
Proof.
  intros Hv Hr. unfold split_value. rewrite (scan_app _ _ _ _ _ _ _ _ Hv). cbn [Nat.add]. destruct Hr as [->|[r ->]].
  - cbn [scan]. rewrite !app_nil_r. cbn [Z.ltb Z.compare Z.eqb andb].
    destruct v as [|c0 v0]; [done|]. destruct (exists_last (l := c0 :: v0) ltac:(done)) as (w & c & E).
    rewrite E in *. apply value_last in Hv. rewrite length_app. cbn [length].
    replace (length w + 1 - 1)%nat with (length w) by lia.
    rewrite app_nth2, Nat.sub_diag by lia. cbn [nth]. rewrite Hv. cbn [negb].
    rewrite firstn_all2, skipn_all2 by (rewrite length_app; simpl; lia). done.
  - cbn [scan]. cbn. rewrite app_nth2, Nat.sub_diag by lia. cbn.
    by rewrite take_app_length, drop_app_length.
Qed.

Lemma find_char_first c l r : c ∉ l -> find_char c (l ++ c :: r) = Some (length l).
Proof.
  induction l as [|x l IH]; intros Hc; cbn.
  - unfold ascii_is. by rewrite Ascii.eqb_refl.
  - apply not_elem_of_cons in Hc as [Hx Hl]. unfold ascii_is. destruct (Ascii.eqb_spec x c); [congruence|].
    by rewrite (IH Hl).
Qed.

Lemma find_char_spec c l i : find_char c l = Some i -> (i < length l)%nat.
Proof.
  revert i. induction l as [|x l IH]; intros i; cbn; [done|]. destruct (ascii_is x c); [intros [= <-]; lia|].
  destruct (find_char c l) as [j|]; [|done]. cbn. intros [= <-]. specialize (IH j eq_refl). lia.
Qed.

(** The head of a text that starts with a pair, perhaps after a comma. *)
Lemma pair_head (pre n v rest : str) :
  name_ok n -> (pre = [] ∨ pre = [","%char]) ->
  let msg := pre ++ print_pair (n, v) ++ rest in
  find_char ":" msg = Some (length pre + length n + 2)%nat
  ∧ request_name msg = n ∧ drop (S (length pre + length n + 2)) msg = v ++ rest.
Proof.
  intros [Hq Hc] Hp msg.
  assert (msg = pre ++ QUOTE :: n ++ QUOTE :: ":"%char :: v ++ rest) as Em.
  { unfold msg, print_pair. cbn [fst snd app]. by rewrite <- !app_assoc. }
  assert ((QUOTE ∉ pre) ∧ (":"%char ∉ pre)) as [Hpq Hpc].
  { destruct Hp as [->| ->]; rewrite ?elem_of_cons, ?elem_of_nil; split; intuition discriminate. }
  split_and!.
  - assert (msg = (pre ++ QUOTE :: n ++ [QUOTE]) ++ ":"%char :: v ++ rest) as ->
      by (rewrite Em, <- app_assoc; cbn; by rewrite <- app_assoc).
    rewrite find_char_first.
    + f_equal. rewrite length_app. cbn [length]. rewrite length_app. cbn. lia.
    + rewrite elem_of_app, elem_of_cons, elem_of_app, list_elem_of_singleton. intuition discriminate.
  - unfold request_name. rewrite Em, find_char_first by done.
    replace (S (length pre)) with (length (pre ++ [QUOTE])) by (rewrite length_app; cbn; lia).
    set (t := n ++ QUOTE :: ":"%char :: v ++ rest). change (pre ++ QUOTE :: t) with (pre ++ [QUOTE] ++ t).
    rewrite app_assoc, drop_app_length. unfold t. rewrite find_char_first by done. by rewrite take_app_length.
  - replace (S (length pre + length n + 2)) with (length (pre ++ QUOTE :: n ++ [QUOTE; ":"%char]))
      by (rewrite !length_app; cbn; rewrite length_app; cbn; lia).
    rewrite Em. replace (pre ++ QUOTE :: n ++ QUOTE :: ":"%char :: v ++ rest)
      with ((pre ++ QUOTE :: n ++ [QUOTE; ":"%char]) ++ v ++ rest) by (rewrite <- !app_assoc; cbn; by rewrite <- app_assoc).
    by rewrite drop_app_length.
Qed.

Section Requests.
Context {message field : Type} {RF : Reflection message field}.
Variable queue_names : list str.
Variable lowercase : str -> str.
#[local] Open Scope result_scope.
Abbreviation pair_step := (process_pair queue_names lowercase).
Abbreviation loop := (request_loop queue_names lowercase).

(** The specification: the pairs of the request are handled one after the other. *)
Fixpoint handle_pairs (s : WebSocketServer (message := message)) (ps : list (str * str)) (out : str)
    (sends : list (str * list Byte.byte)) : result ServerErr (str * list (str * list Byte.byte)) :=
  match ps with
  | [] => Ok (out, sends)
  | (n, v) :: ps =>
      let* (o, sd) := pair_step s n v in handle_pairs s ps (out ++ o) (sends ++ sd)
  end.

Definition pair_ok (p : str * str) : Prop := name_ok (fst p) ∧ value_ok (snd p).

(** One turn of the loop on a text that starts with a pair. *)
Lemma request_loop_pair fuel s pre n v rest out sends :
  pair_ok (n, v) -> (pre = [] ∨ pre = [","%char]) -> (rest = [] ∨ ∃ r, rest = ","%char :: r) ->
  loop (S fuel) s (pre ++ print_pair (n, v) ++ rest) out sends
  = let* (o, sd) := pair_step s n v in loop fuel s rest (out ++ o) (sends ++ sd).
Proof.
  intros [Hn Hv] Hp Hr. destruct (pair_head pre n v rest Hn Hp) as (Ec & En & Ed). cbv zeta in *.
  cbn [request_loop]. rewrite Ec, Ed, En, (split_value_ok v rest Hv Hr). done.
Qed.

Lemma print_more_head ps : print_more ps = [] ∨ ∃ r, print_more ps = ","%char :: r.
Proof. destruct ps as [|p ps]; [by left|right]. eexists. reflexivity. Qed.

Lemma request_loop_more ps s out sends fuel :
  Forall pair_ok ps -> (length (print_more ps) < fuel)%nat ->
  loop fuel s (print_more ps) out sends
  = let* (out, sends) := handle_pairs s ps out sends in Ok (Some out, sends).
Proof.
  revert out sends fuel. induction ps as [|[n v] ps IH]; intros out sends fuel Hok Hf.
  - destruct fuel; [simpl in Hf; lia|]. done.
  - apply Forall_cons in Hok as [Hp Hok]. destruct fuel as [|fuel]; [lia|].
    change (print_more ((n, v) :: ps)) with ([","%char] ++ print_pair (n, v) ++ print_more ps).
    rewrite request_loop_pair by (auto using print_more_head). cbn [handle_pairs].
    destruct (pair_step s n v) as [[o sd]|e]; cbn [rbind]; [|done]. apply IH; [done|].
    revert Hf. change (print_more ((n, v) :: ps)) with ([","%char] ++ print_pair (n, v) ++ print_more ps).
    rewrite !length_app. cbn. lia.
Qed.

(** C20: A request printed from names without quotes and colons and values with balanced
    brackets and quotes is split back into exactly those names and values: the server
    handles each pair in order and answers with what they ask for, for every such
    request and every message library. *)
Theorem request_split_correct (now : Z) (time : str) (p : str * str) (ps : list (str * str))
    (s : WebSocketServer (message := message)) :
  Forall pair_ok (p :: ps) ->
  ProcessSocket queue_names lowercase false now time (print_request p ps) s
  = let s := MkServer (msgs_ s) now (Some true) (conn_out s) in
    let out := ["{"%char] ++ [QUOTE] ++ chars "time" ++ [QUOTE; ":"%char] ++ time ++ [","%char] in
    let* (out, sends) := handle_pairs s (p :: ps) out [] in
    Ok (Some (removelast out ++ ["}"%char]), sends, s).
Proof.
  intros Hok. apply Forall_cons in Hok as [Hp Hok]. unfold ProcessSocket. cbv zeta. set (s1 := MkServer _ _ _ _).
  assert (strip_braces (print_request p ps) = Ok (print_pair p ++ print_more ps)) as ->.
  { unfold print_request, strip_braces. cbn [app]. change (ascii_is "{" "{") with true. cbv iota.
    rewrite app_assoc, last_snoc. change (ascii_is "}" "}") with true. cbv iota. by rewrite removelast_last. }
  cbn [rbind]. destruct p as [n v].
  rewrite <- (app_nil_l (print_pair (n, v) ++ print_more ps)), request_loop_pair by (auto using print_more_head).
  cbn [handle_pairs]. destruct (pair_step s1 n v) as [[o sd]|e]; cbn [rbind]; [|done].
  rewrite request_loop_more; [|done|].
  - by destruct (handle_pairs s1 ps _ _) as [[a b]|e].
  - rewrite !length_app. unfold print_pair. cbn. lia.
Qed.

(** ** Every request is answered or rejected *)

(** An error of the message library or of a queue, not of the splitting. *)
Definition library_error {A : Type} (r : result ServerErr A) : Prop :=
  match r with Ok _ => True | Err e => e ≠ OutOfFuel ∧ e ≠ EmptyString end.

Lemma walk_total fuel path (m : message) : (length path < fuel)%nat -> library_error (walk fuel path m).
Proof.
  revert path m. induction fuel as [|fuel IH]; intros path m Hf; [lia|]. cbn [walk].
  destruct (find_char "." path) as [n|] eqn:E; [|done]. apply find_char_spec in E.
  destruct (FindFieldByName m _) as [f|]; [|done]. destruct (cpp_type f); [|done..].
  apply IH. rewrite length_drop. lia.
Qed.

Lemma process_pair_total s n v : library_error (pair_step s n v).
Proof.
  unfold process_pair. destruct (bool_decide (v = _)).
  - unfold GetCurrentVal. destruct (msgs_ s !! _) as [m|]; [|done].
    pose proof (walk_total (S (length n)) n m ltac:(lia)) as H. destruct (walk _ n m) as [w|e]; [|done]. cbn [rbind].
    destruct w as [[m' nm]|]; [|done]. destruct (FindFieldByName m' nm) as [f|]; [|done].
    by destruct (negb (HasField m' f)).
  - destruct (find_char "." n); [done|]. destruct (negb _); [done|]. destruct (json_entry n v) as [b|]; [|done].
    destruct (1024 <? _); [done|]. by destruct (negb _).
Qed.

Lemma request_loop_total fuel s msg out sends :
  (length msg < fuel)%nat -> library_error (loop fuel s msg out sends).
Proof.
  revert msg out sends. induction fuel as [|fuel IH]; intros msg out sends Hf; [lia|]. cbn [request_loop].
  destruct (find_char ":" msg) as [i|] eqn:E; [|done]. apply find_char_spec in E. cbv zeta.
  destruct (split_value _) as [[v rest]|] eqn:Es; [|done].
  pose proof (process_pair_total s (request_name msg) v) as Hp.
  destruct (pair_step s _ v) as [[o sd]|e]; [|done]. cbn [rbind]. apply IH.
  unfold split_value in Es. destruct (scan _ _ _ _ _) as [oc ev]. destruct (0 <? oc); [done|].
  injection Es as _ <-. rewrite !length_drop. lia.
Qed.

End Requests.

(** ** A request evaluated *)

(** A small message library: every message holds the number 7 in each field, and any text
    serialises to one byte. *)
Definition small_reflection : Reflection unit unit := {|
  empty_entry := tt; parse_entry _ := Some tt; FindFieldByName _ _ := Some tt; HasField _ _ := true;
  cpp_type _ := CPPTYPE_NUMBER; GetMessage _ _ := tt; MessageToJson _ := chars "{}"; GetString _ _ := [];
  print_number _ _ := chars "7"; json_entry _ _ := Some [Byte.x01];
|}.

Definition server_example : WebSocketServer (message := unit) := MkServer {[chars "heading" := tt]} 0 None [].

(** One value is asked for, one sent; the value sent contains commas, braces and a bracket
    in a quoted text. *)
Lemma request_split_witness :
  let p := (chars "heading", chars "null") in
  let q := (chars "waypoints", chars "{'points':[{'x':1,'y':2}]}") in
  ∃ s, @ProcessSocket unit unit small_reflection [chars "waypoints"] id false 5 (chars "0.5") (print_request p [q]) server_example
       = Ok (Some (["{"%char; QUOTE] ++ chars "time" ++ [QUOTE] ++ chars ":0.5," ++ [QUOTE] ++ chars "heading" ++ [QUOTE] ++ chars ":7}"),
             [(chars "waypoints", [Byte.x01])], s).
Proof.
  intros p q. eexists.
  rewrite (@request_split_correct unit unit small_reflection [chars "waypoints"] id 5 (chars "0.5") p [q] server_example).
  - vm_compute. reflexivity.
  - assert (∀ x, bool_decide (name_ok x.1) = true -> scan_through x.2 0 false = Some (0, false) -> pair_ok x) as Hx.
    { intros x H1 H2. split; [by eapply bool_decide_eq_true|done]. }
    apply Forall_cons_2; [apply Hx; reflexivity|]. apply Forall_cons_2; [apply Hx; reflexivity|]. apply Forall_nil_2.
Defined.
