(* ===== verification/Queue.v ===== *)
(** * The queues the nodes use

    src/ipc/queue.cc, queue.hpp, test_queue.cc and test_queue.h: [Queue], a named
    shared-memory queue with a semaphore that counts its writers; [TestQueue], which
    replaces it within one process; and [ProtoQueue], which sends protocol buffers over
    either.  What [ProtoQueue] needs of a queue of bytes is the class [ByteQueue] with its
    laws; the shared-memory queue and the test queue are its instances.  Serialisation is
    the message library's: the class [Wire]. *)

From Stdlib Require Import ZArith Lia Strings.Byte.
From stdpp Require Import base list gmap strings.
From S2P Require Import Prelude MessageQueue.

#[local] Open Scope Z_scope.
Open Scope list_scope.

Inductive QueueErr :=
| NotAWriter                    (* LOG(FATAL) in Queue::send *)
| SerializeFailed               (* LOG(FATAL) in ProtoQueue::send *)
| TestOverflow                  (* memcpy beyond the shared buffer *)
| ShmError (e : mq_error).

Definition lift_mq {A : Type} (r : result mq_error A) : result QueueErr A :=
  match r with Ok a => Ok a | Err e => Err (ShmError e) end.

(** ** Interfaces *)

(** A queue of bytes between one writer and one reader.  [bq_receive] is a receive whose wait,
    if it comes to that, times out, which gives [None]; in [bq_wait q during] the messages
    [during] are sent after the receive began, and its wait ends with the notification, after
    them. *)
Class ByteQueue (Q : Type) := {
  bq_send : Q -> list byte -> result QueueErr Q;
  bq_receive : Q -> result QueueErr (option (list byte) * Q);
  bq_wait : Q -> list (list byte) -> result QueueErr (option (list byte) * Q);
}.

(** The messages sent during a receive. *)
Fixpoint send_during {Q : Type} (send : Q -> list byte -> result QueueErr Q) (q : Q) (bs : list (list byte)) : result QueueErr Q :=
  match bs with
  | [] => Ok q
  | b :: bs => (let* q := send q b in send_during send q bs)%result
  end.

(** What it promises: [bq_rep q pending] says which messages are unread; below its capacity
    it is a FIFO, and a receive that waits gets the message it waits for when one is sent before
    it goes on. *)
Class ByteQueueLaws (Q : Type) {BQ : ByteQueue Q} := {
  bq_capacity : Z;
  bq_size : Z;
  bq_rep : Q -> list (list byte) -> Prop;
  bq_send_rep q pending b :
    bq_rep q pending -> Z.of_nat (length b) <= bq_size -> Z.of_nat (length pending) + 1 < bq_capacity ->
    ∃ q', bq_send q b = Ok q' ∧ bq_rep q' (pending ++ [b]);
  bq_receive_some q b pending :
    bq_rep q (b :: pending) -> ∃ q', bq_receive q = Ok (Some b, q') ∧ bq_rep q' pending;
  bq_receive_none q : bq_rep q [] -> ∃ q', bq_receive q = Ok (None, q') ∧ bq_rep q' [];
  bq_wait_one q b :
    bq_rep q [] -> Z.of_nat (length b) <= bq_size -> 1 < bq_capacity ->
    ∃ q', bq_wait q [b] = Ok (Some b, q') ∧ bq_rep q' [];
}.

(** [entry] is the [LogEntry] with one field of type [T]; [ParseFromArray] gives what it
    parsed and whether that was all. *)
Class Wire (T entry : Type) := {
  make_entry : T -> Z -> Z -> entry;      (* the field, seconds, nanoseconds *)
  entry_field : entry -> T;
  SerializeEntry : entry -> list byte;
  ParseFromArray : list byte -> entry * bool;
}.
Class WireLaws (T entry : Type) {W : Wire T entry} : Prop := {
  parse_serialize e : ParseFromArray (SerializeEntry e) = (e, true);
  entry_field_make m s n : entry_field (make_entry m s n) = m;
}.

(** ** Segments by name

    The constructors of [message_queue] in src/ipc/message_queue.hpp, on the library's named
    segments of shared memory: a segment is what its first bytes, the ring, hold. *)

Inductive shm_error := already_exists_error | not_found_error.

Section Segments.
Context {P : Platform}.

(** [msg_queue_initialization_func_t]: only a segment that was created is initialised. *)
Definition initialization_func (max_num_msg max_msg_size : Z) (found : option mq_hdr) : mq_hdr :=
  match found with None => mq_hdr_init max_num_msg max_msg_size | Some h => h end.

Definition get_min_size (max_num_msg max_msg_size : Z) : Z :=
  get_mem_size max_msg_size max_num_msg - ManagedOpenOrCreateUserOffset.

Definition create_only (name : string) (max_num_msg max_msg_size : Z) (m : gmap string mq_hdr)
  : result shm_error (mq_hdr * gmap string mq_hdr) :=
  match m !! name with
  | Some _ => Err already_exists_error
  | None => let h := initialization_func max_num_msg max_msg_size None in Ok (h, <[name := h]> m)
  end.
Definition open_or_create (name : string) (max_num_msg max_msg_size : Z) (m : gmap string mq_hdr)
  : mq_hdr * gmap string mq_hdr :=
  let h := initialization_func max_num_msg max_msg_size (m !! name) in (h, <[name := h]> m).
Definition open_only (name : string) (m : gmap string mq_hdr) : result shm_error mq_hdr :=
  match m !! name with Some h => Ok (initialization_func 0 0 (Some h)) | None => Err not_found_error end.
Definition mq_remove (name : string) (m : gmap string mq_hdr) : bool * gmap string mq_hdr :=
  (bool_decide (is_Some (m !! name)), delete name m).
End Segments.

(** ** Named queues and their semaphore *)

(** The shared memory: the semaphore and the ring of each name. *)
Record Shm := MkShm { shm_sem : gmap string Z; shm_queue : gmap string mq_hdr }.

Section Named.
Context {P : Platform}.

(** [Queue(name, writer = true, queue_len, msg_size)]: open or create both. *)
Definition open_writer (name : string) (queue_len msg_size : Z) (s : Shm) : Shm :=
  let sem := default 0 (shm_sem s !! name) in
  MkShm (<[name := sem + 1]> (shm_sem s)) (open_or_create name queue_len msg_size (shm_queue s)).2.

(** One turn of a reader's loop: the semaphore is created, and taken and given back when
    a writer holds it; otherwise the wait times out. *)
Definition open_reader_turn (name : string) (s : Shm) : result shm_error (option mq_hdr) * Shm :=
  let sem := default 0 (shm_sem s !! name) in
  let s := MkShm (<[name := sem]> (shm_sem s)) (shm_queue s) in
  if 0 <? sem then ((let* h := open_only name (shm_queue s) in Ok (Some h))%result, s) else (Ok None, s).

Definition remove (name : string) (s : Shm) : Shm := MkShm (delete name (shm_sem s)) (mq_remove name (shm_queue s)).2.

(** [~Queue] of a writer; [None] while it waits for the semaphore. *)
Definition close_writer (name : string) (s : Shm) : option Shm :=
  let sem := default 0 (shm_sem s !! name) in
  if sem <=? 0 then None
  else if sem - 1 <=? 0 then Some (remove name s)
  else Some (MkShm (<[name := sem - 1]> (shm_sem s)) (shm_queue s)).
End Named.

(** [Queue::send] and [Queue::receive] on an open shared-memory queue: the ring and the
    reader's position. *)
Section ShmQueue.
Context {P : Platform}.
#[local] Open Scope result_scope.

Definition Queue_send (writer : bool) (h : mq_hdr) (msg : list byte) : result QueueErr mq_hdr :=
  if negb writer then Err NotAWriter else lift_mq (do_send h msg (Z.of_nat (length msg))).

(** With a time-out of a second; [ws] are the wake-ups. *)
Definition Queue_receive (h : mq_hdr) (cur size : Z) (ws : list wake) : result QueueErr (received * Z) :=
  lift_mq (timed_receive h cur ws size (Some 1000)).
End ShmQueue.

(** ** The test queue *)

Record QueueData := MkQueueData {
  qd_data : option (list byte);     (* the buffer, of the size it was allocated with *)
  qd_cnt : Z;
  qd_users : list Z;
  qd_data_len : nat;
  qd_inc : Z;
}.
Definition QueueData_new : QueueData := MkQueueData None 0 [] 0 0.

Record TestQueue := MkTestQueue { tq_name : string; tq_max_size : nat; tq_last_inc : Z; tq_idx : nat }.

Abbreviation conditions := (gmap string QueueData).

(** [operator[]] of the map. *)
Definition cond_at (c : conditions) (name : string) : QueueData := default QueueData_new (c !! name).

Definition TestQueue_new (name : string) (max_size : nat) (c : conditions) : TestQueue * conditions :=
  let d := cond_at c name in
  (MkTestQueue name max_size 0 (length (qd_users d)),
   <[name := MkQueueData (qd_data d) (qd_cnt d + 1) (qd_users d ++ [-1]) (qd_data_len d) (qd_inc d)]> c).

Definition TestQueue_delete (q : TestQueue) (c : conditions) : conditions :=
  let d := cond_at c (tq_name q) in
  let d := MkQueueData (qd_data d) (qd_cnt d - 1) (<[tq_idx q := -1]> (qd_users d)) (qd_data_len d) (qd_inc d) in
  if qd_cnt d =? 0 then delete (tq_name q) c else <[tq_name q := d]> c.

(** [send] up to its wait. *)
Definition TestQueue_send (q : TestQueue) (msg : list byte) (c : conditions) : result QueueErr conditions :=
  let d := cond_at c (tq_name q) in
  let buf := default (repeat Byte.x00 (tq_max_size q)) (qd_data d) in
  let n := Nat.min (length msg) (tq_max_size q) in
  if (length buf <? n)%nat then Err TestOverflow
  else Ok (<[tq_name q := MkQueueData (Some (take n msg ++ drop n buf)) (qd_cnt d) (qd_users d) n (qd_inc d + 1)]> c).

(** The condition the sender then waits for, for at most 50 milliseconds: every reader has
    the newest message. *)
Definition send_delivered (q : TestQueue) (shutdown : bool) (c : conditions) : bool :=
  let d := cond_at c (tq_name q) in
  shutdown || forallb (λ n, negb ((0 <=? n) && (n <? qd_inc d))) (qd_users d).

(** [receive]: the reader registers, waits for a newer message or the shutdown, and takes
    what is there.  [None]: it still waits. *)
Definition receive_register (q : TestQueue) (c : conditions) : conditions :=
  let d := cond_at c (tq_name q) in
  if tq_last_inc q =? 0
  then <[tq_name q := MkQueueData (qd_data d) (qd_cnt d) (<[tq_idx q := 0]> (qd_users d)) (qd_data_len d) (qd_inc d)]> c
  else c.

Definition receive_ready (q : TestQueue) (shutdown : bool) (c : conditions) : bool :=
  negb (qd_inc (cond_at c (tq_name q)) =? tq_last_inc q) || shutdown.

Definition receive_take (q : TestQueue) (size : nat) (shutdown : bool) (c : conditions)
  : bool * list byte * TestQueue * conditions :=
  let d := cond_at c (tq_name q) in
  let d := MkQueueData (qd_data d) (qd_cnt d) (<[tq_idx q := qd_inc d]> (qd_users d)) (qd_data_len d) (qd_inc d) in
  let c := <[tq_name q := d]> c in
  let q := MkTestQueue (tq_name q) (tq_max_size q) (qd_inc d) (tq_idx q) in
  match qd_data d with
  | Some buf => (negb shutdown, take (Nat.min size (qd_data_len d)) buf, q, c)
  | None => (false, [], q, c)
  end.

Definition TestQueue_receive (q : TestQueue) (size : nat) (shutdown : bool) (c : conditions)
  : option (bool * list byte) * TestQueue * conditions :=
  let c := receive_register q c in
  if receive_ready q shutdown c
  then let '(ok, bytes, q, c) := receive_take q size shutdown c in (Some (ok, bytes), q, c)
  else (None, q, c).

(** ** Protocol buffers over a queue of bytes *)

Definition BUF_SIZE : Z := 1024.

Section Proto.
Context {T entry : Type} {W : Wire T entry} {Q : Type} {BQ : ByteQueue Q}.
#[local] Open Scope result_scope.

(** [now] is the time since the epoch in nanoseconds; seconds are truncated. *)
Definition proto_entry (now : Z) (msg : T) : entry :=
  let secs := Z.quot now 1000000000 in
  make_entry msg secs (now - secs * 1000000000).

Definition proto_send (now : Z) (msg : T) (q : Q) : result QueueErr Q :=
  let buf := SerializeEntry (proto_entry now msg) in
  if Z.of_nat (length buf) <=? BUF_SIZE then bq_send q buf else Err SerializeFailed.

(** The result of the parse is not tested. *)
Definition proto_parse (r : option (list byte) * Q) : option T * Q :=
  match r.1 with
  | Some b => (Some (entry_field (fst (ParseFromArray b))), r.2)
  | None => (None, r.2)
  end.
Definition proto_receive (q : Q) : result QueueErr (option T * Q) :=
  let* r := bq_receive q in Ok (proto_parse r).

(** A receive that waits, and is notified after the messages [during] were sent. *)
Definition proto_wait (q : Q) (during : list (Z * T)) : result QueueErr (option T * Q) :=
  let bufs := map (λ m, SerializeEntry (proto_entry m.1 m.2)) during in
  if forallb (λ buf, Z.of_nat (length buf) <=? BUF_SIZE) bufs
  then let* r := bq_wait q bufs in Ok (proto_parse r)
  else Err SerializeFailed.

(** A run of one writer and one reader: a receive waits in vain, or is notified. *)
Inductive proto_op := POSend (now : Z) (msg : T) | POReceive | POWait (during : list (Z * T)).

Fixpoint proto_run (q : Q) (got : list T) (os : list proto_op) : result QueueErr (Q * list T) :=
  match os with
  | [] => Ok (q, got)
  | POSend now m :: os => let* q := proto_send now m q in proto_run q got os
  | POReceive :: os =>
      let* (m, q) := proto_receive q in proto_run q (got ++ option_list m) os
  | POWait during :: os =>
      let* (m, q) := proto_wait q during in proto_run q (got ++ option_list m) os
  end.
End Proto.
Arguments proto_op : clear implicits.

(** ** Sending protocol buffers, over any queue of bytes *)

Section ProtoSpec.
Context {T entry : Type} {W : Wire T entry}.

(** The specification: an unbounded FIFO of messages. *)
Fixpoint proto_fifo (pending got : list T) (os : list (proto_op T)) : list T :=
  match os with
  | [] => got
  | POSend _ m :: os => proto_fifo (pending ++ [m]) got os
  | POReceive :: os =>
      match pending with
      | [] => proto_fifo [] got os
      | m :: pending => proto_fifo pending (got ++ [m]) os
      end
  | POWait during :: os =>
      match pending ++ map snd during with
      | [] => proto_fifo [] got os
      | m :: pending => proto_fifo pending (got ++ [m]) os
      end
  end.

(** Every message serialises into the buffer. *)
Definition entry_fits (now : Z) (m : T) : Prop := Z.of_nat (length (SerializeEntry (proto_entry now m))) <= BUF_SIZE.
Definition proto_fits (o : proto_op T) : Prop :=
  match o with
  | POSend now m => entry_fits now m
  | POReceive => True
  | POWait during => Forall (λ m, entry_fits m.1 m.2) during
  end.

(** Fewer than [n] messages are ever unread, and a receive that waits goes on before a second
    message is sent, and not without one. *)
Fixpoint proto_keeps_up (n lag : Z) (os : list (proto_op T)) : bool :=
  match os with
  | [] => true
  | POSend _ _ :: os => (lag + 1 <? n) && proto_keeps_up n (lag + 1) os
  | POReceive :: os => proto_keeps_up n (Z.max 0 (lag - 1)) os
  | POWait during :: os => (lag =? 0) && (length during =? 1)%nat && (1 <? n) && proto_keeps_up n 0 os
  end.

Context {WL : WireLaws T entry} {Q : Type} {BQ : ByteQueue Q} {BL : ByteQueueLaws Q}.

(** [b] is the serialisation of an entry with message [m]. *)
Definition encodes (b : list byte) (m : T) : Prop := entry_field (fst (ParseFromArray b)) = m.

Lemma encodes_entry now m : encodes (SerializeEntry (proto_entry now m)) m.
Proof. unfold encodes. rewrite parse_serialize. apply entry_field_make. Qed.

Lemma proto_run_spec os q bs pending got :
  bq_rep q bs -> Forall2 encodes bs pending -> BUF_SIZE <= bq_size -> Forall proto_fits os ->
  proto_keeps_up bq_capacity (Z.of_nat (length pending)) os = true ->
  ∃ q', proto_run q got os = Ok (q', proto_fifo pending got os).
Proof.
  revert q bs pending got. induction os as [|[now m| |during] os IH]; intros q bs pending got Hq Hb Hs Hf Hk.
  - by exists q.
  - apply Forall_cons in Hf as [Hm Hf]. cbn [proto_keeps_up] in Hk. apply andb_prop in Hk as [Hc Hk].
    apply Z.ltb_lt in Hc. cbn [proto_run proto_fifo]. unfold proto_send. cbn [proto_fits] in Hm.
    unfold entry_fits in Hm. destruct (Z.leb_spec (Z.of_nat (length (SerializeEntry (proto_entry now m)))) BUF_SIZE); [|lia].
    destruct (bq_send_rep q bs (SerializeEntry (proto_entry now m)) Hq) as (q' & -> & Hq'); [lia| |].
    { rewrite (Forall2_length _ _ _ Hb). lia. }
    cbn [rbind]. apply (IH q' (bs ++ [SerializeEntry (proto_entry now m)]) (pending ++ [m]) got); try done.
    + apply Forall2_app; [done|]. constructor; [|constructor]. apply encodes_entry.
    + rewrite length_app. cbn. by replace (Z.of_nat (length pending + 1)) with (Z.of_nat (length pending) + 1) by lia.
  - apply Forall_cons in Hf as [_ Hf]. cbn [proto_keeps_up] in Hk. cbn [proto_run proto_fifo]. unfold proto_receive.
    destruct Hb as [|b m bs pending Hbm Hb].
    + destruct (bq_receive_none q Hq) as (q' & -> & Hq'). cbn [rbind option_list proto_parse fst snd]. rewrite app_nil_r.
      by apply (IH q' [] [] got).
    + destruct (bq_receive_some q b bs Hq) as (q' & -> & Hq'). cbn [rbind proto_parse fst snd]. unfold encodes in Hbm. rewrite Hbm.
      cbn [rbind option_list]. apply (IH q' bs pending); try done.
      cbn [length] in Hk. by replace (Z.max 0 (Z.of_nat (S (length pending)) - 1)) with (Z.of_nat (length pending)) in Hk by lia.
  - apply Forall_cons in Hf as [Hm Hf]. cbn [proto_keeps_up] in Hk. apply andb_prop in Hk as [[[Hl H1]%andb_prop Hn]%andb_prop Hk].
    destruct pending as [|m' pending]; [|done]. apply Forall2_nil_inv_r in Hb as ->.
    destruct during as [|[now m] [|]]; try done. apply Forall_cons in Hm as [Hm _]. unfold entry_fits in Hm. cbn in Hm.
    cbn [proto_run proto_fifo app map snd]. unfold proto_wait. cbn [map forallb fst snd].
    destruct (Z.leb_spec (Z.of_nat (length (SerializeEntry (proto_entry now m)))) BUF_SIZE); [|lia]. cbn [andb].
    destruct (bq_wait_one q (SerializeEntry (proto_entry now m)) Hq) as (q' & -> & Hq'); [lia|by apply Z.ltb_lt|].
    cbn [rbind proto_parse fst snd option_list]. pose proof (encodes_entry now m) as He. unfold encodes in He. rewrite He.
    by apply (IH q' [] []).
Qed.
End ProtoSpec.

(** ** The shared-memory queue keeps the interface *)

Section ShmInstance.
Context {P : Platform} {POk : PlatformOk P}.
#[local] Open Scope result_scope.

Definition received_bytes (r : received) : option (list byte) :=
  match r with recv_true _ b => Some b | _ => None end.

(** The ring and the reader's position; a receive that times out gives nothing, and one that is
    notified reads the ring as it then is, and waits on when that is empty. *)
Definition shm_byte_queue : ByteQueue (mq_hdr * Z) := {|
  bq_send q b := let* h := Queue_send true q.1 b in Ok (h, q.2);
  bq_receive q :=
    let* (r, cur) := Queue_receive q.1 q.2 BUF_SIZE [timed_out] in Ok (received_bytes r, (q.1, cur));
  bq_wait q during :=
    let* h := send_during (Queue_send true) q.1 during in
    let* (r, cur) := Queue_receive q.1 q.2 BUF_SIZE [notified h; timed_out] in Ok (received_bytes r, (h, cur));
|}.

#[local] Existing Instance shm_byte_queue.

(** A ring of [n] messages, in which [r] of the messages sent have been read. *)
Definition shm_rep (n : Z) (q : mq_hdr * Z) (pending : list (list byte)) : Prop :=
  ∃ sent r, represents q.1 sent ∧ m_max_num_msg q.1 = n ∧ m_max_msg_size q.1 = BUF_SIZE
    ∧ (r <= length sent)%nat ∧ q.2 = position n (Z.of_nat r) ∧ pending = drop r sent ∧ Z.of_nat (length pending) < n.

Lemma timed_receive_level h sent r :
  represents h sent -> m_max_msg_size h = BUF_SIZE -> r = Z.of_nat (length sent) ->
  timed_receive h (position (m_max_num_msg h) r) [timed_out] BUF_SIZE (Some 1000)
  = Ok (recv_false, position (m_max_num_msg h) r).
Proof.
  intros Hrep Hs ->. pose proof Hrep as [Hmax ? ? ? ? Hfirst ? ?].
  unfold timed_receive, do_receive. destruct (Z.ltb_spec BUF_SIZE (m_max_msg_size h)); [lia|].
  by rewrite Hfirst, Z.eqb_refl, orb_true_r.
Qed.

(** Messages sent one after the other are all represented. *)
Lemma send_during_rep h sent bs :
  represents h sent -> Forall (λ b, Z.of_nat (length b) <= m_max_msg_size h) bs ->
  ∃ h', send_during (Queue_send true) h bs = Ok h' ∧ represents h' (sent ++ bs)
    ∧ m_max_num_msg h' = m_max_num_msg h ∧ m_max_msg_size h' = m_max_msg_size h.
Proof.
  revert h sent. induction bs as [|b bs IH]; intros h sent Hrep Hf; [exists h; by rewrite app_nil_r|].
  apply Forall_cons in Hf as [Hb Hf]. destruct (do_send_spec h sent b (Z.of_nat (length b))) as (h1 & E & Hrep1 & En & Es); [done|lia..|].
  rewrite Nat2Z.id, firstn_all in Hrep1. cbn [send_during]. unfold Queue_send at 1. cbn [negb]. rewrite E. cbn [lift_mq rbind].
  rewrite <- Es in Hf. destruct (IH h1 (sent ++ [b]) Hrep1 Hf) as (h2 & E2 & Hrep2 & En2 & Es2).
  exists h2. rewrite <- app_assoc in Hrep2. split_and!; [done|done|congruence..].
Qed.

(** A level reader that is notified takes the newest message there then is, and is level again:
    earlier messages sent during its wait are skipped, and when none was sent the last one it
    had is received again. *)
Theorem shm_wait_newest n q (during : list (list byte)) (sent : list (list byte)) (m : list byte) :
  shm_rep n q [] -> represents q.1 sent -> last (sent ++ during) = Some m ->
  Forall (λ b, Z.of_nat (length b) <= BUF_SIZE) during ->
  ∃ q', bq_wait q during = Ok (Some m, q') ∧ shm_rep n q' [].
Proof.
  destruct q as [h cur]. intros (sent' & r & Hrep' & En & Es & Hr & Ec & Ep & Hl) Hrep Hlast Hf. cbn [fst snd] in *. subst cur.
  assert (r = length sent') as ->.
  { apply (f_equal length) in Ep. rewrite length_drop in Ep. cbn in Ep. lia. }
  rewrite <- Es in Hf. destruct (send_during_rep h sent during Hrep Hf) as (h' & E & Hrep2 & En2 & Es2).
  apply last_Some in Hlast as [l El]. rewrite El in Hrep2. pose proof Hrep2 as [Hmax _ _ _ _ Hfirst Hnum _].
  pose proof (position_range (m_max_num_msg h') (Z.of_nat (length (l ++ [m]))) ltac:(lia)) as Hpr. rewrite <- Hfirst in Hpr.
  assert (is_empty h' = false) as He by (unfold is_empty; rewrite Hnum, length_app; cbn; case_test; lia).
  exists (h', position n (Z.of_nat (length (l ++ [m])))). split.
  - cbn [bq_wait shm_byte_queue fst snd]. rewrite E. cbn [rbind]. unfold Queue_receive, timed_receive, do_receive.
    destruct (Z.ltb_spec BUF_SIZE (m_max_msg_size h)); [lia|]. pose proof Hrep' as [_ _ _ _ _ -> _ _].
    rewrite En, Z.eqb_refl, orb_true_r. cbn [wait_loop]. rewrite He.
    rewrite (take_msg_spec h' (l ++ [m]) (length l) m); [|done|by rewrite lookup_app_r, Nat.sub_diag|rewrite length_app; cbn; lia|].
    + cbn. rewrite En2, En. rewrite length_app, Nat2Z.inj_add. by rewrite position_succ.
    + rewrite (size_t_small (m_cur_first_msg h' + 1)) by lia. destruct (Z.eqb_spec (m_cur_first_msg h' + 1) 0); [lia|].
      rewrite size_t_small by lia. replace (m_cur_first_msg h' + 1 - 1) with (m_cur_first_msg h') by lia.
      by rewrite Hfirst, length_app, Nat2Z.inj_add, position_succ.
  - exists (l ++ [m]), (length (l ++ [m])). cbn [fst snd]. rewrite drop_all. cbn. split_and!; try done; congruence.
Qed.

Definition shm_laws (n : Z) : @ByteQueueLaws (mq_hdr * Z) shm_byte_queue.
Proof.
  refine {| bq_capacity := n; bq_size := BUF_SIZE; bq_rep := shm_rep n |}.
  - intros [h cur] pending b (sent & r & Hrep & En & Es & Hr & Ec & -> & Hl) Hb Hc. cbn [fst snd] in *.
    destruct (do_send_spec h sent b (Z.of_nat (length b))) as (h' & E & Hrep' & En' & Es'); [done|lia|lia|].
    rewrite Nat2Z.id, firstn_all in Hrep'. exists (h', cur). cbn. unfold Queue_send. cbn [negb]. rewrite E. cbn.
    split; [done|]. exists (sent ++ [b]), r. cbn. rewrite En', Es'. rewrite length_drop in Hc.
    split_and!; try done; try congruence.
    + rewrite length_app. lia.
    + by rewrite drop_app_le.
    + rewrite length_app, length_drop. cbn. lia.
  - intros [h cur] b pending (sent & r & Hrep & En & Es & Hr & Ec & Ep & Hl). cbn [fst snd] in *. subst cur.
    assert (r < length sent)%nat as Hlt.
    { apply (f_equal length) in Ep. rewrite length_drop in Ep. cbn in Ep. lia. }
    assert ((Z.of_nat (length sent) - Z.of_nat r) mod n = Z.of_nat (length sent) - Z.of_nat r) as Em.
    { apply Z.mod_small. apply (f_equal length) in Ep. rewrite length_drop in Ep. lia. }
    destruct (do_receive_lag timed h sent (Z.of_nat r) [timed_out] BUF_SIZE) as (k & m & Hk & Ek & E); [done|lia|lia|rewrite En; lia|].
    rewrite En in *. assert (k = r) as -> by lia. rewrite (drop_S _ _ _ Hk) in Ep. injection Ep as -> ->.
    exists (h, position n (Z.of_nat r + 1)). cbn. unfold Queue_receive, timed_receive. rewrite E. cbn.
    split; [done|]. exists sent, (S r). cbn. split_and!; try done; try lia.
    + f_equal. lia.
    + cbn in Hl. rewrite length_drop in *. lia.
  - intros [h cur] (sent & r & Hrep & En & Es & Hr & Ec & Ep & Hl). cbn [fst snd] in *. subst cur.
    assert (r = length sent) as ->.
    { apply (f_equal length) in Ep. rewrite length_drop in Ep. cbn in Ep. lia. }
    exists (h, position n (Z.of_nat (length sent))). cbn. unfold Queue_receive.
    rewrite <- En, (timed_receive_level h sent _ Hrep Es eq_refl). cbn. split; [done|].
    exists sent, (length sent). cbn. by rewrite drop_all, En.
  - intros [h cur] b Hq Hb _. pose proof Hq as (sent & r & Hrep & _). eapply (shm_wait_newest n (h, cur) [b] sent).
    + exact Hq.
    + exact Hrep.
    + by rewrite last_snoc.
    + by constructor.
Defined.

(** A fresh queue, read from its start. *)
Lemma shm_rep_init n : layout_fits n BUF_SIZE -> shm_rep n (mq_hdr_init n BUF_SIZE, 0) [].
Proof.
  intros Hl. exists [], 0%nat. pose proof Hl as (? & _). cbn. split_and!; try done; try lia.
  by apply mq_hdr_init_represents.
Qed.
End ShmInstance.
#[export] Existing Instance shm_byte_queue.

(** ** The test queue keeps it too, with one unread message at most *)

Lemma cond_at_insert c name d : cond_at (<[name := d]> c) name = d.
Proof. unfold cond_at. by rewrite lookup_insert_eq. Qed.

(** A writer and a reader of one queue, in a process that does not shut down. *)
Definition test_byte_queue : ByteQueue (conditions * TestQueue * TestQueue) := {|
  bq_send '(c, w, r) b := match TestQueue_send w b c with Ok c => Ok (c, w, r) | Err e => Err e end;
  bq_receive '(c, w, r) :=
    match TestQueue_receive r (Z.to_nat BUF_SIZE) false c with
    | (Some (true, b), r, c) => Ok (Some b, (c, w, r))
    | (_, r, c) => Ok (None, (c, w, r))
    end;
  (* a reader that has registered waits, and goes on when the condition of its wait holds *)
  bq_wait '(c, w, r) during :=
    let sends := send_during (λ c b, TestQueue_send w b c) in
    match TestQueue_receive r (Z.to_nat BUF_SIZE) false c with
    | (Some (ok, b), r, c) =>
        match sends c during with Ok c => Ok (if (ok : bool) then Some b else None, (c, w, r)) | Err e => Err e end
    | (None, r, c) =>
        match sends c during with
        | Ok c =>
            if receive_ready r false c
            then let '(ok, b, r, c) := receive_take r (Z.to_nat BUF_SIZE) false c in
                 Ok (if (ok : bool) then Some b else None, (c, w, r))
            else Ok (None, (c, w, r))
        | Err e => Err e
        end
    end;
|}.
#[local] Existing Instance test_byte_queue.

Definition test_rep (q : conditions * TestQueue * TestQueue) (pending : list (list byte)) : Prop :=
  let '(c, w, r) := q in
  let d := cond_at c (tq_name r) in
  tq_name w = tq_name r ∧ tq_max_size w = Z.to_nat BUF_SIZE
  ∧ (∀ buf, qd_data d = Some buf -> length buf = Z.to_nat BUF_SIZE)
  ∧ 0 <= tq_last_inc r <= qd_inc d
  ∧ match pending with
    | [] => qd_inc d = tq_last_inc r
    | [b] => tq_last_inc r < qd_inc d
             ∧ ∃ buf, qd_data d = Some buf ∧ take (qd_data_len d) buf = b ∧ (qd_data_len d <= Z.to_nat BUF_SIZE)%nat
    | _ => False
    end.

(** Registering leaves the message and the counts. *)
Lemma receive_register_data q c :
  let d := cond_at c (tq_name q) in
  let d' := cond_at (receive_register q c) (tq_name q) in
  qd_data d' = qd_data d ∧ qd_data_len d' = qd_data_len d ∧ qd_inc d' = qd_inc d.
Proof. unfold receive_register. destruct (tq_last_inc q =? 0); [by rewrite cond_at_insert|done]. Qed.

Lemma test_register c w r pending : test_rep (c, w, r) pending -> test_rep (receive_register r c, w, r) pending.
Proof.
  cbn [test_rep]. destruct (receive_register_data r c) as (E1 & E2 & E3). cbv zeta in *. by rewrite E1, E2, E3.
Qed.

Lemma test_send c w r b :
  test_rep (c, w, r) [] -> Z.of_nat (length b) <= BUF_SIZE -> ∃ c', TestQueue_send w b c = Ok c' ∧ test_rep (c', w, r) [b].
Proof.
  intros (En & Ew & Hbuf & Hi & Hp) Hb. unfold TestQueue_send. rewrite En. set (d := cond_at c (tq_name r)) in *.
  assert (length (default (repeat Byte.x00 (tq_max_size w)) (qd_data d)) = Z.to_nat BUF_SIZE) as El.
  { destruct (qd_data d) as [buf|] eqn:E; cbn; [by apply Hbuf|by rewrite repeat_length]. }
  set (buf := default _ _) in *. rewrite Nat.min_l by (unfold BUF_SIZE in *; lia).
  destruct (Nat.ltb_spec (length buf) (length b)); [lia|].
  eexists. split; [reflexivity|]. cbn [test_rep]. rewrite cond_at_insert. cbn.
  rewrite firstn_all. split_and!; try done; try lia.
  - intros b' [= <-]. rewrite length_app, length_drop. lia.
  - eexists. split; [done|]. rewrite take_app_length. split; [done|lia].
Qed.

Lemma test_take c w r b :
  test_rep (c, w, r) [b] ->
  receive_ready r false c = true
  ∧ ∃ r' c', receive_take r (Z.to_nat BUF_SIZE) false c = (true, b, r', c') ∧ test_rep (c', w, r') [].
Proof.
  intros (En & Ew & Hbuf & Hi & Hlt & buf & Ed & Eb & Hl). unfold receive_ready. case_test; [lia|]. split; [done|].
  unfold receive_take. cbn [qd_data qd_data_len qd_inc qd_cnt qd_users]. rewrite Ed. cbn [negb].
  rewrite Nat.min_r, Eb by done. eexists _, _. split; [reflexivity|]. cbn [test_rep tq_name].
  rewrite cond_at_insert. cbn [qd_data qd_data_len qd_inc tq_last_inc].
  split_and!; try done; try lia. intros b' [= <-]. by apply Hbuf.
Qed.

Lemma test_none c w r : test_rep (c, w, r) [] -> TestQueue_receive r (Z.to_nat BUF_SIZE) false c = (None, r, receive_register r c).
Proof.
  intros H%test_register. unfold TestQueue_receive, receive_ready. destruct H as (_ & _ & _ & _ & ->). by rewrite Z.eqb_refl.
Qed.

Definition test_laws : @ByteQueueLaws (conditions * TestQueue * TestQueue) test_byte_queue.
Proof.
  refine {| bq_capacity := 2; bq_size := BUF_SIZE; bq_rep := test_rep |}.
  - intros [[c w] r] pending b Hq Hb Hc. destruct pending; [|cbn in Hc; lia]. cbn [bq_send test_byte_queue].
    destruct (test_send c w r b Hq Hb) as (c' & -> & H). by eexists.
  - intros [[c w] r] b pending Hq. destruct pending as [|]; [|by destruct Hq as (_ & _ & _ & _ & ?)].
    cbn [bq_receive test_byte_queue]. unfold TestQueue_receive.
    destruct (test_take _ _ _ _ (test_register _ _ _ _ Hq)) as (-> & r' & c' & -> & H). by eexists.
  - intros [[c w] r] Hq. cbn [bq_receive test_byte_queue]. rewrite (test_none _ _ _ Hq). eexists. split; [done|].
    by apply test_register.
  - intros [[c w] r] b Hq Hb _. cbn [bq_wait test_byte_queue send_during]. rewrite (test_none _ _ _ Hq).
    destruct (test_send _ w r b (test_register _ _ _ _ Hq) Hb) as (c1 & -> & H1). cbn [rbind].
    destruct (test_take _ _ _ _ H1) as (-> & r' & c' & -> & H). by eexists.
Defined.

(** ** Properties *)

Section Delivery.
Context {P : Platform} {POk : PlatformOk P} {T entry : Type} {W : Wire T entry} {WL : WireLaws T entry}.

(** Two test queues of one name, a writer and then a reader. *)
Definition test_pair (name : string) : conditions * TestQueue * TestQueue :=
  let '(w, c) := TestQueue_new name (Z.to_nat BUF_SIZE) ∅ in
  let '(r, c) := TestQueue_new name (Z.to_nat BUF_SIZE) c in (c, w, r).

(** C8: Protocol buffers sent over a fresh queue arrive once, in order and equal to what was
    sent, whatever the interleaving of sends and receives, with receives that find a message,
    that wait in vain and that are notified: over the shared-memory queue while fewer than its
    20 messages are unread, and over the test queue that replaces it while at most one is; and
    when a receive that waited goes on after exactly one message was sent.  The proof uses only
    the interface both queues implement.  Without the last condition the shared-memory queue
    gives only the newest message, or the last one again: [shm_wait_newest]. *)
Theorem proto_queue_fifo (name : string) (os : list (proto_op T)) :
  layout_fits 20 BUF_SIZE -> Forall proto_fits os ->
  (proto_keeps_up 20 0 os = true ->
   ∃ q, proto_run (BQ := shm_byte_queue) (mq_hdr_init 20 BUF_SIZE, 0) [] os = Ok (q, proto_fifo [] [] os))
  ∧ (proto_keeps_up 2 0 os = true ->
     ∃ q, proto_run (BQ := test_byte_queue) (test_pair name) [] os = Ok (q, proto_fifo [] [] os)).
Proof.
  intros H20 Hf. split; intros Hk.
  - apply (proto_run_spec (BL := shm_laws 20) os _ [] [] []); try done.
    by apply shm_rep_init.
  - apply (proto_run_spec (BL := test_laws) os _ [] [] []); try done.
    unfold test_pair, TestQueue_new. cbn [bq_rep test_laws test_rep tq_name tq_max_size tq_last_inc].
    by rewrite !cond_at_insert.
Qed.
End Delivery.

(** *** The life of a named queue *)

Section Lifetime.
Context {P : Platform}.

Inductive queue_event := WriterOpen (queue_len msg_size : Z) | WriterClose | ReaderTurn.

(** Events on one name; [None] when a closing writer would wait. *)
Fixpoint queue_life (name : string) (es : list queue_event) (s : Shm) : option Shm :=
  match es with
  | [] => Some s
  | WriterOpen n m :: es => queue_life name es (open_writer name n m s)
  | WriterClose :: es => s ← close_writer name s; queue_life name es s
  | ReaderTurn :: es => queue_life name es (snd (open_reader_turn name s))
  end.

(** The writers open after the events, [None] if more close than are open. *)
Fixpoint writers (n : nat) (es : list queue_event) : option nat :=
  match es with
  | [] => Some n
  | WriterOpen _ _ :: es => writers (S n) es
  | WriterClose :: es => match n with O => None | S n => writers n es end
  | ReaderTurn :: es => writers n es
  end.

(** The semaphore counts the writers, and the ring exists while there are any. *)
Definition counts_writers (name : string) (n : nat) (s : Shm) : Prop :=
  default 0 (shm_sem s !! name) = Z.of_nat n ∧ (is_Some (shm_queue s !! name) <-> n ≠ 0%nat).

Lemma queue_life_counts name es n k s :
  counts_writers name n s -> writers n es = Some k ->
  ∃ s', queue_life name es s = Some s' ∧ counts_writers name k s'.
Proof.
  revert n s. induction es as [|e es IH]; intros n s Hn Hk.
  - injection Hk as <-. by exists s.
  - destruct Hn as [Hsem Hq]. destruct e as [len sz| |]; cbn [queue_life writers] in *.
    + apply (IH (S n)); [|done]. split; cbn.
      * rewrite lookup_insert_eq. cbn. lia.
      * rewrite lookup_insert_eq. split; [done|by eexists].
    + destruct n as [|n]; [done|]. unfold close_writer. rewrite Hsem.
      destruct (Z.leb_spec (Z.of_nat (S n)) 0); [lia|].
      destruct (Z.leb_spec (Z.of_nat (S n) - 1) 0); cbn; apply (IH n); try done.
      * assert (n = 0%nat) as -> by lia. split; cbn; rewrite lookup_delete_eq; [done|]. split; [by intros []|done].
      * split; cbn; [rewrite lookup_insert_eq; cbn; lia|]. rewrite Hq. split; intros _; lia.
    + apply (IH n); [|done]. unfold open_reader_turn. rewrite Hsem.
      destruct (0 <? Z.of_nat n); cbn; (split; cbn; [by rewrite lookup_insert_eq|done]).
Qed.

(** However writers and readers come and go, as long as no more writers close than are
    open, no closing writer waits and the ring of a name exists exactly while one of its
    writers is open: the last one removes it, and a reader finds it exactly then, and never
    fails to open a queue that was announced. *)
Theorem queue_lifetime (name : string) (es : list queue_event) (k : nat) :
  writers 0 es = Some k ->
  ∃ s, queue_life name es (MkShm ∅ ∅) = Some s
    ∧ (is_Some (shm_queue s !! name) <-> k ≠ 0%nat)
    ∧ ∃ h, fst (open_reader_turn name s) = Ok h ∧ (is_Some h <-> k ≠ 0%nat).
Proof.
  intros Hk. destruct (queue_life_counts name es 0 k (MkShm ∅ ∅)) as (s & E & Hsem & Hq); [|done|].
  { split; cbn; rewrite lookup_empty; [done|]. split; [by intros []|done]. }
  exists s. split; [done|]. split; [done|]. unfold open_reader_turn, open_only. rewrite Hsem.
  destruct (Z.ltb_spec 0 (Z.of_nat k)); cbn.
  - destruct (shm_queue s !! name) as [h|]; [by exists (Some h)|]. destruct Hq as [_ Hq]. destruct Hq; [lia|done].
  - exists None. split; [done|]. split; [by intros []|lia].
Qed.

(** A queue is initialised once: whoever opens it later, with whatever sizes, gets the ring
    with the messages sent so far, until it is removed. *)
Theorem open_keeps_messages (name : string) (n size n' size' : Z) (m : gmap string mq_hdr) (h : mq_hdr) :
  m !! name = None ->
  let m1 := (open_or_create name n size m).2 in
  let m2 := <[name := h]> m1 in
  create_only name n size m = Ok (mq_hdr_init n size, m1)
  ∧ open_only name m1 = Ok (mq_hdr_init n size) ∧ create_only name n' size' m2 = Err already_exists_error
  ∧ open_or_create name n' size' m2 = (h, m2) ∧ open_only name m2 = Ok h
  ∧ open_only name (mq_remove name m2).2 = Err not_found_error.
Proof.
  intros E. unfold open_or_create, create_only, open_only, mq_remove. cbv zeta. rewrite E. cbn [fst snd initialization_func].
  rewrite !lookup_insert_eq, lookup_delete_eq, !insert_insert_eq. done.
Qed.
End Lifetime.

(** ** Witnesses *)

(** A message of one byte that is its own entry. *)
Definition byte_wire : Wire byte byte := {|
  make_entry m _ _ := m; entry_field e := e; SerializeEntry e := [e];
  ParseFromArray b := match b with [e] => (e, true) | _ => (Byte.x00, false) end;
|}.
Definition byte_wire_laws : @WireLaws byte byte byte_wire.
Proof. by constructor. Qed.

Lemma proto_queue_witness :
  let os := [POSend 1 Byte.x07; POReceive; POSend 2 Byte.x08; POReceive; POReceive; POWait [(3, Byte.x09)]] in
  (∃ q, proto_run (W := byte_wire) (BQ := test_byte_queue) (test_pair "heading_cmd") [] os = Ok (q, [Byte.x07; Byte.x08; Byte.x09]))
  ∧ ∃ q, proto_run (W := byte_wire) (BQ := shm_byte_queue (P := platform32)) (@mq_hdr_init platform32 20 BUF_SIZE, 0) [] os
         = Ok (q, [Byte.x07; Byte.x08; Byte.x09]).
Proof.
  intros os.
  destruct (@proto_queue_fifo platform32 platform32_ok byte byte byte_wire byte_wire_laws "heading_cmd" os) as [Hs H].
  - fits32.
  - repeat (apply Forall_cons_2; [cbn; unfold entry_fits, BUF_SIZE; cbn; lia || exact I || (apply Forall_cons_2; [lia|apply Forall_nil_2])|]).
    apply Forall_nil_2.
  - split; [apply H|apply Hs]; reflexivity.
Defined.

Lemma queue_lifetime_witness :
  ∃ s, @queue_life platform32 "wind" [WriterOpen 20 1024; ReaderTurn; WriterOpen 20 1024; WriterClose] (MkShm ∅ ∅) = Some s
    ∧ is_Some (shm_queue s !! "wind"%string).
Proof.
  destruct (@queue_lifetime platform32 "wind" [WriterOpen 20 1024; ReaderTurn; WriterOpen 20 1024; WriterClose] 1)
    as (s & E & H & _); [reflexivity|].
  exists s. split; [exact E|]. apply H. done.
Defined.
