(* ===== verification/Node.v ===== *)
(** * The node framework

    src/util/node.cc and node.h: a node runs [Iterate] periodically and, in a thread for
    each registered queue, calls a handler with every message it receives.  What other
    threads and processes do in between is a list of events; the shutdown flag is read
    where the source reads it. *)

From Stdlib Require Import ZArith Lia Strings.Byte.
From stdpp Require Import base list gmap strings.
From S2P Require Import Prelude MessageQueue Queue.

#[local] Open Scope Z_scope.
Open Scope list_scope.

(** ** The loop *)

(** [Run]: each turn has the shutdown flag at the test of the loop and after the wait.  It
    gives the state and whether the loop has ended; a negative period never runs. *)
Fixpoint node_run {St : Type} (iterate : St -> St) (period : Z) (turns : list (bool * bool)) (s : St) : St * bool :=
  match turns with
  | [] => (s, period <? 0)
  | (before, after) :: turns =>
      if (period <? 0) || before then (s, true)
      else if after then (s, true)
      else node_run iterate period turns (iterate s)
  end.

(** The loop calls [Iterate] once for every turn before the first that sees the shutdown. *)
Theorem node_run_iterations {St : Type} (iterate : St -> St) (period : Z) (turns : list (bool * bool)) (s : St) :
  0 <= period ->
  exists n, fst (node_run iterate period turns s) = Nat.iter n iterate s
    ∧ (∀ i t, (i < n)%nat -> turns !! i = Some t -> t = (false, false))
    ∧ (n = length turns ∨ ∃ t, turns !! n = Some t ∧ t ≠ (false, false)).
Proof.
  intros Hp. revert s. induction turns as [|[b a] turns IH]; intros s.
  - exists 0%nat. split_and!; [done|lia|by left].
  - cbn. destruct (Z.ltb_spec period 0); [lia|]. cbn. destruct b; [|destruct a].
    1, 2: exists 0%nat; split_and!; [done|lia|right; eexists; split; [done|discriminate]].
    destruct (IH (iterate s)) as (n & E & Hi & Hn). exists (S n). rewrite E, <- Nat.iter_succ_r. split_and!; [done| |].
    + intros [|i] t Hlt; [by intros [= <-]|]. apply Hi. lia.
    + cbn. destruct Hn as [->|Hn]; [by left|by right].
Qed.

(** ** Handlers *)

Section Handler.
Context {T entry St : Type} {W : Wire T entry} {Q : Type} {BQ : ByteQueue Q}.
Variable callback : St -> T -> St.
#[local] Open Scope result_scope.

(** A message another node sends, or a turn of the handler's loop with the shutdown flag
    before and after the receive, whose wait times out or, in [HWait], is notified after the
    messages [during] were sent. *)
Inductive handler_event :=
| HSend (now : Z) (msg : T)
| HTurn (before after : bool)
| HWait (before after : bool) (during : list (Z * T)).

(** [RunHandlerCaller] *)
Fixpoint handler_run (es : list handler_event) (q : Q) (s : St) : result QueueErr (Q * St) :=
  match es with
  | [] => Ok (q, s)
  | HSend now m :: es => let* q := proto_send now m q in handler_run es q s
  | HTurn before after :: es =>
      if before then Ok (q, s)
      else
        let* (m, q) := proto_receive q in
        handler_run es q (match m with Some m => if after then s else callback s m | None => s end)
  | HWait before after during :: es =>
      if before then Ok (q, s)
      else
        let* (m, q) := proto_wait q during in
        handler_run es q (match m with Some m => if after then s else callback s m | None => s end)
  end.

(** The same events as a run of the queue, up to the shutdown. *)
Definition handler_ops (es : list handler_event) : list (proto_op T) :=
  map (λ e, match e with HSend now m => POSend now m | HTurn _ _ => POReceive | HWait _ _ during => POWait during end) es.

Definition no_shutdown (e : handler_event) : Prop :=
  match e with HTurn b a | HWait b a _ => b = false ∧ a = false | HSend _ _ => True end.

(** Without a shutdown the handler's state is the fold of its callback over what a run of
    the queue receives. *)
Lemma handler_run_fold es q got s q' got' :
  Forall no_shutdown es -> proto_run q got (handler_ops es) = Ok (q', got') ->
  ∀ s0, s = fold_left callback got s0 -> handler_run es q s = Ok (q', fold_left callback got' s0).
Proof.
  revert q got s. induction es as [|[now m|b a|b a during] es IH]; intros q got s Hes E s0 ->; cbn in E |- *.
  - by injection E as <- <-.
  - apply Forall_cons in Hes as [_ Hes]. destruct (proto_send now m q) as [q1|]; [|done]. cbn in *. by eapply IH.
  - apply Forall_cons in Hes as [[-> ->] Hes]. destruct (proto_receive q) as [[m q1]|]; [|done]. cbn in *.
    eapply IH; [done|exact E|]. destruct m as [m|]; cbn; [by rewrite fold_left_app|by rewrite app_nil_r].
  - apply Forall_cons in Hes as [[-> ->] Hes]. destruct (proto_wait q during) as [[m q1]|]; [|done]. cbn in *.
    eapply IH; [done|exact E|]. destruct m as [m|]; cbn; [by rewrite fold_left_app|by rewrite app_nil_r].
Qed.
End Handler.
Arguments handler_event : clear implicits.

Section Delivery.
Context {P : Platform} {POk : PlatformOk P} {T entry St : Type} {W : Wire T entry} {WL : WireLaws T entry}.

(** A handler on the shared-memory queue sees every message once, in order and equal to
    what was sent, while it stays less than the queue's 20 messages behind and goes on from a
    wait after one message. *)
Theorem handler_sees_all (callback : St -> T -> St) (es : list (handler_event T)) (s : St) :
  layout_fits 20 BUF_SIZE -> Forall no_shutdown es -> Forall proto_fits (handler_ops es) ->
  proto_keeps_up 20 0 (handler_ops es) = true ->
  ∃ q, handler_run (BQ := shm_byte_queue) callback es (mq_hdr_init 20 BUF_SIZE, 0) s
       = Ok (q, fold_left callback (proto_fifo [] [] (handler_ops es)) s).
Proof.
  intros H20 Hes Hf Hk.
  destruct (proto_run_spec (BL := shm_laws 20) (handler_ops es) (mq_hdr_init 20 BUF_SIZE, 0) [] [] []) as (q & E); try done.
  { by apply shm_rep_init. }
  exists q. by eapply handler_run_fold.
Qed.
End Delivery.
