(* ===== verification/LogFile.v ===== *)
(** * Logging and replay

    src/util/logger.cc and .h, log-replay.cc and .h, log_deprecation.cc: the format of log
    files, writing them, and sending the messages of a file again.  A file is the list of
    its bytes.  What the code uses of a [LogEntry] message is the class [Entry]; the flag
    for the first time to play back is a test of a message's time, and the time read after
    sleeping is an argument. *)

From Stdlib Require Import ZArith Lia Strings.Byte.
From stdpp Require Import base list gmap strings.
From S2P Require Import Prelude.

#[local] Open Scope Z_scope.
Open Scope list_scope.

Definition MAX_BUF : Z := 1024.

(** ** Little-endian integers *)

Definition byte_of_Z (z : Z) : byte := default Byte.x00 (Byte.of_N (Z.to_N (z mod 256))).
Definition Z_of_byte (b : byte) : Z := Z.of_N (Byte.to_N b).

Fixpoint le_bytes (n : nat) (z : Z) : list byte :=
  match n with O => [] | S n => byte_of_Z z :: le_bytes n (z / 256) end.
Fixpoint le_value (l : list byte) : Z :=
  match l with [] => 0 | b :: l => Z_of_byte b + 256 * le_value l end.

(** ** The logger *)

(** The start of the file: the time in nanoseconds as a [uint64_t]. *)
Definition log_header (start_time : Z) : list byte := le_bytes 8 (wrapu 64 start_time).

(** A message received into the handler's buffer: its length is stored in a [uint16_t]. *)
Definition log_message (buf : list byte) (rcvd : Z) (file : list byte) : list byte :=
  file ++ le_bytes 2 (wrapu 16 rcvd) ++ take (Z.to_nat rcvd) buf.

(** The file after the messages of a run, in the order the handlers got the lock. *)
Definition log_file (start_time : Z) (msgs : list (list byte)) : list byte :=
  fold_left (λ f m, log_message m (Z.of_nat (length m)) f) msgs (log_header start_time).

(** ** Replay *)

Class Entry (entry : Type) := {
  parse_log : list byte -> entry;               (* what ParseFromArray leaves *)
  serialize_log : entry -> list byte;
  list_fields : entry -> list string;           (* the fields that are set *)
  entry_time : entry -> Z * Z;
  move_field : string -> string -> entry -> option entry;   (* None: no such field *)
}.

Inductive ReplayErr :=
| TooLarge         (* CHECK(len < buf_len) *)
| TooManyFields    (* CHECK_LE(fields.size(), 2) *)
| NoSuchQueue      (* LOG(FATAL) *)
| BufferOverflow   (* more bytes than the buffer has are read or sent *)
| ReplayFuel.

(** [read]: the bytes, or [None] at the end of the file, where the stream's flag is set. *)
Definition log_read (n : nat) (input : list byte) : option (list byte * list byte) :=
  if (length input <? n)%nat then None else Some (take n input, drop n input).

(** [None] is the result -1. *)
Definition ReadLogMessage (buf_len : Z) (input : list byte) : result ReplayErr (option (list byte * list byte)) :=
  match log_read 2 input with
  | None => Ok None
  | Some (l, input) =>
      let len := le_value l in
      if negb (len <? buf_len) then Err TooLarge
      else Ok (log_read (Z.to_nat len) input)
  end.

(** [ReadFile], which prints the pings of a log: the messages it parses, from the start of
    the file; it reads each into a buffer of [MAX_BUF] bytes. *)
Fixpoint ReadFile (fuel : nat) (input : list byte) : result ReplayErr (list (list byte)) :=
  match fuel with
  | O => Err ReplayFuel
  | S fuel =>
      match log_read 2 input with
      | None => Ok []
      | Some (l, input) =>
          if MAX_BUF <? le_value l then Err BufferOverflow
          else
            match log_read (Z.to_nat (le_value l)) input with
            | None => Ok []
            | Some (m, input) => (let* ms := ReadFile fuel input in Ok (m :: ms))%result
            end
      end
  end.

Section Replay.
Context {entry : Type} {EN : Entry entry}.
#[local] Open Scope result_scope.

(** What a handler for old messages does to the entry and its bytes. *)
Variable queue_process : gmap string (entry -> list byte -> entry * list byte).
Variable rename : gmap string string.
Variable default_ignore : bool.
(** [msg_time / 1e9 < FLAGS_start_log_replay] *)
Variable before_start : Z -> bool.
(** [clock_.Time()] after sleeping until a time. *)
Variable time_after : Z -> Z.

Record LogReplay := MkReplay {
  rp_queues : gmap string string;    (* the queue each name is sent to *)
  rp_cur_time : Z;
  rp_msg_time : Z;
  rp_queue_name : string;
  rp_sent : list (string * list byte);
}.

(** One field of an entry. *)
Definition replay_field (st : entry * list byte * LogReplay) (field : string) : entry * list byte * LogReplay :=
  let '(e, buf, s) := st in
  if bool_decide (field = "time"%string) then
    let '(secs, nanos) := entry_time e in
    (e, buf, MkReplay (rp_queues s) (rp_cur_time s) (secs * 1000000000 + nanos) (rp_queue_name s) (rp_sent s))
  else
    let '(e, buf) := match queue_process !! field with Some h => h e buf | None => (e, buf) end in
    let qs :=
      match rp_queues s !! field with
      | Some _ => rp_queues s
      | None =>
          let qname := default (if default_ignore then String.EmptyString else field) (rename !! field) in
          if bool_decide (qname = String.EmptyString) then rp_queues s else <[field := qname]> (rp_queues s)
      end in
    (e, buf, MkReplay qs (rp_cur_time s) (rp_msg_time s) field (rp_sent s)).

(** Renaming a queue moves the field within the entry. *)
Definition replay_rename (name : string) (e : entry) (buf : list byte) : result ReplayErr (list byte) :=
  match rename !! name with
  | Some new =>
      if bool_decide (new = name) then Ok buf
      else
        match move_field name new e with
        | Some e => if MAX_BUF <? Z.of_nat (length (serialize_log e)) then Err BufferOverflow else Ok (serialize_log e)
        | None => Err NoSuchQueue
        end
  | None => Ok buf
  end.

(** One message of the file. *)
Definition replay_message (buf : list byte) (s : LogReplay) : result ReplayErr LogReplay :=
  let e := parse_log buf in
  let fields := list_fields e in
  if (2 <? length fields)%nat then Err TooManyFields
  else
    let '(e, buf, s) := fold_left replay_field fields (e, buf, s) in
    if before_start (rp_msg_time s) then Ok s
    else
      let s := if rp_cur_time s <? rp_msg_time s
               then MkReplay (rp_queues s) (time_after (rp_msg_time s)) (rp_msg_time s) (rp_queue_name s) (rp_sent s) else s in
      let* buf := replay_rename (rp_queue_name s) e buf in
      Ok (match rp_queues s !! rp_queue_name s with
          | Some q => MkReplay (rp_queues s) (rp_cur_time s) (rp_msg_time s) (rp_queue_name s) (rp_sent s ++ [(q, buf)])
          | None => s
          end).

(** [Run], until the end of the file. *)
Fixpoint replay_run (fuel : nat) (input : list byte) (s : LogReplay) : result ReplayErr LogReplay :=
  match fuel with
  | O => Err ReplayFuel
  | S fuel =>
      let* m := ReadLogMessage MAX_BUF input in
      match m with
      | None => Ok s
      | Some (buf, input) => let* s := replay_message buf s in replay_run fuel input s
      end
  end.

(** The whole replay: the start time of the clock, and the messages. *)
Definition replay (file : list byte) (cur_time : Z) : result ReplayErr (option (Z * LogReplay)) :=
  match log_read 8 file with
  | None => Ok None
  | Some (t, input) =>
      let* s := replay_run (S (length input)) input (MkReplay ∅ cur_time cur_time String.EmptyString []) in
      Ok (Some (le_value t, s))
  end.
End Replay.

(** ** Old logs *)

Section Deprecation.
Context {entry : Type} {EN : Entry entry}.
(** The position of a boat state in the entry: whether [pos] and [pos_float] are set, and
    copying the latter to the former. *)
Variable has_boat_state has_pos has_pos_float : entry -> bool.
Variable copy_pos : entry -> entry.

(** The entry and the buffer with its length; a message that became too large is left in
    the buffer as it was. *)
Definition HandleOldPos (e : entry) (buf : list byte) : entry * list byte :=
  if negb (has_boat_state e) then (e, buf)
  else if negb (has_pos e) && has_pos_float e then
    let e := copy_pos e in
    if MAX_BUF <? Z.of_nat (length (serialize_log e)) then (e, buf) else (e, serialize_log e)
  else (e, buf).

(** The handlers of a replay that was constructed, [FLAGS_handle_deprecation] being set or not. *)
Definition init_handlers (handle_deprecation : bool) : gmap string (entry -> list byte -> entry * list byte) :=
  if handle_deprecation then {["boat_state"%string := HandleOldPos]} else ∅.
End Deprecation.

(** [FLAGS_start_log_replay] at its default, zero. *)
Definition before_zero (msg_time : Z) : bool := msg_time <? 0.

(** ** Frames *)

Lemma byte_roundtrip z : Z_of_byte (byte_of_Z z) = z mod 256.
Proof.
  unfold Z_of_byte, byte_of_Z. pose proof (Z.mod_pos_bound z 256 ltac:(lia)).
  destruct (Byte.of_N (Z.to_N (z mod 256))) as [b|] eqn:E; cbn.
  - apply Byte.to_of_N in E. rewrite E. lia.
  - apply Byte.of_N_None_iff in E. lia.
Qed.

Lemma length_le_bytes n z : length (le_bytes n z) = n.
Proof. revert z. induction n; cbn; auto. Qed.

Lemma le_roundtrip n z : le_value (le_bytes n z) = z mod 256 ^ Z.of_nat n.
Proof.
  revert z. induction n as [|n IH]; intros z; [by rewrite Z.mod_1_r|]. cbn [le_bytes le_value].
  rewrite byte_roundtrip, IH, Nat2Z.inj_succ, Z.pow_succ_r by lia.
  by rewrite Z.rem_mul_r by (try apply Z.pow_pos_nonneg; lia).
Qed.

Definition frame (m : list byte) : list byte := le_bytes 2 (wrapu 16 (Z.of_nat (length m))) ++ m.

Lemma length_frame m : length (frame m) = (2 + length m)%nat.
Proof. unfold frame. by rewrite length_app, length_le_bytes. Qed.

Lemma length_frames ms : (length ms <= length (concat (map frame ms)))%nat.
Proof. induction ms as [|m ms IH]; cbn [map concat length]; [lia|]. rewrite length_app, length_frame. lia. Qed.

Lemma log_file_frames t msgs : log_file t msgs = log_header t ++ concat (map frame msgs).
Proof.
  unfold log_file. generalize (log_header t). induction msgs as [|m msgs IH]; intros h; cbn.
  - by rewrite app_nil_r.
  - rewrite IH. unfold log_message, frame. rewrite Nat2Z.id, firstn_all. by rewrite <- !app_assoc.
Qed.

Lemma log_read_app (a b : list byte) n : length a = n -> log_read n (a ++ b) = Some (a, b).
Proof.
  intros <-. unfold log_read. rewrite length_app. destruct (Nat.ltb_spec (length a + length b) (length a)); [lia|].
  by rewrite take_app_length, drop_app_length.
Qed.

(** A frame is read back, up to the size the reader accepts. *)
Lemma read_frame (m rest : list byte) :
  Z.of_nat (length m) < 65536 ->
  ReadLogMessage MAX_BUF (frame m ++ rest)
  = if Z.of_nat (length m) <? MAX_BUF then Ok (Some (m, rest)) else Err TooLarge.
Proof.
  intros Hm. unfold ReadLogMessage, frame. rewrite <- app_assoc, log_read_app by apply length_le_bytes.
  assert (le_value (le_bytes 2 (wrapu 16 (Z.of_nat (length m)))) = Z.of_nat (length m)) as ->.
  { rewrite le_roundtrip, wrapu_small by lia. apply Z.mod_small. change (256 ^ Z.of_nat 2) with 65536. lia. }
  destruct (Z.of_nat (length m) <? MAX_BUF); [|done]. cbn [negb]. by rewrite log_read_app by lia.
Qed.

(** ** Replay sends what was logged *)

Section Unchanged.
Context {entry : Type} {EN : Entry entry}.
Variable has_boat_state has_pos has_pos_float : entry -> bool.
Variable copy_pos : entry -> entry.
Variable handle_deprecation : bool.
Variable time_after : Z -> Z.

Abbreviation handlers := (init_handlers has_boat_state has_pos has_pos_float copy_pos handle_deprecation).
(** Without renaming, and from the start. *)
Abbreviation plain_message := (replay_message handlers ∅ false before_zero time_after).
Abbreviation plain_run := (replay_run handlers ∅ false before_zero time_after).

(** What is sent for a message: the same bytes, unless the handler of old logs is on and it is a
    boat state with the position in its old field only; then the position is copied, if the
    message still fits. *)
Definition upgraded (m : string * list byte) : string * list byte :=
  let e := parse_log m.2 in
  if handle_deprecation && bool_decide (m.1 = "boat_state"%string) && has_boat_state e && negb (has_pos e) && has_pos_float e
  then (m.1, if MAX_BUF <? Z.of_nat (length (serialize_log (copy_pos e))) then m.2 else serialize_log (copy_pos e))
  else m.

Definition nanos_of (e : entry) : Z := (entry_time e).1 * 1000000000 + (entry_time e).2.

(** A logged message of a queue: small enough, and an entry with that field and perhaps a
    time; copying a position leaves the time. *)
Definition logged (m : string * list byte) : Prop :=
  Z.of_nat (length m.2) < MAX_BUF ∧ m.1 ≠ "time"%string ∧ m.1 ≠ String.EmptyString
  ∧ 0 <= nanos_of (parse_log m.2) ∧ entry_time (copy_pos (parse_log m.2)) = entry_time (parse_log m.2)
  ∧ (list_fields (parse_log m.2) = [m.1] ∨ list_fields (parse_log m.2) = ["time"%string; m.1]
     ∨ list_fields (parse_log m.2) = [m.1; "time"%string]).

(** Every open queue is the one of its name, and the time of the last message is one. *)
Definition queues_own (s : LogReplay) : Prop := (∀ n q, rp_queues s !! n = Some q -> q = n) ∧ 0 <= rp_msg_time s.

(** The handler, on the entry and its bytes. *)
Definition handled (f : string) (e : entry) (buf : list byte) : entry * list byte :=
  match handlers !! f with Some h => h e buf | None => (e, buf) end.

Lemma handled_upgraded (m : string * list byte) :
  (handled m.1 (parse_log m.2) m.2).2 = (upgraded m).2
  ∧ (upgraded m).1 = m.1
  ∧ (entry_time (copy_pos (parse_log m.2)) = entry_time (parse_log m.2) ->
     entry_time (handled m.1 (parse_log m.2) m.2).1 = entry_time (parse_log m.2)).
Proof.
  unfold handled, upgraded, init_handlers, HandleOldPos. destruct handle_deprecation; [|by rewrite lookup_empty].
  cbn [andb]. case_bool_decide as E; [rewrite E, lookup_singleton_eq|by rewrite lookup_singleton_ne].
  destruct (has_boat_state _), (has_pos _), (has_pos_float _); cbn; try done.
  destruct (MAX_BUF <? _); by rewrite <- ?E.
Qed.

Lemma replay_time_own e buf s :
  queues_own s -> 0 <= nanos_of e ->
  ∃ s', replay_field handlers ∅ false (e, buf, s) "time" = (e, buf, s') ∧ queues_own s'
    ∧ rp_sent s' = rp_sent s ∧ rp_queues s' = rp_queues s ∧ rp_queue_name s' = rp_queue_name s.
Proof.
  intros [Hs _] Ht. unfold replay_field. rewrite bool_decide_eq_true_2 by done. unfold nanos_of in Ht.
  destruct (entry_time e) as [secs nanos]. eexists. split; [done|]. by repeat split.
Qed.

Lemma replay_field_own e buf s f :
  queues_own s -> f ≠ String.EmptyString -> f ≠ "time"%string ->
  ∃ s', replay_field handlers ∅ false (e, buf, s) f = (handled f e buf, s')
    ∧ queues_own s' ∧ rp_sent s' = rp_sent s ∧ rp_queues s' !! f = Some f ∧ rp_queue_name s' = f.
Proof.
  intros [Hs Ht] Hf Hn. unfold replay_field. rewrite bool_decide_eq_false_2 by done. fold (handled f e buf).
  destruct (handled f e buf) as [e' buf']. rewrite lookup_empty. cbn [default].
  destruct (rp_queues s !! f) as [q|] eqn:Eq.
  - eexists. split; [done|]. cbn. rewrite Eq. by rewrite (Hs f q Eq).
  - rewrite bool_decide_eq_false_2 by done. eexists. split; [done|]. cbn. split_and!; try done; [|by rewrite lookup_insert_eq].
    split; [|done]. intros n q. cbn. destruct (decide (n = f)) as [->|Hne].
    + rewrite lookup_insert_eq. congruence.
    + rewrite lookup_insert_ne by done. apply Hs.
Qed.

(** The fields of a logged message. *)
Lemma replay_fields_own (m : string * list byte) s :
  logged m -> queues_own s ->
  ∃ e s1, fold_left (replay_field handlers ∅ false) (list_fields (parse_log m.2)) (parse_log m.2, m.2, s) = (e, (upgraded m).2, s1)
    ∧ queues_own s1 ∧ rp_sent s1 = rp_sent s ∧ rp_queues s1 !! m.1 = Some m.1 ∧ rp_queue_name s1 = m.1.
Proof.
  intros (_ & Ht & He & Htime & Hcopy & Hf) Hs. destruct (handled_upgraded m) as (Eu & _ & Htu). specialize (Htu Hcopy).
  rewrite <- Eu. destruct (handled m.1 (parse_log m.2) m.2) as [e' buf'] eqn:Eh. cbn [fst snd] in *.
  assert (0 <= nanos_of e') as Htime' by (unfold nanos_of; by rewrite Htu).
  destruct Hf as [->|[->| ->]]; cbn [fold_left].
  - destruct (replay_field_own (parse_log m.2) m.2 s m.1) as (s1 & -> & ?); [done..|]. rewrite Eh. by exists e', s1.
  - destruct (replay_time_own (parse_log m.2) m.2 s) as (s1 & -> & ? & E1 & _); [done..|].
    destruct (replay_field_own (parse_log m.2) m.2 s1 m.1) as (s2 & -> & ? & E2 & ?); [done..|].
    rewrite Eh. exists e', s2. by rewrite E2, E1.
  - destruct (replay_field_own (parse_log m.2) m.2 s m.1) as (s1 & -> & ? & E1 & Eq & En); [done..|]. rewrite Eh.
    destruct (replay_time_own e' buf' s1) as (s2 & -> & ? & E2 & Eq2 & En2); [done..|].
    exists e', s2. by rewrite E2, E1, Eq2, En2.
Qed.

Lemma replay_message_own (m : string * list byte) s :
  logged m -> queues_own s ->
  ∃ s', plain_message m.2 s = Ok s' ∧ queues_own s' ∧ rp_sent s' = rp_sent s ++ [upgraded m].
Proof.
  intros Hm Hs. unfold replay_message.
  assert ((2 <? length (list_fields (parse_log m.2)))%nat = false) as -> by (by destruct Hm as (_ & _ & _ & _ & _ & [->|[->| ->]])).
  destruct (replay_fields_own m s Hm Hs) as (e & s1 & -> & H1 & E1 & Eq & En).
  unfold before_zero. destruct (Z.ltb_spec (rp_msg_time s1) 0) as [Hneg|_]; [by destruct H1; lia|].
  cbv zeta. set (s2 := if rp_cur_time s1 <? _ then _ else _).
  assert (rp_queues s2 = rp_queues s1 ∧ rp_queue_name s2 = m.1 ∧ rp_sent s2 = rp_sent s ∧ queues_own s2) as (Eq2 & En2 & Es2 & H2)
    by (unfold s2; destruct (_ <? _); done).
  unfold replay_rename. rewrite lookup_empty. cbn [rbind]. rewrite Eq2, En2, Eq. eexists. split; [reflexivity|]. cbn.
  split; [split; [rewrite <- Eq2; apply H2|apply H2]|]. rewrite Es2. destruct (handled_upgraded m) as (_ & <- & _).
  by destruct (upgraded m).
Qed.

Lemma replay_run_own msgs fuel s :
  Forall logged msgs -> queues_own s -> (length msgs < fuel)%nat ->
  ∃ s', plain_run fuel (concat (map frame (map snd msgs))) s = Ok s' ∧ rp_sent s' = rp_sent s ++ map upgraded msgs.
Proof.
  revert fuel s. induction msgs as [|m msgs IH]; intros fuel s Hm Hs Hf; (destruct fuel as [|fuel]; [cbn in Hf; lia|]).
  - cbn. exists s. by rewrite app_nil_r.
  - apply Forall_cons in Hm as [Hm Hms]. cbn [replay_run map concat].
    pose proof Hm as (Hl & _). unfold MAX_BUF in Hl. rewrite read_frame by lia. unfold MAX_BUF.
    destruct (Z.ltb_spec (Z.of_nat (length m.2)) 1024); [|lia]. cbn [rbind].
    destruct (replay_message_own m s Hm Hs) as (s1 & -> & H1 & E1). cbn [rbind].
    destruct (IH fuel s1 Hms H1) as (s2 & E2 & E3); [cbn in Hf; lia|].
    exists s2. split; [exact E2|]. by rewrite E3, E1, <- app_assoc.
Qed.

(** Replaying a log that the logger wrote sends every message again, in the order of the file
    and on the queue it came from, unchanged but for the positions of old boat states, and
    starts the clock at the logged time: whatever the messages, as long as they are shorter
    than the buffer. *)
Theorem replay_sends_logged (start cur : Z) (msgs : list (string * list byte)) :
  0 <= start < 2 ^ 64 -> 0 <= cur -> Forall logged msgs ->
  ∃ s, replay handlers ∅ false before_zero time_after (log_file start (map snd msgs)) cur = Ok (Some (start, s))
    ∧ rp_sent s = map upgraded msgs.
Proof.
  intros Ht Hcur Hm. unfold replay. rewrite log_file_frames, log_read_app by apply length_le_bytes.
  set (input := concat _).
  assert (length msgs <= length input)%nat as Hlen by (rewrite <- (length_map snd msgs); apply length_frames).
  destruct (replay_run_own msgs (S (length input)) (MkReplay ∅ cur cur String.EmptyString []) Hm) as (s & E & Es);
    [by split|lia|].
  exists s. fold input in E. rewrite E. cbn [rbind]. split; [|done]. do 3 f_equal. unfold log_header.
  rewrite le_roundtrip, wrapu_small by lia. apply Z.mod_small. change (256 ^ Z.of_nat 8) with (2 ^ 64). lia.
Qed.
End Unchanged.

(** A message that fills the logger's buffer is written but cannot be read back. *)
Theorem full_message_not_replayed {entry : Type} {EN : Entry entry} (start : Z) (m : list byte) (rest : list (list byte)) :
  Z.of_nat (length m) = MAX_BUF ->
  replay ∅ ∅ false (λ _, false) id (log_file start (m :: rest)) 0 = Err TooLarge.
Proof.
  intros Hm. unfold MAX_BUF in Hm. unfold replay. rewrite log_file_frames, log_read_app by apply length_le_bytes.
  cbn [replay_run map concat]. rewrite read_frame by lia. unfold MAX_BUF.
  destruct (Z.ltb_spec (Z.of_nat (length m)) 1024); [lia|]. done.
Qed.

(** A library of entries that are their bytes; the first byte says which queue. *)
Definition byte_entry : Entry (list byte) := {|
  parse_log b := b; serialize_log b := b;
  list_fields b := match b with Byte.x01 :: _ => ["time"; "wind"]%string | _ => ["heading_cmd"]%string end;
  entry_time _ := (3, 5); move_field _ _ e := Some e;
|}.

(** Entries of that library have no old positions. *)
Lemma replay_witness :
  let msgs := [("wind"%string, [Byte.x01; Byte.x07]); ("heading_cmd"%string, [Byte.x02]); ("wind"%string, [Byte.x01])] in
  let handlers := @init_handlers (list byte) byte_entry (λ _, false) (λ _, false) (λ _, false) id true in
  ∃ s, @replay (list byte) byte_entry handlers ∅ false before_zero id (log_file 77 (map snd msgs)) 0 = Ok (Some (77, s))
    ∧ rp_sent s = msgs.
Proof.
  intros msgs. apply (@replay_sends_logged (list byte) byte_entry (λ _, false) (λ _, false) (λ _, false) id true id 77 0 msgs);
    [lia|lia|].
  repeat (apply Forall_cons_2; [unfold logged, MAX_BUF; cbn; split_and!; [lia|done|done|unfold nanos_of; cbn; lia|done|tauto]|]).
  apply Forall_nil_2.
Defined.
