(* ===== verification/Recorder.v ===== *)
(** * Recording the queues of a run and replaying them

    The logger of src/util/logger.cc on the queues of src/ipc/, and the replay of
    src/util/log-replay.cc on the file it wrote, composed.  Each queue has a thread of the
    logger that receives from it and appends to the file under one lock; the nodes that
    send are the other events.  The logger is proved against the interface [ByteQueue]. *)

From Stdlib Require Import ZArith Lia Strings.Byte.
From stdpp Require Import base list gmap strings.
From S2P Require Import Prelude MessageQueue Queue LogFile.

#[local] Open Scope Z_scope.
Open Scope list_scope.

(** A node sends the serialised message on a queue, or the logger's thread for a queue
    takes a turn of its loop, in which it waits in vain or, in [RWait], is notified after the
    messages [during] were sent. *)
Inductive rec_event :=
| RSend (name : string) (b : list byte)
| RTurn (name : string)
| RWait (name : string) (during : list (list byte)).

Section Recorder.
Context {Q : Type} {BQ : ByteQueue Q}.
(** A queue after it was opened. *)
Variable q0 : Q.
#[local] Open Scope result_scope.

(** The queues by name, and the bytes written to the file. *)
Record Recorder := MkRecorder { rc_queues : gmap string Q; rc_file : list byte }.

Definition Recorder_init (start_time : Z) : Recorder := MkRecorder ∅ (log_header start_time).

Definition rec_queue (s : Recorder) (name : string) : Q := default q0 (rc_queues s !! name).

(** [RunLogHandler]: the body of its loop, with the receive. *)
Definition log_turn (receive : Q -> result QueueErr (option (list byte) * Q)) (name : string) (s : Recorder)
  : result QueueErr Recorder :=
  let* (b, q) := receive (rec_queue s name) in
  let qs := <[name := q]> (rc_queues s) in
  Ok (MkRecorder qs (match b with Some b => log_message b (Z.of_nat (length b)) (rc_file s) | None => rc_file s end)).

Definition rec_step (e : rec_event) (s : Recorder) : result QueueErr Recorder :=
  match e with
  | RSend name b => let* q := bq_send (rec_queue s name) b in Ok (MkRecorder (<[name := q]> (rc_queues s)) (rc_file s))
  | RTurn name => log_turn bq_receive name s
  | RWait name during => log_turn (λ q, bq_wait q during) name s
  end.

Fixpoint rec_run (es : list rec_event) (s : Recorder) : result QueueErr Recorder :=
  match es with
  | [] => Ok s
  | e :: es => let* s := rec_step e s in rec_run es s
  end.
End Recorder.

(** ** The specification: unbounded queues, and the log as a list *)

Abbreviation pendings := (gmap string (list (list byte))).

Definition pending_on (p : pendings) (name : string) : list (list byte) := default [] (p !! name).

(** [None] when a queue would have [cap] messages unread, or when a thread that waited goes on
    after more or less than one message. *)
Definition spec_step (cap : Z) (e : rec_event) (st : pendings * list (string * list byte))
  : option (pendings * list (string * list byte)) :=
  let '(p, log) := st in
  match e with
  | RSend name b =>
      if Z.of_nat (length (pending_on p name)) + 1 <? cap then Some (<[name := pending_on p name ++ [b]]> p, log) else None
  | RTurn name =>
      match pending_on p name with
      | [] => Some (p, log)
      | b :: bs => Some (<[name := bs]> p, log ++ [(name, b)])
      end
  | RWait name during =>
      match pending_on p name, during with
      | [], [b] => if 1 <? cap then Some (p, log ++ [(name, b)]) else None
      | _, _ => None
      end
  end.

Fixpoint spec_run (cap : Z) (es : list rec_event) (st : pendings * list (string * list byte))
  : option (pendings * list (string * list byte)) :=
  match es with
  | [] => Some st
  | e :: es => spec_step cap e st ≫= spec_run cap es
  end.

(** The messages on one queue. *)
Definition on_queue (name : string) (l : list (string * list byte)) : list (list byte) :=
  omap (λ m, if bool_decide (m.1 = name) then Some m.2 else None) l.
Definition sent_in (e : rec_event) : list (string * list byte) :=
  match e with RSend name b => [(name, b)] | RTurn _ => [] | RWait name during => map (pair name) during end.
Definition sent_by (es : list rec_event) : list (string * list byte) := concat (map sent_in es).

Lemma on_queue_app name l l' : on_queue name (l ++ l') = on_queue name l ++ on_queue name l'.
Proof. apply omap_app. Qed.

Lemma pending_insert p name name' bs :
  pending_on (<[name := bs]> p) name' = if bool_decide (name = name') then bs else pending_on p name'.
Proof.
  unfold pending_on. case_bool_decide as E; [subst; by rewrite lookup_insert_eq|by rewrite lookup_insert_ne].
Qed.

(** Every message sent is in the log or pending, in order for each queue. *)
Lemma spec_run_complete cap es p log p' log' name :
  spec_run cap es (p, log) = Some (p', log') ->
  on_queue name log' ++ pending_on p' name = on_queue name log ++ pending_on p name ++ on_queue name (sent_by es).
Proof.
  revert p log. induction es as [|[n b|n|n during] es IH]; intros p log; cbn [spec_run spec_step].
  - intros [= <- <-]. cbn. by rewrite app_nil_r.
  - destruct (_ <? cap); [|done]. cbn [mbind option_bind]. intros H. rewrite (IH _ _ H), pending_insert. cbn.
    case_bool_decide; [subst; by rewrite <- !app_assoc|done].
  - destruct (pending_on p n) as [|b bs] eqn:E; cbn [mbind option_bind]; intros H; rewrite (IH _ _ H); [done|].
    rewrite on_queue_app, pending_insert. cbn. case_bool_decide as En; [subst; by rewrite E, <- app_assoc|by rewrite app_nil_r].
  - destruct (pending_on p n) as [|? ?] eqn:E, during as [|b [|? ?]]; try done. destruct (1 <? cap); [|done].
    cbn [mbind option_bind]. intros H. rewrite (IH _ _ H), on_queue_app. cbn.
    case_bool_decide; [subst; by rewrite E, <- app_assoc|by rewrite app_nil_r].
Qed.

Lemma spec_run_logged cap (P : string * list byte -> Prop) es p log p' log' :
  spec_run cap es (p, log) = Some (p', log') -> Forall P (sent_by es) -> Forall P log ->
  (∀ name, Forall (λ b, P (name, b)) (pending_on p name)) -> Forall P log'.
Proof.
  revert p log. induction es as [|[n b|n|n during] es IH]; intros p log; cbn [spec_run spec_step].
  - by intros [= <- <-].
  - destruct (_ <? cap); [|done]. cbn. intros H [Hb Hs]%Forall_cons Hl Hp. apply (IH _ _ H); try done.
    intros name. rewrite pending_insert. case_bool_decide; [|done]. subst. apply Forall_app. split; [done|by constructor].
  - destruct (pending_on p n) as [|b bs] eqn:E; cbn; intros H Hs Hl Hp; apply (IH _ _ H); try done.
    + pose proof (Hp n) as Hn. rewrite E in Hn. apply Forall_cons in Hn as [Hb _]. apply Forall_app. split; [done|by constructor].
    + intros name. rewrite pending_insert. case_bool_decide; [|done]. subst. specialize (Hp name). rewrite E in Hp.
      by apply Forall_cons in Hp as [_ ?].
  - destruct (pending_on p n) as [|? ?] eqn:E, during as [|b [|? ?]]; try done. destruct (1 <? cap); [|done].
    cbn. intros H [Hb Hs]%Forall_cons Hl Hp. apply (IH _ _ H); try done. apply Forall_app. split; [done|by constructor].
Qed.

(** ** The logger implements it, over any queue that keeps the interface *)

Section Refines.
Context {Q : Type} {BQ : ByteQueue Q} {BL : ByteQueueLaws Q}.
Variables (q0 : Q) (Hq0 : bq_rep q0 []) (start : Z).

Definition rec_rep (s : Recorder) (st : pendings * list (string * list byte)) : Prop :=
  (∀ name, bq_rep (rec_queue q0 s name) (pending_on st.1 name)) ∧ rc_file s = log_file start (map snd st.2).

Lemma log_file_snoc msgs m : log_file start (msgs ++ [m]) = log_message m (Z.of_nat (length m)) (log_file start msgs).
Proof. unfold log_file. by rewrite fold_left_app. Qed.

Lemma rec_queue_insert s name name' (q : Q) f :
  rec_queue q0 (MkRecorder (<[name := q]> (rc_queues s)) f) name' = if bool_decide (name = name') then q else rec_queue q0 s name'.
Proof.
  unfold rec_queue. cbn. case_bool_decide as E; [subst; by rewrite lookup_insert_eq|by rewrite lookup_insert_ne].
Qed.

Lemma rec_step_refines e s st st' :
  rec_rep s st -> spec_step bq_capacity e st = Some st' ->
  Forall (λ m, Z.of_nat (length m.2) <= bq_size) (sent_in e) ->
  ∃ s', rec_step q0 e s = Ok s' ∧ rec_rep s' st'.
Proof.
  intros [Hq Hf] Hst Hsz. destruct st as [p log]. cbn [fst snd] in *. destruct e as [n b|n|n during]; cbn [spec_step sent_in] in *.
  - destruct (Z.ltb_spec (Z.of_nat (length (pending_on p n)) + 1) bq_capacity); [|done]. injection Hst as <-.
    destruct (bq_send_rep _ _ b (Hq n)) as (q' & E & Hq'); [by apply Forall_cons in Hsz as [? _]|done|]. cbn [rec_step]. rewrite E. cbn [rbind].
    eexists. split; [done|]. split; [|done]. intros name. cbn [fst]. rewrite rec_queue_insert, pending_insert. by case_bool_decide.
  - cbn [rec_step]. unfold log_turn. pose proof (Hq n) as Hn. destruct (pending_on p n) as [|b bs] eqn:Ep; injection Hst as <-.
    + destruct (bq_receive_none _ Hn) as (q' & -> & Hq'). cbn [rbind]. eexists. split; [done|]. split; [|done].
      intros name. rewrite rec_queue_insert. cbn. case_bool_decide; [subst; by rewrite Ep|done].
    + destruct (bq_receive_some _ _ _ Hn) as (q' & -> & Hq'). cbn [rbind]. eexists. split; [done|]. split.
      * intros name. cbn [fst]. rewrite rec_queue_insert, pending_insert. by case_bool_decide.
      * cbn [rc_file snd]. rewrite map_app, Hf. cbn [map snd]. by rewrite log_file_snoc.
  - cbn [rec_step]. unfold log_turn. pose proof (Hq n) as Hn.
    destruct (pending_on p n) as [|? ?] eqn:Ep, during as [|b [|? ?]]; try done.
    destruct (Z.ltb_spec 1 bq_capacity); [|done]. injection Hst as <-. apply Forall_cons in Hsz as [Hb _].
    destruct (bq_wait_one _ b Hn) as (q' & -> & Hq'); [done|done|]. cbn [rbind]. eexists. split; [done|]. split.
    + intros name. rewrite rec_queue_insert. cbn. case_bool_decide; [subst; by rewrite Ep|done].
    + cbn [rc_file snd]. rewrite map_app, Hf. cbn [map snd]. by rewrite log_file_snoc.
Qed.

Lemma rec_run_refines es s st st' :
  rec_rep s st -> spec_run bq_capacity es st = Some st' ->
  Forall (λ m, Z.of_nat (length m.2) <= bq_size) (sent_by es) ->
  ∃ s', rec_run q0 es s = Ok s' ∧ rec_rep s' st'.
Proof.
  revert s st. induction es as [|e es IH]; intros s st Hr; cbn [spec_run rec_run]; [intros [= <-] _; by exists s|].
  destruct (spec_step bq_capacity e st) as [st1|] eqn:E; [|done]. cbn [mbind option_bind]. intros Hst [Hsz1 Hsz]%Forall_app.
  destruct (rec_step_refines e s st st1 Hr E Hsz1) as (s1 & -> & H1).
  cbn [rbind]. by apply (IH s1 st1 H1 Hst).
Qed.
End Refines.

(** ** Record and replay *)

Section Replay.
Context {P : Platform} {POk : PlatformOk P} {entry : Type} {EN : Entry entry}.

Context (has_boat_state has_pos has_pos_float : entry -> bool) (copy_pos : entry -> entry) (handle_deprecation : bool).
Abbreviation handlers := (init_handlers has_boat_state has_pos has_pos_float copy_pos handle_deprecation).
Abbreviation upgraded := (upgraded has_boat_state has_pos has_pos_float copy_pos handle_deprecation).

Lemma upgraded_name m : (upgraded m).1 = m.1.
Proof. by destruct (handled_upgraded has_boat_state has_pos has_pos_float copy_pos handle_deprecation m) as (_ & ? & _). Qed.

Lemma on_queue_upgraded name l : on_queue name (map upgraded l) = map (λ b, (upgraded (name, b)).2) (on_queue name l).
Proof.
  induction l as [|[n b] l IH]; [done|]. cbn. rewrite upgraded_name. cbn. case_bool_decide; cbn; [|done]. subst. by f_equal.
Qed.

(** C21: A recorded run is replayed as it was: for any interleaving of nodes that send on any
    queues and the logger's threads, each less than its queue's 20 messages behind and, when it
    waited, going on after one message, the replay of the file sends again, on every queue and
    in order, the messages sent on it that the logger had received; only messages still unread
    in the queues are missing, and the clock starts at the logged time.  With the handler of old
    logs, which is on by default, the position of a boat state that has only the old field is
    copied to the new one ([upgraded]); every other message, and without the handler every
    message, is sent unchanged. *)
Theorem record_replay (time_after : Z -> Z) (start cur : Z) (es : list rec_event) (p : pendings)
    (log : list (string * list byte)) :
  layout_fits 20 BUF_SIZE -> 0 <= start < 2 ^ 64 -> 0 <= cur -> Forall (logged copy_pos) (sent_by es) ->
  spec_run 20 es (∅, []) = Some (p, log) ->
  ∃ s r, rec_run (mq_hdr_init 20 BUF_SIZE, 0) es (Recorder_init start) = Ok s
    ∧ replay handlers ∅ false before_zero time_after (rc_file s) cur = Ok (Some (start, r))
    ∧ ∀ name, ∃ received, received ++ pending_on p name = on_queue name (sent_by es)
        ∧ on_queue name (rp_sent r) = map (λ b, (upgraded (name, b)).2) received
        ∧ (handle_deprecation = false ∨ name ≠ "boat_state"%string -> on_queue name (rp_sent r) = received).
Proof.
  intros H20 Ht Hcur Hl Hs.
  destruct (rec_run_refines (BL := shm_laws 20) (mq_hdr_init 20 BUF_SIZE, 0) start es (Recorder_init start) (∅, []) (p, log))
    as (s & E & _ & Ef).
  - split; [|done]. intros name. cbn. by apply shm_rep_init.
  - exact Hs.
  - eapply Forall_impl; [exact Hl|]. intros m (Hm & _). cbn. unfold BUF_SIZE, MAX_BUF in *. lia.
  - assert (Forall (logged copy_pos) log) as Hlog by (by eapply (spec_run_logged 20 (logged copy_pos))).
    destruct (replay_sends_logged has_boat_state has_pos has_pos_float copy_pos handle_deprecation time_after start cur log Ht Hcur Hlog)
      as (r & Er & Es).
    exists s, r. rewrite Ef. split_and!; [done|exact Er|]. intros name. exists (on_queue name log).
    rewrite Es, on_queue_upgraded. split_and!; [by rewrite (spec_run_complete 20 es ∅ [] p log name Hs)|done|].
    intros Hd. rewrite <- (map_id (on_queue name log)) at 2. apply map_ext. intros b. unfold LogFile.upgraded. cbn.
    destruct Hd as [->|Hn]; [done|]. by rewrite bool_decide_eq_false_2, andb_false_r by done.
Qed.
End Replay.

(** Two queues, a logger that falls behind on one of them and waits on the other. *)
Lemma record_replay_witness :
  let es := [RSend "wind" [Byte.x01; Byte.x07]; RSend "heading_cmd" [Byte.x02]; RTurn "heading_cmd"; RTurn "wind";
             RWait "heading_cmd" [[Byte.x03]]; RSend "wind" [Byte.x01]] in
  let handlers := @init_handlers (list byte) byte_entry (λ _, false) (λ _, false) (λ _, false) id true in
  ∃ s r, rec_run (BQ := shm_byte_queue (P := platform32)) (@mq_hdr_init platform32 20 BUF_SIZE, 0) es (Recorder_init 77) = Ok s
    ∧ @replay (list byte) byte_entry handlers ∅ false before_zero id (rc_file s) 0 = Ok (Some (77, r))
    ∧ on_queue "heading_cmd" (rp_sent r) = [[Byte.x02]; [Byte.x03]].
Proof.
  intros es handlers.
  destruct (@record_replay platform32 platform32_ok (list byte) byte_entry (λ _, false) (λ _, false) (λ _, false) id true id 77 0 es
    (<["wind"%string := [[Byte.x01]]]> (<["wind"%string := []]> (<["heading_cmd"%string := []]>
      (<["heading_cmd"%string := [[Byte.x02]]]> (<["wind"%string := [[Byte.x01; Byte.x07]]]> ∅)))))
    [("heading_cmd"%string, [Byte.x02]); ("wind"%string, [Byte.x01; Byte.x07]); ("heading_cmd"%string, [Byte.x03])])
    as (s & r & E & Er & H).
  - fits32.
  - lia.
  - lia.
  - repeat (apply Forall_cons_2; [unfold logged, MAX_BUF; cbn; split_and!; [lia|done|done|unfold nanos_of; cbn; lia|done|tauto]|]).
    apply Forall_nil_2.
  - reflexivity.
  - exists s, r. split; [exact E|]. split; [exact Er|]. destruct (H "heading_cmd"%string) as (received & Hr & _ & Hu).
    rewrite Hu by (right; discriminate). rewrite app_nil_r in Hr. exact Hr.
Defined.
