(* ===== verification/Csv.v ===== *)
(** * Tables of a run

    src/sim/csv_logging.cc and .h, the node that writes chosen fields of messages to a file
    of comma-separated values, and the nodes of src/util/log-replay-main.cc and
    logsim_main.cc that run beside it.  A step is what one thread does while it holds the
    mutex of the values: storing one field, or writing one row.  The reflection of the
    message library is [Reflection] of Server.v with the number and type of a field; the
    text of a number under the format [%f] and the content of the stack before a buffer is
    filled are parameters. *)

From Stdlib Require Import ZArith Lia Ascii String Floats.
From stdpp Require Import base list gmap strings.
From S2P Require Import Prelude Num NumF Can Messages Server.

#[local] Open Scope Z_scope.
Open Scope list_scope.

Inductive CsvErr :=
| NoField          (* LOG(FATAL) *)
| NotASubmessage   (* GetMessage of a field that is not a message *)
| NoColumn         (* at of the map or the vector throws *)
| RowOverflow      (* a write outside the buffer of a row *)
| CsvFuel.

Definition COMMA : ascii := ",".
Definition NEWLINE : ascii := "010".
Definition NUL : ascii := "000".

(** ** Strings of the standard library *)

(** [s.find(c, n)] *)
Definition find_from (c : ascii) (s : str) (n : nat) : option nat :=
  (λ i, (n + i)%nat) <$> find_char c (drop n s).

(** [s.rfind(c)] *)
Fixpoint rfind (c : ascii) (s : str) : option nat :=
  match s with
  | [] => None
  | x :: s => match rfind c s with
              | Some i => Some (S i)
              | None => if ascii_is x c then Some 0%nat else None
              end
  end.

(** [snprintf] of a text to the [size] bytes of [buf] from [index] on: at most [size - 1]
    characters and the terminator; the result is the length of the whole text. *)
Definition snprintf (buf : str) (index size : nat) (text : str) : str * nat :=
  match size with
  | O => (buf, length text)
  | S room =>
      let t := take room text in
      (take index buf ++ t ++ [NUL] ++ drop (index + length t + 1) buf, length text)
  end.

(** The size of the buffer of a row. *)
Definition BUF_LEN : nat := Z.to_nat 40000.

(** What else the logger uses of the descriptor of a singular field. *)
Class NumberField (field : Type) := {
  field_type : field -> FieldType;
  field_number : field -> Z;
}.

Section Csv.
Context {D : Type} {ND : Num D} {message field : Type}
        {RF : Reflection message field} {NF : NumberField field} {PM : ProtoMsg D message}.
#[local] Open Scope result_scope.

(** The text of a number under [%f]. *)
Variable fmt : D -> str.
(** [FLAGS_start_csv] *)
Variable start_csv : D.
(** The bytes of [buf] before the first [snprintf]. *)
Variable stack : str.

(** ** Reading a field *)

Fixpoint field_loop (fuel : nat) (field : str) (n : nat) (next : option nat) (submsg : message)
  : result CsvErr message :=
  match next with
  | None => Ok submsg
  | Some next =>
      match fuel with
      | O => Err CsvFuel
      | S fuel =>
          match FindFieldByName submsg (take (next - n) (drop n field)) with
          | None => Err NoField
          | Some f =>
              match cpp_type f with
              | CPPTYPE_MESSAGE =>
                  field_loop fuel field (S next) (find_from "." field (S next)) (GetMessage submsg f)
              | _ => Err NotASubmessage
              end
          end
      end
  end.

Definition GetField (msg : message) (field : str) : result CsvErr D :=
  let* submsg := field_loop (S (length field)) field 0 (find_char "." field) msg in
  let n := match rfind "." field with Some i => S i | None => 0%nat end in
  match FindFieldByName submsg (drop n field) with
  | None => Err NoField
  | Some val_field => Ok (GetProtoNumberField (field_type val_field) submsg (field_number val_field))
  end.

(** ** The node *)

Record CsvLogger := MkCsv {
  data_ : list D;
  data_indices_ : gmap str nat;
  running_ : bool;
  file_ : str;
}.

(** [d.first.substr(0, d.first.find('.'))] *)
Definition msg_name (item : str) : str :=
  match find_char "." item with Some n => take n item | None => item end.

(** The constructor: the node, and the fields of each queue, for the threads it starts. *)
Definition csv_column (d : str * str) (s : CsvLogger * gmap str (list str)) : CsvLogger * gmap str (list str) :=
  let '(s, fields) := s in
  (MkCsv (data_ s ++ [nofZ 0]) (<[d.1 := length (data_ s)]> (data_indices_ s)) (running_ s) (file_ s ++ [COMMA] ++ d.2),
   <[msg_name d.1 := default [] (fields !! msg_name d.1) ++ [d.1]]> fields).

Definition CsvLogger_init (data : list (str * str)) : CsvLogger * gmap str (list str) :=
  let s := MkCsv [] ∅ (neqb start_csv (nofZ 0)) (chars "#Time") in
  let '(s, fields) := fold_left (λ s d, csv_column d s) data (s, ∅) in
  (MkCsv (data_ s) (data_indices_ s) (running_ s) (file_ s ++ [NEWLINE]), fields).

Definition Stop (s : CsvLogger) : CsvLogger := MkCsv (data_ s) (data_indices_ s) false (file_ s).
Definition Start (s : CsvLogger) : CsvLogger := MkCsv (data_ s) (data_indices_ s) true (file_ s).

(** The body of the loop over the fields of a queue, for a message [entry]. *)
Definition ProcessItem (entry : message) (item : str) (s : CsvLogger) : result CsvErr CsvLogger :=
  let* val := GetField entry item in
  match data_indices_ s !! item with
  | None => Err NoColumn
  | Some i =>
      if (i <? length (data_ s))%nat
      then Ok (MkCsv (<[i := val]> (data_ s)) (data_indices_ s) (running_ s) (file_ s))
      else Err NoColumn
  end.

(** A message of a queue, with nothing in between. *)
Fixpoint ProcessInput (fields : list str) (entry : message) (s : CsvLogger) : result CsvErr CsvLogger :=
  match fields with
  | [] => Ok s
  | item :: fields => let* s := ProcessItem entry item s in ProcessInput fields entry s
  end.

(** [index += snprintf(buf+index, BUF_LEN-index, "%f,", item)]; beyond the buffer the
    difference wraps around and the write is out of range. *)
Definition print_item (row : str * nat) (item : D) : result CsvErr (str * nat) :=
  let '(buf, index) := row in
  if (BUF_LEN <? index)%nat then Err RowOverflow
  else
    let '(buf, n) := snprintf buf index (BUF_LEN - index) (fmt item ++ [COMMA]) in
    Ok (buf, (index + n)%nat).

Fixpoint print_items (row : str * nat) (items : list D) : result CsvErr (str * nat) :=
  match items with
  | [] => Ok row
  | item :: items => let* row := print_item row item in print_items row items
  end.

(** [now] is the node's time in nanoseconds. *)
Definition Csv_Iterate (now : Z) (s : CsvLogger) : result CsvErr CsvLogger :=
  let time := ndiv (nofZ now) (nofZ 1000000000) in
  let running := if nltb start_csv time then true else running_ s in
  let* row := print_item (stack, 0%nat) time in
  let* (buf, index) := print_items row (data_ s) in
  if (BUF_LEN <? index)%nat then Err RowOverflow
  else
    let buf := <[(index - 1)%nat := NEWLINE]> buf in
    Ok (MkCsv (data_ s) (data_indices_ s) running
          (if running then file_ s ++ take index buf else file_ s)).

(** ** Runs *)

Inductive csv_event :=
| CsvStore (entry : message) (item : str)
| CsvTick (now : Z)
| CsvStart
| CsvStop.

Definition csv_step (e : csv_event) (s : CsvLogger) : result CsvErr CsvLogger :=
  match e with
  | CsvStore entry item => ProcessItem entry item s
  | CsvTick now => Csv_Iterate now s
  | CsvStart => Ok (Start s)
  | CsvStop => Ok (Stop s)
  end.

Fixpoint csv_run (evs : list csv_event) (s : CsvLogger) : result CsvErr CsvLogger :=
  match evs with
  | [] => Ok s
  | e :: evs => let* s := csv_step e s in csv_run evs s
  end.

(** ** What the file means

    A table: the time and the latest value of every column, for each tick while running. *)

(** The parts of a text between separators. *)
Fixpoint split_on (c : ascii) (s : str) : list str :=
  match s with
  | [] => [[]]
  | x :: s =>
      if ascii_is x c then [] :: split_on c s
      else match split_on c s with
           | [] => [[x]]
           | p :: ps => (x :: p) :: ps
           end
  end.

(** The number at the end of a path of field names. *)
Fixpoint path_value (m : message) (names : list str) : option D :=
  match names with
  | [] => None
  | [name] => f ← FindFieldByName m name; Some (GetProtoNumberField (field_type f) m (field_number f))
  | name :: names =>
      f ← FindFieldByName m name;
      match cpp_type f with CPPTYPE_MESSAGE => path_value (GetMessage m f) names | _ => None end
  end.

Definition item_value (m : message) (item : str) : option D := path_value m (split_on "." item).

Record Table := MkTable {
  latest : gmap str D;
  recording : bool;
  rows : list (list D);
}.

Definition table_step (cols : list str) (t : Table) (e : csv_event) : Table :=
  match e with
  | CsvStore m item => MkTable (<[item := default (nofZ 0) (item_value m item)]> (latest t)) (recording t) (rows t)
  | CsvTick now =>
      let time := ndiv (nofZ now) (nofZ 1000000000) in
      let rec := nltb start_csv time || recording t in
      MkTable (latest t) rec
        (rows t ++ if rec then [time :: ((λ c, default (nofZ 0) (latest t !! c)) <$> cols)] else [])
  | CsvStart => MkTable (latest t) true (rows t)
  | CsvStop => MkTable (latest t) false (rows t)
  end.

Definition table_init : Table := MkTable ∅ (neqb start_csv (nofZ 0)) [].

(** The first line, and a row: texts separated by commas and ended by a line break. *)
Definition commas (texts : list str) : str := concat ((λ t, COMMA :: t) <$> texts).
Definition print_header (data : list (str * str)) : str := chars "#Time" ++ commas data.*2 ++ [NEWLINE].
Definition print_row (row : list D) : str :=
  match row with
  | [] => [NEWLINE]
  | x :: xs => fmt x ++ commas (fmt <$> xs) ++ [NEWLINE]
  end.

(** Steps on columns of the table, with fields that the messages have. *)
Definition event_ok (cols : list str) (e : csv_event) : Prop :=
  match e with
  | CsvStore m item => item ∈ cols ∧ is_Some (item_value m item)
  | _ => True
  end.

(** ** Reading a field follows its path *)

Lemma split_on_find c s :
  split_on c s = match find_char c s with
                 | None => [s]
                 | Some i => take i s :: split_on c (drop (S i) s)
                 end.
Proof.
  induction s as [|x s IH]; [done|]. cbn [split_on find_char]. destruct (ascii_is x c); [done|].
  rewrite IH. by destruct (find_char c s).
Qed.

Lemma split_on_ne c s : split_on c s ≠ [].
Proof. rewrite split_on_find. by destruct (find_char c s). Qed.

Lemma find_char_at c s i : find_char c s = Some i -> find_char c (drop i s) = Some 0%nat.
Proof.
  revert i. induction s as [|x s IH]; intros i; [done|]. cbn [find_char].
  destruct (ascii_is x c) eqn:E; [intros [= <-]; cbn; by rewrite E|].
  destruct (find_char c s) as [j|]; [|done]. intros [= <-]. by apply IH.
Qed.

Lemma rfind_none c s : rfind c s = None <-> find_char c s = None.
Proof.
  induction s as [|x s IH]; [done|]. cbn. destruct (ascii_is x c), (rfind c s), (find_char c s); cbn in *; intuition congruence.
Qed.

(** After the last separator there is none. *)
Lemma rfind_drop c s n :
  (n <= length s)%nat -> (n = 0%nat ∨ ∃ m, n = S m ∧ find_char c (drop m s) = Some 0%nat) ->
  find_char c (drop n s) = None -> n = match rfind c s with Some i => S i | None => 0%nat end.
Proof.
  revert n. induction s as [|x s IH]; intros n Hn [->|(m & -> & Hm)] Hf; cbn [length] in *; try lia.
  - done.
  - rewrite (proj2 (rfind_none c (x :: s)) Hf). done.
  - cbn [drop] in Hf. cbn [rfind]. destruct m as [|m].
    + rewrite drop_0 in Hf. rewrite (proj2 (rfind_none c s) Hf). cbn in Hm. destruct (ascii_is x c); [done|].
      by destruct (find_char c s).
    + pose proof (IH (S m) ltac:(lia) (or_intror (ex_intro _ m (conj eq_refl Hm))) Hf).
      destruct (rfind c s); [lia|done].
Qed.

Lemma field_loop_path path n fuel m v :
  (length path < n + fuel)%nat -> (n <= length path)%nat ->
  (n = 0%nat ∨ ∃ k, n = S k ∧ find_char "." (drop k path) = Some 0%nat) ->
  path_value m (split_on "." (drop n path)) = Some v ->
  ∃ sub f, field_loop fuel path n (find_from "." path n) m = Ok sub
    ∧ FindFieldByName sub (drop (match rfind "." path with Some i => S i | None => 0%nat end) path) = Some f
    ∧ v = GetProtoNumberField (field_type f) sub (field_number f).
Proof.
  revert n m. induction fuel as [|fuel IH]; intros n m Hfu Hn Hsep; [lia|]. unfold find_from.
  rewrite split_on_find. destruct (find_char "." (drop n path)) as [i|] eqn:E; cbn [fmap option_fmap option_map].
  - pose proof (find_char_spec _ _ _ E) as Hi. rewrite length_drop in Hi. cbn [path_value field_loop].
    replace (n + i - n)%nat with i by lia. rewrite drop_drop.
    destruct (split_on "." (drop (n + S i) path)) as [|p ps] eqn:Es.
    { by apply split_on_ne in Es. }
    destruct (FindFieldByName m _) as [f|]; cbn [mbind option_bind]; [|done]. destruct (cpp_type f); try done.
    replace (n + S i)%nat with (S (n + i)) in Es by lia. intros Hp.
    apply (IH (S (n + i))%nat); [lia..| |by rewrite Es].
    right. eexists. split; [done|]. apply find_char_at in E. by rewrite <- drop_drop.
  - cbn [path_value field_loop]. rewrite <- (rfind_drop "." path n) by done.
    destruct (FindFieldByName m (drop n path)) as [f|] eqn:Ef; [|done]. cbn. intros [= <-]. eauto.
Qed.

Lemma GetField_path m item v : item_value m item = Some v -> GetField m item = Ok v.
Proof.
  intros H. destruct (field_loop_path item 0 (S (length item)) m v) as (sub & f & E & Ef & ->); [lia..|by left|done|].
  unfold GetField. unfold find_from in E. rewrite drop_0 in E.
  replace ((λ i, (0 + i)%nat) <$> find_char "." item) with (find_char "." item) in E by by destruct (find_char _ _).
  rewrite E. cbn. by rewrite Ef.
Qed.

(** ** Printing a row *)

Definition cell (x : D) : str := fmt x ++ [COMMA].

(** The buffer after printing [text]: all of it but what replaces the terminator. *)
Definition row_is (text : str) (row : str * nat) : Prop :=
  length row.1 = BUF_LEN ∧ row.2 = length text
  ∧ take (length text `min` (BUF_LEN - 1)) row.1 = take (length text `min` (BUF_LEN - 1)) text.

Lemma BUF_LEN_pos : (0 < BUF_LEN)%nat.
Proof. unfold BUF_LEN. lia. Qed.

Lemma snprintf_row text buf index t :
  row_is text (buf, index) -> (index <= BUF_LEN)%nat ->
  row_is (text ++ t) ((snprintf buf index (BUF_LEN - index) t).1, (index + length t)%nat).
Proof.
  intros (Hl & Hi & Ht) Hle. cbn [fst snd] in *. unfold snprintf. pose proof BUF_LEN_pos as HB.
  destruct (BUF_LEN - index)%nat as [|room] eqn:E; unfold row_is; cbn [fst snd]; rewrite (length_app text t).
  - replace ((length text + length t) `min` (BUF_LEN - 1))%nat with (length text `min` (BUF_LEN - 1))%nat by lia.
    split_and!; [done|lia|]. rewrite Ht. rewrite take_app_le by lia. done.
  - replace (length text `min` (BUF_LEN - 1))%nat with index in Ht by lia. rewrite Ht.
    rewrite (take_ge text) by lia. split_and!; [|lia|].
    + repeat rewrite ?length_app, ?length_take, ?length_drop. cbn [length]. lia.
    + replace ((length text + length t) `min` (BUF_LEN - 1))%nat with (length text + length (take room t))%nat
        by (rewrite length_take; lia).
      rewrite !take_app_add. f_equal. rewrite take_app_length, length_take.
      destruct (Nat.le_ge_cases room (length t)); [by rewrite Nat.min_l|by rewrite Nat.min_r, !take_ge by lia].
Qed.

Lemma print_items_spec xs : forall text row,
  row_is text row ->
  (∃ row', print_items row xs = Ok row' ∧ row_is (text ++ concat (cell <$> xs)) row')
  ∨ (print_items row xs = Err RowOverflow ∧ (BUF_LEN < length (text ++ concat (cell <$> xs)))%nat).
Proof.
  induction xs as [|x xs IH]; intros text [buf index] Hr.
  { left. eexists. split; [done|]. by rewrite app_nil_r. }
  cbn [print_items print_item fmap list_fmap concat]. destruct (Nat.ltb_spec BUF_LEN index) as [Hb|Hb].
  - right. split; [done|]. destruct Hr as (_ & Hi & _). cbn in Hi. rewrite length_app. lia.
  - pose proof (snprintf_row text buf index (cell x) Hr Hb) as Hs. fold (cell x).
    destruct (snprintf buf index (BUF_LEN - index) (cell x)) as [buf' n] eqn:E.
    assert (n = length (cell x)) as -> by (unfold snprintf in E; by destruct (BUF_LEN - index)%nat; simplify_eq).
    cbn [rbind]. rewrite app_assoc. by apply IH.
Qed.

Lemma cells_row x xs : concat (cell <$> (x :: xs)) = (fmt x ++ commas (fmt <$> xs)) ++ [COMMA].
Proof.
  revert x. induction xs as [|y xs IH]; intros x; [unfold cell, commas; cbn; by rewrite !app_nil_r|].
  rewrite fmap_cons. cbn [concat]. rewrite IH. unfold cell, commas. rewrite <- !app_assoc. cbn. by rewrite <- !app_assoc.
Qed.

(** A row that fits is written whole; any other one is an access outside the buffer. *)
Lemma Csv_Iterate_spec now s :
  length stack = BUF_LEN ->
  let time := ndiv (nofZ now) (nofZ 1000000000) in
  let running := nltb start_csv time || running_ s in
  Csv_Iterate now s =
    if (BUF_LEN <? length (print_row (time :: data_ s)))%nat then Err RowOverflow
    else Ok (MkCsv (data_ s) (data_indices_ s) running
               (file_ s ++ if running then print_row (time :: data_ s) else [])).
Proof.
  intros Hs time running. unfold Csv_Iterate. fold time.
  replace (if nltb start_csv time then true else running_ s) with running
    by (unfold running; by destruct (nltb start_csv time)).
  assert (length (print_row (time :: data_ s)) = length (concat (cell <$> (time :: data_ s)))) as El.
  { rewrite cells_row. cbn [print_row]. rewrite app_assoc, !length_app. done. }
  destruct (print_items_spec (time :: data_ s) [] (stack, 0%nat)) as [([buf index] & E & H)|[E H]].
  { split_and!; done. }
  - cbn [print_items] in E. destruct (print_item (stack, 0%nat) time) as [row|e]; [|done]. cbn [rbind] in *.
    rewrite E. cbn [rbind]. rewrite app_nil_l in H. destruct H as (Hl & Hi & Ht). cbn [fst snd] in *.
    rewrite El, <- Hi. destruct (Nat.ltb_spec BUF_LEN index); [done|]. do 2 f_equal. destruct running; [|by rewrite app_nil_r].
    f_equal. rewrite cells_row in Hi, Ht. cbn [print_row]. rewrite app_assoc.
    set (b := fmt time ++ commas (fmt <$> data_ s)) in *. rewrite length_app in *. cbn [length] in *.
    assert (take (index - 1) buf = b) as Eb.
    { apply (f_equal (take (index - 1))) in Ht. rewrite !take_take in Ht.
      rewrite Nat.min_l in Ht by lia. rewrite Ht. replace (index - 1)%nat with (length b) by lia. apply take_app_length. }
    replace index with (S (index - 1)) at 1 by lia.
    rewrite (take_S_r _ _ NEWLINE) by (apply list_lookup_insert_eq; lia). by rewrite take_insert_ge, Eb by lia.
  - rewrite El. cbn [app] in H. rewrite (proj2 (Nat.ltb_lt _ _) H). cbn [print_items] in E.
    destruct (print_item (stack, 0%nat) time) as [row|e]; cbn [rbind] in *; [by rewrite E|by injection E as ->].
Qed.

(** ** The node keeps the table *)

Record csv_rep (head : str) (cols : list str) (s : CsvLogger) (t : Table) : Prop := {
  rep_data : data_ s = (λ c, default (nofZ 0) (latest t !! c)) <$> cols;
  rep_indices i c : cols !! i = Some c -> data_indices_ s !! c = Some i;
  rep_running : running_ s = recording t;
  rep_file : file_ s = head ++ concat (print_row <$> rows t);
}.

(** The columns of the constructor, for those before. *)
Lemma csv_columns data : forall head done s fields,
  NoDup (done ++ data.*1) -> csv_rep head done s (table_init) ->
  let '(s', fields') := fold_left (λ s d, csv_column d s) data (s, fields) in
  csv_rep (head ++ commas data.*2) (done ++ data.*1) s' table_init
  ∧ ∀ name, default [] (fields' !! name) = default [] (fields !! name) ++ filter (λ c, msg_name c = name) data.*1.
Proof.
  induction data as [|[c n] data IH]; intros head cs s fields Hn Hr.
  { cbn. unfold commas. cbn. rewrite !app_nil_r. split; [done|]. intros. by rewrite app_nil_r. }
  cbn [fold_left csv_column fst snd]. destruct Hr as [Hd Hi Hg Hf].
  specialize (IH (head ++ COMMA :: n) (cs ++ [c])
    (MkCsv (data_ s ++ [nofZ 0]) (<[c := length (data_ s)]> (data_indices_ s)) (running_ s) (file_ s ++ [COMMA] ++ n))
    (<[msg_name c := default [] (fields !! msg_name c) ++ [c]]> fields)).
  rewrite <- !app_assoc in IH. rewrite !fmap_cons in *. cbn [fst snd] in *.
  destruct (fold_left _ _ _) as [s' f']. destruct IH as [H1 H2].
  - done.
  - split; cbn [data_ data_indices_ running_ file_].
    + rewrite Hd, fmap_app. cbn. by rewrite lookup_empty.
    + intros i c' [Hc|[Hle Hc]]%lookup_app_Some.
      * rewrite lookup_insert_ne; [by apply Hi|]. intros ->. apply NoDup_app in Hn as (_ & Hn & _).
        apply (Hn c'); [by eapply list_elem_of_lookup_2|left].
      * apply list_lookup_singleton_Some in Hc as [E ->]. rewrite lookup_insert_eq. f_equal.
        rewrite Hd, length_fmap. lia.
    + done.
    + rewrite Hf. cbn. by rewrite !app_nil_r.
  - split; [exact H1|]. intros name. rewrite H2. destruct (decide (msg_name c = name)) as [<-|Hne].
    + rewrite lookup_insert_eq, filter_cons_True by done. cbn. by rewrite <- app_assoc.
    + by rewrite lookup_insert_ne, filter_cons_False.
Qed.

Lemma length_commas_le texts w : Forall (λ t, (length t <= w)%nat) texts -> (length (commas texts) <= (w + 1) * length texts)%nat.
Proof.
  unfold commas. induction 1 as [|t texts Ht _ IH]; [cbn; lia|]. cbn in *. rewrite length_app. lia.
Qed.

Section Run.
Hypothesis stack_size : length stack = BUF_LEN.
(** The longest text of a binary64 number: a sign, 309 digits, a point and six digits. *)
Hypothesis fmt_width : ∀ x, (length (fmt x) <= 317)%nat.

Lemma row_fits x xs : (length xs <= 124)%nat -> (length (print_row (x :: xs)) <= BUF_LEN)%nat.
Proof.
  intros Hl. cbn [print_row]. rewrite !length_app. pose proof (fmt_width x).
  pose proof (length_commas_le (fmt <$> xs) 317) as Hc. rewrite length_fmap in Hc.
  assert (Forall (λ t, (length t <= 317)%nat) (fmt <$> xs)) as Hw by (apply Forall_fmap, Forall_true; auto).
  specialize (Hc Hw). unfold BUF_LEN. cbn [length]. lia.
Qed.

Lemma csv_step_rep head cols e s t :
  (length cols <= 124)%nat -> NoDup cols -> event_ok cols e -> csv_rep head cols s t ->
  ∃ s', csv_step e s = Ok s' ∧ csv_rep head cols s' (table_step cols t e).
Proof.
  intros Hl Hn He [Hd Hi Hg Hf]. destruct e as [m item|now| |]; cbn [csv_step table_step event_ok] in *.
  - destruct He as [[i Hc]%list_elem_of_lookup_1 [v Hv]]. unfold ProcessItem. rewrite (GetField_path _ _ _ Hv). cbn [rbind].
    rewrite (Hi _ _ Hc). assert (i < length (data_ s))%nat as Hlt.
    { rewrite Hd, length_fmap. by eapply lookup_lt_Some. }
    rewrite (proj2 (Nat.ltb_lt _ _) Hlt). eexists. split; [done|]. split; cbn [data_ data_indices_ running_ file_ latest recording rows]; try done.
    rewrite Hd, Hv. apply list_eq. intros j. rewrite list_lookup_fmap. destruct (decide (i = j)) as [<-|Hne].
    + rewrite list_lookup_insert_eq by by rewrite Hd in Hlt. rewrite Hc. cbn. by rewrite lookup_insert_eq.
    + rewrite list_lookup_insert_ne, list_lookup_fmap by done. destruct (cols !! j) as [c|] eqn:Ec; [|done]. cbn.
      rewrite lookup_insert_ne; [done|]. intros <-. apply Hne. by eapply NoDup_lookup.
  - rewrite (Csv_Iterate_spec now s stack_size). cbv zeta.
    rewrite (proj2 (Nat.ltb_ge _ _) (row_fits _ (data_ s) ltac:(by rewrite Hd, length_fmap))). eexists. split; [done|].
    split; cbn [data_ data_indices_ running_ file_ latest recording rows]; try done; [by rewrite Hg|].
    rewrite Hf, Hg, Hd, fmap_app, concat_app, <- app_assoc. do 2 f_equal.
    destruct (nltb start_csv _ || recording t); [|done]. cbn [fmap list_fmap concat]. by rewrite app_nil_r.
  - eexists. split; [done|]. by split.
  - eexists. split; [done|]. by split.
Qed.

Lemma csv_run_rep head cols evs : forall s t,
  (length cols <= 124)%nat -> NoDup cols -> Forall (event_ok cols) evs -> csv_rep head cols s t ->
  ∃ s', csv_run evs s = Ok s' ∧ csv_rep head cols s' (fold_left (table_step cols) evs t).
Proof.
  induction evs as [|e evs IH]; intros s t Hl Hn He Hr; [by exists s|].
  apply Forall_cons in He as [He Hes]. destruct (csv_step_rep head cols e s t Hl Hn He Hr) as (s1 & E & Hr1).
  cbn [csv_run fold_left]. rewrite E. cbn [rbind]. by apply IH.
Qed.

(** The file of the table logger is the table of the run, for every interleaving of its
    threads: a header with the names of the columns, then, for each period while it
    runs, the time and the latest value stored for each column, zero before the first, each
    value found by following the field's path through the message.  The thread of a queue
    stores the fields with its name, in order.  Rows of up to 124 columns never leave the
    buffer. *)
Theorem csv_file_is_table (data : list (str * str)) (evs : list csv_event) :
  (length data <= 124)%nat -> NoDup data.*1 -> Forall (event_ok data.*1) evs ->
  let '(s0, fields) := CsvLogger_init data in
  (∀ name, default [] (fields !! name) = filter (λ c, msg_name c = name) data.*1)
  ∧ ∃ s, csv_run evs s0 = Ok s
      ∧ file_ s = print_header data ++ concat (print_row <$> rows (fold_left (table_step data.*1) evs table_init)).
Proof.
  intros Hl Hn He. unfold CsvLogger_init.
  pose proof (csv_columns data (chars "#Time") [] (MkCsv [] ∅ (neqb start_csv (nofZ 0)) (chars "#Time")) ∅ Hn) as Hc.
  destruct (fold_left _ data _) as [s0 fields]. destruct Hc as [[Hd Hi Hg Hf] Hq].
  { by split. }
  split; [intros name; by rewrite Hq, lookup_empty|].
  destruct (csv_run_rep (print_header data) data.*1 evs
    (MkCsv (data_ s0) (data_indices_ s0) (running_ s0) (file_ s0 ++ [NEWLINE])) table_init) as (s & E & [_ _ _ Hs]).
  - by rewrite length_fmap.
  - done.
  - done.
  - split; cbn [data_ data_indices_ running_ file_]; try done.
    rewrite Hf. unfold print_header. cbn [table_init rows fmap list_fmap concat]. by rewrite !app_nil_r, <- app_assoc.
  - by exists s.
Qed.
End Run.
End Csv.

(** ** The tools that replay a log *)

Section ReplayTools.
Context {D : Type} {ND : Num D}.
#[local] Open Scope num_scope.

(** [Pong] of log-replay-main.cc: the seconds since midnight, whether the lines of the
    rate-of-turn test are printed, and the lines printed. *)
Record Pong := MkPong {
  pong_time : Z;
  print_air_ : bool;
  pong_lines : list (Z * Z * D);
}.

Definition Pong_init : Pong := MkPong 0 false [].

(** can126992; [time] is [sys_time().time()], when the message has it: only the log line
    depends on that. *)
Definition handle_sys_time (time : option Z) (s : Pong) : Pong :=
  MkPong (nint (nofZ (default 0%Z time) * dec 1 4)) (print_air_ s) (pong_lines s).

(** can65283: the two words of the actuator board's debug message. *)
Definition handle_debug_scamp (d1 d2 : Z) (s : Pong) : Pong :=
  let tms := Z.land d1 0xFFFF in
  let enct := wraps 16 (Z.shiftr d1 16) in
  let airmar := nfloat (dec 1 7 / #32 * nofZ (wraps 32 (wrapu 32 (Z.shiftl (Z.land d2 0xFFFF) 16)))) in
  if print_air_ s then MkPong (pong_time s) (print_air_ s) (pong_lines s ++ [(tms, enct, airmar)]) else s.

Definition handle_ping (a : D) (s : Pong) : Pong :=
  if nabs (a - dec 15 1) <? dec 1 5 then MkPong (pong_time s) true (pong_lines s)
  else if nabs (a - dec 159 2) <? dec 1 5 then MkPong (pong_time s) false (pong_lines s)
  else s.

(** [FLAGS_start_time] is an argument; the sleep only slows the replay down. *)
Definition Pong_Iterate (start_time : Z) (s : Pong) (csv : CsvLogger) : CsvLogger (D := D) :=
  if ((start_time <? pong_time s) && (pong_time s <? 184000))%Z then Start csv else csv.

(** [Pong] of logsim_main.cc: the logged sail position is the simulated sail's command. *)
Definition logsim_handle_boat_state (msg : BoatState D) : SailCmd D :=
  set_sail_pos (Some (default #0 (sail (internal msg)))) SailCmd_clear.

Lemma wraps_residue w z : (1 <= w)%Z -> (- 2 ^ (w - 1) <= z < 2 ^ (w - 1))%Z -> wraps w (z mod 2 ^ w) = z.
Proof.
  intros Hw Hz. assert (eqm w (z mod 2 ^ w) z) as -> by (unfold eqm; apply Zmod_mod). by apply wraps_small.
Qed.

(** The words packed from a time, an encoder count and a rate of turn are printed as these,
    the rate in the board's units, while the test runs. *)
Theorem debug_scamp_unpacks (t e a rest : Z) (s : Pong) :
  print_air_ s = true -> (0 <= t < 2 ^ 16 -> - 2 ^ 15 <= e < 2 ^ 15 -> - 2 ^ 15 <= a < 2 ^ 15 ->
  pong_lines (handle_debug_scamp (t + 2 ^ 16 * (e mod 2 ^ 16)) (a mod 2 ^ 16 + 2 ^ 16 * rest) s)
  = pong_lines s ++ [(t, e, nfloat (dec 1 7 / #32 * nofZ (2 ^ 16 * a)%Z)%num)])%Z.
Proof.
  intros Hs Ht He Ha. unfold handle_debug_scamp. rewrite Hs. cbn [pong_lines]. change 0xFFFF%Z with (Z.ones 16).
  rewrite !Z.land_ones, Z.shiftr_div_pow2, Z.shiftl_mul_pow2 by lia. do 2 f_equal.
  assert ((t + 2 ^ 16 * (e mod 2 ^ 16)) mod 2 ^ 16 = t)%Z as ->
    by (rewrite Z.mul_comm, Z_mod_plus_full; by apply Z.mod_small).
  assert ((t + 2 ^ 16 * (e mod 2 ^ 16)) / 2 ^ 16 = e mod 2 ^ 16)%Z as ->
    by (rewrite Z.mul_comm, Z.div_add, Z.div_small; lia).
  rewrite wraps_residue by lia. do 4 f_equal.
  assert ((a mod 2 ^ 16 + 2 ^ 16 * rest) mod 2 ^ 16 = a mod 2 ^ 16)%Z as ->
    by (rewrite Z.mul_comm, Z_mod_plus_full; apply Zmod_mod).
  unfold wrapu. rewrite <- (wraps_residue 32 (2 ^ 16 * a)) by lia. f_equal.
  change (2 ^ 32)%Z with (2 ^ 16 * 2 ^ 16)%Z. rewrite (Z.mul_comm _ a), !Z.mul_mod_distr_r by lia. by rewrite Zmod_mod.
Qed.
End ReplayTools.


(** ** A run *)

(** A message with a submessage [wind] and a number [x] in it. *)
Module TableExample.
#[local] Existing Instance num_poly.

Abbreviation msg := (gmap Z (PVal float)).
Inductive fld := Wind | X.

#[local] Instance refl : Reflection msg fld := {|
  empty_entry := ∅;
  parse_entry _ := None;
  FindFieldByName _ name := if bool_decide (name = chars "wind") then Some Wind
                            else if bool_decide (name = chars "x") then Some X else None;
  HasField _ _ := true;
  cpp_type f := match f with Wind => CPPTYPE_MESSAGE | X => CPPTYPE_NUMBER end;
  GetMessage m _ := m;
  MessageToJson _ := [];
  GetString _ _ := [];
  print_number _ _ := [];
  json_entry _ _ := None;
|}.
#[local] Instance numbers : NumberField fld := {|
  field_type f := match f with Wind => TYPE_MESSAGE | X => TYPE_DOUBLE end;
  field_number _ := 1;
|}.

Definition digit (x : float) : str := if nltb x 1%float then chars "0" else chars "1".
Definition table_cols : list (str * str) := [(chars "wind.x", chars "Wind X")].
Definition gust : msg := <[1 := VReal 2%float]> ∅.
Definition table_events : list csv_event :=
  [CsvTick 5; CsvStore gust (chars "wind.x"); CsvTick 2000000000; CsvStop; CsvTick 5].
Definition run_table (cols : list (str * str)) : result CsvErr CsvLogger :=
  csv_run digit 0%float (repeat NUL BUF_LEN) table_events (CsvLogger_init 0%float cols).1.

Lemma csv_file_witness :
  ∃ s, run_table table_cols = Ok s
    ∧ file_ s = print_header table_cols
        ++ concat (print_row digit <$> rows (fold_left (table_step 0%float table_cols.*1) table_events (table_init 0%float))).
Proof.
  assert (∀ x, (length (digit x) <= 317)%nat) as Hw by (intros x; unfold digit; destruct (nltb x _); cbn; lia).
  assert (Forall (event_ok table_cols.*1) table_events) as He.
  { repeat (apply Forall_cons_2; [cbn; try done|]); [|apply Forall_nil_2]. split; [left|by eexists]. }
  pose proof (csv_file_is_table digit 0%float (repeat NUL BUF_LEN) (repeat_length _ _) Hw table_cols table_events
    ltac:(cbn; lia) (NoDup_singleton _) He) as H.
  unfold run_table. destruct (CsvLogger_init 0%float table_cols) as [s0 fields]. apply H.
Defined.

Definition file_text (r : result CsvErr CsvLogger) : str := match r with Ok s => file_ (D := float) s | Err _ => [] end.

(** A column given twice has one index, and its first place stays zero; and stopping the
    logger has no effect, since the next period starts it again. *)
Lemma repeated_column_stays_zero :
  file_text (run_table (table_cols ++ table_cols))
  = print_header (table_cols ++ table_cols) ++ chars "0,0,0" ++ [NEWLINE] ++ chars "1,0,1" ++ [NEWLINE]
      ++ chars "0,0,1" ++ [NEWLINE].
Proof. vm_compute. reflexivity. Qed.
End TableExample.
