(* ===== verification/ActuatorBus.v ===== *)
(** * From the radio and the controllers to the actuator board

    The components of src/sensor/read-sbus.cc, src/control/scamp.cc and src/can/can.cc
    composed: a radio frame is decoded and handled by the actuator node, whose message on
    the queue can65282 the CAN node's handler turns into a frame on the bus. *)

From Stdlib Require Import ZArith Lia Reals Lra Floats.
From stdpp Require Import base list gmap relations.
From S2P Require Import Prelude Threads Num NumR NumF Vec Util Messages Pgn Can Scamp ScampThreads Sbus.

#[local] Open Scope Z_scope.

(** What is used of the arithmetic: every 32-bit integer is exact, and so is its division
    by one. *)
Class NumExact (D : Type) {ND : Num D} : Prop := {
  exact_one : nltb (nofZ 0) (nofZ 1) = true;
  exact_u32 z : 0 <= z < 2 ^ 32 -> ntrunc (ndiv (nofZ z) (nofZ 1)) = Some z;
}.

#[export] Instance num_exact_R : NumExact R.
Proof.
  split; simpl.
  - case_R; [done|lra].
  - intros z Hz. rewrite Rdiv_1_r. f_equal. unfold Rtrunc. destruct (Rlt_dec (IZR z) 0) as [H|_].
    + apply lt_IZR in H. lia.
    + apply Zfloor.ZfloorZ.
Qed.

Lemma wrapu_byte z : wrapu 32 z mod 256 = z mod 256.
Proof. apply Z.mod_mod_divide. by exists (2 ^ 24). Qed.

Section Bus.
Context {D : Type} {ND : Num D} {M : Type} {PM : ProtoMsg D M}.

(** [pwm_msg_] when it is sent: the flag set by the constructor and the fields set by
    [Iterate]. *)
Definition pwm_message (winch rudder ballast : Z) : CANMaster M :=
  MkCANMaster (Some true)
    {[ 65282 := pm_set (pm_set (pm_set pm_empty 1 (VInt winch)) 2 (VInt rudder)) 3 (VInt ballast) ]}.

(** The handler the CAN node registers for can65282. *)
Definition bus_frame (id0 : CANID) (frame0 : can_frame) (o : ScampOut D) : result CanErr (option can_frame) :=
  match o with
  | OutPwm w r b => SendMessage id0 frame0 (CanNode_msgs (M := M) pgnList) (pwm_message w r b) 65282
  | _ => Ok None
  end.

(** The data of an actuator frame. *)
Definition pwm_bytes (w r b : Z) : list Z := [w mod 256; r mod 256; b mod 256] ++ repeat 0xFF 5.

Lemma pwm_in_table :
  CanNode_msgs (M := M) pgnList !! 65282 = Some (CANMessage_new pgn_PWM_Write (MkCANMaster None ∅)).
Proof. reflexivity. Qed.

(** An integer that the encoding of a field with resolution one keeps. *)
Definition exact_int (z : Z) : Prop := 0 <= z < 2 ^ 32 ∧ ntrunc (ndiv (nofZ z : D) (nofZ 1)) = Some z.

Lemma pwm_field (m : M) k z :
  (k = 1 ∨ k = 2 ∨ k = 3) -> pm_get m k = Some (VInt z) -> GetProtoNumberFieldById PWMWrite m k = nofZ z.
Proof. intros [->|[->| ->]] E; unfold GetProtoNumberFieldById, GetProtoNumberField; simpl; by rewrite E. Qed.

Lemma exact_wire z : exact_int z -> to_integer (in_u 64) (ndiv (nofZ z : D) (nofZ 1)) = Ok z.
Proof.
  intros [Hz E]. unfold to_integer, in_u. rewrite E.
  destruct (Z.leb_spec 0 z); [|lia]. destruct (Z.ltb_spec z (2 ^ 64)); [done|lia].
Qed.

Lemma pwm_wire w r b :
  exact_int w -> exact_int r -> exact_int b ->
  wire_values PWMWrite (default pm_empty (submsg (pwm_message w r b) !! 65282)) (fieldList pgn_PWM_Write) 0 = Ok [w; r; b].
Proof.
  intros Hw Hr Hb. unfold pwm_message. cbn [submsg]. rewrite lookup_singleton_eq. cbn [default from_option id].
  unfold pgn_PWM_Write. cbn [fieldList wire_values resolution].
  change (0 + 1) with 1. change (1 + 1) with 2. change (2 + 1) with 3.
  rewrite (pwm_field _ 1 w), (pwm_field _ 2 r), (pwm_field _ 3 b) by
    first [by auto | unfold Datatypes.id; rewrite ?pm_get_set_ne by done; by rewrite pm_get_set].
  by rewrite !exact_wire.
Qed.

(** A message of the actuator node becomes one frame with a byte per actuator. *)
Lemma pwm_frame id0 frame0 w r b :
  CANID_ok id0 -> length (fdata frame0) = 8%nat -> nltb (nofZ 0 : D) (nofZ 1) = true ->
  exact_int w -> exact_int r -> exact_int b ->
  ∃ frame, bus_frame id0 frame0 (OutPwm w r b) = Ok (Some frame)
    ∧ can_dlc frame = 8 ∧ frame_pgn frame = 65282 ∧ fdata frame = pwm_bytes w r b.
Proof.
  intros Hid Hl H1 Hw Hr Hb. unfold bus_frame, SendMessage. cbn [outgoing_value outgoing pwm_message default from_option id negb].
  rewrite pwm_in_table.
  destruct (ConstructMessage_frame id0 frame0 (pwm_message w r b)
    (CANMessage_new pgn_PWM_Write (MkCANMaster None ∅)) PWMWrite [w; r; b]) as (frame & E & H8 & _ & Hp & Hd); try done.
  - cbn [CANMessage_new cm_pgn]. unfold pgnList. by repeat (first [left | right]).
  - cbn [CANMessage_new cm_pgn pgn_PWM_Write fieldList forallb]. unfold sendable. cbn [fsize resolution].
    by rewrite !H1.
  - by apply pwm_wire.
  - exists frame. by rewrite Hd.
Qed.

(** The frame of an iteration of the actuator node. *)
Lemma iterate_frame id0 frame0 (s : SCAMP D) :
  CANID_ok id0 -> length (fdata frame0) = 8%nat -> nltb (nofZ 0 : D) (nofZ 1) = true ->
  (let s' := Scamp_Iterate s in
   exact_int (wrapu 32 (raw_winch_ s')) ∧ exact_int (wrapu 32 (raw_rudder_ s')) ∧ exact_int (wrapu 32 (raw_ballast_ s'))) ->
  ∃ o frame, scamp_out (Scamp_Iterate s) = scamp_out s ++ [o; OutZeroing (zero_consts_ s)]
    ∧ bus_frame id0 frame0 o = Ok (Some frame) ∧ can_dlc frame = 8 ∧ frame_pgn frame = 65282
    ∧ let s' := Scamp_Iterate s in
      fdata frame = pwm_bytes (raw_winch_ s') (raw_rudder_ s') (raw_ballast_ s').
Proof.
  intros Hid Hl H1. unfold Scamp_Iterate. cbv zeta. intros (Xw & Xr & Xb).
  set (s1 := if IsAuto WINCH s || _ || _ then _ else s) in *.
  assert (scamp_out s1 = scamp_out s ∧ zero_consts_ s1 = zero_consts_ s) as [Eo Ez]
    by (unfold s1; by destruct (IsAuto WINCH s || _ || _)).
  destruct (pwm_frame id0 frame0 (wrapu 32 (raw_winch_ s1)) (wrapu 32 (raw_rudder_ s1)) (wrapu 32 (raw_ballast_ s1)))
    as (frame & E & H8 & Hp & Hd); try done.
  exists (OutPwm (wrapu 32 (raw_winch_ s1)) (wrapu 32 (raw_rudder_ s1)) (wrapu 32 (raw_ballast_ s1))), frame.
  split_and!; try done.
  - cbn [scamp_send set_scamp_out scamp_out zero_consts_]. by rewrite Eo, Ez, <- app_assoc.
  - rewrite Hd. unfold pwm_bytes. cbn [scamp_send set_scamp_out raw_winch_ raw_rudder_ raw_ballast_].
    by rewrite !wrapu_byte.
Qed.
End Bus.

(** ** Disabled actuators *)

Section Disabled.
Context {D : Type} {ND : Num D} {NE : NumExact D} {M : Type} {PM : ProtoMsg D M}.

Lemma wrapu_exact z : exact_int (D := D) (wrapu 32 z).
Proof. pose proof (wrapu_range 32 z ltac:(lia)). split; [done|]. by apply exact_u32. Qed.

End Disabled.

(** ** Manual control by radio *)

Section Radio.
Context {D : Type} {ND : Num D}.

(** Every event but a change of modes and another radio message. *)
Definition quiet (e : ScampEvent D) : bool :=
  match e with SEvControlMode _ | SEvSbus _ => false | _ => true end.

(** Rudder and winch are under manual radio control, the ballast is disabled. *)
Definition manual (w r : Z) (s : SCAMP D) : Prop :=
  rudder_mode_ s = MANUAL_RC ∧ winch_mode_ s = MANUAL_RC ∧ ballast_mode_ s = DISABLE
  ∧ raw_winch_ s = w ∧ raw_rudder_ s = r ∧ raw_ballast_ s = 90.

Lemma quiet_step e s w r : quiet e = true -> manual w r s -> ∃ s', scamp_step e s = Ok s' ∧ manual w r s'.
Proof.
  intros Hq Hm. pose proof Hm as (Er & Ew & Eb & _). destruct e as [m|v|b|[] c|[] c|[] c|ch|b|m|]; try done; simpl;
    eexists; (split; [done|]).
  - unfold handle_zeroing. by destruct (default false _).
  - done.
  - by destruct b.
  - unfold handle_manual_sail_cmd. by destruct (IsManualWiFi _ _).
  - unfold handle_sail_cmd. by destruct (IsAuto _ _).
  - unfold handle_manual_rudder_cmd, IsManualWiFi, GetMode. by rewrite Er.
  - unfold handle_rudder_cmd, IsAuto, GetMode. by rewrite Er.
  - unfold handle_manual_ballast_cmd, IsManualWiFi, GetMode. by rewrite Eb.
  - unfold handle_ballast_cmd, IsAuto, GetMode. by rewrite Eb.
  - done.
  - unfold Scamp_Iterate, IsAuto, IsManualWiFi, IsFilteredRC, GetMode. by rewrite Ew.
Qed.

Lemma quiet_run es s w r :
  forallb quiet es = true -> manual w r s -> ∃ s', scamp_run es s = Ok s' ∧ manual w r s'.
Proof.
  revert s. induction es as [|e es IH]; intros s; [by exists s|]. simpl. intros [He Hes]%andb_true_iff Hm.
  destruct (quiet_step e s w r He Hm) as (s' & -> & Hm'). by apply IH.
Qed.

Lemma manual_sbus ch (s : SCAMP D) c1 c3 :
  ch !! 1%nat = Some c1 -> ch !! 3%nat = Some c3 -> rudder_mode_ s = MANUAL_RC -> winch_mode_ s = MANUAL_RC ->
  handle_sbus_value ch s
  = Ok (set_raw_winch_ (SBUSToRaw (D := D) c1)
         (set_raw_rudder_ (nint (nadd (nmul (nsub (nofZ (SBUSToRaw (D := D) c3)) (nofZ 90)) (dec 5 1)) (nofZ 90))) s)).
Proof.
  destruct ch as [|? [|? [|? [|? ch]]]]; try done. intros [= ->] [= ->] Er Ew.
  unfold handle_sbus_value, IsManualRC, GetMode. rewrite Er. simpl. by rewrite Ew.
Qed.
End Radio.

Section RadioFloat.
Variable L : Libm.
#[local] Instance num_L : Num float := num_float L.

(** The servo value of a stick, in integers. *)
Definition radio_raw (c : Z) : Z := Z.quot (90 * c - 2070) 1000.

(** The arithmetic of [SBUSToRaw] and of the rudder's handler on one value. *)
Definition radio_exact (c : Z) : bool :=
  let raw := radio_raw c in
  let rudder := (raw + 90) / 2 in
  (SBUSToRaw (D := float) c =? raw)
  && (nint (D := float) (nadd (nmul (nsub (nofZ (SBUSToRaw (D := float) c)) (nofZ 90)) (dec 5 1)) (nofZ 90)) =? rudder)
  && (-2 <=? raw) && (raw <=? 182) && (44 <=? rudder) && (rudder <=? 136)
  && bool_decide (ntrunc (ndiv (nofZ (wrapu 32 raw) : float) (nofZ 1)) = Some (wrapu 32 raw))
  && bool_decide (ntrunc (ndiv (nofZ rudder : float) (nofZ 1)) = Some rudder).

(** All 2048 values, in binary64. *)
Lemma radio_exact_all : forallb radio_exact (Z.of_nat <$> seq 0 2048) = true.
Proof. vm_compute. reflexivity. Qed.

Lemma radio_exact_channel c :
  0 <= c < 2048 ->
  let raw := radio_raw c in
  let rudder := (raw + 90) / 2 in
  SBUSToRaw (D := float) c = raw
  ∧ nint (D := float) (nadd (nmul (nsub (nofZ raw) (nofZ 90)) (dec 5 1)) (nofZ 90)) = rudder
  ∧ -2 <= raw <= 182 ∧ 44 <= rudder <= 136
  ∧ exact_int (D := float) (wrapu 32 raw) ∧ exact_int (D := float) (wrapu 32 rudder).
Proof.
  intros Hc raw rudder. pose proof radio_exact_all as H. rewrite forallb_forall in H.
  assert (c ∈ Z.of_nat <$> seq 0 2048) as Hin.
  { apply list_elem_of_fmap. exists (Z.to_nat c). split; [lia|]. apply elem_of_seq. lia. }
  apply list_elem_of_In in Hin. specialize (H c Hin).
  unfold radio_exact in H. rewrite !andb_true_iff, !Z.eqb_eq, !Z.leb_le, !bool_decide_eq_true in H.
  fold raw in H. fold rudder in H. destruct H as (((((((E1 & E2) & ?) & ?) & ?) & ?) & X1) & X2).
  rewrite E1 in E2. rewrite (wrapu_small 32 rudder) by lia.
  split_and!; try done; split; try done; try lia. apply wrapu_range. lia.
Qed.

Lemma one_positive : nltb (nofZ 0 : float) (nofZ 1) = true.
Proof. vm_compute. reflexivity. Qed.

Lemma exact_neutral : exact_int (D := float) (wrapu 32 90).
Proof. split; [by vm_compute|]. vm_compute. reflexivity. Qed.

(** C16: Under manual control the radio alone decides what the actuators get: whatever the
    autopilot, the user interface and the sensors send after a radio frame was decoded, the
    next frame on the bus has the winch's byte from bits 11 to 21 of the radio frame and the
    rudder's from bits 33 to 43, as [radio_raw] says, the rudder's between 44 and 136.  It
    holds of binary64 arithmetic.  The lowest twelve positions of the winch's stick give
    the negative values -1 and -2, which the byte carries as 255 and 254. *)
Theorem radio_controls_bus {M : Type} {PM : ProtoMsg float M} (id0 : CANID) (frame0 : can_frame)
    (reads : list (option Z * bool)) (frame : list Z) (msg0 : SBUS) (s : SCAMP float) (es : list (ScampEvent float)) :
  CANID_ok id0 -> length (fdata frame0) = 8%nat ->
  find_start reads = true -> length frame = 24%nat -> Forall byte frame ->
  rudder_mode_ s = MANUAL_RC -> winch_mode_ s = MANUAL_RC -> ballast_mode_ s = DISABLE -> neutral s ->
  forallb quiet es = true ->
  let msg := fst (Sbus_Iterate reads frame msg0) in
  let c1 := bits (le_value frame) 11 11 in
  let c3 := bits (le_value frame) 33 11 in
  ∃ s' o fr, scamp_run (SEvSbus (sbus_channel msg) :: es) s = Ok s'
    ∧ scamp_out (Scamp_Iterate s') = scamp_out s' ++ [o; OutZeroing (zero_consts_ s')]
    ∧ bus_frame (M := M) id0 frame0 o = Ok (Some fr) ∧ frame_pgn fr = 65282
    ∧ fdata fr = pwm_bytes (radio_raw c1) ((radio_raw c3 + 90) / 2) 90
    ∧ 44 <= (radio_raw c3 + 90) / 2 <= 136
    ∧ (if c1 <? 12 then -2 <= radio_raw c1 <= -1 else 0 <= radio_raw c1 <= 182).
Proof.
  intros Hid Hl Hs Hlf Hb Er Ew Eb (_ & _ & Hn) Hq msg c1 c3.
  assert (sbus_channel msg = sbus_channels frame 0 16) as Ech
    by (unfold msg, Sbus_Iterate; by rewrite Hs, Hlf).
  assert (0 <= c1 < 2048) as H1 by (apply (bits_range (le_value frame) 11 11); lia).
  assert (0 <= c3 < 2048) as H3 by (apply (bits_range (le_value frame) 33 11); lia).
  destruct (radio_exact_channel c1 H1) as (S1 & _ & B1 & _ & X1 & _).
  destruct (radio_exact_channel c3 H3) as (S3 & R3 & _ & B3 & _ & X3).
  set (s1 := set_raw_winch_ (radio_raw c1) (set_raw_rudder_ ((radio_raw c3 + 90) / 2) s)).
  assert (handle_sbus_value (sbus_channel msg) s = Ok s1) as E1.
  { rewrite (manual_sbus _ s c1 c3), S1, S3, R3; try done; rewrite Ech;
      [exact (sbus_channel_bits frame 1 Hlf Hb ltac:(lia))|exact (sbus_channel_bits frame 3 Hlf Hb ltac:(lia))]. }
  destruct (quiet_run es s1 (radio_raw c1) ((radio_raw c3 + 90) / 2) Hq) as (s' & E & Hm).
  { split_and!; try done. by apply Hn. }
  destruct (quiet_step SEvIterate s' _ _ eq_refl Hm) as (s'' & [= <-] & (_ & _ & _ & Mw & Mr & Mb)).
  destruct (iterate_frame (M := M) id0 frame0 s' Hid Hl one_positive) as (o & fr & Eo & Ef & _ & Hp & Hd).
  { cbv zeta. rewrite Mw, Mr, Mb. split_and!; [exact X1|exact X3|exact exact_neutral]. }
  exists s', o, fr. cbv zeta in Hd. rewrite Mw, Mr, Mb in Hd.
  refine (conj _ (conj Eo (conj Ef (conj Hp (conj Hd (conj B3 _)))))).
  - cbn [scamp_run scamp_step]. by rewrite E1.
  - unfold radio_raw in *. destruct (Z.ltb_spec c1 12); split; Z.quot_rem_to_equations; lia.
Qed.
End RadioFloat.

(** ** Concrete runs *)

Definition bus_id : CANID := MkCANID 0 0 0 0 0 0 0 0.
Definition bus_frame0 : can_frame := MkFrame 0 0 (repeat 7 8).

(** The winch is set to control by radio, and then an iteration runs until it sends. *)
Definition winch_radio : ControlMode := MkControlMode (Some MANUAL_RC) None None None None.


(** Without that assumption a rudder command that has seen automatic control when the rudder is
    disabled leaves it away from its neutral value, with nothing under way that would
    correct it. *)
Definition rudder_set (m : MODE) : ScampEvent float := SEvControlMode (MkControlMode None None (Some m) None None).
Definition rudder_cmd : ScampEvent float := SEvRudder false (MkRudderCmd None (Some 1%float)).
Definition disable_turns : list (turn ScampThread (SCAMP float) ScampErr) :=
  let start i e := Start i (scamp_body (ND := num_poly) e) in
  [start ThControlMode (rudder_set AUTO)] ++ repeat (Next ThControlMode) 6
  ++ [start (ThRudder false) rudder_cmd; Next (ThRudder false); start ThControlMode (rudder_set DISABLE)]
  ++ repeat (Next ThControlMode) 7 ++ repeat (Next (ThRudder false)) 2.

Definition all_scamp_threads : list ScampThread :=
  [ThZeroing; ThPot; ThBallastState; ThSail true; ThSail false; ThRudder true; ThRudder false; ThBallast true;
   ThBallast false; ThSbus; ThConnection; ThControlMode; ThIterate].
Definition is_done {S E : Type} (t : thread S E) : bool := match t with Done => true | Act _ _ => false end.

Definition all_done (c : conf ScampThread (SCAMP float) ScampErr) : bool :=
  forallb (λ i, is_done (c_threads c i)) all_scamp_threads.

Lemma disable_run :
  (λ c, (all_done c, rudder_mode_ (c_state c), raw_rudder_ (c_state c)))
    <$> run_turns (idle (SCAMP_init (ND := num_poly) None)) disable_turns = Some (true, DISABLE, 147).
Proof. vm_compute. reflexivity. Qed.

Lemma start_ok (e : ScampEvent float) i :
  thread_of e = i -> sbus_ok e = true ->
  turn_ok (scamp_bodies (ND := num_poly)) (Start i (scamp_body (ND := num_poly) e)).
Proof. intros. by exists e. Qed.

Lemma disable_race :
  ∃ c, rtc (conf_step (scamp_bodies (ND := num_poly)) no_excl) (idle (SCAMP_init (ND := num_poly) None)) c
    ∧ (∀ i, c_threads c i = Done) ∧ rudder_mode_ (c_state c) = DISABLE ∧ raw_rudder_ (c_state c) = 147.
Proof.
  pose proof disable_run as H. destruct (run_turns _ disable_turns) as [c|] eqn:E; [|done]. injection H as Hd Hm Hr.
  exists c. split_and!; [|intros i|done|done].
  - apply (run_turns_steps _ _ disable_turns); [by intros i j []| |done].
    unfold disable_turns. cbv zeta. cbn [app repeat].
    apply Forall_cons_2; [by eapply start_ok|]. do 6 (apply Forall_cons_2; [exact I|]).
    apply Forall_cons_2; [by eapply start_ok|]. apply Forall_cons_2; [exact I|].
    apply Forall_cons_2; [by eapply start_ok|]. do 9 (apply Forall_cons_2; [exact I|]). apply Forall_nil_2.
  - unfold all_done in Hd. rewrite forallb_forall in Hd. specialize (Hd i). destruct (c_threads c i); [done|]. discriminate Hd.
    destruct i as [| | |[]|[]|[]| | | |]; cbn; tauto.
Qed.

(** Both sticks at zero and a rudder command that has no effect: the winch gets 254. *)
Lemma radio_controls_bus_witness :
  let s := set_rudder_mode_ MANUAL_RC (set_winch_mode_ MANUAL_RC (SCAMP_init (ND := num_poly) None)) in
  ∃ s' o fr, scamp_run (ND := num_poly)
      (SEvSbus (sbus_channel (fst (Sbus_Iterate [(Some 15, false)] (repeat 0 24) SBUS_init)))
       :: [SEvRudder false (MkRudderCmd None (Some 1%float)); SEvIterate]) s = Ok s'
    ∧ scamp_out (Scamp_Iterate (ND := num_poly) s') = scamp_out s' ++ [o; OutZeroing (zero_consts_ s')]
    ∧ bus_frame (ND := num_poly) (M := gmap Z (PVal float)) bus_id bus_frame0 o = Ok (Some fr)
    ∧ fdata fr = [254; 44; 90; 255; 255; 255; 255; 255].
Proof.
  intros s.
  destruct (radio_controls_bus libm_poly (M := gmap Z (PVal float)) bus_id bus_frame0 [(Some 15, false)] (repeat 0 24) SBUS_init s
    [SEvRudder false (MkRudderCmd None (Some 1%float)); SEvIterate])
    as (s' & o & fr & E & Eo & Ef & _ & Hd & _); try reflexivity.
  - unfold CANID_ok. simpl. lia.
  - simpl. repeat constructor; unfold byte; lia.
  - by split_and!.
  - exists s', o, fr. split_and!; try done. 
Defined.
