(* ===== verification/Boat.v ===== *)
(** * The programs of the boat, together

    The nodes that src/scripts/startup.sh starts and that are modelled elsewhere: radio
    receiver, waypoint manager, line planner, heading and sail control, ballast control,
    actuator node, state estimator and monitor.  Each is a [BoatNode]: what it does with a
    message or with a turn of its loop, and what it has published.  Between them are the
    queues: a handler may at any time get any message published so far on its queue, or a
    message from outside (the sensors on the CAN bus and the operator's web page).  What
    holds of every run is proved from what each node guarantees ([Guarantees]). *)

From Stdlib Require Import ZArith Lia Reals Lra.
From stdpp Require Import base list gmap relations.
From S2P Require Import Prelude Num NumR Vec Util Polygon Messages LineCost WaypointManager Ballast Scamp Simple StateEstimator Monitor Sbus LinePlan Pgn Can ActuatorBus.

#[local] Open Scope Z_scope.

(** A message, by the queue it is on. *)
Inductive BoatMsg (D : Type) :=
| MSbus (channels : list Z)                       (* sbus_value *)
| MControlMode (m : ControlMode)                  (* control_mode *)
| MHeadingCmd (m : HeadingCmd D)                  (* heading_cmd *)
| MSailCmd (manual : bool) (m : SailCmd D)        (* sail_cmd, manual_sail_cmd *)
| MRudderCmd (manual : bool) (m : RudderCmd D)    (* rudder_cmd, manual_rudder_cmd *)
| MBallastCmd (manual : bool) (m : BallastCmd D)  (* ballast_cmd, manual_ballast_cmd *)
| MRigidWingCmd (m : RigidWingCmd D)              (* rigid_wing_cmd *)
| MHeelCmd (h : D)                                (* heel_cmd *)
| MConsts (m : ControllerConstants D)             (* control_consts *)
| MZeroing (m : ZeroingConstants D)               (* zeroing_consts *)
| MInternal (m : InternalBoatState D)             (* internal_state *)
| MBoatState (m : BoatState D)                    (* boat_state *)
| MWind (w : vec3 D)                              (* wind *)
| MTrueWind (w : vec3 D)                          (* true_wind *)
| MTackerState (m : TackerState)                  (* tacker_state *)
| MWaypoints (m : WaypointList D)                 (* waypoints *)
| MObstacles (m : list (WaypointList D))          (* planner_obstacles *)
| MPlannerPoints (pts : list (vec2 D))            (* planner_points *)
| MChallenge (c : option ChallengeType)           (* challenge_control *)
| MVision (heading confidence : option D)         (* vision_data *)
| MSearchState (s : SearchSTATE)                  (* search_state *)
| MConnection (connected : bool)                  (* connection_status *)
| MRigidFeedback                                  (* rigid_wing_feedback *)
| MPwm (winch rudder ballast : Z)                 (* can65282 *)
| MStatus (s : SailbotStateMsg) (c : SailbotConnMsg) (* can65296, can65297 *)
| MVesselHeading (h : option D)                   (* can127250 *)
| MRateOfTurn (r : option D)                      (* can127251 *)
| MAttitude (pitch : option D)                    (* can127257 *)
| MPosition (lat lon : option D)                  (* can129025 *)
| MCogSog (cog sog : option D)                    (* can129026 *)
| MWindData (speed angle : option D) (ref : option WIND_REFERENCE) (* can130306 *)
| MAnalogPot (val : Z)                            (* can65281 *)
| MBallastState (heel ballast : option D).        (* can65285 *)
Arguments MSbus {D}. Arguments MControlMode {D}. Arguments MHeadingCmd {D}. Arguments MSailCmd {D}.
Arguments MRudderCmd {D}. Arguments MBallastCmd {D}. Arguments MRigidWingCmd {D}. Arguments MHeelCmd {D}.
Arguments MConsts {D}. Arguments MZeroing {D}. Arguments MInternal {D}. Arguments MBoatState {D}.
Arguments MWind {D}. Arguments MTrueWind {D}. Arguments MTackerState {D}. Arguments MWaypoints {D}.
Arguments MObstacles {D}. Arguments MPlannerPoints {D}. Arguments MChallenge {D}. Arguments MVision {D}.
Arguments MSearchState {D}. Arguments MConnection {D}. Arguments MRigidFeedback {D}. Arguments MPwm {D}.
Arguments MStatus {D}. Arguments MVesselHeading {D}. Arguments MRateOfTurn {D}. Arguments MAttitude {D}.
Arguments MPosition {D}. Arguments MCogSog {D}. Arguments MWindData {D}. Arguments MAnalogPot {D}.
Arguments MBallastState {D}.

(** What a step reads besides: the clock, twice, and the radio's serial port. *)
Record Env := MkEnv {
  now1 : Z;
  now2 : Z;
  serial_reads : list (option Z * bool);
  serial_frame : list Z;
}.

(** A message for a handler, or a turn of the node's loop. *)
Inductive input (D : Type) := Deliver (m : BoatMsg D) | Tick.
Arguments Deliver {D} _.
Arguments Tick {D}.

Inductive BoatErr := PlanFails (e : PlanErr) | SimpleFails (e : SimpleErr) | ScampFails (e : ScampErr).

Definition with_err {E E' A : Type} (f : E -> E') (r : result E A) : result E' A :=
  match r with Ok a => Ok a | Err e => Err (f e) end.

(** A program of the boat. *)
Class BoatNode (D S : Type) := {
  node_step : Env -> input D -> S -> result BoatErr S;
  node_out : S -> list (BoatMsg D);
}.

(** What a node guarantees in a boat whose messages satisfy [ok]: from states that satisfy
    [inv] it does not fail, stays in such states, and publishes such messages. *)
Class Guarantees {D S : Type} {BN : BoatNode D S} (ok : BoatMsg D -> Prop) (env_ok : Env -> Prop) (inv : S -> Prop) : Prop := {
  g_step env i s : inv s -> env_ok env -> (∀ m, i = Deliver m -> ok m) -> ∃ s', node_step env i s = Ok s' ∧ inv s';
  g_out s : inv s -> Forall ok (node_out s);
}.

(** ** The nodes *)

Section Nodes.
Context {D : Type} {ND : Num D} {EG : Eigen D}.
(** What uninitialised vectors hold, and the quaternion of three angles. *)
Variables (uninit : vec2 D) (quat : vec3 D -> D * D * D * D).
#[local] Open Scope result_scope.

(** The event of an input, if the node subscribes to its queue. *)
Definition wm_event (env : Env) (i : input D) : option (Event D) :=
  match i with
  | Deliver (MSbus ch) => Some (EvSbus ch)
  | Deliver (MTackerState m) => Some (EvTacker m)
  | Deliver (MChallenge c) => Some (EvChallenge c)
  | Deliver (MTrueWind w) => Some (WaypointManager.EvTrueWind w)
  | Deliver (MVision h c) => Some (EvVision h c)
  | Deliver (MBoatState m) => Some (WaypointManager.EvBoatState m)
  | Tick => Some (EvIterate (now1 env) (now2 env))
  | _ => None
  end.
Definition wm_msg (o : Out D) : BoatMsg D :=
  match o with OutControlMode m => MControlMode m | OutHeading m => MHeadingCmd m | OutSearch s => MSearchState s end.

#[export] Instance wm_node : BoatNode D (WM D) := {|
  node_step env i s := Ok (match wm_event env i with Some e => step e s | None => s end);
  node_out s := wm_msg <$> out s |}.

Definition plan_event (i : input D) : option (PlanEvent D) :=
  match i with
  | Deliver (MWaypoints m) => Some (EvWaypoints m)
  | Deliver (MObstacles m) => Some (EvObstacles m)
  | Deliver (MControlMode m) => Some (EvTackMode m)
  | Deliver (MBoatState m) => Some (LinePlan.EvBoatState m)
  | Deliver (MTrueWind w) => Some (LinePlan.EvTrueWind w)
  | Tick => Some EvPlanIterate
  | _ => None
  end.
Definition plan_msg (o : PlanOut D) : BoatMsg D :=
  match o with
  | OutPathPoints pts => MPlannerPoints pts
  | OutHeadingCmd m => MHeadingCmd m
  | OutTackerState m => MTackerState m
  | OutWaypoints m => MWaypoints m
  | OutObstacles m => MObstacles m
  end.

#[export] Instance plan_node : BoatNode D (LinePlan D) := {|
  node_step env i s :=
    match plan_event i with Some e => with_err PlanFails (plan_step uninit false e s) | None => Ok s end;
  node_out s := plan_msg <$> plan_out s |}.

Definition simple_event (i : input D) : option (SimpleEvent D) :=
  match i with
  | Deliver (MBoatState m) => Some (CEvBoatState m)
  | Deliver (MConsts m) => Some (CEvConsts m)
  | Deliver (MWind w) => Some (CEvWind w)
  | Deliver (MHeadingCmd m) => Some (CEvHeading m)
  | Deliver (MControlMode m) => Some (CEvControlMode m)
  | Deliver (MSbus ch) => Some (CEvSbus ch)
  | Tick => Some CEvIterate
  | _ => None
  end.
Definition simple_msg (o : SimpleOut D) : BoatMsg D :=
  match o with
  | OutSail m => MSailCmd false m
  | OutRudder m => MRudderCmd false m
  | OutRigid m => MRigidWingCmd m
  | OutHeel h => MHeelCmd h
  | OutConsts m => MConsts m
  end.

#[export] Instance simple_node : BoatNode D (SimpleControl D) := {|
  node_step env i s := match simple_event i with Some e => with_err SimpleFails (simple_step s e) | None => Ok s end;
  node_out s := simple_msg <$> simple_out s |}.

Definition ballast_event (i : input D) : option (BallastEvent D) :=
  match i with
  | Deliver (MConsts m) => Some (BEvConsts m)
  | Deliver (MControlMode m) => Some (BEvControlMode m)
  | Deliver (MHeadingCmd m) => Some (BEvHeading m)
  | Deliver (MBoatState m) => Some (BEvBoatState m)
  | Tick => Some BEvIterate
  | _ => None
  end.
Definition ballast_msg (o : BallastOut D) : BoatMsg D :=
  match o with OutBallast m => MBallastCmd false m | OutBallastConsts m => MConsts m end.

#[export] Instance ballast_node : BoatNode D (BallastControl D) := {|
  node_step env i s := Ok (match ballast_event i with Some e => ballast_step s e | None => s end);
  node_out s := ballast_msg <$> ballast_out s |}.

Definition scamp_event (i : input D) : option (ScampEvent D) :=
  match i with
  | Deliver (MZeroing m) => Some (SEvZeroing m)
  | Deliver (MAnalogPot v) => Some (SEvAnalogPot v)
  | Deliver (MBallastState _ b) => Some (SEvBallastState b)
  | Deliver (MSailCmd manual m) => Some (SEvSail manual m)
  | Deliver (MRudderCmd manual m) => Some (SEvRudder manual m)
  | Deliver (MBallastCmd manual m) => Some (SEvBallast manual m)
  | Deliver (MSbus ch) => Some (SEvSbus ch)
  | Deliver (MConnection b) => Some (SEvConnection b)
  | Deliver (MControlMode m) => Some (SEvControlMode m)
  | Tick => Some SEvIterate
  | _ => None
  end.
(** The file of constants is not a queue. *)
Definition scamp_msg (o : ScampOut D) : option (BoatMsg D) :=
  match o with
  | OutInternal m => Some (MInternal m)
  | OutPwm w r b => Some (MPwm w r b)
  | OutZeroing m => Some (MZeroing m)
  | OutFile _ => None
  end.

#[export] Instance scamp_node : BoatNode D (SCAMP D) := {|
  node_step env i s := match scamp_event i with Some e => with_err ScampFails (scamp_step e s) | None => Ok s end;
  node_out s := omap scamp_msg (scamp_out s) |}.

Definition est_step (env : Env) (i : input D) (s : StateEstimator D) : StateEstimator D :=
  match i with
  | Deliver (MVesselHeading h) => handle_heading h s
  | Deliver (MRateOfTurn r) => handle_rate r s
  | Deliver (MAttitude p) => handle_attitude p s
  | Deliver (MPosition lat lon) => handle_position lat lon s
  | Deliver (MCogSog cog sog) => handle_cog_sog cog sog s
  | Deliver (MWindData ws wa ref) => handle_wind ws wa ref s
  | Deliver (MInternal m) => handle_internal m (now1 env) (now2 env) s
  | Deliver (MBallastState heel _) => handle_inclinometer heel (now1 env) (now2 env) s
  | Tick => Est_Iterate quat s
  | _ => s
  end.
Definition est_msg (o : EstOut D) : BoatMsg D :=
  match o with OutState b _ => MBoatState b | OutWind w => MWind w | OutTrueWind w => MTrueWind w end.

#[export] Instance est_node : BoatNode D (StateEstimator D) := {|
  node_step env i s := Ok (est_step env i s);
  node_out s := est_msg <$> est_out s |}.

Definition mon_event (env : Env) (i : input D) : option MonEvent :=
  match i with
  | Deliver (MConnection b) => Some (MEvConnection b)
  | Deliver (MControlMode m) => Some (MEvControlMode m)
  | Deliver MRigidFeedback => Some (MEvFeedback (now1 env))
  | Tick => Some (MEvIterate (now1 env))
  | _ => None
  end.

#[export] Instance mon_node : BoatNode D Monitor := {|
  node_step env i s := Ok (match mon_event env i with Some e => mon_step s e | None => s end);
  node_out s := (λ p, MStatus p.1 p.2) <$> mon_out s |}.

(** The radio receiver's message, and what it has sent. *)
Record Radio := MkRadio { rd_msg : SBUS; rd_sent : list (list Z) }.

Definition radio_tick (env : Env) (s : Radio) : Radio :=
  let '(msg, sent) := Sbus_Iterate (serial_reads env) (serial_frame env) (rd_msg s) in
  MkRadio msg (if sent then rd_sent s ++ [sbus_channel msg] else rd_sent s).

#[export] Instance radio_node : BoatNode D Radio := {|
  node_step env i s := Ok (match i with Tick => radio_tick env s | _ => s end);
  node_out s := MSbus <$> rd_sent s |}.

(** ** The boat *)

Record Boat := MkBoat {
  b_radio : Radio;
  b_wm : WM D;
  b_plan : LinePlan D;
  b_simple : SimpleControl D;
  b_ballast : BallastControl D;
  b_scamp : SCAMP D;
  b_est : StateEstimator D;
  b_mon : Monitor;
}.

(** All messages on the queues so far. *)
Definition published (b : Boat) : list (BoatMsg D) :=
  node_out (b_radio b) ++ node_out (b_wm b) ++ node_out (b_plan b) ++ node_out (b_simple b) ++ node_out (b_ballast b)
  ++ node_out (b_scamp b) ++ node_out (b_est b) ++ node_out (b_mon b).

Inductive program := PRadio | PWaypoints | PPlanner | PSimple | PBallast | PScamp | PEstimator | PMonitor.

Definition boat_act (p : program) (env : Env) (i : input D) (b : Boat) : result BoatErr Boat :=
  let '(MkBoat rd wm pl si ba sc es mo) := b in
  match p with
  | PRadio => let* s := node_step env i rd in Ok (MkBoat s wm pl si ba sc es mo)
  | PWaypoints => let* s := node_step env i wm in Ok (MkBoat rd s pl si ba sc es mo)
  | PPlanner => let* s := node_step env i pl in Ok (MkBoat rd wm s si ba sc es mo)
  | PSimple => let* s := node_step env i si in Ok (MkBoat rd wm pl s ba sc es mo)
  | PBallast => let* s := node_step env i ba in Ok (MkBoat rd wm pl si s sc es mo)
  | PScamp => let* s := node_step env i sc in Ok (MkBoat rd wm pl si ba s es mo)
  | PEstimator => let* s := node_step env i es in Ok (MkBoat rd wm pl si ba sc s mo)
  | PMonitor => let* s := node_step env i mo in Ok (MkBoat rd wm pl si ba sc es s)
  end.

(** A step of the boat, and how it ends: a program takes a turn of its loop, or handles a
    message that was published or that comes from outside. *)
Inductive boat_step (outside : BoatMsg D -> Prop) (env_ok : Env -> Prop) (b : Boat) : result BoatErr Boat -> Prop :=
| boat_tick p env : env_ok env -> boat_step outside env_ok b (boat_act p env Tick b)
| boat_deliver p env m : env_ok env -> m ∈ published b ∨ outside m ->
    boat_step outside env_ok b (boat_act p env (Deliver m) b).

Definition boat_runs (outside : BoatMsg D -> Prop) (env_ok : Env -> Prop) : Boat -> Boat -> Prop :=
  rtc (λ b b', boat_step outside env_ok b (Ok b')).

(** The boat after startup: the main functions construct the nodes; the files of the
    planner and of the actuator node were read. *)
Definition boat_init (t : Z) (plan : LinePlan D) (zeroing : option (ZeroingConstants D)) (incl0 ballast0 : D) : Boat :=
  MkBoat (MkRadio SBUS_init []) (WM_init t) plan (Simple_init true) Ballast_init (SCAMP_init zeroing)
    (Est_init incl0 ballast0) Monitor_init.

(** *** Composition *)

Section Compose.
Variables (ok : BoatMsg D -> Prop) (env_ok : Env -> Prop).
Variables (i_rd : Radio -> Prop) (i_wm : WM D -> Prop) (i_pl : LinePlan D -> Prop) (i_si : SimpleControl D -> Prop)
  (i_ba : BallastControl D -> Prop) (i_sc : SCAMP D -> Prop) (i_es : StateEstimator D -> Prop) (i_mo : Monitor -> Prop).
Context {G_rd : Guarantees ok env_ok i_rd} {G_wm : Guarantees ok env_ok i_wm} {G_pl : Guarantees ok env_ok i_pl}
  {G_si : Guarantees ok env_ok i_si} {G_ba : Guarantees ok env_ok i_ba} {G_sc : Guarantees ok env_ok i_sc}
  {G_es : Guarantees ok env_ok i_es} {G_mo : Guarantees ok env_ok i_mo}.

Record boat_ok (b : Boat) : Prop := MkBoatOk {
  ok_radio : i_rd (b_radio b);
  ok_wm : i_wm (b_wm b);
  ok_plan : i_pl (b_plan b);
  ok_simple : i_si (b_simple b);
  ok_ballast : i_ba (b_ballast b);
  ok_scamp : i_sc (b_scamp b);
  ok_est : i_es (b_est b);
  ok_mon : i_mo (b_mon b);
}.

Lemma boat_ok_published b : boat_ok b -> Forall ok (published b).
Proof. intros []. unfold published. by repeat (apply Forall_app_2; [by apply g_out|]); apply g_out. Qed.

Lemma boat_act_ok p env i b :
  boat_ok b -> env_ok env -> (∀ m, i = Deliver m -> ok m) -> ∃ b', boat_act p env i b = Ok b' ∧ boat_ok b'.
Proof.
  intros [] Henv Hi. destruct b as [rd wm pl si ba sc es mo].
  cbn [b_radio b_wm b_plan b_simple b_ballast b_scamp b_est b_mon] in *. destruct p; cbn [boat_act];
    match goal with |- context [node_step env i ?x] =>
      edestruct (g_step env i x) as (s' & -> & Hs'); [eassumption..|] end;
    cbn [rbind]; eexists; (split; [done|]); by constructor.
Qed.

(** Each node relies on what the others guarantee. *)
Lemma boat_composed (outside : BoatMsg D -> Prop) b0 b :
  (∀ m, outside m -> ok m) -> boat_ok b0 -> boat_runs outside env_ok b0 b ->
  boat_ok b ∧ Forall ok (published b) ∧ ∀ r, boat_step outside env_ok b r -> ∃ b', r = Ok b'.
Proof.
  intros Hout H0 Hr.
  assert (∀ b r, boat_ok b -> boat_step outside env_ok b r -> ∃ b', r = Ok b' ∧ boat_ok b') as Hstep.
  { intros b1 r Hb1 []; (edestruct boat_act_ok as (b' & -> & Hb'); [eassumption..| |by eauto]); [done|].
    intros m' [= <-]. destruct H1 as [Hm|Hm]; [|by apply Hout].
    by apply (proj1 (Forall_forall _ _) (boat_ok_published _ Hb1)). }
  assert (boat_ok b) as Hb.
  { revert Hr. apply (rtc_ind_r (R := λ b b', boat_step outside env_ok b (Ok b'))); [done|].
    intros y z _ Hyz IH. by destruct (Hstep _ _ IH Hyz) as (b' & [= <-] & Hb'). }
  split_and!; [done|by apply boat_ok_published|]. intros r Hst. destruct (Hstep _ _ Hb Hst) as (b' & -> & _). by exists b'.
Qed.
End Compose.
End Nodes.

(** ** No program fails *)

Section Safe.
Context {D : Type} {ND : Num D} {EG : Eigen D}.
Variables (uninit : vec2 D) (quat : vec3 D -> D * D * D * D).

(** The messages every handler can take: a radio message has the channels that are read,
    and a list of waypoints is one the planner accepts. *)
Definition message_safe (m : BoatMsg D) : Prop :=
  match m with MSbus ch => (4 <= length ch)%nat | MWaypoints w => waypoints_msg_ok w | _ => True end.

(** The nodes whose messages are all safe by their type, and that never fail. *)
#[local] Existing Instances wm_node ballast_node est_node mon_node simple_node scamp_node radio_node plan_node.
#[local] Instance wm_safe : Guarantees (S := WM D) message_safe (λ _, True) (λ _, True).
Proof. split; [by eexists|]. intros s _. apply Forall_fmap, Forall_true. by intros []. Qed.
#[local] Instance ballast_safe : Guarantees (S := BallastControl D) message_safe (λ _, True) (λ _, True).
Proof. split; [by eexists|]. intros s _. apply Forall_fmap, Forall_true. by intros []. Qed.
#[local] Instance est_safe : Guarantees (BN := est_node quat) (S := StateEstimator D) message_safe (λ _, True) (λ _, True).
Proof. split; [by eexists|]. intros s _. apply Forall_fmap, Forall_true. by intros []. Qed.
#[local] Instance mon_safe : Guarantees (D := D) (S := Monitor) message_safe (λ _, True) (λ _, True).
Proof. split; [by eexists|]. intros s _. by apply Forall_fmap, Forall_true. Qed.
#[local] Instance simple_safe : Guarantees (S := SimpleControl D) message_safe (λ _, True) (λ _, True).
Proof.
  split; [|intros s _; apply Forall_fmap, Forall_true; by intros []].
  intros env i s _ _ Hi. cbn [node_step simple_node]. destruct (simple_event i) as [e|] eqn:E; [|by eexists].
  destruct e as [b|c|w|m|m|ch|]; try by eexists. destruct i as [m|]; [|done]. destruct m; try done.
  injection E as ->. specialize (Hi _ eq_refl). cbn in Hi. cbn [simple_step]. unfold simple_handle_sbus.
  destruct (lookup_lt_is_Some_2 ch 1) as [c ->]; [lia|]. by eexists.
Qed.
#[local] Instance scamp_safe : Guarantees (S := SCAMP D) message_safe (λ _, True) neutral.
Proof.
  split.
  - intros env i s Hs _ Hi. cbn [node_step scamp_node]. destruct (scamp_event i) as [e|] eqn:E; [|by eexists].
    destruct (scamp_step_neutral e s) as (s' & -> & H'); [|done|by exists s'].
    destruct e as [| | | | | |ch| | |]; try done. destruct i as [m|]; [|done]. destruct m; try done.
    injection E as ->. specialize (Hi _ eq_refl). cbn in Hi. cbn [sbus_ok]. by apply Nat.leb_le.
  - intros s _. apply Forall_forall. intros m (o & _ & E)%list_elem_of_omap. by destruct o; simplify_eq/=.
Qed.
#[local] Instance radio_safe :
  Guarantees (D := D) (S := Radio) message_safe (λ _, True) (λ s, Forall (λ ch, (4 <= length ch)%nat) (rd_sent s)).
Proof.
  split; [|intros s H; by apply Forall_fmap].
  intros env [m|] s Hs _ _; cbn [node_step radio_node]; [by eexists|]. eexists. split; [done|].
  unfold radio_tick, Sbus_Iterate. destruct (negb _); [done|]. destruct (_ <? _)%nat; [done|].
  apply Forall_app. split; [done|]. constructor; [cbn; lia|done].
Qed.
#[local] Instance plan_safe :
  Guarantees (BN := plan_node uninit) (S := LinePlan D) message_safe (λ _, True)
    (λ s, plan_ok s ∧ ∀ m, OutWaypoints m ∈ plan_out s -> waypoints_msg_ok m).
Proof.
  split.
  - intros env i s [Hs Ho] _ Hi. cbn [node_step plan_node]. destruct (plan_event i) as [e|] eqn:E; [|by eexists].
    destruct (plan_step_ok uninit e s Hs) as (s' & Es & H').
    { destruct e; try done. destruct i as [m'|]; [|done]. destruct m'; try done. injection E as ->. by apply (Hi _ eq_refl). }
    rewrite Es. exists s'. split; [done|]. split; [done|].
    apply plan_step_out in Es as (l & El & Hl); [|done]. intros m. rewrite El, elem_of_app. intros [H|H]; [by apply Ho|].
    by apply Hl in H.
  - intros s [_ Ho]. apply Forall_fmap, Forall_forall. intros o Hin. destruct o; try done. by apply Ho.
Qed.

(** C1: None of the eight programs modelled here (radio receiver, waypoint manager, line planner,
    heading and sail control, ballast control, actuator node, state estimator and monitor) ever
    fails: started with any waypoint file the planner accepts, whatever they do in whatever
    order, whatever messages published so far their handlers get and whatever the sensors and
    the operator send (radio messages with all channels and waypoint lists that are not one
    point to be repeated), no check fails, no access to a vector is out of range and no channel
    is missing; and every message on their queues satisfies the same conditions.  A handler or
    an iteration of one program is one step.  The arithmetic is arbitrary.  The other programs
    that startup.sh starts (logger, CAN bus, web server and rigid wing) are outside: what they
    send is part of what comes from outside. *)
Theorem boat_never_fails (t : Z) (yaw0 wind0 incl0 ballast0 : D) (p0 p1 p2 p3 : vec2 D)
    (ways : option (WaypointList D)) (obs : option (list (WaypointList D))) (zeroing : option (ZeroingConstants D)) :
  (∀ m, ways = Some m -> waypoints_msg_ok m) ->
  ∃ plan, ReadWaypointsAndObstacles uninit false ways obs (LinePlan_init yaw0 wind0 p0 p1 p2 p3) = Ok plan
    ∧ ∀ b, boat_runs uninit quat message_safe (λ _, True) (boat_init t plan zeroing incl0 ballast0) b ->
      Forall message_safe (published uninit quat b)
      ∧ ∀ r, boat_step uninit quat message_safe (λ _, True) b r -> ∃ b', r = Ok b'.
Proof.
  intros Hw. destruct (plan_start_ok uninit yaw0 wind0 p0 p1 p2 p3 ways obs Hw) as (plan & E & Hok & Ho).
  exists plan. split; [done|]. intros b Hr.
  edestruct (boat_composed uninit quat message_safe (λ _, True) _ _ _ _ _ _ _ _ message_safe (boat_init t plan zeroing incl0 ballast0) b) as (_ & Hp & Hs);
    [done| |exact Hr|by split].
  constructor; cbn; try done. split; [done|]. intros m Hm. by apply Hw, Ho.
Qed.
End Safe.

(** ** What reaches the actuators, in exact arithmetic *)

Section Bounded.
Variables (uninit : vec2 R) (quat : vec3 R -> R * R * R * R).
Context {EG : Eigen R}.
#[local] Open Scope R_scope.
#[local] Existing Instances wm_node ballast_node est_node mon_node simple_node scamp_node radio_node plan_node.

(** The configuration: a rudder limit of at most half a radian, and a rudder whose middle
    is at 60 to 120 degrees of its servo. *)
Definition consts_ok (c : ControllerConstants R) : Prop := 0 <= get (max_rudder c) <= 1 / 2.
Definition zero_ok (z : Z) : Prop := (60 <= z <= 120)%Z.

Definition pwm_ok (w r b : Z) : Prop := (0 <= w < 2 ^ 32 ∧ 4 <= r <= 176 ∧ 0 <= b <= 180)%Z.

(** Commands, constants and radio values within their ranges. *)
Definition message_bounded (m : BoatMsg R) : Prop :=
  message_safe m ∧
  match m with
  | MSbus ch => Forall (λ c, 0 <= c <= 2047)%Z ch
  | MConsts c => consts_ok c
  | MRudderCmd _ c => Rabs (get (rudder_pos c)) <= 1 / 2
  | MBallastCmd _ c => Rabs (get (ballast_vel c)) <= 90
  | MZeroing c => ∀ z, rudder_zero c = Some z -> zero_ok z
  | MPwm w r b => pwm_ok w r b
  | _ => True
  end.

(** What is read from the serial port are bytes, at most as many as asked for. *)
Definition serial_ok (env : Env) : Prop := Forall byte (serial_frame env) ∧ (length (serial_frame env) <= 24)%nat.

(** *** The actuator node *)

Record scamp_bounded (s : SCAMP R) : Prop := MkScampBounded {
  sb_rudder : (4 <= raw_rudder_ s <= 176)%Z;
  sb_winch : (-2 <= raw_winch_ s <= 182)%Z;
  sb_ballast : (0 <= raw_ballast_ s <= 180)%Z;
  sb_zero : ∃ z, rudder_zero (zero_consts_ s) = Some z ∧ zero_ok z;
  sb_out : Forall message_bounded (omap scamp_msg (scamp_out s));
}.

Lemma SBUSToRaw_range c : (0 <= c <= 2047 -> -2 <= SBUSToRaw (D := R) c <= 182)%Z.
Proof.
  intros [H0%IZR_le H1%IZR_le]. unfold SBUSToRaw. apply nint_trunc; try lia. simpl. lra.
Qed.

Lemma rudder_raw_range (s : SCAMP R) cmd :
  (∃ z, rudder_zero (zero_consts_ s) = Some z ∧ zero_ok z) -> Rabs (get (rudder_pos cmd)) <= 1 / 2 ->
  (4 <= raw_rudder_ (SetRawFromRudderCmd cmd s) <= 176)%Z.
Proof.
  intros (z & Ez & [Hz0%IZR_le Hz1%IZR_le]) Hp. unfold SetRawFromRudderCmd. cbn [raw_rudder_ set_raw_rudder_]. rewrite Ez.
  cbn [getZ default from_option id]. apply nint_range; try lia. simpl.
  pose proof PI_4. pose proof PI2_3_2 as Hpi. apply Rabs_bounds in Hp. set (p := get (rudder_pos cmd)) in *.
  assert (-1 / 6 <= p / PI <= 1 / 6); [|lra]. split.
  - apply Rmult_le_reg_r with PI; [lra|]. unfold Rdiv at 2. rewrite Rmult_assoc, Rinv_l by lra. lra.
  - apply Rmult_le_reg_r with PI; [lra|]. unfold Rdiv at 1. rewrite Rmult_assoc, Rinv_l by lra. lra.
Qed.

Lemma ballast_raw_range (s : SCAMP R) cmd :
  (0 <= raw_ballast_ s <= 180)%Z -> Rabs (get (ballast_vel cmd)) <= 90 ->
  (0 <= raw_ballast_ (SetRawFromBallastCmd cmd s) <= 180)%Z.
Proof.
  intros Hs Hv%Rabs_bounds. unfold SetRawFromBallastCmd. destruct (has (ballast_vel cmd)); [apply nint_range; simpl; lra || lia|].
  destruct (has (ballast_voltage cmd)); [|done]. cbn [raw_ballast_ set_raw_ballast_]. apply nint_range; try lia.
  pose proof (Clip_R (get (ballast_voltage cmd)) (- (12)) 12 ltac:(lra)) as Hc. simpl.
  revert Hc. generalize (Clip (get (ballast_voltage cmd)) (- (12)) 12). intros v Hc.
  unfold nmin, nmax. simpl. repeat case_R; lra.
Qed.

Lemma sbus_rudder_range c (z : Z) :
  (0 <= c <= 2047)%Z -> zero_ok z ->
  (4 <= nint ((nofZ (SBUSToRaw (D := R) c) - nofZ 90) * dec 5 1 + nofZ 90)%num <= 176
   ∧ 4 <= nint (- (nofZ (SBUSToRaw (D := R) c) - nofZ 90) * dec 6 1 + nofZ z)%num <= 176)%Z.
Proof.
  intros Hc [Hz0%IZR_le Hz1%IZR_le]. pose proof (SBUSToRaw_range c Hc) as [H0%IZR_le H1%IZR_le].
  revert H0 H1. generalize (SBUSToRaw (D := R) c). intros r H0 H1.
  split; apply nint_range; try lia; dec_R; lra.
Qed.

Lemma scamp_send_bounded (s : SCAMP R) o :
  scamp_bounded s -> (∀ m, scamp_msg o = Some m -> message_bounded m) -> scamp_bounded (scamp_send o s).
Proof.
  intros [] Ho. constructor; try done. cbn [scamp_send set_scamp_out scamp_out]. rewrite omap_app. apply Forall_app.
  split; [done|]. cbn. destruct (scamp_msg o) as [m|]; cbn; [|done]. constructor; [by apply Ho|done].
Qed.

Lemma handle_sbus_bounded ch (s s' : SCAMP R) :
  scamp_bounded s -> message_bounded (MSbus ch) -> handle_sbus_value ch s = Ok s' -> scamp_bounded s'.
Proof.
  intros Hs [H4 Hch]. cbn in H4. destruct ch as [|c0 [|c1 [|c2 [|c3 ch]]]]; cbn in H4; try lia.
  assert (0 <= c1 <= 2047 ∧ 0 <= c3 <= 2047)%Z as [H1 H3]
    by (repeat (apply Forall_cons in Hch as [? Hch]); done).
  destruct (sb_zero s Hs) as (z & Ez & Hz). pose proof (SBUSToRaw_range c1 H1) as Hw. destruct (sbus_rudder_range c3 z H3 Hz) as [Hm Hf].
  unfold handle_sbus_value. cbn [length Nat.leb channel of_option lookup list_lookup rbind].
  destruct Hs. destruct (IsManualRC RUDDER s); [|destruct (IsFilteredRC RUDDER s)]; cbn [rbind];
    destruct (IsManualRC WINCH _); [| destruct (IsFilteredRC WINCH _) | | destruct (IsFilteredRC WINCH _) | | destruct (IsFilteredRC WINCH _)];
    intros [= <-]; constructor; cbn; rewrite ?Ez; by eauto.
Qed.

Lemma handle_control_mode_bounded m (s : SCAMP R) : scamp_bounded s -> scamp_bounded (handle_control_mode m s).
Proof.
  intros []. unfold handle_control_mode. cbv zeta. destruct (winch_mode m), (rudder_mode m), (ballast_mode m);
    repeat match goal with |- context [if ?b then _ else _] => destruct b end; constructor; cbn; (done || lia).
Qed.

Lemma handle_zeroing_bounded m (s : SCAMP R) : scamp_bounded s -> message_bounded (MZeroing m) -> scamp_bounded (handle_zeroing m s).
Proof.
  intros Hs [_ Hm]. unfold handle_zeroing. cbv zeta. set (c := MkZeroing _ _ _ _ _ _).
  assert (scamp_bounded (set_zero_consts_ c s)) as H'.
  { destruct Hs. constructor; try done. cbn. destruct (rudder_zero m) as [z|] eqn:E; [exists z; split; [done|by apply Hm]|done]. }
  destruct (default false _); [|done]. by apply scamp_send_bounded.
Qed.

Lemma Scamp_Iterate_bounded (s : SCAMP R) : scamp_bounded s -> scamp_bounded (Scamp_Iterate s).
Proof.
  intros Hs. unfold Scamp_Iterate. cbv zeta. set (s1 := if IsAuto WINCH s || _ || _ then _ else s). assert (scamp_bounded s1) as H1.
  { unfold s1. destruct (_ || _ || _); [|done]. pose proof (winch_command_bounds (nfloat (nofZ (volts_winch_ s))) s) as [Hw _].
    destruct Hs. constructor; try done. lia. }
  clearbody s1. apply scamp_send_bounded; [apply scamp_send_bounded; [done|]|].
  - intros m [= <-]. split; [done|]. destruct H1. cbn. unfold pwm_ok.
    rewrite (wrapu_small 32 (raw_rudder_ s1)), (wrapu_small 32 (raw_ballast_ s1)) by lia.
    pose proof (wrapu_range 32 (raw_winch_ s1) ltac:(lia)). lia.
  - intros m [= <-]. split; [done|]. destruct H1 as [_ _ _ (z & Ez & Hz) _]. cbn. intros z'. rewrite Ez. by intros [= <-].
Qed.

Lemma scamp_step_bounded env i (s s' : SCAMP R) :
  scamp_bounded s -> (∀ m, i = Deliver m -> message_bounded m) -> node_step env i s = Ok s' -> scamp_bounded s'.
Proof.
  intros Hs Hi. cbn [node_step scamp_node].
  destruct i as [m|]; [specialize (Hi m eq_refl)|intros [= <-]; by apply Scamp_Iterate_bounded].
  destruct m; cbn [scamp_event scamp_step with_err]; try (by intros [= <-]).
  - destruct (handle_sbus_value _ s) eqn:E; [|done]. intros [= <-]. by eapply handle_sbus_bounded.
  - intros [= <-]. by apply handle_control_mode_bounded.
  - intros [= <-]. unfold handle_manual_sail_cmd, handle_sail_cmd. destruct Hs; repeat case_match; by constructor.
  - intros [= <-]. destruct Hi as [_ Hp]. pose proof (rudder_raw_range s m (sb_zero s Hs) Hp).
    unfold handle_manual_rudder_cmd, handle_rudder_cmd. destruct Hs; repeat case_match; by constructor.
  - intros [= <-]. destruct Hi as [_ Hp]. pose proof (ballast_raw_range s m (sb_ballast s Hs) Hp).
    unfold handle_manual_ballast_cmd, handle_ballast_cmd. repeat case_match; try done; destruct Hs; constructor; try done;
      unfold SetRawFromBallastCmd; by repeat case_match.
  - intros [= <-]. by apply handle_zeroing_bounded.
  - intros [= <-]. by destruct Hs.
  - intros [= <-]. unfold handle_analog_pot. cbv zeta. apply scamp_send_bounded; [by destruct Hs|]. by intros ? [= <-].
  - intros [= <-]. unfold handle_ballast_state. case_match; [|done]. cbv zeta.
    apply scamp_send_bounded; [by destruct Hs|]. by intros ? [= <-].
Qed.

#[local] Instance scamp_bounds : Guarantees (S := SCAMP R) message_bounded serial_ok (λ s, neutral s ∧ scamp_bounded s).
Proof.
  split; [|intros s [_ Hs]; apply (sb_out s Hs)].
  intros env i s [Hn Hs] _ Hi. destruct (g_step (Guarantees := scamp_safe) env i s Hn I) as (s' & E & Hn').
  { intros m Hm. by apply Hi. }
  exists s'. split; [done|]. split; [done|]. by eapply scamp_step_bounded.
Qed.

(** *** The controllers *)

#[local] Instance simple_bounds :
  Guarantees (S := SimpleControl R) message_bounded serial_ok
    (λ s, consts_ok (consts_msg_ s) ∧ Forall message_bounded (node_out s)).
Proof.
  split; [|by intros s []].
  intros env i s [Hc Ho] _ Hi. destruct (g_step (Guarantees := simple_safe) env i s I I) as (s' & E & _).
  { intros m Hm. by apply Hi. }
  exists s'. split; [done|]. cbn [node_step simple_node] in E. cbn [node_out simple_node] in *.
  destruct i as [m|]; [specialize (Hi m eq_refl)|].
  - destruct m; cbn [simple_event simple_step with_err] in E; try (by injection E as <-).
    + unfold simple_handle_sbus in E. destruct (_ !! 1%nat); [|done]. by injection E as <-.
    + injection E as <-. unfold simple_handle_control_mode. by repeat case_match.
    + injection E as <-. unfold simple_handle_heading. by repeat case_match.
    + injection E as <-. unfold simple_handle_consts. destruct (simple_consts_complete _); [|done]. split; [apply Hi|done].
  - injection E as <-. destruct (Simple_Iterate_out s) as (Ec & l & El & Hl). rewrite Ec, El, fmap_app. split; [done|].
    apply Forall_app. split; [done|]. apply Forall_fmap. eapply Forall_impl; [exact Hl|].
    intros [] Hfrom; (split; [done|]); cbn in *; try done; subst; [|done].
    destruct Hc as [Hc0 Hc1]. destruct (Simple_Iterate_rudder_bound s Hc0) as (p & Ep & Hp). rewrite Ep. cbn. lra.
Qed.

Lemma Ballast_Iterate_out (s : BallastControl R) :
  ballast_consts_msg_ (Ballast_Iterate s) = ballast_consts_msg_ s
  ∧ ∃ c l, ballast_out (Ballast_Iterate s) = ballast_out s ++ OutBallast c :: l ∧ ballast_vel c = None
    ∧ Forall (λ o, o = OutBallastConsts (ballast_consts_msg_ s)) l.
Proof.
  unfold Ballast_Iterate. cbv zeta. destruct (_ =? 0)%Z.
  - split; [done|]. eexists _, [_]. cbn. rewrite <- app_assoc. split_and!; [done|done|by repeat constructor].
  - split; [done|]. eexists _, []. by cbn.
Qed.

#[local] Instance ballast_bounds :
  Guarantees (S := BallastControl R) message_bounded serial_ok
    (λ s, consts_ok (ballast_consts_msg_ s) ∧ Forall message_bounded (node_out s)).
Proof.
  split; [|by intros s []].
  intros env i s [Hc Ho] _ Hi. eexists. split; [done|]. cbn [node_out ballast_node] in *.
  destruct i as [m|]; [specialize (Hi m eq_refl); destruct m; cbn [ballast_event ballast_step]; try done|].
  - unfold ballast_handle_control_mode. by case_match.
  - unfold ballast_handle_heading_cmd. by repeat case_match.
  - unfold ballast_handle_consts. cbv zeta. destruct Hi as [_ Hi]. by repeat case_match.
  - cbn [ballast_event ballast_step]. destruct (Ballast_Iterate_out s) as (Ec & c & l & El & Ev & Hl).
    rewrite Ec, El, fmap_app, fmap_cons. split; [done|]. apply Forall_app. split; [done|]. constructor.
    + split; [done|]. cbn. rewrite Ev. cbn. rewrite Rabs_R0. lra.
    + apply Forall_fmap. eapply Forall_impl; [exact Hl|]. by intros o ->.
Qed.

(** *** The other nodes *)

#[local] Instance radio_bounds :
  Guarantees (D := R) (S := Radio) message_bounded serial_ok (λ s, Forall (λ ch, message_bounded (MSbus ch)) (rd_sent s)).
Proof.
  split; [|intros s H; by apply Forall_fmap].
  intros env [m|] s Hs [Hb Hl] _; cbn [node_step radio_node]; [by eexists|]. eexists. split; [done|].
  unfold radio_tick, Sbus_Iterate. destruct (negb _); [done|]. destruct (Nat.ltb_spec (length (serial_frame env)) 24); [done|].
  apply Forall_app. split; [done|]. constructor; [|done]. cbn [sbus_flags sbus_channel]. split; [cbn; lia|].
  apply Forall_lookup. intros i c Hi. assert (i < 16)%nat by (by apply lookup_lt_Some in Hi).
  rewrite sbus_channel_bits in Hi by (done || lia). injection Hi as <-.
  pose proof (bits_range (le_value (serial_frame env)) (11 * Z.of_nat i) 11). lia.
Qed.
#[local] Instance plan_bounds :
  Guarantees (BN := plan_node uninit) (S := LinePlan R) message_bounded serial_ok
    (λ s, plan_ok s ∧ ∀ m, OutWaypoints m ∈ plan_out s -> waypoints_msg_ok m).
Proof.
  split.
  - intros env i s Hs _ Hi. apply (g_step (Guarantees := plan_safe uninit) env i s Hs I). intros m Hm. by apply Hi.
  - intros s [_ Ho]. apply Forall_fmap, Forall_forall. intros o Hin. destruct o; split; try done. by apply Ho.
Qed.
#[local] Instance wm_bounds : Guarantees (S := WM R) message_bounded serial_ok (λ _, True).
Proof. split; [by eexists|]. intros s _. apply Forall_fmap, Forall_true. by intros []. Qed.
#[local] Instance est_bounds : Guarantees (BN := est_node quat) (S := StateEstimator R) message_bounded serial_ok (λ _, True).
Proof. split; [by eexists|]. intros s _. apply Forall_fmap, Forall_true. by intros []. Qed.
#[local] Instance mon_bounds : Guarantees (D := R) (S := Monitor) message_bounded serial_ok (λ _, True).
Proof. split; [by eexists|]. intros s _. by apply Forall_fmap, Forall_true. Qed.

(** *** On the bus *)

Context {M : Type} {PM : ProtoMsg R M}.

Lemma default_consts_ok : consts_ok default_simple_consts ∧ consts_ok default_ballast_consts.
Proof. unfold consts_ok, get. cbn [default_simple_consts default_ballast_consts max_rudder default from_option]. cbn. dec_R. lra. Qed.

Lemma scamp_init_bounded (zeroing : option (ZeroingConstants R)) :
  (∀ c, zeroing = Some c -> ∃ z, rudder_zero c = Some z ∧ zero_ok z) -> scamp_bounded (SCAMP_init zeroing).
Proof.
  intros Hz. constructor; try (cbn; lia); [|done]. destruct zeroing as [c|]; [by apply Hz|].
  exists 90%Z. split; [done|]. unfold zero_ok. lia.
Qed.

(** C2: From the radio, the web page and the controllers to the actuator board: started with
    a rudder zero between 60 and 120 and with constants, manual commands and radio bytes
    within their ranges, whatever the programs do in whatever order, every message for
    the actuator board becomes one frame on the bus in which the rudder byte is the
    rudder's value, between 4 and 176, and the ballast byte the ballast's, between 0 and
    180: no wrong mode, stale command or gain setting turns the rudder further.  In exact
    arithmetic. *)
Theorem boat_actuators_in_range (t : Z) (yaw0 wind0 incl0 ballast0 : R) (p0 p1 p2 p3 : vec2 R)
    (ways : option (WaypointList R)) (obs : option (list (WaypointList R))) (zeroing : option (ZeroingConstants R))
    (plan : LinePlan R) (b : Boat) (id0 : CANID) (frame0 : can_frame) (w r bl : Z) :
  (∀ m, ways = Some m -> waypoints_msg_ok m) ->
  ReadWaypointsAndObstacles uninit false ways obs (LinePlan_init yaw0 wind0 p0 p1 p2 p3) = Ok plan ->
  (∀ c, zeroing = Some c -> ∃ z, rudder_zero c = Some z ∧ zero_ok z) ->
  boat_runs uninit quat message_bounded serial_ok (boat_init t plan zeroing incl0 ballast0) b ->
  CANID_ok id0 -> length (fdata frame0) = 8%nat -> MPwm w r bl ∈ published uninit quat b ->
  ∃ frame, bus_frame (M := M) id0 frame0 (OutPwm w r bl) = Ok (Some frame) ∧ frame_pgn frame = 65282%Z
    ∧ fdata frame !! 1%nat = Some r ∧ (4 <= r <= 176)%Z ∧ fdata frame !! 2%nat = Some bl ∧ (0 <= bl <= 180)%Z.
Proof.
  intros Hw Eplan Hz Hr Hid Hl Hin.
  edestruct (boat_composed uninit quat message_bounded serial_ok _ _ _ _ _ _ _ _ message_bounded
    (boat_init t plan zeroing incl0 ballast0) b) as (_ & Hp & _); [done| |exact Hr|].
  - destruct (plan_start_ok uninit yaw0 wind0 p0 p1 p2 p3 ways obs Hw) as (s & E & Hok & Ho).
    rewrite E in Eplan. injection Eplan as ->. constructor; cbn; try done.
    + split; [done|]. intros m Hm. by apply Hw, Ho.
    + split; [apply default_consts_ok|]. constructor; [|done]. split; [done|apply default_consts_ok].
    + split; [apply default_consts_ok|]. constructor; [|done]. split; [done|apply default_consts_ok].
    + split; [done|by apply scamp_init_bounded].
  - apply (proj1 (Forall_forall _ _) Hp) in Hin as (_ & Hww & Hrr & Hbb).
    assert (∀ z, (0 <= z < 2 ^ 32)%Z -> exact_int (D := R) z) as Hex by (intros z ?; split; [done|by apply exact_u32]).
    destruct (pwm_frame (M := M) id0 frame0 w r bl Hid Hl exact_one) as (frame & E & _ & Hpgn & Hd); [apply Hex; lia..|].
    exists frame. rewrite Hd. unfold pwm_bytes. cbn [lookup list_lookup app].
    rewrite !Z.mod_small by lia. split_and!; done || lia.
Qed.
End Bounded.

(** ** A boat without files *)

Section Witnesses.
#[local] Open Scope R_scope.
#[local] Existing Instance eigen_plain.

Definition no_quat (_ : vec3 R) : R * R * R * R := (1, 0, 0, 0).
Definition start_plan : LinePlan R := LinePlan_init 0 0 zero2 zero2 zero2 zero2.
Definition start_boat : Boat := boat_init 0 start_plan None 0 0.
Definition start_env : Env := MkEnv 0 0 [] [].

Lemma boat_never_fails_witness :
  ReadWaypointsAndObstacles zero2 false None None start_plan = Ok start_plan
  ∧ ∃ b', boat_act zero2 no_quat PPlanner start_env Tick start_boat = Ok b'.
Proof.
  destruct (boat_never_fails zero2 no_quat 0 0 0 0 0 zero2 zero2 zero2 zero2 None None None) as (plan & E & H).
  - intros m. discriminate.
  - injection E as <-. split; [reflexivity|]. destruct (H start_boat) as [_ Hs]; [apply rtc_refl|].
    apply Hs, boat_tick. exact I.
Defined.

(** One iteration of the actuator node. *)
Definition sent_boat : Boat :=
  MkBoat (b_radio start_boat) (b_wm start_boat) start_plan (b_simple start_boat) (b_ballast start_boat)
    (Scamp_Iterate (SCAMP_init None)) (b_est start_boat) (b_mon start_boat).

Lemma boat_actuators_in_range_witness :
  ∃ frame, bus_frame (M := gmap Z (PVal R)) bus_id bus_frame0 (OutPwm (D := R) 90 90 90) = Ok (Some frame)
    ∧ fdata frame !! 1%nat = Some 90%Z.
Proof.
  destruct (boat_actuators_in_range zero2 no_quat (M := gmap Z (PVal R)) 0 0 0 0 0 zero2 zero2 zero2 zero2 None None None
    start_plan sent_boat bus_id bus_frame0 90 90 90) as (frame & E & _ & Hr & _).
  - intros m. discriminate.
  - reflexivity.
  - intros c. discriminate.
  - apply rtc_once. apply (boat_tick zero2 no_quat message_bounded serial_ok start_boat PScamp start_env).
    split; [constructor|cbn; lia].
  - unfold CANID_ok. simpl. lia.
  - reflexivity.
  - apply elem_of_app. right. apply elem_of_app. right. apply elem_of_app. right. apply elem_of_app. right.
    apply elem_of_app. right. apply elem_of_app. left. apply elem_of_cons. left. reflexivity.
  - exists frame. auto.
Defined.
End Witnesses.
