(* ===== verification/Devices.v ===== *)
(** * Opening the devices

    The parts of src/sensor/read-sbus.cc, src/can/can.cc and src/rigid_wing/rigid_wing.cc
    that open and configure the serial port of the radio, the socket of the CAN bus and the
    socket that the wing connects to.  A system call is recorded with its arguments and
    takes its result from a list of answers, so that a theorem about all lists holds for
    every behaviour of the system; a call without an answer has not returned yet.  The flags
    of the system's header files are the class [SysFlags], with the bits they share. *)

From Stdlib Require Import ZArith Lia.
From stdpp Require Import base list.
From S2P Require Import Prelude.

#[local] Open Scope Z_scope.

(** ** Flags *)

Class SysFlags := {
  CBAUD : Z; BOTHER : Z; CSIZE : Z; CS8 : Z; CSTOPB : Z; PARENB : Z; PARODD : Z;
  IXON : Z; BRKINT : Z; ISIG : Z; ICANON : Z; ECHO : Z;
  O_NONBLOCK : Z;
}.

(** The masks of [c_cflag] are of different bits; the values of a field lie in its mask. *)
Class SysFlagsLaws (F : SysFlags) : Prop := {
  BOTHER_rate : Z.land BOTHER CBAUD = BOTHER;
  CS8_size : Z.land CS8 CSIZE = CS8;
  cflag_disjoint i j a b :
    [CBAUD; CSIZE; CSTOPB; PARENB; PARODD] !! i = Some a -> [CBAUD; CSIZE; CSTOPB; PARENB; PARODD] !! j = Some b ->
    (i < j)%nat -> Z.land a b = 0;
  iflag_disjoint : Z.land IXON BRKINT = 0;
}.

(** [struct termios2], without the control characters that are not set. *)
Record Termios := MkTermios {
  c_iflag : Z; c_oflag : Z; c_cflag : Z; c_lflag : Z;
  VMIN : Z; VTIME : Z;
  c_ispeed : Z; c_ospeed : Z;
}.

(** ** System calls *)

Inductive syscall :=
| SysOpen (name : list Z)
| SysTCGETS2 (fd : Z)
| SysTCSETS2 (fd : Z) (tio : Termios)
| SysSocketCan
| SysSocketTcp
| SysSIOCGIFINDEX (fd : Z)
| SysSleep (ms : Z)
| SysReceiveTimeout (fd sec usec : Z)
| SysReuseAddr (fd : Z)
| SysGetFlags (fd : Z)
| SysSetFlags (fd flags : Z)
| SysBindCan (fd ifindex : Z)
| SysBindTcp (fd port : Z)
| SysListen (fd backlog : Z).

(** The value returned, and what a call stores through a pointer. *)
Record answer := MkAnswer { ret : Z; ans_tio : Termios; ans_ifindex : Z }.

(** A failed [PCHECK], or a call that has not returned. *)
Inductive SetupErr := CheckFailed | NotReturned.

Record Sys := MkSys { answers : list answer; trace : list syscall }.

Definition setup (A : Type) : Type := Sys -> result SetupErr A * Sys.

Definition sret {A : Type} (a : A) : setup A := λ s, (Ok a, s).
Definition sbind {A B : Type} (m : setup A) (k : A -> setup B) : setup B :=
  λ s, match m s with
       | (Ok a, s) => k a s
       | (Err e, s) => (Err e, s)
       end.

Declare Scope setup_scope.
Delimit Scope setup_scope with setup.
Notation "'do' x <- m ; k" := (sbind m (fun x => k))
  (at level 100, x pattern, m at level 90, k at level 200, right associativity) : setup_scope.
#[local] Open Scope setup_scope.

Definition sys_call (c : syscall) : setup answer :=
  λ s, match answers s with
       | [] => (Err NotReturned, MkSys [] (trace s ++ [c]))
       | a :: l => (Ok a, MkSys l (trace s ++ [c]))
       end.

Definition PCHECK (b : bool) : setup unit := λ s, if b then (Ok tt, s) else (Err CheckFailed, s).

Section Devices.
Context {F : SysFlags}.

(** ** The serial port *)

Definition kBaudRate : Z := 100000.

(** The changes to the settings read from the port. *)
Definition configure (tio : Termios) : Termios :=
  MkTermios
    (Z.lor (Z.land (c_iflag tio) (Z.lnot IXON)) BRKINT)
    0
    (Z.lor (Z.land (c_cflag tio) (Z.lnot (Z.lor (Z.lor CBAUD PARODD) CSIZE)))
       (Z.lor (Z.lor (Z.lor BOTHER CSTOPB) PARENB) CS8))
    (Z.land (c_lflag tio) (Z.lnot (Z.lor (Z.lor ISIG ICANON) ECHO)))
    100 0 kBaudRate kBaudRate.

(** [ReadSBUS::Init], up to the fields of the message. *)
Definition Sbus_Init (port_name : list Z) : setup Z :=
  do a <- sys_call (SysOpen port_name);
  let fd := ret a in
  do _ <- PCHECK (negb (fd =? -1));
  do a <- sys_call (SysTCGETS2 fd);
  do _ <- PCHECK (ret a =? 0);
  let tio := configure (ans_tio a) in
  do a <- sys_call (SysTCSETS2 fd tio);
  do _ <- PCHECK (ret a =? 0);
  sret fd.

(** ** The socket of the CAN bus *)

(** The loop that asks for the index of the interface until it exists.  It takes its
    answers from the list: one for the request and one for the sleep. *)
Fixpoint wait_interface (fd : Z) (l : list answer) (t : list syscall) : result SetupErr Z * Sys :=
  let t := t ++ [SysSIOCGIFINDEX fd] in
  match l with
  | [] => (Err NotReturned, MkSys [] t)
  | a :: l =>
      if ret a =? 0 then (Ok (ans_ifindex a), MkSys l t)
      else
        let t := t ++ [SysSleep 1000] in
        match l with
        | [] => (Err NotReturned, MkSys [] t)
        | _ :: l => wait_interface fd l t
        end
  end.

(** The constructor of [CanNode] from the socket on. *)
Definition CanNode_open : setup Z :=
  do a <- sys_call SysSocketCan;
  let s_ := ret a in
  do _ <- PCHECK (0 <=? s_);
  do ifindex <- (λ s, wait_interface s_ (answers s) (trace s));
  do a <- sys_call (SysReceiveTimeout s_ 1 0);
  do _ <- PCHECK (ret a =? 0);
  do a <- sys_call (SysGetFlags s_);
  let flags := ret a in
  do _ <- PCHECK (negb (flags =? -1));
  let flags := Z.land flags (Z.lnot O_NONBLOCK) in
  do a <- sys_call (SysSetFlags s_ flags);
  do _ <- PCHECK (negb (ret a =? -1));
  do a <- sys_call (SysBindCan s_ ifindex);
  do _ <- PCHECK (ret a =? 0);
  sret s_.

(** ** The socket for the wing *)

(** [FLAGS_rigid_wing_port] is an argument; the results of the first two calls are not
    tested. *)
Definition InitSocket (port : Z) : setup Z :=
  do a <- sys_call SysSocketTcp;
  let sock_fd_ := ret a in
  do _ <- sys_call (SysReuseAddr sock_fd_);
  do a <- sys_call (SysGetFlags sock_fd_);
  let flags := ret a in
  do _ <- PCHECK (negb (flags =? -1));
  let flags := Z.lor flags O_NONBLOCK in
  do a <- sys_call (SysSetFlags sock_fd_ flags);
  do _ <- PCHECK (negb (ret a =? -1));
  do a <- sys_call (SysBindTcp sock_fd_ port);
  do _ <- PCHECK (ret a =? 0);
  do a <- sys_call (SysListen sock_fd_ 1);
  do _ <- PCHECK (ret a =? 0);
  sret sock_fd_.

(** ** What success means

    Case analysis on the answers and on the checks, in the order of the calls. *)
Ltac setup_cases :=
  repeat first
    [ progress cbn [sbind sret sys_call PCHECK answers trace]
    | match goal with
      | |- context [match ?l with [] => _ | _ :: _ => _ end] => destruct l
      | |- context [PCHECK ?b] => unfold PCHECK at 1; destruct b eqn:?
      end
    | progress unfold sbind at 1
    | progress unfold sys_call at 1 ].
Ltac bool_facts :=
  repeat match goal with
  | H : negb _ = true |- _ => apply negb_true_iff in H
  | H : (_ =? _) = true |- _ => apply Z.eqb_eq in H
  | H : (_ =? _) = false |- _ => apply Z.eqb_neq in H
  | H : (_ <=? _) = true |- _ => apply Z.leb_le in H
  end.

(** A run in which the checks are known to hold. *)
Ltac setup_run :=
  repeat first
    [ progress cbn [negb answers trace sret]
    | match goal with
      | H : ret ?a = ?z |- context [ret ?a] => rewrite H
      | H : ?z ≠ -1 |- context [?z =? -1] => rewrite (proj2 (Z.eqb_neq z (-1)) H)
      | H : 0 <= ?z |- context [0 <=? ?z] => rewrite (proj2 (Z.leb_le 0 z) H)
      end
    | rewrite Z.eqb_refl ].

(** The port is opened when the three calls succeed, and is then configured from its own
    settings. *)
Theorem Sbus_Init_ok (name : list Z) (l : list answer) (t : list syscall) (fd : Z) (s : Sys) :
  Sbus_Init name (MkSys l t) = (Ok fd, s) <->
  ∃ a b c, l = a :: b :: c :: answers s ∧ ret a = fd ∧ fd ≠ -1 ∧ ret b = 0 ∧ ret c = 0
    ∧ trace s = t ++ [SysOpen name; SysTCGETS2 fd; SysTCSETS2 fd (configure (ans_tio b))].
Proof.
  split.
  - unfold Sbus_Init. setup_cases; try done. intros [= <- <-]. bool_facts. do 3 eexists. by rewrite <- !app_assoc.
  - intros (a & b & c & -> & <- & Ha & Hb & Hc & E). unfold Sbus_Init, sbind, sys_call, PCHECK. cbn [answers trace].
    setup_run. rewrite <- !app_assoc. cbn [app]. rewrite <- E. by destruct s.
Qed.

(** The wing's socket accepts one connection at a time and does not block; the flags it
    had are kept. *)
Theorem InitSocket_ok (port : Z) (l : list answer) (t : list syscall) (fd : Z) (s : Sys) :
  InitSocket port (MkSys l t) = (Ok fd, s) <->
  ∃ a r b c d e, l = a :: r :: b :: c :: d :: e :: answers s
    ∧ ret a = fd ∧ ret b ≠ -1 ∧ ret c ≠ -1 ∧ ret d = 0 ∧ ret e = 0
    ∧ trace s = t ++ [SysSocketTcp; SysReuseAddr fd; SysGetFlags fd; SysSetFlags fd (Z.lor (ret b) O_NONBLOCK);
                      SysBindTcp fd port; SysListen fd 1].
Proof.
  split.
  - unfold InitSocket. setup_cases; try done. intros [= <- <-]. bool_facts. do 6 eexists. by rewrite <- !app_assoc.
  - intros (a & r & b & c & d & e & -> & <- & Hb & Hc & Hd & He & E). unfold InitSocket, sbind, sys_call, PCHECK. cbn [answers trace].
    setup_run. rewrite <- !app_assoc. cbn [app]. rewrite <- E. by destruct s.
Qed.

(** The answers to requests for an interface that does not exist, each with the end of the
    sleep after it. *)
Definition absent (fails : list (answer * answer)) : list answer := fails ≫= λ p, [p.1; p.2].

(** The requests and sleeps of [n] failures. *)
Definition retries (fd : Z) (n : nat) : list syscall := concat (repeat [SysSIOCGIFINDEX fd; SysSleep 1000] n).

(** The loop ends with the first answer that the interface exists, a second after each one
    that it does not. *)
Lemma wait_interface_ok fd ix s : ∀ l t,
  wait_interface fd l t = (Ok ix, s) <->
  ∃ fails a, l = absent fails ++ a :: answers s ∧ Forall (λ p, ret p.1 ≠ 0) fails ∧ ret a = 0
    ∧ ans_ifindex a = ix ∧ trace s = t ++ retries fd (length fails) ++ [SysSIOCGIFINDEX fd].
Proof.
  split.
  - revert t. induction l as [l IH] using (induction_ltof1 _ (@length answer)). intros t.
    destruct l as [|a l]; [done|]. cbn [wait_interface]. destruct (Z.eqb_spec (ret a) 0) as [Ha|Ha].
    { intros [= <- <-]. by exists [], a. }
    destruct l as [|b l]; [done|]. intros (fails & c & -> & Hf & Hc & Hi & Ht)%IH; [|unfold ltof; cbn; lia].
    exists ((a, b) :: fails), c. split_and!; [done|by constructor|done|done|]. rewrite Ht, <- !app_assoc. done.
  - intros (fails & a & -> & Hf & Ha & Hi & Ht). revert t Ht. induction Hf as [|[x y] fails Hx Hf IH]; intros t Ht.
    + cbn. rewrite Ha, Hi. cbn in *. rewrite <- Ht. by destruct s.
    + cbn [absent mbind list_bind fst snd app wait_interface]. cbn in Hx. rewrite (proj2 (Z.eqb_neq _ _) Hx). cbn [fst snd app]. apply IH.
      rewrite Ht, <- !app_assoc. done.
Qed.

(** The CAN node's socket is bound to the interface found, blocks, and gives up a read after a
    second; the node waits a second between two requests for the interface. *)
Theorem CanNode_open_ok (l : list answer) (t : list syscall) (fd : Z) (s : Sys) :
  CanNode_open (MkSys l t) = (Ok fd, s) <->
  ∃ a fails i b c d e, l = a :: absent fails ++ i :: b :: c :: d :: e :: answers s
    ∧ ret a = fd ∧ 0 <= fd ∧ Forall (λ p, ret p.1 ≠ 0) fails ∧ ret i = 0
    ∧ ret b = 0 ∧ ret c ≠ -1 ∧ ret d ≠ -1 ∧ ret e = 0
    ∧ trace s = t ++ [SysSocketCan] ++ retries fd (length fails)
        ++ [SysSIOCGIFINDEX fd; SysReceiveTimeout fd 1 0; SysGetFlags fd;
            SysSetFlags fd (Z.land (ret c) (Z.lnot O_NONBLOCK)); SysBindCan fd (ans_ifindex i)].
Proof.
  split.
  - unfold CanNode_open. unfold sbind at 1, sys_call at 1. cbn [answers trace]. destruct l as [|a l]; [done|].
    unfold sbind at 1, PCHECK at 1. destruct (0 <=? ret a) eqn:Ha; [|done]. unfold sbind at 1. cbn [answers trace].
    destruct (wait_interface _ _ _) as [[ix|] s1] eqn:Ew; [|done]. apply wait_interface_ok in Ew as (fails & i & -> & Hf & Hi & <- & Ht).
    destruct s1 as [l t1]. cbn [answers trace] in *. setup_cases; try done. intros [= <- <-]. bool_facts.
    do 7 eexists. cbn [answers trace]. split_and!; try done. by rewrite Ht, <- !app_assoc.
  - intros (a & fails & i & b & c & d & e & -> & <- & Ha & Hf & Hi & Hb & Hc & Hd & He & E).
    unfold CanNode_open, sbind, sys_call at 1, PCHECK at 1. cbn [answers trace]. setup_run.
    rewrite (proj2 (wait_interface_ok _ (ans_ifindex i) (MkSys (b :: c :: d :: e :: answers s)
      (t ++ [SysSocketCan] ++ retries (ret a) (length fails) ++ [SysSIOCGIFINDEX (ret a)])) _ _)).
    + unfold sys_call, PCHECK. cbn [answers trace]. setup_run. rewrite <- !app_assoc. cbn [app] in *. rewrite <- E. by destruct s.
    + exists fails, i. cbn [answers trace]. by rewrite <- app_assoc.
Qed.

(** An interface that never appears keeps the constructor in its loop, shutdown or not: every
    prefix of answers leaves it in a call. *)
Theorem absent_interface_never_opens (a : answer) (fails : list (answer * answer)) (t : list syscall) :
  0 <= ret a -> Forall (λ p, ret p.1 ≠ 0) fails ->
  ∃ s, CanNode_open (MkSys (a :: absent fails) t) = (Err NotReturned, s)
    ∧ trace s = t ++ [SysSocketCan] ++ retries (ret a) (length fails) ++ [SysSIOCGIFINDEX (ret a)].
Proof.
  intros Ha Hf. unfold CanNode_open, sbind, sys_call at 1, PCHECK at 1. cbn [answers trace]. setup_run.
  assert (∀ t, wait_interface (ret a) (absent fails) t
    = (Err NotReturned, MkSys [] (t ++ retries (ret a) (length fails) ++ [SysSIOCGIFINDEX (ret a)]))) as ->.
  { clear t. induction Hf as [|[x y] fails Hx Hf IH]; intros t; [done|].
    cbn [absent mbind list_bind fst snd app wait_interface] in *. rewrite (proj2 (Z.eqb_neq _ _) Hx), IH.
    rewrite <- !app_assoc. done. }
  eexists. split; [done|]. cbn. by rewrite <- !app_assoc.
Qed.

(** ** The format of the line *)

(** A field set after its mask was cleared has its new value. *)
Lemma set_field c m v k r :
  Z.land m k = k -> Z.land v k = r -> Z.land (Z.lor (Z.land c (Z.lnot m)) v) k = r.
Proof.
  intros Hk <-. apply Z.bits_inj'. intros n Hn. apply (f_equal (λ z, Z.testbit z n)) in Hk.
  rewrite !Z.land_spec, !Z.lor_spec, !Z.land_spec, Z.lnot_spec in * by done.
  destruct (Z.testbit c n), (Z.testbit m n), (Z.testbit v n), (Z.testbit k n); done.
Qed.

Lemma set_flag x v k : Z.land v k = k -> Z.land (Z.lor x v) k = k.
Proof.
  intros Hk. apply Z.bits_inj'. intros n Hn. apply (f_equal (λ z, Z.testbit z n)) in Hk.
  rewrite !Z.land_spec, !Z.lor_spec in *. by destruct (Z.testbit x n), (Z.testbit v n), (Z.testbit k n).
Qed.

Lemma clear_field c m k : Z.land m k = k -> Z.land (Z.land c (Z.lnot m)) k = 0.
Proof. intros Hk. rewrite <- (Z.lor_0_r (Z.land c _)). by apply set_field. Qed.

(** Bits of masks: an equation is decided by the equations between the masks, bit by bit. *)
Ltac mask_bits :=
  apply Z.bits_inj'; let n := fresh in let Hn := fresh in intros n Hn;
  repeat match goal with H : @eq Z _ _ |- _ => apply (f_equal (λ z, Z.testbit z n)) in H end;
  repeat (rewrite ?Z.bits_0, ?Z.land_spec, ?Z.lor_spec, ?Z.ldiff_spec, ?Z.lnot_spec in * by done);
  repeat match goal with
         | |- context [Z.testbit ?z n] => destruct (Z.testbit z n)
         | H : context [Z.testbit ?z n] |- _ => destruct (Z.testbit z n)
         end;
  cbn in *; congruence.

(** The masks that [Init] sets or clears in [c_cflag]. *)
Definition line_mask : Z := Z.lor (Z.lor (Z.lor (Z.lor CBAUD CSIZE) CSTOPB) PARENB) PARODD.

(** The port that [Init] leaves is the line of an S.BUS receiver: eight data bits, even
    parity, two stop bits and 100000 bits per second, read without echo, line editing or
    flow control; the other control flags of the port are kept. *)
Theorem serial_line_format {FL : SysFlagsLaws F} (tio : Termios) :
  let t := configure tio in
  Z.land (c_cflag t) CBAUD = BOTHER ∧ c_ispeed t = 100000 ∧ c_ospeed t = 100000
  ∧ Z.land (c_cflag t) CSIZE = CS8
  ∧ Z.land (c_cflag t) PARENB = PARENB ∧ Z.land (c_cflag t) PARODD = 0
  ∧ Z.land (c_cflag t) CSTOPB = CSTOPB
  ∧ Z.ldiff (c_cflag t) line_mask = Z.ldiff (c_cflag tio) line_mask
  ∧ Z.land (c_iflag t) IXON = 0 ∧ Z.land (c_lflag t) ICANON = 0 ∧ Z.land (c_lflag t) ECHO = 0.
Proof.
  pose proof BOTHER_rate as Hb. pose proof CS8_size as H8. pose proof iflag_disjoint as Hi.
  pose proof (cflag_disjoint 0 1 _ _ eq_refl eq_refl ltac:(lia)) as D01.
  pose proof (cflag_disjoint 0 2 _ _ eq_refl eq_refl ltac:(lia)) as D02.
  pose proof (cflag_disjoint 0 3 _ _ eq_refl eq_refl ltac:(lia)) as D03.
  pose proof (cflag_disjoint 0 4 _ _ eq_refl eq_refl ltac:(lia)) as D04.
  pose proof (cflag_disjoint 1 2 _ _ eq_refl eq_refl ltac:(lia)) as D12.
  pose proof (cflag_disjoint 1 3 _ _ eq_refl eq_refl ltac:(lia)) as D13.
  pose proof (cflag_disjoint 1 4 _ _ eq_refl eq_refl ltac:(lia)) as D14.
  pose proof (cflag_disjoint 2 4 _ _ eq_refl eq_refl ltac:(lia)) as D24.
  pose proof (cflag_disjoint 3 4 _ _ eq_refl eq_refl ltac:(lia)) as D34.
  cbn [configure c_cflag c_iflag c_lflag c_ispeed c_ospeed]. unfold line_mask. split_and!; try done.
  - apply set_field; [clear - F; mask_bits|]. clear - Hb H8 D01 D02 D03. mask_bits.
  - apply set_field; [clear - F; mask_bits|]. clear - Hb H8 D01 D12 D13. mask_bits.
  - apply set_flag. clear - F. mask_bits.
  - apply set_field; [clear - F; mask_bits|]. clear - Hb H8 D04 D14 D24 D34. mask_bits.
  - apply set_flag. clear - F. mask_bits.
  - clear - Hb H8. mask_bits.
  - apply set_field; [apply Z.land_diag|]. by rewrite Z.land_comm.
  - apply clear_field. clear - F. mask_bits.
  - apply clear_field. clear - F. mask_bits.
Qed.
End Devices.

(** The flags of the system's generic header files. *)
Definition linux_flags : SysFlags := {|
  CBAUD := 0x100f; BOTHER := 0x1000; CSIZE := 0x30; CS8 := 0x30; CSTOPB := 0x40; PARENB := 0x100; PARODD := 0x200;
  IXON := 0x400; BRKINT := 2; ISIG := 1; ICANON := 2; ECHO := 8; O_NONBLOCK := 0x800;
|}.

Lemma linux_flags_ok : SysFlagsLaws linux_flags.
Proof.
  split; try reflexivity. intros i j a b Hi Hj Hlt.
  do 5 (destruct i as [|i]; [injection Hi as <-; do 5 (destruct j as [|j]; [first [lia | injection Hj as <-; reflexivity]|]); done|]). done.
Qed.

(** A port with the settings of a terminal at 9600 baud. *)
Lemma serial_line_witness :
  let t := configure (F := linux_flags) (MkTermios 0x500 5 0xCBD 0x8A3B 1 0 9600 9600) in
  Z.land (c_cflag t) 0x30 = 0x30 ∧ c_cflag t = 0x1DF0.
Proof.
  split; [|reflexivity].
  apply (serial_line_format (F := linux_flags) (FL := linux_flags_ok) (MkTermios 0x500 5 0xCBD 0x8A3B 1 0 9600 9600)).
Defined.
