(* ===== verification/Wiring.v ===== *)
(** * Messages and the queues of the programs

    The entries of the queues (src/util/msg.proto and the files it imports), and which
    queues each node opens: a queue is named after a field of an entry, and its constructor
    in src/ipc/queue.hpp aborts when there is no such field.  The queues of the CAN node are
    named after its table of messages. *)

From Stdlib Require Import ZArith Lia Ascii String.
From stdpp Require Import base list gmap strings pretty.
From S2P Require Import Prelude Num Pgn Can Server Csv.

#[local] Open Scope Z_scope.
Open Scope list_scope.

(** ** Messages

    The fields of the entries and of the messages that the tables of Tools.v read; any other
    type is [TOther], with its name. *)

Inductive MsgType :=
| TLogEntry | TBoatState | TVector3f | TVector3d | TQuaternion | TEulerAngles | TInternalBoatState | THeadingCmd | TControlMode | TSimDebugMsg | TCANMaster | TSystemTime
| TOther (name : string).

Record FieldDesc := MkFieldDesc {
  fd_name : str;
  fd_number : Z;
  fd_type : FieldType;
  fd_message : option MsgType;
}.

Definition scalar (name : string) (n : Z) (t : FieldType) : FieldDesc := MkFieldDesc (chars name) n t None.
Definition submessage (name : string) (n : Z) (t : MsgType) : FieldDesc := MkFieldDesc (chars name) n TYPE_MESSAGE (Some t).

Definition descriptor (t : MsgType) : option (list FieldDesc) :=
  match t with
  | TLogEntry => Some [
      submessage "time" 1 (TOther "google.protobuf.Timestamp");
      submessage "boat_state" 500 TBoatState; submessage "sail_cmd" 501 (TOther "SailCmd");
      submessage "rudder_cmd" 502 (TOther "RudderCmd"); submessage "wind" 503 TVector3f;
      submessage "heading_cmd" 504 THeadingCmd;
      submessage "waypoints" 505 (TOther "WaypointList");
      submessage "ballast_cmd" 506 (TOther "BallastCmd");
      submessage "rigid_wing_cmd" 507 (TOther "RigidWingCmd");
      submessage "rigid_wing_feedback" 508 (TOther "RigidWingFeedback");
      submessage "connection_status" 509 (TOther "ConnectionStatus");
      submessage "control_mode" 510 TControlMode; submessage "true_wind" 511 TVector3f;
      submessage "manual_sail_cmd" 512 (TOther "SailCmd");
      submessage "manual_rudder_cmd" 513 (TOther "RudderCmd");
      submessage "tacker_state" 514 (TOther "TackerState");
      submessage "challenge_control" 515 (TOther "ChallengeControl");
      submessage "vision_data" 516 (TOther "VisionData");
      submessage "manual_ballast_cmd" 517 (TOther "BallastCmd");
      submessage "planner_points" 518 (TOther "WaypointList");
      submessage "planner_obstacles" 519 (TOther "Obstacles");
      submessage "heel_cmd" 520 (TOther "HeelCmd");
      submessage "search_state" 521 (TOther "SearchState");
      submessage "tacker_consts" 700 (TOther "TackerConstants");
      submessage "control_consts" 701 (TOther "ControllerConstants");
      submessage "zeroing_consts" 702 (TOther "ZeroingConstants");
      submessage "ping" 2000 (TOther "PingMsg"); submessage "pong" 2001 (TOther "PongMsg");
      submessage "test_queue" 2002 (TOther "test.QueueTestMsg");
      submessage "sim_debug" 3000 TSimDebugMsg;
      submessage "internal_state" 3001 TInternalBoatState;
      submessage "sim_true_boat_state" 3002 TBoatState;
      submessage "sim_true_wind" 3003 TVector3f; submessage "sim_set_wind" 3004 TVector3f;
      submessage "orig_boat_state" 3200 TBoatState;
      submessage "orig_heading_cmd" 3201 THeadingCmd;
      submessage "sbus_value" 3500 (TOther "SBUS"); submessage "can126992" 126992 TCANMaster;
      submessage "can127250" 127250 TCANMaster; submessage "can127251" 127251 TCANMaster;
      submessage "can127257" 127257 TCANMaster; submessage "can129025" 129025 TCANMaster;
      submessage "can129026" 129026 TCANMaster; submessage "can129029" 129029 TCANMaster;
      submessage "can129033" 129033 TCANMaster; submessage "can129539" 129539 TCANMaster;
      submessage "can130306" 130306 TCANMaster; submessage "can65281" 65281 TCANMaster;
      submessage "can65282" 65282 TCANMaster; submessage "can65283" 65283 TCANMaster;
      submessage "can65284" 65284 TCANMaster; submessage "can65285" 65285 TCANMaster;
      submessage "can65296" 65296 TCANMaster; submessage "can65297" 65297 TCANMaster;
      submessage "can65312" 65312 TCANMaster]
  | TBoatState => Some [
      submessage "pos_float" 1 TVector3f; submessage "pos" 6 TVector3d;
      submessage "orientation" 2 TQuaternion; submessage "vel" 3 TVector3f;
      submessage "omega" 4 TVector3f; submessage "internal" 5 TInternalBoatState;
      submessage "euler" 11 TEulerAngles]
  | TVector3f => Some [
      scalar "x" 1 TYPE_FLOAT; scalar "y" 2 TYPE_FLOAT; scalar "z" 3 TYPE_FLOAT]
  | TVector3d => Some [
      scalar "x" 1 TYPE_DOUBLE; scalar "y" 2 TYPE_DOUBLE; scalar "z" 3 TYPE_DOUBLE]
  | TQuaternion => Some [
      scalar "w" 1 TYPE_FLOAT; scalar "x" 2 TYPE_FLOAT; scalar "y" 3 TYPE_FLOAT;
      scalar "z" 4 TYPE_FLOAT]
  | TEulerAngles => Some [
      scalar "roll" 1 TYPE_FLOAT; scalar "pitch" 2 TYPE_FLOAT; scalar "yaw" 3 TYPE_FLOAT]
  | TInternalBoatState => Some [
      scalar "sail" 1 TYPE_FLOAT; scalar "rudder" 2 TYPE_FLOAT;
      scalar "ballast" 3 TYPE_FLOAT; scalar "saildot" 4 TYPE_FLOAT;
      scalar "rudderdot" 5 TYPE_FLOAT; scalar "ballastdot" 6 TYPE_FLOAT]
  | THeadingCmd => Some [
      scalar "heading" 9 TYPE_FLOAT; scalar "extra_sail" 10 TYPE_FLOAT]
  | TControlMode => Some [
      scalar "winch_mode" 1 CONTROL_MODE; scalar "tacker" 2 (TYPE_ENUM [0; 1; 2; 3; 4]);
      scalar "rudder_mode" 3 CONTROL_MODE; scalar "rigid_mode" 4 CONTROL_MODE;
      scalar "ballast_mode" 5 CONTROL_MODE]
  | TSimDebugMsg => Some [
      submessage "fs" 1 TVector3f; submessage "fr" 2 TVector3f; submessage "fk" 3 TVector3f;
      submessage "fh" 4 TVector3f; submessage "fnet" 5 TVector3f; submessage "taus" 6 TVector3f;
      submessage "taur" 7 TVector3f; submessage "tauk" 8 TVector3f; submessage "tauh" 9 TVector3f;
      submessage "tauright" 10 TVector3f; submessage "taunet" 11 TVector3f]
  | TCANMaster => Some [
      scalar "outgoing" 1 TYPE_BOOL; submessage "sys_time" 126992 TSystemTime;
      submessage "heading" 127250 (TOther "VesselHeading");
      submessage "rate_turn" 127251 (TOther "RateOfTurn");
      submessage "attitude" 127257 (TOther "Attitude");
      submessage "pos_rapid_update" 129025 (TOther "PosRapidUpdate");
      submessage "cog_rapid_update" 129026 (TOther "COGSOGRapidUpdate");
      submessage "gnss_pos" 129029 (TOther "GNSSPositionData");
      submessage "time_and_date" 129033 (TOther "TimeDate");
      submessage "gnss_dop" 129539 (TOther "GNSSDOP");
      submessage "wind_data" 130306 (TOther "WindData");
      submessage "analog_pot" 65281 (TOther "AnalogPot");
      submessage "pwm_write" 65282 (TOther "PWMWrite");
      submessage "debug_scamp1" 65283 (TOther "DebugSCAMP");
      submessage "debug_scamp2" 65284 (TOther "DebugSCAMP");
      submessage "ballast_state" 65285 (TOther "BallastState");
      submessage "sailbot_state" 65296 (TOther "SailbotState");
      submessage "sailbot_conn" 65297 (TOther "SailbotConn");
      submessage "battery_voltage" 65312 (TOther "BatteryVoltage")]
  | TSystemTime => Some [
      scalar "SID" 1 TYPE_UINT32; scalar "date" 4 TYPE_UINT32;
      scalar "time" 5 TYPE_UINT32]
  | TOther _ => None
  end.

Definition find_field (name : str) (d : list FieldDesc) : option FieldDesc :=
  find (λ f, bool_decide (fd_name f = name)) d.

#[global] Instance FieldDesc_number : NumberField FieldDesc := {| field_type := fd_type; field_number := fd_number |}.

(** What the reflection of the message library promises: it follows the definitions of the
    messages. *)
Class Described {M : Type} (RF : Reflection M FieldDesc) := {
  msg_type : M -> MsgType;
  find_described m d name :
    descriptor (msg_type m) = Some d -> FindFieldByName m name = find_field name d;
  cpp_described f : fd_type f = TYPE_MESSAGE -> cpp_type f = CPPTYPE_MESSAGE;
  sub_described m f t : fd_message f = Some t -> msg_type (GetMessage m f) = t;
}.

(** *** The queues of the logger *)

(** [lowercase_name] of a field. *)
Definition lower (c : ascii) : ascii :=
  let n := nat_of_ascii c in if ((65 <=? n) && (n <=? 90))%nat then ascii_of_nat (n + 32) else c.
Definition lowercase_name (f : FieldDesc) : str := lower <$> fd_name f.

(** The queues that the logger's constructor starts a thread for: one per field of an entry. *)
Definition logged_queues : list str := lowercase_name <$> default [] (descriptor TLogEntry).


(** ** Opening a queue *)

(** The constructor of [ProtoQueue]: the field of an entry with the queue's name. *)
Definition ProtoQueue_field (name : str) : result CsvErr FieldDesc :=
  of_option NoField (descriptor TLogEntry ≫= find_field name).

(** The name of a type in the definitions of the entries. *)
Definition type_name (t : MsgType) : string :=
  match t with
  | TLogEntry => "LogEntry" | TBoatState => "BoatState" | TVector3f => "Vector3f" | TVector3d => "Vector3d"
  | TQuaternion => "Quaternion" | TEulerAngles => "EulerAngles" | TInternalBoatState => "InternalBoatState"
  | THeadingCmd => "HeadingCmd" | TControlMode => "ControlMode" | TSimDebugMsg => "SimDebugMsg"
  | TCANMaster => "can.CANMaster" | TSystemTime => "SystemTime"
  | TOther name => name
  end.

(** ** The queues of the nodes

    For each node, the queues it writes and those it has a handler for, with the type of
    their messages. *)
Record NodeQueues := MkNodeQueues { writes : list (string * string); reads : list (string * string) }.

Definition adaptive_queues : NodeQueues := MkNodeQueues
    [("sail_cmd", "SailCmd"); ("rudder_cmd", "RudderCmd");
     ("control_consts", "ControllerConstants")]
    [("boat_state", "BoatState"); ("wind", "Vector3f"); ("heading_cmd", "HeadingCmd");
     ("control_consts", "ControllerConstants"); ("sbus_value", "SBUS")].
Definition ballast_queues : NodeQueues := MkNodeQueues
    [("ballast_cmd", "BallastCmd"); ("control_consts", "ControllerConstants")]
    [("control_consts", "ControllerConstants"); ("control_mode", "ControlMode");
     ("heading_cmd", "HeadingCmd"); ("boat_state", "BoatState")].
Definition line_plan_queues : NodeQueues := MkNodeQueues
    [("planner_points", "WaypointList"); ("heading_cmd", "HeadingCmd");
     ("tacker_state", "TackerState"); ("waypoints", "WaypointList");
     ("planner_obstacles", "Obstacles")]
    [("waypoints", "WaypointList"); ("planner_obstacles", "Obstacles");
     ("control_mode", "ControlMode"); ("boat_state", "BoatState");
     ("true_wind", "Vector3f")].
Definition line_tacking_queues : NodeQueues := MkNodeQueues
    [("tacker_consts", "TackerConstants"); ("heading_cmd", "HeadingCmd");
     ("tacker_state", "TackerState"); ("waypoints", "WaypointList")]
    [("tacker_consts", "TackerConstants"); ("true_wind", "Vector3f");
     ("wind", "Vector3f"); ("boat_state", "BoatState");
     ("control_mode", "ControlMode"); ("waypoints", "WaypointList")].
Definition scamp_queues : NodeQueues := MkNodeQueues
    [("internal_state", "InternalBoatState"); ("can65282", "can.CANMaster");
     ("zeroing_consts", "ZeroingConstants")]
    [("zeroing_consts", "ZeroingConstants"); ("can65281", "can.CANMaster");
     ("can65285", "can.CANMaster"); ("sail_cmd", "SailCmd");
     ("manual_sail_cmd", "SailCmd"); ("rudder_cmd", "RudderCmd");
     ("manual_rudder_cmd", "RudderCmd"); ("ballast_cmd", "BallastCmd");
     ("manual_ballast_cmd", "BallastCmd"); ("sbus_value", "SBUS");
     ("connection_status", "ConnectionStatus"); ("control_mode", "ControlMode")].
Definition simple_queues : NodeQueues := MkNodeQueues
    [("sail_cmd", "SailCmd"); ("rudder_cmd", "RudderCmd"); ("heel_cmd", "HeelCmd");
     ("rigid_wing_cmd", "RigidWingCmd"); ("control_consts", "ControllerConstants")]
    [("boat_state", "BoatState"); ("control_consts", "ControllerConstants");
     ("wind", "Vector3f"); ("heading_cmd", "HeadingCmd");
     ("control_mode", "ControlMode"); ("sbus_value", "SBUS")].
Definition waypoint_manager_queues : NodeQueues := MkNodeQueues
    [("control_mode", "ControlMode"); ("rudder_cmd", "RudderCmd");
     ("search_state", "SearchState"); ("heading_cmd", "HeadingCmd")]
    [("sbus_value", "SBUS"); ("tacker_state", "TackerState");
     ("challenge_control", "ChallengeControl"); ("true_wind", "Vector3f");
     ("vision_data", "VisionData"); ("boat_state", "BoatState")].
Definition state_estimator_queues : NodeQueues := MkNodeQueues
    [("boat_state", "BoatState"); ("wind", "Vector3f"); ("true_wind", "Vector3f")]
    [("can127250", "can.CANMaster"); ("can127251", "can.CANMaster");
     ("can127257", "can.CANMaster"); ("can129025", "can.CANMaster");
     ("can129026", "can.CANMaster"); ("can130306", "can.CANMaster");
     ("internal_state", "InternalBoatState"); ("can65285", "can.CANMaster")].
Definition read_sbus_queues : NodeQueues := MkNodeQueues
    [("sbus_value", "SBUS")]
    [].
Definition fake_airmar_queues : NodeQueues := MkNodeQueues
    [("can127250", "can.CANMaster"); ("can127251", "can.CANMaster");
     ("can127257", "can.CANMaster"); ("can129025", "can.CANMaster");
     ("can129026", "can.CANMaster"); ("can130306", "can.CANMaster")]
    [("sim_true_boat_state", "BoatState"); ("sim_true_wind", "Vector3f")].
Definition fake_internal_sensors_queues : NodeQueues := MkNodeQueues
    [("internal_state", "InternalBoatState")]
    [("sim_true_boat_state", "BoatState")].
Definition sim_inter_queues : NodeQueues := MkNodeQueues
    [("sim_true_boat_state", "BoatState"); ("sim_true_wind", "Vector3f")]
    [("sail_cmd", "SailCmd"); ("rudder_cmd", "RudderCmd");
     ("ballast_cmd", "BallastCmd"); ("sim_set_wind", "Vector3f");
     ("orig_boat_state", "BoatState")].
Definition sim_physics_queues : NodeQueues := MkNodeQueues
    [("sim_debug", "SimDebugMsg")]
    [].
Definition monitor_queues : NodeQueues := MkNodeQueues
    [("can65296", "can.CANMaster"); ("can65297", "can.CANMaster")]
    [("connection_status", "ConnectionStatus"); ("control_mode", "ControlMode");
     ("rigid_wing_feedback", "RigidWingFeedback")].
Definition rigid_wing_queues : NodeQueues := MkNodeQueues
    [("rigid_wing_feedback", "RigidWingFeedback")]
    [("rigid_wing_cmd", "RigidWingCmd")].
Definition server_queues : NodeQueues := MkNodeQueues
    [("connection_status", "ConnectionStatus")]
    [].
Definition can_ping_queues : NodeQueues := MkNodeQueues
    [("can65284", "can.CANMaster")]
    [("can65283", "can.CANMaster")].
Definition ping_queues : NodeQueues := MkNodeQueues
    [("ping", "PingMsg")]
    [("pong", "PongMsg")].
Definition pong_queues : NodeQueues := MkNodeQueues
    [("pong", "PongMsg")]
    [("ping", "PingMsg")].
Definition log_replay_queues : NodeQueues := MkNodeQueues
    [("pong", "PongMsg")]
    [("can65282", "can.CANMaster"); ("can126992", "can.CANMaster");
     ("can127250", "can.CANMaster"); ("can127257", "can.CANMaster");
     ("can130306", "can.CANMaster"); ("can129025", "can.CANMaster");
     ("can129539", "can.CANMaster"); ("boat_state", "BoatState");
     ("can65283", "can.CANMaster"); ("ping", "PingMsg")].
Definition logsim_queues : NodeQueues := MkNodeQueues
    [("sail_cmd", "SailCmd")]
    [("orig_boat_state", "BoatState")].

Definition program_queues : list NodeQueues :=
  [adaptive_queues; ballast_queues; line_plan_queues; line_tacking_queues;
   scamp_queues; simple_queues; waypoint_manager_queues; state_estimator_queues;
   read_sbus_queues; fake_airmar_queues; fake_internal_sensors_queues; sim_inter_queues;
   sim_physics_queues; monitor_queues; rigid_wing_queues; server_queues;
   can_ping_queues; ping_queues; pong_queues; log_replay_queues;
   logsim_queues].

(** [snprintf(queue_name, 16, "can%u", pgn)] *)
Definition can_queue_name (pgn : Z) : str := take 15 (chars ("can" +:+ pretty (Z.to_N pgn))).

(** A field of an entry that holds messages of a type. *)
Definition queue_typed (q : string * string) : bool :=
  match ProtoQueue_field (chars q.1) with
  | Ok f => bool_decide (type_name <$> fd_message f = Some q.2)
  | Err _ => false
  end.

(** Every queue that a node opens exists, so that no constructor aborts, and its messages
    have the type of the field that they are copied to; the readers and writers of a queue
    therefore agree on its type. *)
Theorem program_queues_typed (nd : NodeQueues) (q : string * string) :
  nd ∈ program_queues -> q ∈ writes nd ++ reads nd ->
  ∃ f, ProtoQueue_field (chars q.1) = Ok f ∧ type_name <$> fd_message f = Some q.2.
Proof.
  intros Hn Hq. assert (forallb (λ nd, forallb queue_typed (writes nd ++ reads nd)) program_queues = true) as H
    by (vm_compute; reflexivity).
  rewrite forallb_forall in H. specialize (H nd (proj1 (list_elem_of_In _ _) Hn)). rewrite forallb_forall in H.
  specialize (H q (proj1 (list_elem_of_In _ _) Hq)). unfold queue_typed in H. destruct (ProtoQueue_field _) as [f|]; [|done].
  exists f. split; [done|]. by apply bool_decide_eq_true in H.
Qed.

Lemma program_queues_agree (nd nd' : NodeQueues) (name t t' : string) :
  nd ∈ program_queues -> nd' ∈ program_queues ->
  (name, t) ∈ writes nd ++ reads nd -> (name, t') ∈ writes nd' ++ reads nd' -> t = t'.
Proof.
  intros Hn Hn' Hq Hq'. destruct (program_queues_typed nd _ Hn Hq) as (f & E & Ht).
  destruct (program_queues_typed nd' _ Hn' Hq') as (f' & E' & Ht'). cbn [fst snd] in *. congruence.
Qed.

(** *** The CAN node *)

Section CanQueues.
Context {D : Type} {ND : Num D} {M : Type} {PM : ProtoMsg D M}.

Definition can_queue_ok (n : Z) : bool :=
  match FindPgn n with
  | None => true
  | Some _ => match ProtoQueue_field (can_queue_name n) with
              | Ok f => (fd_number f =? n) && bool_decide (type_name <$> fd_message f = Some (type_name TCANMaster))
              | Err _ => false
              end
  end.

(** Every message of the table that has a protocol buffer has a queue, which is the field of
    the same number. *)
Theorem can_queues_exist (p : Pgn D) (d : Descriptor) :
  p ∈ pgnList -> FindPgn (pgn p) = Some d ->
  ∃ f, ProtoQueue_field (can_queue_name (pgn p)) = Ok f ∧ fd_number f = pgn p
    ∧ type_name <$> fd_message f = Some (type_name TCANMaster).
Proof.
  intros Hp Hd. assert (forallb can_queue_ok (pgn <$> pgnList (D := D)) = true) as H by (vm_compute; reflexivity).
  rewrite forallb_forall in H. specialize (H (pgn p) (proj1 (list_elem_of_In _ _) (list_elem_of_fmap_2 pgn _ _ Hp))).
  unfold can_queue_ok in H. rewrite Hd in H. destruct (ProtoQueue_field _) as [f|]; [|done].
  apply andb_prop in H as [Hn Ht]. exists f. split_and!; [done|by apply Z.eqb_eq|by apply bool_decide_eq_true in Ht].
Qed.

(** The node has a handler for the queues that it writes itself; what it received from the
    bus it does not send again. *)
Theorem received_not_resent (id0 : CANID) (frame0 frame : can_frame) (msgs msgs' : gmap Z (CANMessage D M))
    (out : CANMaster M) (n : Z) :
  HandleFrame msgs frame = Ok (msgs', Some out) -> SendMessage id0 frame0 msgs' out n = Ok None.
Proof.
  unfold HandleFrame. destruct (msgs !! _) as [m|]; [|done]. destruct (store_frame m frame) as [[[m1 start] dlc]|]; [|done].
  cbn [rbind]. destruct (negb (is_long m1) || _); [|done]. unfold DecodeAndSend.
  destruct (FindPgn _); [|done]. destruct (decode_fields _ _ _ _ _ _) as [m2|]; [|done]. cbn [rbind].
  intros E. apply (f_equal (λ r, match r with Ok (_, Some o) => outgoing_value o | _ => true end)) in E.
  cbv beta iota in E. unfold SendMessage. by rewrite <- E.
Qed.
End CanQueues.
