(* ===== verification/Tools.v ===== *)
(** * Tools and test fixtures

    The programs that write a table of a run (src/sim/basic_sim_main.cc,
    src/util/logsim_main.cc and log-replay-main.cc) with the columns they ask for, checked
    against the definitions of the messages (Wiring.v), the nodes that exchange test messages (src/util/ping.cc and pong.cc, src/can/can-ping.cc), and the
    fixture of the tests that use the simulated clock (src/util/testing.cc and testing.h). *)

From Stdlib Require Import ZArith Lia Ascii String Floats.
From stdpp Require Import base list gmap strings relations.
From S2P Require Import Prelude Num NumF Pgn Can Messages ActuatorBus Server Csv Wiring Clock.

#[local] Open Scope Z_scope.
Open Scope list_scope.

(** ** Columns *)

Definition col (path name : string) : str * str := (chars path, chars name).

Definition LOG_VECTOR (path name : string) : list (str * str) :=
  [col (path +:+ ".x") (name +:+ " X"); col (path +:+ ".y") (name +:+ " Y"); col (path +:+ ".z") (name +:+ " Z")].

Definition TRUE_STATE : string := "sim_true_boat_state".

(** The table of a simulation without inputs. *)
Definition basic_sim_columns : list (str * str) :=
  [col (TRUE_STATE +:+ ".internal.sail") "Sail";
   col (TRUE_STATE +:+ ".internal.rudder") "Rudder";
   col (TRUE_STATE +:+ ".pos.x") "Boat X";
   col (TRUE_STATE +:+ ".pos.y") "Boat Y";
   col (TRUE_STATE +:+ ".vel.x") "Boat Vel X";
   col (TRUE_STATE +:+ ".vel.y") "Boat Vel Y";
   col (TRUE_STATE +:+ ".orientation.w") "Quat W";
   col (TRUE_STATE +:+ ".orientation.x") "Quat X";
   col (TRUE_STATE +:+ ".orientation.y") "Quat Y";
   col (TRUE_STATE +:+ ".orientation.z") "Quat Z";
   col "wind.x" "Wind X";
   col "wind.y" "Wind Y"] ++
  LOG_VECTOR "sim_debug.fs" "Sail Force" ++
  LOG_VECTOR "sim_debug.fr" "Rudder Force" ++
  LOG_VECTOR "sim_debug.fk" "Keel Force" ++
  LOG_VECTOR "sim_debug.fh" "Hull Force" ++
  LOG_VECTOR "sim_debug.fnet" "Net Force" ++
  LOG_VECTOR "sim_debug.taus" "Sail Torque" ++
  LOG_VECTOR "sim_debug.taur" "Rudder Torque" ++
  LOG_VECTOR "sim_debug.tauk" "Keel Torque" ++
  LOG_VECTOR "sim_debug.tauh" "Hull Torque" ++
  LOG_VECTOR "sim_debug.tauright" "Righting Moment" ++
  LOG_VECTOR "sim_debug.taunet" "Net Torque" ++
  [col "heading_cmd.heading" "Heading Goal"].

(** The table of a simulation driven by a log. *)
Definition logsim_columns : list (str * str) :=
  [col "wind.x" "Wind X";
   col "wind.y" "Wind Y";
   col "sim_true_boat_state.internal.sail" "Sail";
   col "sim_true_boat_state.internal.rudder" "Rudder";
   col "sim_true_boat_state.euler.yaw" "Yaw";
   col "sim_true_boat_state.euler.roll" "Heel";
   col "sim_true_boat_state.euler.pitch" "Pitch";
   col "boat_state.pos.x" "Longitude";
   col "boat_state.pos.y" "Latitude";
   col "sim_true_boat_state.vel.x" "Vel X";
   col "sim_true_boat_state.vel.y" "Vel Y";
   col "true_wind.x" "True Wind X";
   col "true_wind.y" "True Wind Y";
   col "can126992.sys_time.time" "True Time";
   col "heading_cmd.heading" "Heading Cmd";
   col "control_mode.rudder_mode" "Rudder Mode";
   col "orig_heading_cmd.heading" "Orig Heading Cmd";
   col "orig_boat_state.internal.sail" "Orig Sail";
   col "orig_boat_state.internal.rudder" "Orig Rudder";
   col "orig_boat_state.euler.yaw" "Orig Yaw";
   col "orig_boat_state.euler.roll" "Orig Heel";
   col "orig_boat_state.euler.pitch" "Orig Pitch";
   col "orig_boat_state.pos.x" "Orig Longitude";
   col "orig_boat_state.pos.y" "Orig Latitude";
   col "orig_boat_state.vel.x" "Orig Vel X";
   col "orig_boat_state.vel.y" "Orig Vel Y"] ++
  LOG_VECTOR "sim_debug.fs" "Sail Force" ++
  LOG_VECTOR "sim_debug.fr" "Rudder Force" ++
  LOG_VECTOR "sim_debug.fk" "Keel Force" ++
  LOG_VECTOR "sim_debug.fh" "Hull Force" ++
  LOG_VECTOR "sim_debug.fnet" "Net Force" ++
  LOG_VECTOR "sim_debug.taus" "Sail Torque" ++
  LOG_VECTOR "sim_debug.taur" "Rudder Torque" ++
  LOG_VECTOR "sim_debug.tauk" "Keel Torque" ++
  LOG_VECTOR "sim_debug.tauh" "Hull Torque" ++
  LOG_VECTOR "sim_debug.tauright" "Righting Moment" ++
  LOG_VECTOR "sim_debug.taunet" "Net Torque".

(** The table of a replay. *)
Definition replay_columns : list (str * str) :=
  [col "wind.x" "Wind X";
   col "wind.y" "Wind Y";
   col "boat_state.internal.sail" "Sail";
   col "boat_state.internal.rudder" "Rudder";
   col "boat_state.euler.yaw" "Yaw";
   col "boat_state.euler.roll" "Heel";
   col "boat_state.euler.pitch" "Pitch";
   col "boat_state.omega.z" "Rate of Turn";
   col "boat_state.pos.x" "Longitude";
   col "boat_state.pos.y" "Latitude";
   col "boat_state.vel.x" "Vel X";
   col "boat_state.vel.y" "Vel Y";
   col "true_wind.x" "True Wind X";
   col "true_wind.y" "True Wind Y";
   col "can126992.sys_time.time" "True Time";
   col "heading_cmd.heading" "Heading Cmd";
   col "control_mode.rudder_mode" "Rudder Mode"].

(** ** Paths of fields *)

(** A path from a message of type [t] to a number. *)
Fixpoint path_ok (t : MsgType) (names : list str) : bool :=
  match names with
  | [] => false
  | name :: names =>
      match descriptor t ≫= find_field name with
      | None => false
      | Some f =>
          match names, fd_type f, fd_message f with
          | [], TYPE_MESSAGE, _ | [], TYPE_STRING, _ | [], TYPE_BYTES, _ => false
          | [], _, _ => true
          | _ :: _, TYPE_MESSAGE, Some t => path_ok t names
          | _ :: _, _, _ => false
          end
      end
  end.

Definition column_ok (c : str) : bool := path_ok TLogEntry (split_on "." c).

(** The tables that the programs write. *)
Definition tool_tables : list (list (str * str)) := [basic_sim_columns; logsim_columns; replay_columns].

(** What a table needs: rows that fit, no column twice, and paths to numbers. *)
Definition table_ok (data : list (str * str)) : bool :=
  (length data <=? 124)%nat && bool_decide (NoDup data.*1) && forallb column_ok data.*1.

Lemma tool_tables_ok : forallb table_ok tool_tables = true.
Proof. vm_compute. reflexivity. Qed.

(** *** The queues of the logger *)

Definition names_logged (data : list (str * str)) : bool :=
  forallb (λ c, bool_decide (msg_name c ∈ logged_queues)) data.*1.

(** The logger has one thread per queue, and records every queue that a table reads, so that
    the table of a run can be written again from its log. *)
Theorem table_queues_logged (data : list (str * str)) (c : str) :
  data ∈ tool_tables -> c ∈ data.*1 -> NoDup logged_queues ∧ msg_name c ∈ logged_queues.
Proof.
  intros Hd Hc. assert (bool_decide (NoDup logged_queues) && forallb names_logged tool_tables = true) as [Hn Ht]%andb_prop
    by (vm_compute; reflexivity).
  split; [by apply bool_decide_eq_true in Hn|]. rewrite forallb_forall in Ht.
  specialize (Ht data (proj1 (list_elem_of_In _ _) Hd)). unfold names_logged in Ht. rewrite forallb_forall in Ht.
  by apply (bool_decide_eq_true_1 (msg_name c ∈ logged_queues)), (Ht c), list_elem_of_In.
Qed.

Section Tables.
Context {D : Type} {ND : Num D} {M : Type} {RF : Reflection M FieldDesc}
        {DS : Described RF} {PM : ProtoMsg D M}.

Lemma path_ok_value t names : ∀ m : M,
  msg_type m = t -> path_ok t names = true -> is_Some (path_value (D := D) m names).
Proof.
  revert t. induction names as [|name names IH]; intros t m <-; [done|]. cbn [path_ok].
  destruct (descriptor (msg_type m)) as [d|] eqn:Ed; [|done]. cbn [mbind option_bind].
  destruct (find_field name d) as [f|] eqn:Ef; [|done]. pose proof (find_described m d name Ed) as Hf. rewrite Ef in Hf.
  destruct names as [|n2 names].
  - intros _. cbn [path_value]. rewrite Hf. by eexists.
  - destruct (fd_type f) eqn:Et; try done. destruct (fd_message f) as [t|] eqn:Em; [|done]. intros Hp.
    specialize (IH t (GetMessage m f) (sub_described m f t Em) Hp). cbn [path_value] in *. rewrite Hf. cbn [mbind option_bind].
    by rewrite (cpp_described f Et).
Qed.

(** The fields that a thread stores are columns, of the message that it parsed. *)
Definition stores_entry (data : list (str * str)) (e : csv_event (message := M)) : Prop :=
  match e with
  | CsvStore m item => msg_type m = TLogEntry ∧ item ∈ data.*1
  | _ => True
  end.

Lemma stores_entry_ok data e : table_ok data = true -> stores_entry data e -> event_ok (D := D) data.*1 e.
Proof.
  unfold table_ok. intros [_ Hc]%andb_prop. destruct e as [m item| | |]; try done. intros [Hm Hi]. split; [done|].
  apply (path_ok_value TLogEntry); [done|]. rewrite forallb_forall in Hc. by apply (Hc item), list_elem_of_In.
Qed.

(** The text of a number under [%f], [FLAGS_start_csv], and the bytes of the buffer before
    it is filled, as in Csv.v. *)
Context (fmt : D -> str) (start_csv : D) (stack : str)
        (stack_size : length stack = BUF_LEN) (fmt_width : ∀ x, (length (fmt x) <= 317)%nat).

(** C22: The simulator and the two replay programs write the table they ask for: whatever log
    entries arrive on the queues, in any interleaving of the threads, no thread fails
    (every column is the path to a number of the message types, no row leaves the buffer),
    each queue's thread stores the columns that start with its name, and the file is the
    header with the columns' titles and one row of the time and the latest values for each
    period while the logger runs. *)
Theorem tool_files_are_tables (data : list (str * str)) (evs : list csv_event) :
  data ∈ tool_tables -> Forall (stores_entry data) evs ->
  let '(s0, fields) := CsvLogger_init start_csv data in
  (∀ name, default [] (fields !! name) = filter (λ c, msg_name c = name) data.*1)
  ∧ ∃ s, csv_run fmt start_csv stack evs s0 = Ok s
      ∧ file_ s = print_header data
          ++ concat (print_row fmt <$> rows (fold_left (table_step start_csv data.*1) evs (table_init start_csv))).
Proof.
  intros Hd He. pose proof tool_tables_ok as Hok. rewrite forallb_forall in Hok.
  specialize (Hok data (proj1 (list_elem_of_In _ _) Hd)). pose proof Hok as [[Hl Hn]%andb_prop _]%andb_prop.
  apply csv_file_is_table; [done|done|by apply Nat.leb_le|by apply bool_decide_eq_true in Hn|].
  apply (Forall_impl _ _ _ He). intros e. by apply stores_entry_ok.
Qed.
End Tables.

(** *** A run *)

Module ToolExample.
#[local] Existing Instance num_poly.

(** A message: the field it is the value of, its type, its numbers and its submessages. *)
#[local] Set Warnings "-register-all".
Inductive dyn := Dyn (field : Z) (t : MsgType) (numbers : gmap Z (PVal float)) (subs : list dyn).
Definition dyn_field (m : dyn) : Z := match m with Dyn k _ _ _ => k end.
Definition dyn_type (m : dyn) : MsgType := match m with Dyn _ t _ _ => t end.
Definition dyn_numbers (m : dyn) : gmap Z (PVal float) := match m with Dyn _ _ v _ => v end.
Definition dyn_subs (m : dyn) : list dyn := match m with Dyn _ _ _ s => s end.

Definition dyn_sub (m : dyn) (f : FieldDesc) : dyn :=
  let t := default (TOther String.EmptyString) (fd_message f) in
  match find (λ m, dyn_field m =? fd_number f) (dyn_subs m) with
  | Some m => Dyn (fd_number f) t (dyn_numbers m) (dyn_subs m)
  | None => Dyn (fd_number f) t ∅ []
  end.

#[local] Instance dyn_reflection : Reflection dyn FieldDesc := {|
  empty_entry := Dyn 0 TLogEntry ∅ [];
  parse_entry _ := None;
  FindFieldByName m name := descriptor (dyn_type m) ≫= find_field name;
  HasField _ _ := true;
  cpp_type f := match fd_type f with TYPE_MESSAGE => CPPTYPE_MESSAGE | _ => CPPTYPE_NUMBER end;
  GetMessage := dyn_sub;
  MessageToJson _ := [];
  GetString _ _ := [];
  print_number _ _ := [];
  json_entry _ _ := None;
|}.

#[local, program] Instance dyn_message : ProtoMsg float dyn := {|
  pm_empty := Dyn 0 TLogEntry ∅ [];
  pm_get m k := dyn_numbers m !! k;
  pm_set m k v := Dyn (dyn_field m) (dyn_type m) (<[k := v]> (dyn_numbers m)) (dyn_subs m);
|}.
Next Obligation. done. Qed.
Next Obligation. intros m k v. apply lookup_insert_eq. Qed.
Next Obligation. intros m k k' v H. by apply lookup_insert_ne. Qed.

#[local] Instance dyn_described : Described dyn_reflection.
Proof.
  refine {| msg_type := dyn_type |}.
  - intros m d name E. cbn. by rewrite E.
  - intros f E. cbn. by rewrite E.
  - intros m f t E. cbn. unfold dyn_sub. rewrite E. by destruct (find _ _).
Defined.

Definition wind_entry : dyn :=
  Dyn 0 TLogEntry ∅ [Dyn 503 TVector3f (<[1 := VReal 2%float]> ∅) []].

Definition digit (x : float) : str := if nltb x 1%float then chars "0" else chars "1".

Definition replay_events : list csv_event :=
  [CsvTick 5; CsvStore wind_entry (chars "wind.x"); CsvStore wind_entry (chars "wind.y"); CsvTick 2000000000].

Lemma tool_files_witness :
  ∃ s, csv_run digit 0%float (repeat NUL BUF_LEN) replay_events (CsvLogger_init 0%float replay_columns).1 = Ok s
    ∧ file_ s = print_header replay_columns
        ++ concat (print_row digit <$> rows (fold_left (table_step 0%float replay_columns.*1) replay_events (table_init 0%float))).
Proof.
  assert (∀ x, (length (digit x) <= 317)%nat) as Hw by (intros x; unfold digit; destruct (nltb x _); cbn; lia).
  assert (Forall (stores_entry replay_columns) replay_events) as He.
  { apply Forall_cons_2; [done|]. apply Forall_cons_2; [split; [done|left]|].
    apply Forall_cons_2; [split; [done|right; left]|]. by repeat apply Forall_cons_2. }
  assert (replay_columns ∈ tool_tables) as Hd by (do 2 right; left).
  pose proof (tool_files_are_tables digit 0%float (repeat NUL BUF_LEN) (repeat_length _ _) Hw replay_columns replay_events Hd He) as H.
  destruct (CsvLogger_init 0%float replay_columns) as [s0 fields]. apply H.
Defined.

(** The rows of this run: the wind is in its column from the second row on. *)
Lemma replay_rows :
  rows (fold_left (table_step 0%float replay_columns.*1) replay_events (table_init 0%float))
  = [ndiv (nofZ 5) (nofZ 1000000000) :: repeat 0%float 17; 2%float :: 2%float :: repeat 0%float 16].
Proof. vm_compute. reflexivity. Qed.
End ToolExample.

(** ** Test messages *)

Section TestMessages.
Context {D : Type} {ND : Num D}.
#[local] Open Scope num_scope.

(** [Ping::Iterate]: the message sent is the next state of [msg_]; its field is a [float]. *)
Definition ping_Iterate (a : D) : D := nfloat (a + dec 1 3).

(** The [ping] handler of pong.cc: the answer does not depend on the message. *)
Definition pong_handle_ping (a : D) : D := nfloat #2.

(** The messages of the first [n] iterations. *)
Fixpoint ping_run (n : nat) (a : D) : list D :=
  match n with
  | O => []
  | S n => let a := ping_Iterate a in a :: ping_run n a
  end.
End TestMessages.

(** *** The answer to the actuator board

    [CanPing] answers [can65283] on [can65284], and the CAN node puts the answer on the
    bus. *)

Section CanPing.
Context {D : Type} {ND : Num D} {NE : NumExact D} {M : Type} {PM : ProtoMsg D M}.

(** [msg_] after the constructor. *)
Definition can_ping_init : CANMaster M := MkCANMaster (Some true) ∅.

(** [msg.debug_scamp1().data1()] *)
Definition scamp1_data1 (msg : CANMaster M) : Z :=
  match pm_get (default pm_empty (submsg msg !! 65283)) 1 with Some (VInt z) => z | _ => 0 end.

(** The handler: [msg_] is sent as it is at the end. *)
Definition can_ping_handle (msg msg_ : CANMaster M) : CANMaster M :=
  let debug_scamp2 := default pm_empty (submsg msg_ !! 65284) in
  let debug_scamp2 := pm_set debug_scamp2 1 (VInt 123) in
  let debug_scamp2 := pm_set debug_scamp2 2 (VInt (scamp1_data1 msg)) in
  MkCANMaster (outgoing msg_) (<[65284 := debug_scamp2]> (submsg msg_)).

Lemma can_ping_outgoing msgs : outgoing (fold_left (λ s m, can_ping_handle m s) msgs can_ping_init) = Some true.
Proof. induction msgs as [|m msgs IH] using rev_ind; [done|]. by rewrite fold_left_app. Qed.

Lemma debug_scamp_field (m : M) k z :
  (k = 1 ∨ k = 2) -> pm_get m k = Some (VInt z) -> GetProtoNumberFieldById DebugSCAMP m k = nofZ z.
Proof. intros [->| ->] E; unfold GetProtoNumberFieldById, GetProtoNumberField; simpl; by rewrite E. Qed.

(** Whatever the node has answered before, its next answer is a frame of the second debug PGN
    with 123 and the first word that it received. *)
Theorem can_ping_answers (id0 : CANID) (frame0 : can_frame) (msgs : list (CANMaster M)) (msg : CANMaster M) :
  CANID_ok id0 -> length (fdata frame0) = 8%nat -> 0 <= scamp1_data1 msg < 2 ^ 32 ->
  ∃ frame,
    SendMessage id0 frame0 (CanNode_msgs (M := M) pgnList)
      (fold_left (λ s m, can_ping_handle m s) (msgs ++ [msg]) can_ping_init) 65284 = Ok (Some frame)
    ∧ can_dlc frame = 8 ∧ frame_pgn frame = 65284
    ∧ fdata frame = le_bytes 4 123 ++ le_bytes 4 (scamp1_data1 msg).
Proof.
  intros Hid Hl Hz. rewrite fold_left_app. cbn [fold_left].
  pose proof (can_ping_outgoing msgs) as Ho. set (s := fold_left _ msgs _) in *.
  unfold SendMessage, outgoing_value. cbn [can_ping_handle outgoing]. rewrite Ho. cbn [default from_option id negb].
  change (CanNode_msgs (M := M) pgnList !! 65284) with (Some (CANMessage_new (M := M) pgn_Debug_SCAMP2 (MkCANMaster None ∅))).
  assert (∀ z, 0 <= z < 2 ^ 32 -> exact_int (D := D) z) as X by (intros z ?; split; [done|by apply exact_u32]).
  destruct (ConstructMessage_frame id0 frame0 (can_ping_handle msg s)
    (CANMessage_new pgn_Debug_SCAMP2 (MkCANMaster None ∅)) DebugSCAMP [123; scamp1_data1 msg]) as (frame & E & H8 & _ & Hp & Hd); try done.
  - cbn [CANMessage_new cm_pgn]. unfold pgnList. by repeat (first [left | right]).
  - cbn [CANMessage_new cm_pgn pgn_Debug_SCAMP2 fieldList forallb]. unfold sendable. cbn [fsize resolution].
    by rewrite !exact_one.
  - cbn [CANMessage_new cm_pgn can_ping_handle submsg]. change (pgn pgn_Debug_SCAMP2) with 65284. rewrite lookup_insert_eq.
    cbn [default from_option id]. unfold pgn_Debug_SCAMP2. cbn [fieldList wire_values resolution].
    change (0 + 1) with 1. change (1 + 1) with 2.
    rewrite (debug_scamp_field _ 1 123), (debug_scamp_field _ 2 (scamp1_data1 msg)) by
      first [by auto | unfold Datatypes.id; rewrite ?pm_get_set_ne by done; by rewrite pm_get_set].
    by rewrite !exact_wire by (apply X; lia).
  - exists frame. by rewrite Hd.
Qed.
End CanPing.

(** The replay tool starts and stops printing when it receives [1.5] and [1.59]; the counter
    that ping.cc sends passes both by more than the tolerance, because of the rounding of
    its sums, so none of its first 1600 messages changes what is printed. *)
Lemma ping_counter_misses :
  forallb (λ a, forallb (λ b, Bool.eqb (print_air_ (handle_ping (ND := num_poly) a (MkPong 0 b []))) b) [false; true])
    (ping_run (ND := num_poly) 1600 0%float) = true.
Proof. vm_compute. reflexivity. Qed.

(** ** The fixture of the tests with a simulated clock *)

Section Fixture.
Context {D : Type} {ND : Num D}.

(** The constructor, with the thread of the test as [i] and the start of the manager's
    thread: what it finds of the clock's static members is an argument. *)
Definition TestWrapper_new (i : nat) (c : Clock) : bool * Clock :=
  let c := CancelShutdown c in
  let '(fake_clock, c) := SetFakeClock true true c in
  let c := set_thread i Running c in
  (fake_clock, set_time 0 c).

(** [clock_->Time() + milliseconds(int(sec * 1e3))] *)
Definition sleep_end (sec : D) (c : Clock) : Z := time_ c + nint (nmul sec (nofZ 1000)) * 1000000.

Definition Sleep (i : nat) (sec : D) (c : Clock) : Clock := sleep_until i (sleep_end sec c) c.

(** Raising the shutdown, and the destructor of the test's clock. *)
Definition TearDown (i : nat) (c : Clock) : Clock := set_thread i Released (RaiseShutdown c).

(** In the first test of a process, a test's sleep takes the milliseconds asked for: once its
    thread waits it comes back exactly when the clock shows them, whatever the other threads
    do. *)
Theorem first_test_sleeps_exactly (i j : nat) (sec : D) (c c' : Clock) :
  rtc clock_step (TestWrapper_new i (clock_init 0)).2 c -> threads c !! j = Some Running ->
  rtc clock_step (Sleep j sec c) c' -> done c' = false -> threads c' !! j = Some (Waiting (sleep_end sec c)) ->
  time_ c' <= sleep_end sec c
  ∧ (threads (wait_again j (sleep_end sec c) c') !! j = Some Running <-> time_ c' = sleep_end sec c).
Proof.
  intros Hr Hj Hs Hd Hw. apply (sleep_returns_on_time 0); [|done..].
  assert (clock_step (clock_init 0) (TestWrapper_new i (clock_init 0)).2) as H0 by by apply (step_instance (clock_init 0)).
  eapply rtc_l; [exact H0|]. etransitivity; [exact Hr|]. eapply rtc_l; [by apply step_sleep|exact Hs].
Qed.
End Fixture.

(** *** The next test of the process

    A sleeper that the shutdown releases leaves its deadline in the clock's queue, which the
    next fixture does not clear. *)

(** Time stands at [s], which is the next wake-up, and every sleeper waits for later. *)
Record stopped_at (s : Z) (c : Clock) : Prop := {
  stop_time : time_ c = s;
  stop_head : head (wakeup_times_ c) = Some s;
  stop_waits i l : threads c !! i = Some (Waiting l) -> s < l;
}.

Lemma stopped_wait_again s i l c :
  stopped_at s c -> done c = false -> threads c !! i = Some (Waiting l) -> wait_again i l c = c.
Proof. intros [Ht _ Hw] Hd Hi. apply wait_again_early; [done|]. rewrite Ht. by eapply Hw. Qed.

Lemma stopped_sleep s i len c :
  stopped_at s c -> done c = false -> stopped_at s (sleep_until i len c).
Proof.
  intros [Ht Hh Hw] Hd. unfold sleep_until. destruct (Z.leb_spec len (time_ c)) as [|Hl]; [done|].
  unfold wake_up, set_wakeup. rewrite (proj2 (Z.ltb_lt _ _) Hl). cbn [set_wakeups done time_]. rewrite Hd.
  rewrite (proj2 (Z.leb_gt _ _) Hl). destruct (wakeup_times_ c) as [|x w]; [done|]. injection Hh as ->.
  split; cbn [set_thread set_wakeups time_ wakeup_times_ threads]; [done| |].
  - cbn [push]. rewrite (proj2 (Z.leb_gt len s)) by lia. cbn [drop_past]. by rewrite (proj2 (Z.ltb_ge s (time_ c))) by lia.
  - intros k l [[<- [= <-]]|[_ Hk]]%lookup_insert_Some; [lia|by eapply Hw].
Qed.

Lemma stopped_thread s i t c :
  stopped_at s c -> (∀ l, t ≠ Waiting l) -> stopped_at s (set_thread i t c).
Proof.
  intros [Ht Hh Hw] Hn. split; [done..|]. cbn [set_thread threads]. intros k l [[_ H]|[_ Hk]]%lookup_insert_Some; [by destruct (Hn l)|by eapply Hw].
Qed.

Lemma stopped_step s c c' :
  clock_step c c' -> done c' = false -> stopped_at s c ->
  stopped_at s c' ∧ ∀ i l, threads c !! i = Some (Waiting l) -> threads c' !! i = Some (Waiting l).
Proof.
  intros Hst Hd Hs. assert (done c = false) as Hc by (destruct (done c) eqn:E; [by rewrite (clock_step_done _ _ Hst E) in Hd|done]).
  destruct Hst as [i Hi|i len Hi|i len Hi|i Hi|Hn|].
  - split; [by apply stopped_thread|]. intros k l Hk. cbn. rewrite lookup_insert_ne; [done|]. intros <-. by rewrite Hi in Hk.
  - split; [by apply stopped_sleep|]. intros k l Hk. unfold sleep_until, wake_up. cbn.
    repeat case_match; try done; cbn; rewrite lookup_insert_ne; try done; intros <-; by rewrite Hi in Hk.
  - by rewrite (stopped_wait_again s) by done.
  - split; [by apply stopped_thread|]. intros k l Hk. cbn. rewrite lookup_insert_ne; [done|]. intros <-. by rewrite Hi in Hk.
  - destruct Hs as [Ht Hh Hw]. assert (next_wakeup c = s) as En.
    { unfold next_wakeup. destruct (wakeup_times_ c); [done|by injection Hh]. }
    unfold manager_tick. rewrite En. case_match; by repeat split.
  - done.
Qed.

(** From such a state on, no sleeper ever returns before the next shutdown. *)
Lemma stopped_forever s c c' :
  stopped_at s c -> rtc clock_step c c' -> done c' = false ->
  time_ c' = s ∧ ∀ i l, threads c !! i = Some (Waiting l) -> threads c' !! i = Some (Waiting l).
Proof.
  intros Hs Hr. revert Hs. induction Hr as [c|c c1 c' Hst Hr IH]; intros Hs Hd; [by destruct Hs|].
  assert (done c1 = false) as H1.
  { destruct (done c1) eqn:E; [|done]. rewrite <- Hd. symmetry.
    revert E. clear -Hr. induction Hr as [|x y z Hxy _ IH]; [done|]. intros Hx. apply IH. by eapply clock_step_done. }
  destruct (stopped_step s c c1 Hst H1 Hs) as [Hs1 Hk]. destruct (IH Hs1 Hd) as [Ht Hk']. split; [done|]. eauto.
Qed.

#[global] Instance thread_eq_dec : EqDecision thread.
Proof. solve_decision. Defined.

(** A test whose thread sleeps until 5 beside a node that waits for its trigger at 7, and is
    then torn down. *)
Definition first_test_asleep : Clock :=
  let c := (TestWrapper_new 0 (clock_init 0)).2 in
  sleep_until 0 5 (sleep_until 1 7 (set_thread 1 Running c)).
Definition first_test : Clock :=
  let c := TearDown 0 (wait_again 0 5 (manager_tick first_test_asleep)) in
  set_thread 1 Released (wait_again 1 7 c).

Lemma threads_none_running (c : Clock) :
  bool_decide (map_Forall (λ _ t, t ≠ Running) (threads c)) = true -> ∀ i, threads c !! i ≠ Some Running.
Proof. intros H%bool_decide_eq_true i Hi. by apply H in Hi. Qed.

Lemma first_test_reachable : rtc clock_step (clock_init 0) first_test.
Proof.
  eapply rtc_l; [by apply (step_instance _ 0%nat)|]. eapply rtc_l; [by apply (step_instance _ 1%nat)|].
  eapply rtc_l; [by apply (step_sleep _ 1%nat 7)|]. eapply rtc_l; [by apply (step_sleep _ 0%nat 5)|].
  eapply rtc_l; [by apply step_tick, threads_none_running|]. eapply rtc_l; [by apply (step_wake _ 0%nat 5)|].
  eapply rtc_l; [apply step_shutdown|]. eapply rtc_l; [by apply (step_cleanup _ 0%nat)|].
  eapply rtc_l; [by apply (step_wake _ 1%nat 7)|]. apply rtc_once. by apply (step_cleanup _ 1%nat).
Qed.

(** The next test's thread sleeps until 10 in the same process, and the manager ticks. *)
Definition second_test : Clock := manager_tick (sleep_until 2 10 (TestWrapper_new 2 first_test).2).

(** A first test that ran as it should and whose threads are all done makes the next test of
    its process hang: the clock stands at the deadline that a node left behind, while the
    test waits for a later one, whatever the threads do. *)
Theorem second_test_hangs :
  rtc clock_step (clock_init 0) first_test ∧ map_Forall (λ _ t, t = Released) (threads first_test)
  ∧ ∀ c', rtc clock_step second_test c' -> done c' = false ->
      time_ c' = 7 ∧ threads c' !! 2%nat = Some (Waiting 10).
Proof.
  assert (map_Forall (λ _ t, t = Released) (threads first_test)) as Hf by (apply (bool_decide_eq_true_1 (map_Forall _ _)); reflexivity).
  split_and!; [exact first_test_reachable|exact Hf|]. intros c' Hr Hd. assert (stopped_at 7 second_test) as Hs.
  { split; [reflexivity..|]. intros i l Hi.
    change (threads second_test) with (<[2%nat := Waiting 10]> (<[2%nat := Running]> (threads first_test))) in Hi.
    apply lookup_insert_Some in Hi as [[_ [= <-]]|[_ Hi]]; [lia|].
    apply lookup_insert_Some in Hi as [[_ [=]]|[_ Hi]]. by apply Hf in Hi. }
  destruct (stopped_forever 7 second_test c' Hs Hr Hd) as [Ht Hk]. split; [done|]. by apply Hk.
Qed.
