(* ===== verification/UnitTests.v ===== *)
(** * The unit tests of the repository, run on the model

    The tests that call functions of the program on numbers, src/control/line_plan_test.cc,
    src/control/util_test.cc, src/math/polygon_test.cc, src/can/can_test.cc and
    src/util/proto_util_test.cc, as lists of their expectations, in the order of the source,
    and evaluated: they check the definitions of this development against what the authors
    of the program expected of the code.  An expectation that does not hold is recorded as
    such; each of these is an expectation the code no longer meets.

    The arithmetic is binary64.  The functions of the C library are computed by power series
    after reduction of the argument, which are exact to a few units in the last place, and
    Eigen's operations by their plain definitions, except that normalizing a zero vector
    leaves it unchanged, as Eigen does. *)

From Stdlib Require Import ZArith String Floats.
From stdpp Require Import base list gmap.
From S2P Require Import Prelude Num NumF Vec Util Polygon Messages LineCost LineTacker Pgn Can.

#[local] Set Warnings "-inexact-float".

(** ** The libraries *)

Module Series.
#[local] Open Scope float_scope.

Definition horner (x : float) (cs : list float) : float := fold_right (λ c acc, c + x * acc) 0 cs.

(** The coefficients [f], [f / ((k + 1) .. (k + step))], ..., with alternating signs if
    [step] is two. *)
Fixpoint coeffs (n : nat) (step k : Z) (f : float) : list float :=
  match n with
  | O => []
  | S n => f :: coeffs n step (k + step)
             (if (step =? 2)%Z then - f / float_ofZ ((k + 1) * (k + 2)) else f / float_ofZ (k + 1))
  end.
Definition sin_coeffs : list float := Eval vm_compute in coeffs 14 2 1 1.
Definition cos_coeffs : list float := Eval vm_compute in coeffs 14 2 0 1.
Definition exp_coeffs : list float := Eval vm_compute in coeffs 10 1 0 1.
Definition atan_coeffs : list float := Eval vm_compute in
  map (λ i, (if Nat.even i then 1 else -1) / float_ofZ (2 * Z.of_nat i + 1)) (seq 0 14).

Definition pi : float := 0x1.921fb54442d18p+1.
(** The argument less its whole turns. *)
Definition reduce (x : float) : float := x - (2 * pi) * float_floor (x / (2 * pi) + 0.5).
Definition sin (x : float) : float := let y := reduce x in y * horner (y * y) sin_coeffs.
Definition cos (x : float) : float := let y := reduce x in horner (y * y) cos_coeffs.

Fixpoint square (n : nat) (x : float) : float := match n with O => x | S n => square n (x * x) end.
Definition exp (x : float) : float := square 10 (horner (x / 1024) exp_coeffs).

(** The tangent of half the angle. *)
Definition half (x : float) : float := x / (1 + sqrt (1 + x * x)).
Definition atan (x : float) : float :=
  let y := half (half (half x)) in 8 * (y * horner (y * y) atan_coeffs).
Definition atan2 (y x : float) : float :=
  if x =? 0 then if 0 <? y then pi / 2 else if y <? 0 then - (pi / 2) else 0
  else if 0 <? x then atan (y / x)
  else if 0 <=? y then atan (y / x) + pi else atan (y / x) - pi.

Definition libm : Libm :=
  {| m_sin := sin; m_cos := cos; m_atan := atan; m_atan2 := atan2; m_exp := exp; m_int_oob := - 2 ^ 31 |}.
End Series.

#[local] Instance num_series : Num float := num_float Series.libm.
#[local] Instance eigen_guarded : Eigen float :=
  let plain := eigen_plain (D := float) in
  {| dot2 := @dot2 _ _ plain; squaredNorm2 := @squaredNorm2 _ _ plain; norm2 := @norm2 _ _ plain;
     normalized2 a := let n := @norm2 _ _ plain a in if (0 <? n)%float then div2 a n else a;
     dot3 := @dot3 _ _ plain; cross3 := @cross3 _ _ plain; squaredNorm3 := @squaredNorm3 _ _ plain;
     norm3 := @norm3 _ _ plain; mat_vec := @mat_vec _ _ plain; mat_mul := @mat_mul _ _ plain;
     AngleAxis := @AngleAxis _ _ plain |}.

(** ** Expectations *)

Section Expect.
#[local] Open Scope float_scope.
Definition EXPECT_EQ (expected actual : float) : bool := expected =? actual.
Definition EXPECT_LT (a b : float) : bool := a <? b.
Definition EXPECT_NEAR (a b tol : float) : bool := abs (a - b) <=? tol.
(** Less than four units in the last place of [float] apart. *)
Definition EXPECT_FLOAT_EQ (a b : float) : bool :=
  EXPECT_NEAR (float_single a) (float_single b) (4 * abs (float_single b) * 0x1p-24).
Definition EXPECT_PT (a b : vec2 float) : bool := EXPECT_EQ (vx a) (vx b) && EXPECT_EQ (vy a) (vy b).
(** What the expectations of a test say together. *)
Definition passes (test : list bool) : bool := forallb id test.

Definition pi : float := npi.
(** The coordinates of an uninitialised point. *)
Definition garbage : vec2 float := V2 7 7.
(** The polygon of these corners, if its construction succeeds. *)
Definition polygons (l : list (vec2 float)) : list (Polygon float) :=
  match Polygon_new garbage l with Ok p => [p] | Err _ => [] end.
End Expect.

(** ** src/control/line_plan_test.cc *)

Section LinePlanTests.
#[local] Open Scope float_scope.

Definition TryTurnCost (startheading endheading winddir expcost expdstart expdend : float) : list bool :=
  let expcost := expcost * kTurnCost in
  let expdstart := expdstart * kTurnCost in
  let expdend := expdend * kTurnCost in
  let '(cost, dstart, dend) := TurnCost startheading endheading winddir in
  [EXPECT_NEAR expcost cost 1e-6; EXPECT_NEAR expdstart dstart 1e-6; EXPECT_NEAR expdend dend 1e-6].

Definition TurnCostTest : list bool :=
  let kT := kTackCost in
  let expbasecost := 1 + (kT - 1) * pi / 4 in
  let expcost := expbasecost * expbasecost in
  let dcoeff := 2 * expbasecost in
  let kT2 := kT * kT in
  let expbasecost' := 2 + (kT - 1) * pi / 2 in
  let expcost' := expbasecost' * expbasecost' in
  TryTurnCost 0 1 0 1 (-2) 2
  ++ TryTurnCost 0 (-1) 0 1 2 (-2)
  ++ TryTurnCost 0 1 pi expcost (- dcoeff * kT) dcoeff
  ++ TryTurnCost 0 0.5 pi (0.25 * kT2) (- kT2) kT2
  ++ TryTurnCost 2 2.5 (2 - pi) (0.25 * kT2) (- kT2) kT2
  ++ TryTurnCost (-1) 1 pi expcost' (- 2 * expbasecost') (2 * expbasecost').

Definition TryCrossFinishCost (alpha expcost expdalpha : float) : list bool :=
  let '(cost, dalpha) := CrossFinishCost alpha in
  [EXPECT_NEAR expcost cost 1e-3; EXPECT_NEAR expdalpha dalpha 1e-3].

Definition CrossFinishTest : list bool :=
  TryCrossFinishCost 0 17.4743 (-69.8971) ++ TryCrossFinishCost 0.5 11.6582 0
  ++ TryCrossFinishCost 1 13.5914 6.7957.

Definition SingleLineCostTest : list bool :=
  let run startpt alpha preheading winddir :=
    let '(cost, dcostdalpha, _) :=
      SingleLineCost (V2 0 1) (V2 2 1) startpt alpha preheading (V2 1 2) winddir in (cost, dcostdalpha) in
  let alpha := 0.5 in
  let eps := 0.0001 in
  let cost1 := fst (run (V2 1 0) alpha (pi / 2) 0) in
  let '(cost2, dcostdalpha) := run (V2 1 0) (alpha + eps) (pi / 2) 0 in
  [EXPECT_LT cost1 (fst (run (V2 1 (0 - 1)) alpha (pi / 2) 0));
   EXPECT_LT cost1 (fst (run (V2 0 1) alpha 0 0));
   EXPECT_LT cost1 (fst (run (V2 1 0) alpha 0 0));
   EXPECT_LT cost1 (fst (run (V2 1 0) alpha (pi / 2) (- (pi / 2) - 0.2)));
   EXPECT_NEAR dcostdalpha ((cost2 - cost1) / eps) 0.005].

Definition TryStraightLineCost (len heading winddir : float) (is_real : bool) (expcost expdlen expdheading : float)
  : list bool :=
  let '(cost, dlen, dheading, viable) := StraightLineCost len heading winddir is_real in
  let eps := 1e-5 in
  let '(dcost1, dlen1, _, _) := StraightLineCost (len + eps) heading winddir is_real in
  let '(dcost2, _, dheading2, _) := StraightLineCost len (heading + eps) winddir is_real in
  [EXPECT_EQ expcost cost; EXPECT_EQ expdlen dlen; EXPECT_EQ expdheading dheading;
   Bool.eqb (EXPECT_LT (abs (norm_angle (heading - winddir + pi))) kSailableReach) (negb viable);
   EXPECT_NEAR dlen1 ((dcost1 - cost) / eps) 0.001; EXPECT_NEAR dheading2 ((dcost2 - cost) / eps) 0.001].

Definition StraightLineTest : list (list bool) :=
  let kL : float := kLengthCost in
  let kU := kUpwindCost in
  let kA := kUpwindApproxCost in
  let heading := 0.5 in
  let len := 2 in
  let expdlen := kL * (1 + kU * (1 - (1 - heading) * (1 - heading))) in
  let expdheading := - kL * 2 * kU * (1 - heading) * len in
  let expdlen' := kL * (1 + kA * (1 - (1 - heading) * (1 - heading))) in
  let expdheading' := - kL * 2 * kA * (1 - heading) * len in
  [TryStraightLineCost 1 0 0 true kL kL 0;
   TryStraightLineCost 1 0 0 false kL kL 0;
   TryStraightLineCost len heading pi true (expdlen * len) expdlen expdheading;
   TryStraightLineCost len (heading * -1) pi true (expdlen * len) expdlen (expdheading * -1);
   TryStraightLineCost len heading pi false (expdlen' * len) expdlen' expdheading'].

Definition LinePairCostTest : list bool :=
  let run endpt turnpt preheading postheading winddir :=
    let '(cost, dcostdturn, _) :=
      LinePairCost garbage (V2 0 0) endpt turnpt preheading postheading winddir 1 in (cost, dcostdturn) in
  let p4 := pi / 4 in
  let eps := 1e-4 in
  let tol := 1e-3 in
  let cost := fst (run (V2 2 2) (V2 1 1) p4 p4 0) in
  let '(costx, dx) := run (V2 2 2) (add2 (V2 1 1) (V2 eps 0)) p4 p4 0 in
  let '(costy, dy) := run (V2 2 2) (add2 (V2 1 1) (V2 0 eps)) p4 p4 0 in
  [EXPECT_NEAR (vx dx) ((costx - cost) / eps) tol;
   EXPECT_NEAR (vy dy) ((costy - cost) / eps) tol;
   EXPECT_LT cost (fst (run (V2 (2 * 2) (2 * 2)) (V2 1 1) p4 p4 0));
   EXPECT_LT cost (fst (run (V2 0 2) (V2 1 1) p4 (3 * p4) 0));
   EXPECT_LT cost (fst (run (V2 2 2) (V2 1 1) p4 (p4 * -1) 0));
   EXPECT_LT cost (fst (run (V2 2 2) (V2 1 1) (p4 * -1) p4 0));
   EXPECT_LT cost (fst (run (V2 2 2) (V2 1 1) (p4 * -1) p4 pi))].

Definition ObstacleCostTest : list bool :=
  let kCost : float := kObstacleCost in
  let tol := 5e-4 in
  let expcost := kCost * (10 - 1) * (10 - 1) / 100 in
  let expcost' := kCost * 9 * 9 * 2.5 / 100 in
  match ObstacleCost (V2 0 0) (V2 1 1) [],
        ObstacleCost (V2 1 0) (V2 1 1) (polygons [V2 2 0; V2 2 2]),
        ObstacleCost (V2 1 0) (V2 1 2.5) (polygons [V2 2 0; V2 2 5]) with
  | Ok (cost, d), Ok (cost1, d1), Ok (cost2, d2) =>
      [EXPECT_EQ 0 cost; EXPECT_PT (V2 0 0) d;
       EXPECT_NEAR expcost cost1 tol; EXPECT_NEAR (- expcost) (vy d1) tol;
       EXPECT_NEAR (kCost * (10 - 1) / 100) (vx d1) tol;
       EXPECT_NEAR expcost' cost2 tol; EXPECT_NEAR (- expcost' / 2.5) (vy d2) tol;
       EXPECT_NEAR (kCost * 9 * 2.5 / 100) (vx d2) tol]
  | _, _, _ => [false]
  end.
End LinePlanTests.

Lemma turn_cost_test_passes : passes TurnCostTest = true.
Proof. vm_compute. reflexivity. Qed.

Lemma cross_finish_test_passes : passes CrossFinishTest = true.
Proof. vm_compute. reflexivity. Qed.

Lemma single_line_cost_test_passes : passes SingleLineCostTest = true.
Proof. vm_compute. reflexivity. Qed.

Lemma line_pair_cost_test_passes : passes LinePairCostTest = true.
Proof. vm_compute. reflexivity. Qed.

Lemma obstacle_cost_test_passes : passes ObstacleCostTest = true.
Proof. vm_compute. reflexivity. Qed.

(** The expectations on the cost and its derivatives are those of an earlier quadratic formula
    for upwind legs; those on viability and on the numeric derivatives in the length hold. *)
Lemma straight_line_test_result :
  StraightLineTest =
  [[false; false; true; true; true; true]; [false; false; true; true; true; true];
   [false; false; false; true; true; false]; [false; false; false; true; true; false];
   [false; false; true; true; true; true]].
Proof. vm_compute. reflexivity. Qed.

Section BackPassTests.
#[local] Open Scope float_scope.

(** A point of a path of a test. *)
Definition pt_at (l : list (vec2 float)) (i : nat) : vec2 float := nth i l (V2 nan nan).

(** A failure gives no points, and meets no expectation. *)
Definition run_BackPass (gate : vec2 float * vec2 float) (nextpt : vec2 float) (winddir : float)
    (obstacles : list (Polygon float)) (cur_yaw step : float) (tackpts : list (vec2 float)) (alpha : float)
  : list (vec2 float) * float :=
  match BackPass garbage gate nextpt winddir obstacles cur_yaw step true tackpts alpha with
  | Ok (tackpts, alpha, _, _) => (tackpts, alpha)
  | Err _ => ([], nan)
  end.

Definition BackPassTestOnePoint : list bool :=
  let tackpts := [V2 0 0] in
  let gate := (V2 (-1) 10, V2 1 10) in
  let run nextpt winddir obstacles cur_yaw alpha :=
    run_BackPass gate nextpt winddir obstacles cur_yaw 1 tackpts alpha in
  let '(tackpts1, alpha1) := run (V2 0 20) 0 [] (pi / 2) 0.5 in
  let '(tackpts2, alpha2) := run (V2 0 10) 0 [] (pi / 2) 0.5 in
  [EXPECT_PT (pt_at tackpts 0) (pt_at tackpts1 0); EXPECT_EQ 0.5 alpha1;
   EXPECT_PT (pt_at tackpts 0) (pt_at tackpts2 0); EXPECT_EQ 0.5 alpha2;
   EXPECT_LT 0.5 (snd (run (V2 0 10) (-1) [] (pi / 2) 0.5));
   EXPECT_LT 0.5 (snd (run (V2 0 50) 0 [] (pi / 4) 0.5));
   EXPECT_LT 0.5 (snd (run (V2 0 50) 0 [] (pi / 4) 0.45));
   EXPECT_LT (snd (run (V2 0 50) 0 (polygons [V2 3 5; V2 4 13; V2 2.5 12]) (pi / 4) 0.5)) 0.5].

Definition ExpectCentered (gate : vec2 float * vec2 float) (gatept : vec2 float) : bool :=
  EXPECT_PT gatept (div2 (add2 (fst gate) (snd gate)) 2).
Definition ExpectNorm (gate : vec2 float * vec2 float) (norm : float) : bool :=
  EXPECT_EQ norm (norm2 (sub2 (snd gate) (fst gate))).

Definition MakeGateFromPointsTest : list bool :=
  let kGateWidth : float := kGateWidth in
  let O := V2 0 0 in
  let dot (gate : vec2 float * vec2 float) v := dot2 (sub2 (snd gate) (fst gate)) v in
  let gate1 := MakeGateFromWaypoints O O O in
  let prev := V2 (-1) 0 in
  let gate2 := MakeGateFromWaypoints O prev O in
  let gate3 := MakeGateFromWaypoints prev prev O in
  let next := V2 2 0 in
  let gate4 := MakeGateFromWaypoints O prev next in
  let gate5 := MakeGateFromWaypoints O (V2 0 (-3)) (V2 (-3) 0) in
  let xyoffset := kGateWidth / sqrt 2 in
  [ExpectNorm gate1 kGateWidth; ExpectCentered gate1 O;
   ExpectNorm gate2 kGateWidth; ExpectCentered gate2 O; EXPECT_EQ 0 (dot gate2 (sub2 O prev));
   ExpectNorm gate3 kGateWidth; ExpectCentered gate3 prev; EXPECT_EQ 0 (dot gate3 (sub2 O prev));
   ExpectNorm gate4 kGateWidth; ExpectCentered gate4 O; EXPECT_EQ 0 (dot gate4 (sub2 next O));
   ExpectNorm gate5 kGateWidth; EXPECT_PT O (fst gate5);
   EXPECT_PT (V2 (0 + xyoffset) (0 + xyoffset)) (snd gate5)].

(** The fixture [BackPassTest], and [n] calls of its [BackPass]. *)
Definition fixture_tackpts : list (vec2 float) := [V2 0 0; V2 10 0].
Fixpoint fixture_BackPass (n : nat) (nextpt : vec2 float) (obstacles : list (Polygon float)) (wind_dir step : float)
    (tackpts : list (vec2 float)) (alpha : float) : list (vec2 float) * float :=
  match n with
  | O => (tackpts, alpha)
  | S n =>
      let '(tackpts, alpha) :=
        run_BackPass (V2 15 (-1), V2 15 1) nextpt wind_dir obstacles 0 step tackpts alpha in
      fixture_BackPass n nextpt obstacles wind_dir step tackpts alpha
  end.
Definition pt_y (l : list (vec2 float)) (i : nat) : float := vy (pt_at l i).

Definition DownwindAtEquilibrium : list bool :=
  let '(tackpts, alpha) := fixture_BackPass 1 (V2 30 0) [] 0 1 fixture_tackpts 0.5 in
  [EXPECT_PT (pt_at fixture_tackpts 0) (pt_at tackpts 0); EXPECT_PT (pt_at fixture_tackpts 1) (pt_at tackpts 1);
   EXPECT_EQ 0.5 alpha].

Definition ObstacleAdjustsPath : list bool :=
  let obstacles := polygons [V2 7 (-5); V2 8 (-10); V2 12 (-10); V2 7 (-5)] in
  let '(tackpts, alpha) := fixture_BackPass 1 (V2 30 0) obstacles 0 1 fixture_tackpts 0.5 in
  [EXPECT_LT (pt_y fixture_tackpts 1) (pt_y tackpts 1); EXPECT_LT 0.5 alpha].

Definition UpwindPathTurnsDown : list bool :=
  let orig := [V2 0 0; V2 10 (0 + 0.1)] in
  let '(tackpts, alpha) := fixture_BackPass 1 (V2 15 0) [] (pi - 0.1) 1e-3 orig 0.5 in
  [EXPECT_LT (pt_y orig 1) (pt_y tackpts 1); EXPECT_LT 0.5 alpha].

Definition PreseededUpwindPathWorks : list bool :=
  let orig := [V2 0 0; V2 10 (0 + 3)] in
  let '(tackpts, alpha) := fixture_BackPass 1 (V2 15 0) [] pi 1 orig 0.5 in
  [EXPECT_LT (pt_y orig 1) (pt_y tackpts 1); EXPECT_LT alpha 0.5].

Definition UpwindMultipointTack : list bool :=
  let orig := [V2 0 0; V2 5 1; V2 10 (-1)] in
  let '(tackpts, alpha) := fixture_BackPass 10 (V2 15 0) [] pi 0.05 orig 0.5 in
  [EXPECT_LT (pt_y orig 1) (pt_y tackpts 1); EXPECT_LT (pt_y tackpts 2) (pt_y orig 2)].

Definition OutOfAlignmentInitial : list bool :=
  let orig := [V2 0 0; V2 10 1] in
  let '(tackpts, alpha) := fixture_BackPass 10 (V2 30 0) [] 0 0.05 orig 0.3 in
  [EXPECT_LT (pt_y tackpts 1) (pt_y orig 1); EXPECT_LT 0.3 alpha].

(** [OptimizerTest.DownwindStabilizes]. *)
Definition DownwindStabilizes : list bool :=
  match OptimizeTacks garbage (V2 20 (-3), V2 20 3) (V2 40 0) 0 [] 0 [V2 0 0; V2 9 5] 0.7 with
  | Ok (tackpts, alpha, _, _) => [EXPECT_NEAR 0.5 alpha 1e-1; EXPECT_NEAR (pt_y tackpts 1) 0 4.9]
  | Err _ => [false; false]
  end.
End BackPassTests.

Lemma back_pass_one_point_passes : passes BackPassTestOnePoint = true.
Proof. vm_compute. reflexivity. Qed.

Lemma make_gate_test_passes : passes MakeGateFromPointsTest = true.
Proof. vm_compute. reflexivity. Qed.

Lemma back_pass_tests_pass :
  passes (DownwindAtEquilibrium ++ ObstacleAdjustsPath ++ PreseededUpwindPathWorks ++ OutOfAlignmentInitial) = true.
Proof. vm_compute. reflexivity. Qed.

(** The middle point moves back towards the axis. *)
Lemma upwind_path_turns_down_result : UpwindPathTurnsDown = [false; true].
Proof. vm_compute. reflexivity. Qed.

(** The first point ends at -9.8 instead of above 1. *)
Lemma upwind_multipoint_tack_result : UpwindMultipointTack = [false; true].
Proof. vm_compute. reflexivity. Qed.

(** The crossing point ends at 0.79 of the gate. *)
Lemma downwind_stabilizes_result : DownwindStabilizes = [false; true].
Proof. vm_compute. reflexivity. Qed.

Section HypothesesTests.
#[local] Open Scope float_scope.

Definition startpt : vec2 float := V2 0 0.
Definition endpt : vec2 float := V2 10 10.
Definition test_hypotheses (winddir : float) (Npts : nat) : list (list (vec2 float)) :=
  GenerateHypotheses startpt endpt winddir Npts [] true.
Definition IsStarboard (winddir : float) (start end_ : vec2 float) : bool :=
  EXPECT_LT (norm_angle (atan2v (sub2 end_ start) - winddir)) 0.
(** The sizes of the paths. *)
Definition EXPECT_SIZES (l : list nat) (pts : list (list (vec2 float))) : bool := bool_decide (map length pts = l).
Definition dist (a b : vec2 float) : float := norm2 (sub2 a b).
Definition path_pt (pts : list (list (vec2 float))) (i j : nat) : vec2 float := pt_at (nth i pts []) j.

Definition ZeroPointPath : list bool :=
  let pts := test_hypotheses 0 0 in
  [EXPECT_SIZES [1%nat] pts; EXPECT_PT startpt (path_pt pts 0 0)].

Definition OnePointDownwind : list bool :=
  let pts := test_hypotheses 0 1 in
  [EXPECT_SIZES [2%nat] pts; EXPECT_PT startpt (path_pt pts 0 0); EXPECT_PT (scale2 0.5 (add2 startpt endpt)) (path_pt pts 0 1)].

Definition OnePointStraightUpwind : list bool :=
  let winddir := -3 * (pi / 4) in
  let pts := test_hypotheses winddir 1 in
  let p := path_pt pts in
  [EXPECT_SIZES [2; 2; 2]%nat pts; EXPECT_PT (scale2 0.5 (add2 startpt endpt)) (p 0 1)%nat;
   EXPECT_EQ (dist (p 1 1) (p 1 0))%nat (dist endpt (p 1 1)%nat);
   EXPECT_EQ (dist (p 2 1) (p 2 0))%nat (dist endpt (p 2 1)%nat);
   IsStarboard winddir (p 1 0)%nat (p 1 1)%nat; negb (IsStarboard winddir (p 2 0)%nat (p 2 1)%nat)].

Definition OnePointSlightlyUpwind : list bool :=
  let pts := test_hypotheses pi 1 in
  let p := path_pt pts in
  let p10 := p 1%nat 0%nat in let p11 := p 1%nat 1%nat in
  let p20 := p 2%nat 0%nat in let p21 := p 2%nat 1%nat in
  [EXPECT_SIZES [2; 2; 2]%nat pts; EXPECT_PT (scale2 0.5 (add2 startpt endpt)) (p 0 1)%nat;
   EXPECT_LT (dist endpt p11) (dist p11 p10); EXPECT_LT (dist p21 p20) (dist endpt p21);
   EXPECT_NEAR (dist p11 p10) (dist endpt p21) 1e-5; EXPECT_NEAR (dist p21 p20) (dist endpt p11) 1e-5;
   IsStarboard pi p10 p11; negb (IsStarboard pi p20 p21);
   negb (IsStarboard pi p11 endpt); IsStarboard pi p21 endpt].

Definition TwoPointSlightlyUpwind : list bool :=
  let pts := test_hypotheses pi 2 in
  let p := path_pt pts in
  let p10 := p 1%nat 0%nat in let p11 := p 1%nat 1%nat in let p12 := p 1%nat 2%nat in
  let p20 := p 2%nat 0%nat in let p21 := p 2%nat 1%nat in let p22 := p 2%nat 2%nat in
  let longlen := 2 * dist p11 p10 in
  let shortlen := 2 * dist p21 p20 in
  [EXPECT_SIZES [3; 3; 3]%nat pts;
   EXPECT_PT (add2 (scale2 0.75 startpt) (scale2 0.25 endpt)) (p 0 1)%nat;
   EXPECT_PT (add2 (scale2 0.25 startpt) (scale2 0.75 endpt)) (p 0 2)%nat;
   EXPECT_NEAR longlen (dist endpt p12 * 2) 1e-5; EXPECT_NEAR shortlen (dist p12 p11) 1e-5;
   EXPECT_NEAR longlen (dist p11 p10 * 2) 1e-5; EXPECT_NEAR shortlen (dist endpt p22 * 2) 1e-5;
   EXPECT_NEAR longlen (dist p22 p21) 1e-5; EXPECT_NEAR shortlen (dist p21 p20 * 2) 1e-5;
   IsStarboard pi p10 p11; negb (IsStarboard pi p20 p21); negb (IsStarboard pi p11 p12);
   IsStarboard pi p21 p22; IsStarboard pi p12 endpt; negb (IsStarboard pi p22 endpt)].

Definition ThreePointSlightlyUpwind : list bool :=
  let pts := test_hypotheses pi 3 in
  let p := path_pt pts in
  let p10 := p 1%nat 0%nat in let p11 := p 1%nat 1%nat in let p12 := p 1%nat 2%nat in let p13 := p 1%nat 3%nat in
  let p20 := p 2%nat 0%nat in let p21 := p 2%nat 1%nat in let p22 := p 2%nat 2%nat in let p23 := p 2%nat 3%nat in
  let longlen := 2 * dist p11 p10 in
  let shortlen := 2 * dist p21 p20 in
  [EXPECT_SIZES [4; 4; 4]%nat pts;
   EXPECT_LT (dist (div2 (add2 (scale2 5 startpt) endpt) 6) (p 0 1)%nat) 1e-6;
   EXPECT_PT (div2 (add2 startpt endpt) 2) (p 0 2)%nat;
   EXPECT_PT (div2 (add2 startpt (scale2 5 endpt)) 6) (p 0 3)%nat;
   EXPECT_NEAR longlen (dist p11 p10 * 2) 1e-5; EXPECT_NEAR shortlen (dist p12 p11) 1e-5;
   EXPECT_NEAR longlen (dist p13 p12) 1e-5; EXPECT_NEAR shortlen (dist endpt p13 * 2) 1e-5;
   EXPECT_NEAR shortlen (dist p21 p20 * 2) 1e-5; EXPECT_NEAR longlen (dist p22 p21) 1e-5;
   EXPECT_NEAR shortlen (dist p23 p22) 1e-5; EXPECT_NEAR longlen (dist endpt p23 * 2) 1e-5;
   IsStarboard pi p10 p11; negb (IsStarboard pi p11 p12); IsStarboard pi p12 p13; negb (IsStarboard pi p13 endpt);
   negb (IsStarboard pi p20 p21); IsStarboard pi p21 p22; negb (IsStarboard pi p22 p23); IsStarboard pi p23 endpt].
End HypothesesTests.

Lemma hypotheses_tests_pass :
  passes (ZeroPointPath ++ OnePointDownwind ++ OnePointStraightUpwind ++ OnePointSlightlyUpwind
          ++ TwoPointSlightlyUpwind ++ ThreePointSlightlyUpwind) = true.
Proof. vm_compute. reflexivity. Qed.

(** ** src/math/polygon_test.cc *)

Section PolygonTests.
#[local] Open Scope float_scope.

Definition DistToLineTest : list bool := [EXPECT_EQ 1 (DistToLine (V2 2 0) (V2 2 2) (V2 1 1))].

Definition ProjectsToLineTest : list bool :=
  [ProjectsToLine (V2 0 0) (V2 1 0) (V2 0.5 0.5);
   ProjectsToLine (V2 0 1) (V2 0 (-2)) (V2 0.5 0.5);
   ProjectsToLine (V2 0 1) (V2 0 (-2)) (V2 (-0.5) 0.5);
   ProjectsToLine (V2 2 2) (V2 2 0) (V2 1 1);
   negb (ProjectsToLine (V2 0 1) (V2 0 (-2)) (V2 0.5 2.5));
   negb (ProjectsToLine (V2 0 1) (V2 0 (-2)) (V2 0.5 (-2.5)))].

Definition square_pts : list (vec2 float) := [V2 0 0; V2 1 0; V2 1 1; V2 0 1].

Definition Constructs : list bool :=
  match Polygon_new garbage square_pts with
  | Ok poly => zip_with EXPECT_PT square_pts (pts poly) ++ [bool_decide (length (pts poly) = 4%nat)]
  | Err _ => [false]
  end.

(** [EXPECT_DEATH] of the constructor. *)
Definition dies (l : list (vec2 float)) : bool :=
  match Polygon_new garbage l with Err CheckFailed => true | _ => false end.
Definition FailsNonConvex : list bool := [dies [V2 0 0; V2 0.5 0.5; V2 1 0; V2 1 1; V2 0 1]].
Definition FailsOutOfOrder : list bool := [dies [V2 0 0; V2 0 1; V2 1 1; V2 1 0]].

(** An expectation on the distance of a point. *)
Definition EXPECT_DIST (expected : float) (l : list (vec2 float)) (p : vec2 float) : bool :=
  match Polygon_new garbage l with
  | Ok poly => match DistToPoint poly p with Ok (Some d) => EXPECT_EQ expected d | _ => false end
  | Err _ => false
  end.
Definition PolygonDistToLine : list bool :=
  [EXPECT_DIST 1 square_pts (V2 2 0.5); EXPECT_DIST 5 square_pts (V2 (-3) (-4))].
Definition DistToInsidePt : list bool := [EXPECT_DIST (-0.5) square_pts (V2 0.5 0.5)].
Definition OnEdgePoint : list bool := [EXPECT_DIST 0 square_pts (V2 0 0.5)].
Definition NonSquarePolygon : list bool :=
  let l := [V2 0 0; V2 2 0; V2 1 0.5] in [EXPECT_DIST 1 l (V2 0 1); EXPECT_DIST 1 l (V2 3 0)].
Definition TwoPointsFunction : list bool :=
  let l := [V2 0 0; V2 1 0] in
  [EXPECT_DIST 0 l (V2 0.5 0); EXPECT_DIST 0.5 l (V2 1.5 0); EXPECT_DIST 0.5 l (V2 0 0.5);
   EXPECT_DIST 0.5 l (V2 0.5 0.5); EXPECT_DIST 0.25 l (V2 0.75 (-0.25))].

(** The member [centroid_] has no initial value. *)
Definition Centroid (centroid0 : vec2 float) : list bool :=
  match Polygon_new centroid0 square_pts with
  | Ok poly => [EXPECT_EQ 0.5 (vx (centroid poly)); EXPECT_EQ 0.5 (vy (centroid poly))]
  | Err _ => [false; false]
  end.
End PolygonTests.

Lemma polygon_tests_pass :
  passes (DistToLineTest ++ ProjectsToLineTest ++ Constructs ++ FailsNonConvex ++ FailsOutOfOrder
          ++ PolygonDistToLine ++ DistToInsidePt ++ OnEdgePoint ++ NonSquarePolygon ++ TwoPointsFunction) = true.
Proof. vm_compute. reflexivity. Qed.

(** A thin triangle: a point beyond its long edge is nearest to the vertex opposite to the edge,
    and the distance is negative although the point is outside. *)
Lemma thin_triangle_distance :
  (let l := [V2 (-10) 0; V2 0 (-1); V2 10 0] in
   ValidatePoints l = true ∧ DistToLine (V2 10 0) (V2 (-10) 0) (V2 0 0.5) = -0.5
   ∧ match DistToPoint (MkPolygon l garbage) (V2 0 0.5) with Ok (Some d) => PrimFloat.ltb d (-1.4) | _ => false end = true)%float.
Proof. vm_compute. done. Qed.

(** The test of the centroid passes only if it was in the memory of the polygon before. *)
Lemma centroid_test_result c :
  Centroid c = [EXPECT_EQ 0.5 (vx c); EXPECT_EQ 0.5 (vy c)].
Proof.
  unfold Centroid, Polygon_new. assert (ValidatePoints square_pts = true) as -> by (vm_compute; reflexivity).
  reflexivity.
Qed.

(** ** src/control/util_test.cc *)

Section UtilTests.
#[local] Open Scope float_scope.

Definition EigenToProtoTest : list bool :=
  let vec := V3 1 2 3 in
  let msg := EigenToProto vec in
  [EXPECT_EQ (v3x vec) (v3x msg); EXPECT_EQ (v3y vec) (v3y msg); EXPECT_EQ (v3z vec) (v3z msg)].

Definition NormalizeSimpleAngle : list bool :=
  let a := float_single 0.18 in [EXPECT_FLOAT_EQ (norm_angle a) a].
Definition NormalizeNegativeAngle : list bool :=
  let a := float_single (-0.18) in [EXPECT_FLOAT_EQ (norm_angle a) a].
Definition NormalizeLargeAngle : list bool := [EXPECT_FLOAT_EQ (norm_angle 100) (-0.53096491487)].
Definition NormalizeLargeNegativeAngle : list bool := [EXPECT_FLOAT_EQ (norm_angle (-100)) 0.53096491487].

Definition HaversineWorks : list bool :=
  let lat1 := 42.276618 in
  let lon1 := -71.804579 in
  [EXPECT_NEAR 11.11949 (GPSDistance lat1 lon1 (lat1 + 1e-4) lon1) 1e-5;
   EXPECT_FLOAT_EQ (pi / 2) (GPSBearing lat1 lon1 (lat1 + 1e-4) lon1);
   EXPECT_NEAR 0.822737 (GPSDistance lat1 lon1 lat1 (lon1 + 1e-5)) 1e-5;
   EXPECT_NEAR 0 (GPSBearing lat1 lon1 lat1 (lon1 + 1e-5)) 1e-6;
   EXPECT_NEAR 138.323499 (GPSDistance lat1 lon1 (lat1 - 1e-3) (lon1 - 1e-3)) 1e-5;
   EXPECT_FLOAT_EQ (-2.207815) (GPSBearing lat1 lon1 (lat1 - 1e-3) (lon1 - 1e-3))].

(** A quaternion as the matrix of its rotation. *)
#[local] Instance quat_matrix : Quaternion float (mat3 float) :=
  {| quat_of_matrix M := M; toRotationMatrix M := M |}.

Definition CheckRPYToQuatAndBack : list bool :=
  let try start :=
    let end_ := GetRollPitchYawFromQuat (Q := mat3 float) (RollPitchYawToQuat start) in
    [EXPECT_NEAR (v3x start) (v3x end_) 1e-5; EXPECT_NEAR (v3y start) (v3y end_) 1e-5;
     EXPECT_NEAR (v3z start) (v3z end_) 1e-5] in
  try (V3 (-1) 0.1 2) ++ try (V3 (-2) (-0.5) (-2)).

Definition GPSScale : list bool :=
  let '(latscale, lonscale) := GPSLatLonScale 42.276617 in
  let '(latscale', lonscale') := GPSLatLonScale 20 in
  [EXPECT_NEAR 111079 latscale 50; EXPECT_NEAR 82491 lonscale 50;
   EXPECT_NEAR 110704 latscale' 100; EXPECT_NEAR 104646 lonscale' 100].
End UtilTests.

Lemma util_tests_pass :
  passes (EigenToProtoTest ++ NormalizeSimpleAngle ++ NormalizeNegativeAngle ++ NormalizeLargeAngle
          ++ NormalizeLargeNegativeAngle ++ HaversineWorks ++ CheckRPYToQuatAndBack ++ GPSScale) = true.
Proof. vm_compute. reflexivity. Qed.

(** ** src/can/can_test.cc *)

Section CanTests.
#[local] Open Scope Z_scope.
Definition EXPECT_INT (expected actual : Z) : bool := expected =? actual.

(** [id0] is the memory of the identifier before its constructor. *)
Definition EncodeDecodeCanID (id0 : CANID) : list bool :=
  let canid := CANID_init id0 in
  let canid := SetPGN (MkCANID 0x15 (PS canid) (PF canid) (DP canid) (reserved canid) (priority canid)
                         (unused canid) (eff_ident canid)) 127251 in
  let canid := MkCANID (source canid) (PS canid) (PF canid) (DP canid) (reserved canid) 0x5
                 (unused canid) (eff_ident canid) in
  let raw := ConstructID canid in
  let back := RetrieveID raw in
  [EXPECT_INT 0x95F11315 raw; EXPECT_INT (source canid) (source back);
   EXPECT_INT (priority canid) (priority back); EXPECT_INT 127251 (GetPGN back)].

(** The fixture's field with the given size and sign. *)
Definition test_field (n : Z) (sign : bool) : Field float :=
  MkField "FooBar"%string n (nofZ 1) sign None None.

(** A test of [ExtractNumberField]: the value and [maxval]. *)
Definition TryExtract (n : Z) (sign : bool) (data : list Z) (start_bit goal maxval : Z) : list bool :=
  match ExtractNumberField (test_field n sign) data start_bit with
  | Ok (val, m) => [EXPECT_INT goal val; EXPECT_INT maxval m]
  | Err _ => [false; false]
  end.
Definition uint8 (z : Z) : Z := wrapu 8 z.

Definition ExtractSigned1ByteAligned0Field : list bool :=
  let goal := -10 in TryExtract 8 true [uint8 goal] 0 goal 127.
Definition ExtractUnsigned1ByteAligned0Field : list bool := TryExtract 8 false [240] 0 240 255.
Definition ExtractUnsignedMultiByteAligned0Field : list bool :=
  let goal := 4320 in TryExtract 16 false (le_bytes 2 goal) 0 goal 65535.
Definition ExtractUnsignedSubByteAligned0Field : list bool :=
  let goal := 8 in TryExtract 5 false [uint8 (Z.shiftl 0x7 5 + goal)] 0 goal 31.
Definition ExtractUnsignedSubByteUnalignedField : list bool :=
  let goal := 8 in TryExtract 5 false [uint8 (Z.shiftl goal 3 + 0x7)] 3 goal 31.
Definition ExtractUnsignedMultiByteUnalignedField : list bool :=
  let goal := 0xAB0F in
  TryExtract 16 false [uint8 (Z.shiftl (uint8 goal) 5); uint8 (Z.shiftr goal 3);
                       uint8 (Z.land (Z.shiftr goal 11) 0x1F); 0] 5 goal 65535.
Definition ExtractSignedMultiByteUnalignedField : list bool :=
  let goal := -0x3B0F in
  TryExtract 16 true [uint8 (Z.shiftl (uint8 goal) 5); uint8 (Z.shiftr goal 3); uint8 (Z.shiftr goal 11); 0]
    5 goal 32767.
Definition ExtractSignedMultiByteUnalignedFieldOffset : list bool :=
  let goal := -0x3B0F in
  TryExtract 16 true [0xFF; 0xFF; uint8 (Z.shiftl (uint8 goal) 5); uint8 (Z.shiftr goal 3);
                      uint8 (Z.shiftr goal 11); 0] 21 goal 32767.

(** The message of the fixture, with its expectations, and the message that is sent. *)
Definition test_pgn : Pgn float := nth 3 pgnList (MkPgn EmptyString 0 false 0 0 []).
Definition test_message : CANMessage float (gmap Z (PVal float)) :=
  CANMessage_new test_pgn (MkCANMaster None ∅).
Definition SetUp : list bool :=
  [Bool.eqb false (is_long test_message); EXPECT_INT 127251 (pgn (cm_pgn test_message));
   EXPECT_INT 5 (len test_message)].
Definition test_rate : float := float_single 1.2398%float.
Definition input_queue_msg : CANMaster (gmap Z (PVal float)) :=
  MkCANMaster None {[127251 := <[1 := VInt 0x23]> {[2 := VReal test_rate]}]}.

(** [can_frame frame] and the identifier are uninitialised. *)
Definition EncodeDecodeBasicMessage (id0 : CANID) (frame0 : can_frame) : list bool :=
  match ConstructMessage id0 frame0 input_queue_msg test_message with
  | Ok (Some frame) =>
      let id := RetrieveID (can_id frame) in
      let int_rate := default 0 (ntrunc (ndiv test_rate RES_HIRES_ROTATION)) in
      let goal_data := [0x23] ++ le_bytes 4 (wrapu 32 int_rate) ++ repeat 0xFF 3 in
      let msg := MkCANMessage (cm_pgn test_message) (is_long test_message) (len test_message) (base test_message)
                   (fdata frame) (store_msg test_message) in
      [EXPECT_INT 8 (can_dlc frame); EXPECT_INT 1 (eff_ident id); EXPECT_INT 21 (source id);
       EXPECT_INT 5 (priority id); EXPECT_INT 127251 (GetPGN id)]
      ++ zip_with EXPECT_INT goal_data (fdata frame)
      ++ match DecodeAndSend msg with
         | Ok (msg, _) =>
             let m := default ∅ (submsg (store_msg msg) !! 127251) in
             [EXPECT_EQ (nofZ 0x23) (GetProtoNumberFieldById RateOfTurn m 1);
              EXPECT_EQ test_rate (GetProtoNumberFieldById RateOfTurn m 2)]
         | Err _ => [false]
         end
  | _ => [false]
  end.
End CanTests.

Lemma can_tests_pass :
  let id0 := MkCANID 0 1 2 1 1 3 2 0 in
  passes (EncodeDecodeCanID id0 ++ ExtractSigned1ByteAligned0Field ++ ExtractUnsigned1ByteAligned0Field
          ++ ExtractUnsignedMultiByteAligned0Field ++ ExtractUnsignedSubByteAligned0Field
          ++ ExtractUnsignedSubByteUnalignedField ++ ExtractUnsignedMultiByteUnalignedField
          ++ ExtractSignedMultiByteUnalignedField ++ ExtractSignedMultiByteUnalignedFieldOffset
          ++ SetUp ++ EncodeDecodeBasicMessage id0 (MkFrame 0 0 (repeat 7%Z 8))) = true.
Proof. vm_compute. reflexivity. Qed.

(** ** src/util/proto_util_test.cc *)

Section ProtoUtilTests.
#[local] Open Scope Z_scope.

(** [EveryTimeMessage] of src/util/proto_util_test.proto. *)
Definition EveryTimeMessage : Descriptor :=
  [(1, TYPE_MESSAGE); (2, TYPE_DOUBLE); (3, TYPE_FLOAT); (4, TYPE_INT32); (5, TYPE_INT64); (6, TYPE_UINT32);
   (7, TYPE_UINT64); (8, TYPE_SINT32); (9, TYPE_SINT64); (10, TYPE_FIXED32); (11, TYPE_FIXED64); (12, TYPE_BOOL);
   (13, TYPE_STRING); (14, TYPE_BYTES)].

(** The numeric fields; the others have no value that the function under test reads. *)
Definition SetAllFields : gmap Z (PVal float) :=
  list_to_map [(2, VReal 1.1%float); (3, VReal (float_single 2.2%float)); (4, VInt 100); (5, VInt 400);
    (6, VInt 313); (7, VInt 1001); (8, VInt (-1001)); (9, VInt (-505)); (10, VInt 99); (11, VInt 87);
    (12, VBool true)].

Definition field_value (m : gmap Z (PVal float)) (k : Z) : float :=
  match m !! k with
  | Some (VReal d) => d | Some (VInt z) => nofZ z | Some (VBool b) => nofZ (if b then 1 else 0) | None => nofZ 0
  end.

Definition CheckAllFields (m : gmap Z (PVal float)) : list bool :=
  let get := GetProtoNumberFieldById EveryTimeMessage m in
  [EXPECT_EQ (nofZ 0) (get 1)]
  ++ map (λ k, EXPECT_EQ (field_value m k) (get k)) [2; 3; 4; 5; 6; 7; 8; 9; 10; 11; 12]
  ++ [EXPECT_EQ (nofZ 0) (get 13); EXPECT_EQ (nofZ 0) (get 14)].
Definition DontFill : list bool := CheckAllFields ∅.
Definition FillFields : list bool := CheckAllFields SetAllFields.
End ProtoUtilTests.

Lemma proto_util_tests_pass : passes (DontFill ++ FillFields) = true.
Proof. vm_compute. reflexivity. Qed.

(** ** src/control/line_tacking_test.cc *)

Section LineTackingTests.
#[local] Open Scope float_scope.

(** The heading commands the node sends for the messages of [SetupWaypoints] and an iteration;
    [u] is the contents of the members without an initial value, and the handler of the wind
    runs before that of the waypoints or after the iteration. *)
Definition SetupWaypoints (u x y : float) (wind_first : bool) : list (HeadingCmd float) :=
  let waypoints := EvTackWaypoints (MkWaypointList [V2 0 0; V2 x y] None None None) in
  let wind := EvTackWind (V3 0 (-1) 0) in
  match LineTacker_new None (repeat (V2 u u) 10) u u u u with
  | Ok s =>
      match tack_run (if wind_first then [wind; waypoints; EvTackIterate] else [waypoints; EvTackIterate; wind]) s with
      | Ok s => omap (λ o, match o with OutTackHeading m => Some m | _ => None end) (tk_out s)
      | Err _ => []
      end
  | Err _ => []
  end.

(** The handler of [GoalReceiverTestNode] with an expected heading. *)
Definition GoalReceived (expected tol : float) (cmd : HeadingCmd float) : bool :=
  match heading cmd with
  | Some h => EXPECT_LT (abs (norm_angle (h - float_single expected))) (float_single tol)
  | None => false
  end.

Definition GoesStraightBeamReach (u : float) (wind_first : bool) : list bool :=
  map (GoalReceived 0 1e-3) (SetupWaypoints u 100 0 wind_first).
Definition GoesToReasonableTack (u : float) (wind_first : bool) : list bool :=
  map (GoalReceived 0.8 0.2) (SetupWaypoints u 0 100 wind_first).
End LineTackingTests.

Lemma goes_straight_beam_reach_passes b : GoesStraightBeamReach 7 b = [true].
Proof. destruct b; vm_compute; reflexivity. Qed.

(** In its initial mode the tacker steers straight for the waypoint, and the test sets no mode. *)
Lemma goes_to_reasonable_tack_result b : GoesToReasonableTack 7 b = [false].
Proof. destruct b; vm_compute; reflexivity. Qed.
